(* ===== verification/_CoqProject ===== *)
-Q . S2P
Prelude.v
Strings.v
Numbers.v
Regex.v
Value.v
Frame.v
Reader.v
Analyzer.v
AnalyzerSpec.v
AnalyzerRefinement.v
Transform.v
Typing.v
TransformSpec.v
Streaming.v
Pipeline.v
Auth.v
AuthSpec.v
AuthEquiv.v
Views.v
ViewsSpec.v
Journey.v
Statistics.v
Service.v
ServiceSpec.v
App.v
AppSpec.v
