(* ===== verification/Prelude.v ===== *)
(** * Data-cleanser: a verification development for the CSV service

    The program (src/server) is a Flask service that ingests CSV files,
    reports data-quality statistics over them and applies cleaning
    transformations, behind accounts with token authentication.

    - src/server/controllers/csv_controller.py holds the engine:
      [safe_convert_value] (the Value Normalizer) collapses numpy/pandas
      values to JSON-safe Python values; [analyze_csv_quality_chunked]
      (the Quality Analyzer) probes the first 1000 rows, scans the file in
      chunks of [CHUNK_SIZE] rows while it accumulates the row count, the
      missing counts, a list of distinct values and three sample values
      per column, estimates the duplicate rows from a sample and
      assembles the report; [apply_preprocessing_options] and
      [preprocess_csv_task_chunked] (the Transform Engine) clean a table
      chunk by chunk or whole; the views glue these to the upload folder,
      the Redis store and the job queue behind the decorator
      [token_required].
    - src/server/controllers/user_controller.py holds the accounts:
      [validate_email], [validate_password], its own [token_required]
      with the token blacklist, and the views [register], [login],
      [logout], [refresh_token], [get_profile], [update_profile],
      [change_password].
    - src/server/models/token_model.py is the blacklist table with
      [cleanup_expired]; src/server/routes.py the URL rules;
      src/server/app.py and src/server/utils/create_tables.py the setup.

    ** Files of the development, in dependency order

    - [Prelude] (this file): the exception and result types every
      component shares ([exn], [result], a monad in stdpp's sense, with
      the notation [try r except h] of scope [dc_scope]), the tactics
      ([case_result], [simplify_result]) and hint databases ([dc],
      [dc_rw]), and the generic lemmas: loops that may raise
      ([foldl_res]), a list cut in chunks ([chunks]), order-preserving
      removal of duplicates as pandas defines it ([unique], [duplicated],
      [drop_duplicates]) and division rounded half to even
      ([div_half_even]).
    - [Strings]: the methods of Python's [str] the sources call
      ([split_on], [join_with], [strip], [lower], [startswith],
      [replace]), with the round trip of split and join and the
      idempotence of [strip].
    - [Numbers]: the integers and decimal numbers of a CSV cell
      ([parse_int], [parse_float]) and their texts ([int_text],
      [float_text]); a float is an exact rational ([Qc]) printed with at
      most 16 decimals.  [parse_int_text] is the round trip of integers.
    - [Regex]: regular expressions with a matcher by Brzozowski
      derivatives; [matches_in_lang] shows it decides the language.
    - [Value]: the Python values a cell or a report field holds,
      [pd_isna] and [safe_convert_value], every branch of its
      [isinstance] chain.
    - [Frame]: the DataFrame as the engine uses it: columns, dtypes and
      rows, selection of a column, missing cells, and Python dicts keyed
      by column ([gmap string _]).
    - [Reader]: [pd.read_csv] as the analyzer calls it: every cell read
      as text, NA markers, strict reading (a row with the wrong number
      of cells raises) and lenient reading (it is skipped), [nrows] and
      [chunksize]; [pd.read_csv] as the Transform Engine calls it, with
      the type of every column inferred in each chunk on its own
      ([infer_column], [typed_frame]); and [DataFrame.to_csv] ([to_csv],
      [to_csv_append]).  This is pandas code: it is modelled from
      sections 4.1 and 6 of the specification.  [typed_frame_isnull]
      shows that the inferred types never change which cells are
      missing, and [to_csv_read_back] that a [printable] frame (no
      comma or line feed in a cell, no blank line) is read back as the
      table of the texts of its cells.
    - [Analyzer]: [analyze_csv_quality_chunked], statement by statement.
      The variables of the scan are the fields of [scan_state]; each
      step of the loop body, each loop and the report is one definition;
      every [try/except] of the code is a [try ... except] of the model.
      Its lemmas characterise the dictionaries column by column
      ([state_of], [col_scan]), so that the scan of the chunks of a file
      is the scan of its columns.
    - [AnalyzerSpec]: the contract of the analyzer over the whole table
      ([Spec]), the refinement lemma [analyze_with_report] (the chunked
      scan computes the fields the contract states, for every chunk
      size) and the theorems: exact counts, independence of the chunk
      size, the entries of the columns, bounds of percentages and of the
      duplicate estimate, failure on files that do not read; and where
      the code departs from the specification: the count of distinct
      values is capped at 100 per chunk and 300 in all, depends on the
      chunk size, and never shows the sentinel.
    - [AnalyzerRefinement]: the scan as a refinement of an abstract
      machine.  [Table] is the machine of the specification: its state
      is the rows seen and the number of chunks read, its step appends
      the rows of a chunk.  [abstracts] relates a state of the machine
      to a [scan_state] (row count, exact missing counts, first three
      values, a tracker of distinct values that is sound and bounded);
      [scan_chunk_abstracts] is the step of the forward simulation and
      [scan_chunks_refines] the simulation of a whole run.
    - [Transform]: [apply_preprocessing_options] and
      [preprocess_csv_task_chunked], statement by statement, with
      [allowed_file] and the Redis store ([setex], [elapse],
      [redis_get]).  The task is a function from the file system and the
      Redis store to its result and the two stores after it
      ([preprocess_with], for any size of the chunks); the variables of
      its loop are the fields of [task_state], the body of the loop is
      [process_chunk].  An assignment [df[col] = f(df[col])] is
      [map_column], a loop of such assignments [per_column]; the lemmas
      give the columns of the frame after the loop
      ([per_column_column]) and show that every option keeps the shape
      of the frame ([same_shape], [same_size]).
    - [Typing]: what the cells of a column are.  A discipline says
      which cells a column of each dtype may hold; the class
      [Discipline] states what [apply_preprocessing_options] needs of
      it, and [apply_preprocessing_options_by] that the function keeps
      every discipline.  [has_dtype] is the discipline of the types
      (integers in [int64], floats or NaN in [float64], truth values in
      [bool], text or NaN in [object]): the readers produce well-typed
      frames and the options keep them well typed.
    - [TransformSpec]: the task on a file that reads whole.
      [preprocess_with_stream] gives the result, the output file and the
      progress record of the streaming mode, [preprocess_with_duplicates]
      those of the mode of [remove_duplicates].  The theorems: the rows
      counted are the rows [handle_missing] keeps, for every chunk size;
      a file without missing values keeps its rows; the header is
      standardized; the progress record holds the count and expires;
      the task writes nothing but its output and its record, and returns
      an error instead of raising; [trim_whitespace] is idempotent on
      frames and [fill_mean] fills every numeric column.  And the
      defects: a second run of [trim_whitespace] changes the file, an
      upload named in capitals is overwritten, the mode of
      [remove_duplicates] ignores [standardize_columns], [fill_mean]
      depends on the chunk size.
    - [Streaming]: the streaming task against a reference that works
      one row at a time ([row_wise]: a row is kept or dropped by its own
      fields, a cell is rewritten by its own text, [out_cell]).  The
      [kind] of a field is the type the reader infers for it alone; a
      table is [homogeneous] when every column holds fields of one
      kind, and options are [row_local] when they fill no gap and do
      not both trim and convert.  Then the types inferred for a chunk are those of
      its fields ([typed_frame_homogeneous]), every option acts row by
      row ([apply_options_row_frame]) and the task is the reference,
      for every chunk size ([transform_chunk_size_independent]); the
      two modes of the task write the same file
      ([modes_write_same_file]).  Without homogeneity the output
      depends on the chunk size even when no option is set
      ([untouched_output_depends_on_chunks]), because the types are
      inferred chunk by chunk; so it does when a column is trimmed and
      then converted ([trim_convert_depends_on_chunks]).
    - [Pipeline]: the composition of the Transform Engine, the reader
      and the analyzer.  [clean] is the discipline of the cells that
      are written without quotes; the cells of a file that reads whole
      are clean and the options keep them clean, so the output of the
      streaming task is printable and [transform_output_analysed]
      holds: the analysis of the output succeeds and counts the rows
      the task reports.  The claim is about tables of two columns or
      more: pandas writes the missing cell of a one-column row as a
      quoted empty field, and quoting is not modelled.
    - [Auth]: user_controller.py whole, token_model.py and the decorator
      of csv_controller.py (module [Csv]).  The database is a record of
      the two tables, whose rows get their keys from the database
      ([next_id], [next_token_id]); a view is a function from the environment of the
      request (clock, time zone, secret, salt), the database and the
      request to the response and the database after the request.  PyJWT
      and werkzeug's hashing are the classes [Jwt] and [PasswordHash],
      which state what the views rely on; [plain_jwt] and [plain_hash]
      are instances, so that every definition runs.  [jwt_decode]
      verifies the signature, the time of issue and the expiry, as
      PyJWT does from 2.6 on: the theorems that a token is accepted
      take a clock that has not gone back since the token was issued,
      and so hold for the earlier versions too, which skip the check
      of the time of issue.
    - [AuthSpec]: the outcomes of every view, branch by branch
      ([register_inv] and the like); the invariant [db_wf] and its
      preservation along the steps of the service ([step]); the life of
      a token: issued by [login], accepted until it expires, dead after
      [logout] for every later request and cleanup ([tick], [dead]) when
      the server is not behind UTC; and the defects the model shows: on
      a server behind UTC the cleanup reopens every token it meets
      between the stored expiry and the real one
      ([cleanup_reopens_revoked_token]), the CSV decorator
      ignores the blacklist and fails on a bare token, a login without
      secret commits, a login can issue a blacklisted token.
    - [AuthEquiv]: the tables of the model are lists of rows, those of
      SQL are sets.  Two databases with the same rows in any order are
      equivalent; the operations on the tables are [Proper] for the
      equivalence, and on a well-formed database every query is by a
      unique column.  So equivalent databases are bisimilar
      ([handle_equiv]) and the answers to any sequence of requests do
      not depend on the order of the rows
      ([answers_order_independent]); without the invariant they do.
    - [Views]: the five views of csv_controller.py ([upload_csv],
      [preprocess_csv], [get_task_status], [download_processed_csv],
      [analyze_csv]) behind [Csv.token_required].  The state of the
      service is the record [server]: the upload folder, the file
      records and the progress records of Redis, and the jobs of the
      queue; the worker of the queue is the step [work], which runs the
      task of [Transform] on a queued job.
    - [ViewsSpec]: the answers of [upload_csv] branch by branch
      ([upload_outcome]); an upload that reads whole is accepted with the
      exact report of [AnalyzerSpec], an upload that is turned away
      leaves the service as it was, and two of the handlers of
      [upload_csv] are dead; the way from a request to preprocess a file
      through the worker to the download of the file the task wrote
      ([processed_file_is_served]); and that no view but the upload
      looks at the user of the token.
    - [Journey]: the views, the worker and the Transform Engine on one
      file: the upload stores the file and its record
      ([after_upload_eq]), the task of the worker is the row-by-row
      reference ([run_after_upload]), and what is downloaded is the
      header and the lines of the rows kept ([upload_to_download]).
    - [Statistics]: the numbers of a column, in exact rational
      arithmetic ([Qc], with [ring] and [field]): the mean and the
      median that [analyze_csv] reports lie between the min and the max,
      the variance is not negative ([column_statistics_bounds]), and
      [fill_mean] keeps the mean of the column it fills
      ([fill_mean_keeps_mean]).
    - [Service]: the service in time, as a labelled transition system.
      An [event] is a request to a CSV view, the worker running a job
      ([work]), the job seen while it runs, between two turns of the
      loop of its task ([advance]: the files and the progress record
      are those of the chunks written so far, the job is still
      queued for the views), the job stopped after some writes of the task
      ([interrupted]) by its timeout ([time_out]: the handler of the
      task catches the exception of the queue, the job is finished
      with an error) or with the process of the worker ([kill]: the
      job is failed), or seconds that pass ([tick]: the records of
      Redis and the keys of the jobs expire).  [drain] is the loop of the worker on the queue.  The
      invariant [jobs_wf] (every job has an id the queue gave out, a
      queued job does not expire) holds along every run.
    - [ServiceSpec]: the worker loop stops and empties the queue
      ([drain_terminates]); a job that was accepted is completed once
      the queue is empty, whatever happens in between
      ([enqueued_job_completes]); a task that is stopped leaves a
      prefix of the output of the complete run and a progress record
      that counts the rows of that prefix ([killed_job_leaves_prefix]);
      a job stopped by its timeout is reported as completed and the
      download serves the prefix ([timed_out_job_is_served]); a job
      that is polled while it runs reports the rows of the chunks
      written so far, a count that grows up to that of the complete
      run, and ends as a job nobody watched
      ([running_job_reports_progress]); a job queued on a file
      reports the rows of the job that ran on the file before it
      ([queued_job_reports_earlier_run]); a file outlives its record
      ([expired_record_leaves_file]).
    - [App]: app.py, routes.py and create_tables.py: the script that
      creates the tables with the text it prints
      ([create_tables_script]), the configuration, the options of
      CORS, the rules of the blueprints ([rules_of], [route]: 404, 405,
      [OPTIONS], [HEAD]), the handlers of 413 and 504, the answer of
      the application to an HTTP request ([serve]) and the system of
      requests, queue, clock and clean-up ([sys_step]).
    - [AppSpec]: the rules are apart (a path has the rules of one
      blueprint); the invariant of the whole application [app_wf], the
      invariants of the database and of the queue together, holds in
      every state reached from [app_start]; a body over the limit is
      turned away before [upload_csv] saves it, so the size check of
      the view is dead, as are its handlers of [EmptyDataError] and
      [ParserError] ([upload_csv_dead_branches]); a request answered
      with a status from 400 to
      499 changes nothing, whoever turned it away
      ([rejected_request_changes_nothing]); and without [SECRET_KEY] the CSV endpoints
      accept tokens signed with the default secret of the decorator.

    ** Conventions

    - A Python exception is a value of [exn]; a computation that may
      raise returns a [result]; [x ← r; k] sequences two computations.
    - A Python dict keyed by column name is a [gmap string _]; a missing
      key is a [KeyError], which the handlers of the code swallow.
    - Counts are [nat].  A float that the code rounds with [round(x, 2)]
      is its number of hundredths, an integer ([Z]): divisions are exact
      and rounded half to even, so the rounding error of binary64
      arithmetic is not modelled.
    - The file system is a [gmap] from paths to texts and the Redis
      store a [gmap] from keys to a time to live and a value.  The
      chunks of the Transform Engine are read from the file system the
      task starts with, which is what the code does whenever its output
      path is not its input path.
    - A column is addressed by its position; the code addresses it by
      its name.  The two agree when the names of a frame are distinct,
      which [frame_wf] and the theorems on files state ([NoDup]):
      pandas renames the repeated names of a header, and
      [standardize_columns] can make two names equal
      ([standardize_collides]).
    - Strings are strings of 8-bit characters; timestamps are seconds.
    - Fuel: [chunks] uses the length of the list as fuel, and
      [chunks_concat] shows this is always enough; [drain] takes the
      number of jobs the worker may run, and [drain_terminates] shows
      that [pending], the number of queued jobs, is enough and that
      more changes nothing.  The matcher of [Regex] is structural in
      the string.
    - The progress of a running job, the end of a job before its time
      and the passing of time are events ([Advance], [Timeout],
      [Kill], [Elapse]) with the number of writes done and the seconds
      as parameters: the theorems hold for every value of them.  A
      task is seen or stopped between two turns of its loop, after
      the progress record of a chunk is written; the task that goes
      on starts from the input again, so [Advance] followed by [Work]
      is [Work] whenever the output file is not the input file.

    ** Not modelled

    Quoting and escaping in CSV fields; tables with repeated column
    names; rows with too few cells as pandas reads them (the
    specification calls every row with a wrong number of cells
    malformed, and so does the model); dates; numerals with spaces
    around them, exponents or infinities (the model reads such fields
    as text); the width of [int64] (a
    column of integers of any size is read as [int64], and no operation
    of the engine adds or multiplies them); binary64 rounding and the
    shortest-repr printing of floats (a standard deviation is given by
    its square); the in-place [fillna] of [fill_mode] under copy-on-write
    (the model assigns the filled column); the random identifiers of the
    jobs (they are numbered in the order of the queue) and failures of
    Redis; request bodies that are not JSON objects of strings; failures
    of the database other than the unique token column; of Flask, the
    pages of the errors 404, 405 and 500 (given by their titles), the
    headers of a response other than those of CORS, and the debugger of
    [app.run]; the calls that set the process up and change nothing the
    views read ([load_dotenv], [db.init_app], [os.makedirs] of the
    upload folder: the file system of the model has no directories)
    and the line the task prints in the mode of [remove_duplicates];
    the columns of the table of users that no view reads
    (user_model.py is not among the sources: a row is the record of the
    fields the views use, and the script of create_tables.py takes the
    names of the tables as its argument). *)

From stdpp Require Export base tactics option list list_numbers functions
  strings gmap.
From Stdlib Require Export ZArith Lia.
#[export] Set Warnings "-clear-no-such-hyp,-abstract-large-number".

(** ** Exceptions and results *)

(** The exception classes the sources raise or catch. *)
Inductive exn : Type :=
  | EmptyDataError (msg : string)
  | ParserError (msg : string)
  | KeyError (key : string)
  | ValueError (msg : string)
  | FileNotFoundError (path : string)
  | IndexError (msg : string)
  | TypeError (msg : string)
  | ExpiredSignatureError
  | InvalidTokenError (msg : string)
  | Exception (msg : string).

Inductive result (A : Type) : Type :=
  | Ok (a : A)
  | Raise (e : exn).
Arguments Ok {A} a.
Arguments Raise {A} e.

(** [str(e)]: the message of an exception. *)
Definition exn_str (e : exn) : string :=
  match e with
  | EmptyDataError msg | ParserError msg | ValueError msg | Exception msg
  | IndexError msg | TypeError msg | InvalidTokenError msg => msg
  | ExpiredSignatureError => "Signature has expired"
  | KeyError key => key
  | FileNotFoundError path =>
      "[Errno 2] No such file or directory: '" +:+ path +:+ "'"
  end.

Definition res_bind {A B} (r : result A) (k : A → result B) : result B :=
  match r with Ok a => k a | Raise e => Raise e end.

(** [try: r except Exception as e: handler e] *)
Definition try_except {A} (r : result A) (handler : exn → A) : A :=
  match r with Ok a => a | Raise e => handler e end.

Definition is_ok {A} (r : result A) : bool :=
  match r with Ok _ => true | Raise _ => false end.

#[global] Instance result_ret : MRet result := @Ok.
#[global] Instance result_bind : MBind result := λ A B k r, res_bind r k.

Declare Scope dc_scope.
Delimit Scope dc_scope with dc.
Notation "'try' r 'except' h" := (try_except r h)
  (at level 10, r at level 9, h at level 9) : dc_scope.
Open Scope dc_scope.

#[global] Instance exn_eq_dec : EqDecision exn.
Proof. solve_decision. Defined.
#[global] Instance result_eq_dec `{EqDecision A} : EqDecision (result A).
Proof. solve_decision. Defined.

(** ** Tactics and hint databases *)

Create HintDb dc discriminated.
Create Rewrite HintDb dc_rw.

(** Case analysis on the first [result] that blocks a bind or a handler. *)
Ltac case_result :=
  match goal with
  | |- context [res_bind ?r _] => destruct r eqn:?; simpl
  | |- context [try_except ?r _] => destruct r eqn:?; simpl
  | H : context [res_bind ?r _] |- _ => destruct r eqn:?; simpl in H
  | H : context [try_except ?r _] |- _ => destruct r eqn:?; simpl in H
  end.

Ltac unfold_bind :=
  unfold mbind, result_bind, mret, result_ret in *.

(** Inversion of equations between results, then substitution. *)
Ltac simplify_result :=
  unfold_bind; repeat (simplify_eq /=; try case_result); simplify_eq /=.

(** ** Results *)

Section result.
Context {A B : Type}.
Implicit Types (r : result A) (k : A → result B).

Lemma bind_Ok r k b :
  r ≫= k = Ok b ↔ ∃ a, r = Ok a ∧ k a = Ok b.
Proof. unfold_bind. destruct r; simpl; naive_solver. Qed.

Lemma bind_Raise r k e :
  r ≫= k = Raise e ↔ r = Raise e ∨ ∃ a, r = Ok a ∧ k a = Raise e.
Proof. unfold_bind. destruct r; simpl; naive_solver. Qed.

Lemma try_except_Ok (a : A) h : try (Ok a) except h = a.
Proof. done. Qed.

Lemma is_ok_true r : is_ok r = true ↔ ∃ a, r = Ok a.
Proof. destruct r; simpl; naive_solver. Qed.

End result.

(** A [for] loop whose body may raise: the loop stops at the first
    exception. *)
Fixpoint foldl_res {A B} (f : A → B → result A) (a : A) (l : list B)
    : result A :=
  match l with
  | [] => Ok a
  | x :: l' => a' ← f a x; foldl_res f a' l'
  end.

Section foldl_res.
Context {A B : Type} (f : A → B → result A).
Implicit Types (a : A) (l : list B).

Lemma foldl_res_cons a x l :
  foldl_res f a (x :: l) = f a x ≫= λ a', foldl_res f a' l.
Proof. done. Qed.

Lemma foldl_res_app a l1 l2 :
  foldl_res f a (l1 ++ l2) = foldl_res f a l1 ≫= λ a', foldl_res f a' l2.
Proof.
  revert a. induction l1 as [|x l1 IH]; intros a; [done|].
  rewrite <-app_comm_cons, !foldl_res_cons.
  unfold_bind. destruct (f a x); simpl; [apply IH|done].
Qed.

(** A loop whose body never raises on the states of an invariant ends in
    a state of the invariant. *)
Lemma foldl_res_invariant (I : A → Prop) a l :
  I a →
  (∀ a x, I a → x ∈ l → ∃ a', f a x = Ok a' ∧ I a') →
  ∃ a', foldl_res f a l = Ok a' ∧ I a'.
Proof.
  revert a. induction l as [|x l IH]; intros a Ha Hf; [eauto|].
  destruct (Hf a x Ha) as (a1 & Hx & Ha1); [set_solver|].
  rewrite foldl_res_cons, Hx. apply IH; [done|].
  intros. apply Hf; [done|set_solver].
Qed.

(** A loop raises what one of its steps raises. *)
Lemma foldl_res_Raise (P : exn → Prop) a l e :
  (∀ a x e, f a x = Raise e → P e) → foldl_res f a l = Raise e → P e.
Proof.
  intros Hf. revert a. induction l as [|x l IH]; intros a; [done|].
  rewrite foldl_res_cons. destruct (f a x) as [a'|e'] eqn:Hx; simpl; [apply IH|].
  intros [= <-]. eauto.
Qed.

End foldl_res.

(** ** Lists *)

Lemma length_omap_le {A B} (f : A → option B) (l : list A) :
  length (omap f l) ≤ length l.
Proof. induction l as [|x l IH]; csimpl; [done|]. case_match; simpl; lia. Qed.

Lemma Forall_filter {A} (P Q : A → Prop) `{∀ x, Decision (Q x)} (l : list A) :
  Forall P l → Forall P (filter Q l).
Proof.
  rewrite !Forall_forall. intros Hl x [_ Hx]%list_elem_of_filter. auto.
Qed.

(** Two lists whose elements satisfy [P] and [Q] at the same positions
    have as many elements of [P] as of [Q]. *)
Lemma length_filter_Forall2 {A B} (P : A → Prop) (Q : B → Prop)
    `{∀ x, Decision (P x), ∀ y, Decision (Q y)} (l : list A) (k : list B) :
  Forall2 (λ x y, P x ↔ Q y) l k → length (filter P l) = length (filter Q k).
Proof.
  induction 1 as [|x y l k Hxy _ IH]; [done|]. rewrite !filter_cons.
  destruct (decide (P x)), (decide (Q y)); simpl; try tauto; by rewrite IH.
Qed.

Lemma list_filter_True {A} (P : A → Prop) `{∀ x, Decision (P x)} (l : list A) :
  Forall P l → filter P l = l.
Proof.
  induction 1 as [|x l Hx _ IH]; [done|].
  by rewrite filter_cons, decide_True, IH.
Qed.

Lemma list_filter_False {A} (P : A → Prop) `{∀ x, Decision (P x)} (l : list A) :
  Forall (λ x, ¬ P x) l → filter P l = [].
Proof. induction 1; [done|]. by rewrite filter_cons_False. Qed.

Lemma filter_fmap {A B} (f : A → B) (P : B → Prop) `{∀ y, Decision (P y)}
    (l : list A) :
  filter P (f <$> l) = f <$> filter (P ∘ f) l.
Proof.
  induction l as [|x l IH]; [done|]. csimpl. rewrite !filter_cons. simpl.
  case_decide; csimpl; by rewrite IH.
Qed.

(** A function is injective on a list whose images have no duplicates. *)
Lemma NoDup_fmap_inj {A B} (f : A → B) (l : list A) x y :
  NoDup (f <$> l) → x ∈ l → y ∈ l → f x = f y → x = y.
Proof.
  induction l as [|z l IH]; csimpl; [by intros _ ?%elem_of_nil|].
  rewrite NoDup_cons, list_elem_of_fmap, !elem_of_cons.
  intros [Hz Hl] [->|Hx] [->|Hy] Hf; [done| | |by apply IH].
  - destruct Hz. eauto.
  - destruct Hz. eauto.
Qed.

Lemma fmap_join {A B} (f : A → B) (ls : list (list A)) :
  f <$> mjoin ls = mjoin (fmap f <$> ls).
Proof. induction ls as [|l ls IH]; csimpl; [done|]. by rewrite fmap_app, IH. Qed.

(** ** Chunks of a list *)

Section chunks.
Context {A : Type}.
Implicit Types (l : list A) (n : nat).

Fixpoint chunks_fuel (fuel n : nat) (l : list A) : list (list A) :=
  match fuel, l with
  | 0, _ | _, [] => []
  | S fuel', _ :: _ => take n l :: chunks_fuel fuel' n (drop n l)
  end.

(** The successive slices of [n] elements of [l]; the last may be shorter. *)
Definition chunks (n : nat) (l : list A) : list (list A) :=
  chunks_fuel (length l) n l.

Lemma chunks_fuel_concat fuel n l :
  0 < n → length l ≤ fuel → mjoin (chunks_fuel fuel n l) = l.
Proof.
  intros Hn. revert l.
  induction fuel as [|fuel IH]; intros [|x l] Hl; simpl in *; try done; try lia.
  rewrite IH; [|rewrite length_drop; simpl; lia].
  destruct n; [lia|]. simpl. by rewrite take_drop.
Qed.

Lemma chunks_fuel_enough fuel fuel' n l :
  0 < n → length l ≤ fuel → length l ≤ fuel' →
  chunks_fuel fuel n l = chunks_fuel fuel' n l.
Proof.
  intros Hn. revert fuel' l.
  induction fuel as [|fuel IH]; intros [|fuel'] [|x l] ??;
    simpl in *; try done; try lia.
  f_equal. apply IH; rewrite length_drop; simpl; lia.
Qed.

Lemma chunks_nil n : chunks n (@nil A) = [].
Proof. done. Qed.

Lemma chunks_unfold n x l :
  0 < n → chunks n (x :: l) = take n (x :: l) :: chunks n (drop n (x :: l)).
Proof.
  intros Hn. unfold chunks. simpl. f_equal.
  apply chunks_fuel_enough; [done|..]; rewrite ?length_drop; simpl; lia.
Qed.

Lemma chunks_concat n l : 0 < n → mjoin (chunks n l) = l.
Proof. intros. by apply chunks_fuel_concat. Qed.

Lemma chunks_fuel_bounded fuel n l :
  Forall (λ c, 0 < length c ∧ length c ≤ S n) (chunks_fuel fuel (S n) l).
Proof.
  revert l. induction fuel as [|fuel IH]; intros [|x l]; simpl; try done.
  constructor; [|apply IH]. simpl. rewrite length_take. lia.
Qed.

Lemma chunks_bounded n l :
  0 < n → Forall (λ c, 0 < length c ∧ length c ≤ n) (chunks n l).
Proof. destruct n; [lia|]. intros _. apply chunks_fuel_bounded. Qed.

Lemma chunks_small n l : 0 < length l ≤ n → chunks n l = [l].
Proof.
  intros [? ?]. destruct l as [|x l]; [simpl in *; lia|].
  rewrite chunks_unfold by lia. by rewrite take_ge, drop_ge.
Qed.

Lemma chunks_app n l1 l2 :
  0 < n → length l1 = n → chunks n (l1 ++ l2) = l1 :: chunks n l2.
Proof.
  intros Hn Hl. destruct l1 as [|x l1]; [simpl in *; lia|].
  rewrite <-app_comm_cons, chunks_unfold, app_comm_cons by done.
  by rewrite take_app_length', drop_app_length'.
Qed.

Lemma chunks_sum_length n l :
  0 < n → sum_list (length <$> chunks n l) = length l.
Proof.
  intros. rewrite <-length_join. f_equal. by apply chunks_concat.
Qed.

Lemma chunks_fuel_Forall (P : A → Prop) fuel n l :
  Forall P l → Forall (Forall P) (chunks_fuel fuel n l).
Proof.
  revert l. induction fuel as [|fuel IH]; intros [|x l] Hl; simpl; try done.
  constructor; [by apply Forall_take|by apply IH, Forall_drop].
Qed.

(** What holds of the elements holds of the elements of the chunks. *)
Lemma chunks_Forall (P : A → Prop) n l :
  Forall P l → Forall (Forall P) (chunks n l).
Proof. apply chunks_fuel_Forall. Qed.

(** The first [k] chunks hold the first [k * n] elements. *)
Lemma chunks_take n k l : 0 < n → mjoin (take k (chunks n l)) = take (k * n) l.
Proof.
  intros Hn. revert l. induction k as [|k IH]; intros l; [done|].
  destruct l as [|x l]; [by rewrite chunks_nil, !take_nil|].
  rewrite chunks_unfold by done. rewrite firstn_cons. csimpl. rewrite IH.
  apply take_take_drop.
Qed.

End chunks.

(** Chunking commutes with a relation that holds element by element. *)
Lemma chunks_fuel_Forall2 {A B} (R : A → B → Prop) fuel n l k :
  Forall2 R l k →
  Forall2 (Forall2 R) (chunks_fuel fuel n l) (chunks_fuel fuel n k).
Proof.
  revert l k. induction fuel as [|fuel IH]; intros l k HR; [constructor|].
  destruct HR as [|x y l k Hxy HR]; [constructor|]. cbn [chunks_fuel].
  constructor; [by apply Forall2_take; constructor|].
  apply IH. by apply Forall2_drop; constructor.
Qed.

Lemma chunks_Forall2 {A B} (R : A → B → Prop) n l k :
  Forall2 R l k → Forall2 (Forall2 R) (chunks n l) (chunks n k).
Proof.
  intros HR. unfold chunks. rewrite <-(Forall2_length _ _ _ HR).
  by apply chunks_fuel_Forall2.
Qed.

(** ** Order-preserving duplicate removal *)

Section unique.
Context `{EqDecision A}.
Implicit Types (x y : A) (acc seen l : list A).

(** [if x not in acc: acc.append(x)] *)
Definition add_new (acc : list A) (x : A) : list A :=
  if decide (x ∈ acc) then acc else acc ++ [x].

Definition extend_unique (acc l : list A) : list A := foldl add_new acc l.

(** [Series.unique()]: the distinct values in order of first appearance. *)
Definition unique (l : list A) : list A := extend_unique [] l.

Fixpoint duplicated_from (seen l : list A) : list bool :=
  match l with
  | [] => []
  | x :: l' => bool_decide (x ∈ seen) :: duplicated_from (x :: seen) l'
  end.

(** [DataFrame.duplicated()]: marks every row equal to an earlier row. *)
Definition duplicated (l : list A) : list bool := duplicated_from [] l.

(** The sum of a boolean Series. *)
Definition count_true (bs : list bool) : nat :=
  length (filter (λ b, b = true) bs).

Definition keep_unmarked (l : list A) (marks : list bool) : list A :=
  (filter (λ p, p.2 = false) (zip l marks)).*1.

(** [DataFrame.drop_duplicates()]: keeps the first of equal rows. *)
Definition drop_duplicates (l : list A) : list A :=
  keep_unmarked l (duplicated l).

Lemma elem_of_add_new acc x y : y ∈ add_new acc x ↔ y ∈ acc ∨ y = x.
Proof. unfold add_new. case_decide; set_solver. Qed.

Lemma NoDup_add_new acc x : NoDup acc → NoDup (add_new acc x).
Proof.
  unfold add_new. case_decide; [done|]. intros.
  apply NoDup_app; split_and!; [done|set_solver|apply NoDup_singleton].
Qed.

Lemma length_add_new acc x :
  length acc ≤ length (add_new acc x) ≤ S (length acc).
Proof. unfold add_new. case_decide; rewrite ?length_app; simpl; lia. Qed.

Lemma add_new_prefix acc x : acc `prefix_of` add_new acc x.
Proof. unfold add_new. case_decide; [done|]. by apply prefix_app_r. Qed.

Lemma extend_unique_cons acc x l :
  extend_unique acc (x :: l) = extend_unique (add_new acc x) l.
Proof. done. Qed.

Lemma extend_unique_app acc l1 l2 :
  extend_unique acc (l1 ++ l2) = extend_unique (extend_unique acc l1) l2.
Proof. apply foldl_app. Qed.

Lemma elem_of_extend_unique acc l y :
  y ∈ extend_unique acc l ↔ y ∈ acc ∨ y ∈ l.
Proof.
  revert acc. induction l as [|x l IH]; intros acc; [set_solver|].
  rewrite extend_unique_cons, IH, elem_of_add_new. set_solver.
Qed.

Lemma NoDup_extend_unique acc l : NoDup acc → NoDup (extend_unique acc l).
Proof.
  revert acc. induction l as [|x l IH]; intros acc ?; [done|].
  rewrite extend_unique_cons. by apply IH, NoDup_add_new.
Qed.

Lemma length_extend_unique acc l :
  length acc ≤ length (extend_unique acc l) ≤ length acc + length l.
Proof.
  revert acc. induction l as [|x l IH]; intros acc; [simpl; lia|].
  rewrite extend_unique_cons.
  pose proof (IH (add_new acc x)). pose proof (length_add_new acc x).
  simpl. lia.
Qed.

Lemma extend_unique_prefix acc l : acc `prefix_of` extend_unique acc l.
Proof.
  revert acc. induction l as [|x l IH]; intros acc; [done|].
  rewrite extend_unique_cons. etrans; [apply add_new_prefix|apply IH].
Qed.

Lemma extend_unique_subseteq acc l : l ⊆ acc → extend_unique acc l = acc.
Proof.
  induction l as [|x l IH]; intros Hl; [done|].
  rewrite extend_unique_cons. unfold add_new.
  rewrite decide_True by set_solver. apply IH. set_solver.
Qed.

Lemma extend_unique_NoDup_disjoint acc l :
  NoDup l → (∀ x, x ∈ l → x ∉ acc) → extend_unique acc l = acc ++ l.
Proof.
  revert acc. induction l as [|x l IH]; intros acc Hnd Hdis.
  { by rewrite app_nil_r. }
  apply NoDup_cons in Hnd as [Hx Hnd].
  rewrite extend_unique_cons. unfold add_new.
  rewrite decide_False by set_solver.
  rewrite IH, <-app_assoc; [done|done|]. set_solver.
Qed.

Lemma NoDup_unique l : NoDup (unique l).
Proof. apply NoDup_extend_unique, NoDup_nil_2. Qed.

Lemma elem_of_unique l y : y ∈ unique l ↔ y ∈ l.
Proof. unfold unique. rewrite elem_of_extend_unique. set_solver. Qed.

Lemma length_unique l : length (unique l) ≤ length l.
Proof. pose proof (length_extend_unique [] l). unfold unique. simpl in *. lia. Qed.

Lemma unique_NoDup l : NoDup l → unique l = l.
Proof.
  intros. unfold unique. rewrite extend_unique_NoDup_disjoint; set_solver.
Qed.

Lemma unique_idemp l : unique (unique l) = unique l.
Proof. apply unique_NoDup, NoDup_unique. Qed.

(** Every list without duplicates whose elements are in [l] is at most
    as long as [unique l]. *)
Lemma length_le_unique l k :
  NoDup k → k ⊆ l → length k ≤ length (unique l).
Proof.
  intros Hk Hkl. apply submseteq_length, NoDup_submseteq; [done|].
  intros x Hx. apply elem_of_unique. by apply Hkl.
Qed.

Lemma length_duplicated_from seen l :
  length (duplicated_from seen l) = length l.
Proof. revert seen. induction l; intros; simpl; by f_equal. Qed.

Lemma keep_unmarked_cons x l b bs :
  keep_unmarked (x :: l) (b :: bs) =
  if b then keep_unmarked l bs else x :: keep_unmarked l bs.
Proof.
  unfold keep_unmarked. simpl. rewrite filter_cons. simpl.
  destruct b; by case_decide.
Qed.

Lemma count_true_cons b bs :
  count_true (b :: bs) = (if b then 1 else 0) + count_true bs.
Proof. unfold count_true. rewrite filter_cons. destruct b; by case_decide. Qed.

Lemma extend_unique_keep_unmarked acc seen l :
  (∀ y, y ∈ seen ↔ y ∈ acc) →
  extend_unique acc l = acc ++ keep_unmarked l (duplicated_from seen l).
Proof.
  revert acc seen. induction l as [|x l IH]; intros acc seen Hs.
  { unfold keep_unmarked. simpl. by rewrite app_nil_r. }
  rewrite extend_unique_cons. cbn [duplicated_from]. rewrite keep_unmarked_cons.
  rewrite (IH (add_new acc x) (x :: seen)).
  2:{ intros y. rewrite elem_of_add_new, elem_of_cons, Hs. tauto. }
  unfold add_new. case_bool_decide; case_decide; try (exfalso; naive_solver).
  - done.
  - by rewrite <-app_assoc.
Qed.

Lemma drop_duplicates_unique l : drop_duplicates l = unique l.
Proof.
  unfold drop_duplicates, duplicated, unique.
  by rewrite (extend_unique_keep_unmarked [] [] l).
Qed.

Lemma count_duplicated_from seen l :
  count_true (duplicated_from seen l)
  + length (keep_unmarked l (duplicated_from seen l)) = length l.
Proof.
  revert seen. induction l as [|x l IH]; intros seen; [done|].
  simpl. rewrite count_true_cons, keep_unmarked_cons.
  specialize (IH (x :: seen)). case_bool_decide; simpl; lia.
Qed.

Lemma count_duplicated l :
  count_true (duplicated l) + length (drop_duplicates l) = length l.
Proof. apply count_duplicated_from. Qed.

Lemma count_duplicated_lt l : l ≠ [] → count_true (duplicated l) < length l.
Proof.
  intros Hl. pose proof (count_duplicated l).
  destruct l as [|x l]; [done|].
  assert (0 < length (drop_duplicates (x :: l))); [|lia].
  rewrite drop_duplicates_unique.
  assert (x ∈ unique (x :: l)) as Hx by (apply elem_of_unique; set_solver).
  destruct (unique (x :: l)); [by apply elem_of_nil in Hx|simpl; lia].
Qed.

Lemma count_duplicated_NoDup l : NoDup l → count_true (duplicated l) = 0.
Proof.
  intros Hl. pose proof (count_duplicated l) as H.
  rewrite drop_duplicates_unique, unique_NoDup in H by done. lia.
Qed.

End unique.

(** [unique] commutes with a function that is injective on the list. *)
Lemma extend_unique_fmap_inj `{EqDecision A, EqDecision B} (f : A → B)
    (acc l : list A) :
  (∀ x y, x ∈ acc ++ l → y ∈ acc ++ l → f x = f y → x = y) →
  extend_unique (f <$> acc) (f <$> l) = f <$> extend_unique acc l.
Proof.
  revert acc. induction l as [|x l IH]; intros acc Hinj; [done|].
  rewrite fmap_cons, !extend_unique_cons.
  assert (add_new (f <$> acc) (f x) = f <$> add_new acc x) as ->.
  { unfold add_new. destruct (decide (x ∈ acc)) as [Hx|Hx].
    - by rewrite decide_True by by apply list_elem_of_fmap_2.
    - rewrite decide_False, fmap_app; [done|].
      intros (y & Hxy & Hy)%list_elem_of_fmap. apply Hx.
      rewrite (Hinj x y); [done|set_solver..]. }
  apply IH. intros y z Hy Hz. apply Hinj.
  - apply elem_of_app in Hy as [[?| ->]%elem_of_add_new|?]; set_solver.
  - apply elem_of_app in Hz as [[?| ->]%elem_of_add_new|?]; set_solver.
Qed.

Lemma unique_fmap_inj `{EqDecision A, EqDecision B} (f : A → B) (l : list A) :
  (∀ x y, x ∈ l → y ∈ l → f x = f y → x = y) →
  unique (f <$> l) = f <$> unique l.
Proof. intros. by apply (extend_unique_fmap_inj f []). Qed.

#[export] Hint Resolve NoDup_unique NoDup_extend_unique NoDup_add_new : dc.
#[export] Hint Resolve extend_unique_prefix add_new_prefix : dc.

(** ** Division rounded half to even *)

Section rounding.
Local Open Scope Z_scope.
Implicit Types (a b c : Z).

(** The integer nearest to [a / b], ties going to the even one: the value
    [round] gives to the exact quotient. *)
Definition div_half_even (a b : Z) : Z :=
  let q := a / b in
  let r := a mod b in
  if 2 * r <? b then q
  else if b <? 2 * r then q + 1
  else if Z.even q then q else q + 1.

Lemma div_half_even_bounds a b :
  0 < b → a / b ≤ div_half_even a b ≤ a / b + 1.
Proof. intros. unfold div_half_even. repeat case_match; lia. Qed.

Lemma div_half_even_nonneg a b : 0 ≤ a → 0 < b → 0 ≤ div_half_even a b.
Proof.
  intros. pose proof (div_half_even_bounds a b).
  pose proof (Z.div_pos a b). lia.
Qed.

Lemma div_half_even_exact k b : 0 < b → div_half_even (k * b) b = k.
Proof.
  intros. unfold div_half_even. rewrite Z.div_mul, Z.mod_mul by lia.
  simpl. case_match; lia.
Qed.

Lemma div_half_even_le a b c :
  0 < b → a ≤ c * b → div_half_even a b ≤ c.
Proof.
  intros Hb Ha. unfold div_half_even.
  pose proof (Z.div_mod a b). pose proof (Z.mod_pos_bound a b Hb).
  assert (a / b ≤ c) by (apply Z.div_le_upper_bound; lia).
  repeat case_match; try lia.
  all: assert (a / b < c) by nia; lia.
Qed.

Lemma div_half_even_mono a a' b :
  0 < b → a ≤ a' → div_half_even a b ≤ div_half_even a' b.
Proof.
  intros Hb Ha.
  destruct (decide (a / b = a' / b)) as [Heq|Hne].
  - unfold div_half_even. cbv zeta. rewrite Heq.
    assert (a mod b ≤ a' mod b).
    { rewrite !Z.mod_eq by lia. rewrite Heq. lia. }
    repeat case_match; lia.
  - pose proof (Z.div_le_mono a a' b Hb Ha).
    pose proof (div_half_even_bounds a b Hb).
    pose proof (div_half_even_bounds a' b Hb). lia.
Qed.

End rounding.
