(* ===== verification/Strings.v ===== *)
(** * Strings: the methods of Python's [str] the sources call

    [split], [join], [strip], [lower], [startswith] and [replace] over
    strings of 8-bit characters.  Characters outside ASCII are not
    modelled: [lower] and [strip] leave them as they are. *)

From Stdlib Require Export Ascii.
From S2P Require Import Prelude.

Definition NEWLINE : ascii := "010"%char.
Definition COMMA : ascii := ","%char.
Definition SPACE : ascii := " "%char.
Definition DOT : ascii := "."%char.

(** ** Characters *)

Definition in_range (lo hi c : ascii) : bool :=
  (nat_of_ascii lo <=? nat_of_ascii c) && (nat_of_ascii c <=? nat_of_ascii hi).

(** [[A-Z]], [[a-z]] and [\d] over ASCII. *)
Definition is_upper (c : ascii) : bool := in_range "A" "Z" c.
Definition is_lower (c : ascii) : bool := in_range "a" "z" c.
Definition is_digit (c : ascii) : bool := in_range "0" "9" c.

(** [c.isspace()]: tab, line feed, vertical tab, form feed, carriage
    return, the separators 28 to 31 and the space. *)
Definition is_space (c : ascii) : bool :=
  in_range "009" "013" c || in_range "028" "032" c.

(** [c.lower()] *)
Definition lower_char (c : ascii) : ascii :=
  if is_upper c then ascii_of_nat (nat_of_ascii c + 32) else c.

(** ** Strings *)

Fixpoint string_map (f : ascii → ascii) (s : string) : string :=
  match s with
  | EmptyString => EmptyString
  | String c s' => String (f c) (string_map f s')
  end.

Fixpoint string_exists (p : ascii → bool) (s : string) : bool :=
  match s with
  | EmptyString => false
  | String c s' => p c || string_exists p s'
  end.

Fixpoint string_forall (p : ascii → bool) (s : string) : bool :=
  match s with
  | EmptyString => true
  | String c s' => p c && string_forall p s'
  end.

(** [s.lower()] *)
Definition lower (s : string) : string := string_map lower_char s.

(** [s.startswith(prefix)] *)
Definition startswith (s pre : string) : bool := String.prefix pre s.

(** [s.split(sep)] for a separator of one character: the pieces of [s]
    between the occurrences of [sep]. *)
Fixpoint split_on (sep : ascii) (s : string) : list string :=
  match s with
  | EmptyString => [EmptyString]
  | String c s' =>
      if decide (c = sep) then EmptyString :: split_on sep s'
      else match split_on sep s' with
           | [] => [String c EmptyString]
           | w :: ws => String c w :: ws
           end
  end.

(** [sep.join(ws)] *)
Fixpoint join_with (sep : ascii) (ws : list string) : string :=
  match ws with
  | [] => EmptyString
  | [w] => w
  | w :: ws' => w +:+ String sep (join_with sep ws')
  end.

(** [s.lstrip()], [s.rstrip()] and [s.strip()] *)
Fixpoint lstrip (s : string) : string :=
  match s with
  | EmptyString => EmptyString
  | String c s' => if is_space c then lstrip s' else s
  end.

Fixpoint rstrip (s : string) : string :=
  match s with
  | EmptyString => EmptyString
  | String c s' =>
      match rstrip s' with
      | EmptyString => if is_space c then EmptyString else String c EmptyString
      | t => String c t
      end
  end.

Definition strip (s : string) : string := lstrip (rstrip s).

(** [s.replace(c, d)] for single characters. *)
Definition replace_char (c d : ascii) (s : string) : string :=
  string_map (λ x, if decide (x = c) then d else x) s.

(** [s.replace(old, new)] for a non-empty [old]: the occurrences of [old]
    are replaced from the left, without overlap.  [skip] counts the
    characters of an occurrence still to pass over. *)
Fixpoint replace_from (old new : string) (skip : nat) (s : string) : string :=
  match s with
  | EmptyString => EmptyString
  | String c s' =>
      match skip with
      | S k => replace_from old new k s'
      | 0 =>
          if String.prefix old s
          then new +:+ replace_from old new (String.length old - 1) s'
          else String c (replace_from old new 0 s')
      end
  end.

Definition replace (old new s : string) : string := replace_from old new 0 s.

(** ** Properties *)

Section strings.
Implicit Types (s t : string) (c sep : ascii) (ws : list string).

Lemma app_cons c s t : String c s +:+ t = String c (s +:+ t).
Proof. done. Qed.

Lemma app_nil_l s : EmptyString +:+ s = s.
Proof. done. Qed.

Lemma app_nil_r s : s +:+ EmptyString = s.
Proof. induction s; [done|]. by rewrite app_cons; f_equal. Qed.

Lemma app_eq_nil s t : s +:+ t = EmptyString → s = EmptyString ∧ t = EmptyString.
Proof. by destruct s. Qed.

Lemma app_assoc s t u : (s +:+ t) +:+ u = s +:+ (t +:+ u).
Proof. induction s; [done|]. rewrite !app_cons. by f_equal. Qed.

Lemma length_app s t : String.length (s +:+ t) = String.length s + String.length t.
Proof. induction s; [done|]. rewrite app_cons. simpl. by f_equal. Qed.

Lemma split_on_nonempty sep s : split_on sep s ≠ [].
Proof. induction s; simpl; [done|]. case_decide; [done|]. by case_match. Qed.

Lemma join_with_cons_char sep c w ws :
  join_with sep (String c w :: ws) = String c (join_with sep (w :: ws)).
Proof. by destruct ws. Qed.

(** Joining the pieces of a split gives the string back. *)
Lemma join_split sep s : join_with sep (split_on sep s) = s.
Proof.
  induction s as [|c s IH]; [done|]. cbn [split_on].
  pose proof (split_on_nonempty sep s).
  destruct (split_on sep s) as [|w ws] eqn:E; [done|].
  case_decide as Hc.
  - change (String sep (join_with sep (w :: ws)) = String c s).
    by rewrite IH, Hc.
  - by rewrite join_with_cons_char, IH.
Qed.

(** No piece of a split holds the separator. *)
Lemma split_on_no_sep sep s :
  Forall (λ w, string_exists (λ c, bool_decide (c = sep)) w = false)
    (split_on sep s).
Proof.
  induction s as [|c s IH]; simpl; [by repeat constructor|].
  case_decide; [by constructor|].
  destruct (split_on sep s) as [|w ws]; [|inversion_clear IH].
  - repeat constructor. simpl. by rewrite bool_decide_eq_false_2.
  - constructor; [|done]. simpl. by rewrite bool_decide_eq_false_2.
Qed.

(** A string without the separator is the only piece of its split. *)
Lemma split_on_none sep s :
  string_exists (λ c, bool_decide (c = sep)) s = false → split_on sep s = [s].
Proof.
  induction s as [|c s IH]; [done|]. simpl.
  intros [Hc Hs]%orb_false_elim. apply bool_decide_eq_false in Hc.
  rewrite decide_False by done. by rewrite IH.
Qed.

(** The split of [s ++ sep ++ t] when [s] is free of the separator. *)
Lemma split_on_app sep s t :
  string_exists (λ c, bool_decide (c = sep)) s = false →
  split_on sep (s +:+ String sep t) = s :: split_on sep t.
Proof.
  induction s as [|c s IH]; simpl.
  { intros _. by rewrite decide_True. }
  intros [Hc Hs]%orb_false_elim. apply bool_decide_eq_false in Hc.
  rewrite decide_False by done. by rewrite IH.
Qed.

Lemma lstrip_no_space c s : is_space c = false → lstrip (String c s) = String c s.
Proof. simpl. by intros ->. Qed.

Lemma lstrip_idemp s : lstrip (lstrip s) = lstrip s.
Proof.
  induction s as [|c s IH]; [done|]. simpl.
  destruct (is_space c) eqn:Hc; [done|]. simpl. by rewrite Hc.
Qed.

Lemma rstrip_cons c s :
  rstrip (String c s)
  = match rstrip s with
    | EmptyString => if is_space c then EmptyString else String c EmptyString
    | t => String c t
    end.
Proof. done. Qed.

Lemma rstrip_idemp s : rstrip (rstrip s) = rstrip s.
Proof.
  induction s as [|c s IH]; [done|]. rewrite rstrip_cons.
  destruct (rstrip s) as [|d t] eqn:Hs.
  - destruct (is_space c) eqn:Hc; [done|]. simpl. by rewrite Hc.
  - by rewrite rstrip_cons, IH.
Qed.

(** Stripping on the left leaves the right end stripped. *)
Lemma rstrip_lstrip s : rstrip s = s → rstrip (lstrip s) = lstrip s.
Proof.
  induction s as [|c s IH]; [done|]. cbn [lstrip].
  destruct (is_space c) eqn:Hc; [|done].
  rewrite rstrip_cons. destruct (rstrip s) as [|d t] eqn:Hs.
  - by rewrite Hc.
  - intros [= Heq]. apply IH. congruence.
Qed.

(** [strip] is idempotent: a stripped string is not changed again. *)
Lemma strip_idemp s : strip (strip s) = strip s.
Proof.
  unfold strip. by rewrite rstrip_lstrip, lstrip_idemp by apply rstrip_idemp.
Qed.

Lemma string_map_length f s : String.length (string_map f s) = String.length s.
Proof. induction s; simpl; auto. Qed.

Lemma lower_char_idemp c : lower_char (lower_char c) = lower_char c.
Proof. by destruct c as [[] [] [] [] [] [] [] []]. Qed.

Lemma lower_idemp s : lower (lower s) = lower s.
Proof.
  induction s as [|c s IH]; [done|]. unfold lower in *. simpl.
  by rewrite lower_char_idemp, IH.
Qed.

End strings.

(** ** Strings without a separator *)

Section free.
Implicit Types (s t : string) (c sep : ascii) (ws : list string).

(** The character [sep] does not occur in [s]. *)
Definition free_of (sep : ascii) (s : string) : Prop :=
  string_exists (λ c, bool_decide (c = sep)) s = false.

#[global] Instance free_of_dec sep s : Decision (free_of sep s).
Proof. unfold free_of. apply _. Defined.

Lemma free_of_app sep s t : free_of sep (s +:+ t) ↔ free_of sep s ∧ free_of sep t.
Proof.
  unfold free_of. induction s as [|c s IH]; [naive_solver|].
  rewrite app_cons. simpl. rewrite !orb_false_iff, IH. naive_solver.
Qed.

Lemma free_of_join sep c ws :
  c ≠ sep → Forall (free_of sep) ws → free_of sep (join_with c ws).
Proof.
  intros Hc. induction 1 as [|w ws Hw Hws IH]; [done|].
  destruct ws as [|w' ws]; [done|].
  change (join_with c (w :: w' :: ws))
    with (w +:+ String c (join_with c (w' :: ws))).
  apply free_of_app. split; [done|]. unfold free_of in *. cbn [string_exists].
  by rewrite bool_decide_eq_false_2, IH.
Qed.

(** Splitting the join of pieces without the separator gives the pieces
    back. *)
Lemma split_join sep ws :
  ws ≠ [] → Forall (free_of sep) ws → split_on sep (join_with sep ws) = ws.
Proof.
  intros Hne Hws. induction Hws as [|w ws Hw Hws IH]; [done|].
  destruct ws as [|w' ws]; [by apply split_on_none|].
  change (join_with sep (w :: w' :: ws))
    with (w +:+ String sep (join_with sep (w' :: ws))).
  rewrite split_on_app by done. f_equal. by apply IH.
Qed.

(** The pieces of a text of lines, each closed by the separator: the
    lines, and an empty piece at the end. *)
Lemma split_on_lines sep ws :
  Forall (free_of sep) ws →
  split_on sep (foldr (λ w t, w +:+ String sep t) EmptyString ws)
  = ws ++ [EmptyString].
Proof.
  induction 1 as [|w ws Hw Hws IH]; [done|]. simpl.
  by rewrite split_on_app, IH.
Qed.

End free.

(** ** What keeps a string free of a separator *)

Section free_more.
Implicit Types (s t : string) (c sep : ascii) (ws : list string).

Lemma free_of_cons sep c s : free_of sep (String c s) ↔ c ≠ sep ∧ free_of sep s.
Proof.
  unfold free_of. simpl. rewrite orb_false_iff, bool_decide_eq_false. done.
Qed.

Lemma free_of_lstrip sep s : free_of sep s → free_of sep (lstrip s).
Proof.
  induction s as [|c s IH]; [done|]. simpl. intros Hs.
  destruct (is_space c); [|done]. by apply IH, (free_of_cons sep c s).
Qed.

Lemma free_of_rstrip sep s : free_of sep s → free_of sep (rstrip s).
Proof.
  induction s as [|c s IH]; [done|]. intros [Hc Hs]%free_of_cons. simpl.
  specialize (IH Hs). destruct (rstrip s) as [|d t].
  - destruct (is_space c); [done|]. by apply free_of_cons.
  - by apply free_of_cons.
Qed.

Lemma free_of_strip sep s : free_of sep s → free_of sep (strip s).
Proof. intros. by apply free_of_lstrip, free_of_rstrip. Qed.

(** A map of characters that makes no separator keeps a string free of
    it. *)
Lemma free_of_string_map sep (f : ascii → ascii) s :
  (∀ c, f c = sep → c = sep) → free_of sep s → free_of sep (string_map f s).
Proof.
  intros Hf. induction s as [|c s IH]; [done|]. simpl.
  intros [Hc Hs]%free_of_cons. apply free_of_cons. split; [|by apply IH].
  intros ?%Hf. done.
Qed.

Lemma lower_char_sep sep c :
  sep = COMMA ∨ sep = NEWLINE → lower_char c = sep → c = sep.
Proof.
  intros [->| ->]; destruct c as [[] [] [] [] [] [] [] []]; by vm_compute.
Qed.

Lemma free_of_lower sep s :
  sep = COMMA ∨ sep = NEWLINE → free_of sep s → free_of sep (lower s).
Proof. intros. apply free_of_string_map; [|done]. intros c. by apply lower_char_sep. Qed.

Lemma free_of_replace_char sep c d s :
  d ≠ sep → free_of sep s → free_of sep (replace_char c d s).
Proof.
  intros Hd. apply free_of_string_map. intros x. by case_decide.
Qed.

(** The pieces of a split of a string without [c] are without [c]. *)
Lemma split_on_free sep c s :
  free_of c s → Forall (free_of c) (split_on sep s).
Proof.
  induction s as [|d s IH]; [by repeat constructor|].
  intros [Hd Hs]%free_of_cons. specialize (IH Hs). simpl.
  case_decide; [by constructor|].
  destruct (split_on sep s) as [|w ws]; [by repeat constructor; apply free_of_cons|].
  apply Forall_cons in IH as [Hw Hws]. constructor; [by apply free_of_cons|done].
Qed.

Lemma split_on_free_sep sep s : Forall (free_of sep) (split_on sep s).
Proof. apply split_on_no_sep. Qed.

(** The join of two pieces or more is not empty. *)
Lemma join_with_nonempty sep ws : 2 ≤ length ws → join_with sep ws ≠ "".
Proof.
  destruct ws as [|w [|w' ws]]; simpl; [lia..|]. intros _.
  change (w +:+ String sep (join_with sep (w' :: ws)) ≠ "").
  by intros [_ ?]%app_eq_nil.
Qed.

End free_more.
