(* ===== verification/Numbers.v ===== *)
(** * Numbers: numbers as pandas reads and writes them

    The texts that [pd.read_csv] and [pd.to_numeric] take as an integer
    or as a float, and the texts [DataFrame.to_csv] writes for them.
    Integers are decimal numerals with an optional sign; floats are
    decimal numerals with a point.  A float is the rational it denotes:
    exponents, infinities and the rounding of binary64 are not modelled,
    and [float_text] writes at most [FLOAT_DIGITS] digits after the
    point. *)

From Stdlib Require Import DecimalString DecimalPos DecimalZ DecimalFacts QArith Qcanon.
From S2P Require Import Prelude Strings.

(** ** Integers *)

(** A numeral without sign. *)
Definition parse_uint (s : string) : option Z :=
  (λ d, Z.of_int (Decimal.Pos d)) <$> NilZero.uint_of_string s.

(** A numeral with an optional sign. *)
Definition parse_int (s : string) : option Z :=
  match s with
  | String c s' =>
      if decide (c = "+"%char) then parse_uint s'
      else Z.of_int <$> NilZero.int_of_string s
  | EmptyString => None
  end.

(** [str(z)] *)
Definition int_text (z : Z) : string := NilZero.string_of_int (Z.to_int z).

(** ** Floats *)

(** The sign of a numeral and the rest of it. *)
Definition split_sign (s : string) : Z * string :=
  match s with
  | String c s' =>
      if decide (c = "-"%char) then ((-1)%Z, s')
      else if decide (c = "+"%char) then (1%Z, s')
      else (1%Z, s)
  | EmptyString => (1%Z, s)
  end.

(** The digits of an integer or fractional part; an empty part is 0. *)
Definition parse_part (s : string) : option Z :=
  if decide (s = "") then Some 0%Z else parse_uint s.

Definition decimal (sign n m : Z) (places : nat) : Qc :=
  Q2Qc (Qmake (sign * (n * 10 ^ Z.of_nat places + m))
          (Z.to_pos (10 ^ Z.of_nat places))).

(** A decimal numeral: digits, with at most one point and a digit at
    least. *)
Definition parse_float (s : string) : option Qc :=
  let '(sign, body) := split_sign s in
  match split_on DOT body with
  | [ip] => n ← parse_uint ip; Some (decimal sign n 0 0)
  | [ip; fp] =>
      if decide (ip = "" ∧ fp = "") then None
      else n ← parse_part ip; m ← parse_part fp;
           Some (decimal sign n m (String.length fp))
  | _ => None
  end.

Definition FLOAT_DIGITS : nat := 16.

(** The digits of [r / d] after the point, [r < d]: long division, until
    the remainder is 0 or [fuel] digits are written. *)
Fixpoint fraction_digits (fuel : nat) (r d : Z) : string :=
  match fuel with
  | 0 => EmptyString
  | S fuel' =>
      if decide (r = 0)%Z then EmptyString
      else int_text (r * 10 / d) +:+ fraction_digits fuel' (r * 10 mod d) d
  end.

(** [repr(q)]: the integer part, the point and a digit at least. *)
Definition float_text (q : Qc) : string :=
  let n := Qnum q in
  let d := Z.pos (Qden q) in
  let a := Z.abs n in
  let frac := fraction_digits FLOAT_DIGITS (a mod d) d in
  (if decide (n < 0)%Z then "-" else "") +:+ int_text (a / d) +:+ "."
  +:+ (if decide (frac = "") then "0" else frac).

(** ** Properties *)

Lemma to_int_norm z : Decimal.norm (Z.to_int z) = Z.to_int z.
Proof. by rewrite <-(of_to z) at 2; rewrite to_of. Qed.

Lemma to_int_nonnil z :
  Z.to_int z ≠ Decimal.Pos Decimal.Nil ∧ Z.to_int z ≠ Decimal.Neg Decimal.Nil.
Proof.
  destruct z as [|p|p]; simpl; split; try done; intros [= Hp];
    by apply DecimalPos.Unsigned.to_uint_nonnil in Hp.
Qed.

Lemma int_text_sign z :
  ∃ c s, int_text z = String c s ∧ c ≠ "+"%char.
Proof.
  unfold int_text. destruct z as [|p|p]; simpl; [by eexists _, _| |by eexists _, _].
  pose proof (DecimalPos.Unsigned.to_uint_nonnil p).
  unfold NilZero.string_of_uint. destruct (Pos.to_uint p); simpl; by eauto.
Qed.

(** Reading the text of an integer gives the integer back. *)
Lemma parse_int_text z : parse_int (int_text z) = Some z.
Proof.
  destruct (int_text_sign z) as (c & s & Hz & Hc). unfold parse_int.
  rewrite Hz, decide_False, <-Hz by done. unfold int_text.
  destruct (to_int_nonnil z). rewrite NilZero.isi by done. simpl.
  by rewrite of_to.
Qed.

(** The text of an integer that was read is its numeral, up to the sign
    [+] and to leading zeros. *)
Lemma parse_int_inj s z :
  parse_int s = Some z → parse_int (int_text z) = parse_int s.
Proof. intros ->. apply parse_int_text. Qed.

Lemma int_text_inj z1 z2 : int_text z1 = int_text z2 → z1 = z2.
Proof.
  intros Heq. apply (f_equal parse_int) in Heq.
  rewrite !parse_int_text in Heq. congruence.
Qed.

(** ** The characters of the texts of numbers *)

(** A digit, a sign or a point. *)
Definition numeric_char (c : ascii) : bool :=
  is_digit c || bool_decide (c = "-"%char) || bool_decide (c = DOT).

Section characters.
Implicit Types (s t : string) (p : ascii → bool).

Lemma string_forall_app p s t :
  string_forall p (s +:+ t) = string_forall p s && string_forall p t.
Proof.
  induction s as [|c s IH]; [done|]. rewrite app_cons. simpl.
  by rewrite IH, andb_assoc.
Qed.

(** A string of characters of [p] is free of a character that is not. *)
Lemma string_forall_free_of p sep s :
  p sep = false → string_forall p s = true → free_of sep s.
Proof.
  intros Hsep. unfold free_of. induction s as [|c s IH]; [done|]. simpl.
  intros [Hc Hs]%andb_prop. rewrite IH by done.
  rewrite bool_decide_eq_false_2; [done|]. intros ->. congruence.
Qed.

Lemma string_of_uint_chars d :
  string_forall numeric_char (NilEmpty.string_of_uint d) = true.
Proof. induction d; simpl; by rewrite ?IHd. Qed.

Lemma int_text_chars z : string_forall numeric_char (int_text z) = true.
Proof.
  unfold int_text, NilZero.string_of_int, NilZero.string_of_uint.
  destruct (Z.to_int z) as [d|d]; destruct d; try done;
    simpl; by rewrite ?string_of_uint_chars.
Qed.

Lemma fraction_digits_chars fuel r d :
  string_forall numeric_char (fraction_digits fuel r d) = true.
Proof.
  revert r. induction fuel as [|fuel IH]; intros r; [done|]. simpl.
  case_decide; [done|]. by rewrite string_forall_app, int_text_chars, IH.
Qed.

Lemma float_text_chars q : string_forall numeric_char (float_text q) = true.
Proof.
  unfold float_text.
  pose proof (fraction_digits_chars FLOAT_DIGITS
                (Z.abs (Qnum q) mod Z.pos (Qden q)) (Z.pos (Qden q))) as Hfrac.
  revert Hfrac. generalize (fraction_digits FLOAT_DIGITS
                (Z.abs (Qnum q) mod Z.pos (Qden q)) (Z.pos (Qden q))).
  intros frac Hfrac. rewrite !string_forall_app, int_text_chars.
  destruct (decide (Qnum q < 0)%Z), (decide (frac = "")); by rewrite ?Hfrac.
Qed.

End characters.

(** The text of a number holds neither comma nor line feed. *)
Lemma numeric_free_of (sep : ascii) (s : string) :
  sep = COMMA ∨ sep = NEWLINE → string_forall numeric_char s = true → free_of sep s.
Proof. intros [->| ->]; by apply string_forall_free_of. Qed.

Lemma int_text_free sep z : sep = COMMA ∨ sep = NEWLINE → free_of sep (int_text z).
Proof. intros. by apply numeric_free_of, int_text_chars. Qed.

Lemma float_text_free sep q : sep = COMMA ∨ sep = NEWLINE → free_of sep (float_text q).
Proof. intros. by apply numeric_free_of, float_text_chars. Qed.
