(* ===== verification/Regex.v ===== *)
(** * Regex: the regular expressions of the validators

    The patterns that [re.match] and [re.search] are given in
    src/server/controllers/user_controller.py are regular: classes of
    characters, concatenation, alternation and repetition.  [matches] decides
    whether a whole string belongs to the language of a pattern, by
    Brzozowski derivatives; [in_lang] is the language, and
    [matches_in_lang] shows that [matches] decides it. *)

From S2P Require Import Prelude Strings.

Inductive regex : Type :=
  | Void
  | Eps
  | Class (p : ascii → bool)
  | Cat (r1 r2 : regex)
  | Alt (r1 r2 : regex)
  | Star (r : regex).

(** [r+], [r?] and a single character. *)
Definition Plus (r : regex) : regex := Cat r (Star r).
Definition Opt (r : regex) : regex := Alt Eps r.
Definition Chr (c : ascii) : regex := Class (λ x, bool_decide (x = c)).

(** The language of a pattern. *)
Inductive in_lang : regex → string → Prop :=
  | in_eps : in_lang Eps EmptyString
  | in_class p c : p c = true → in_lang (Class p) (String c EmptyString)
  | in_cat r1 r2 s1 s2 :
      in_lang r1 s1 → in_lang r2 s2 → in_lang (Cat r1 r2) (s1 +:+ s2)
  | in_alt_l r1 r2 s : in_lang r1 s → in_lang (Alt r1 r2) s
  | in_alt_r r1 r2 s : in_lang r2 s → in_lang (Alt r1 r2) s
  | in_star_nil r : in_lang (Star r) EmptyString
  | in_star_cons r s1 s2 :
      in_lang r s1 → in_lang (Star r) s2 → in_lang (Star r) (s1 +:+ s2).

(** Whether the empty string belongs to the language. *)
Fixpoint nullable (r : regex) : bool :=
  match r with
  | Void | Class _ => false
  | Eps | Star _ => true
  | Cat r1 r2 => nullable r1 && nullable r2
  | Alt r1 r2 => nullable r1 || nullable r2
  end.

(** The derivative: the strings [s] such that [c s] is in the language. *)
Fixpoint deriv (c : ascii) (r : regex) : regex :=
  match r with
  | Void | Eps => Void
  | Class p => if p c then Eps else Void
  | Cat r1 r2 =>
      if nullable r1 then Alt (Cat (deriv c r1) r2) (deriv c r2)
      else Cat (deriv c r1) r2
  | Alt r1 r2 => Alt (deriv c r1) (deriv c r2)
  | Star r => Cat (deriv c r) (Star r)
  end.

(** [re.fullmatch(r, s) is not None] *)
Fixpoint matches (r : regex) (s : string) : bool :=
  match s with
  | EmptyString => nullable r
  | String c s' => matches (deriv c r) s'
  end.

(** ** Correctness of the matcher *)

#[export] Hint Constructors in_lang : dc.

Section regex.
Implicit Types (r : regex) (s t : string) (c : ascii).

(** Inversion of the language, constructor by constructor. *)
Lemma in_lang_void s : ¬ in_lang Void s.
Proof. inversion 1. Qed.

Lemma in_lang_eps s : in_lang Eps s ↔ s = EmptyString.
Proof. split; [by inversion 1|intros ->; constructor]. Qed.

Lemma in_lang_class p s :
  in_lang (Class p) s ↔ ∃ c, s = String c EmptyString ∧ p c = true.
Proof.
  split; [inversion 1; subst; eauto|]. intros (c & -> & ?). by constructor.
Qed.

Lemma in_lang_cat r1 r2 s :
  in_lang (Cat r1 r2) s ↔ ∃ s1 s2, s = s1 +:+ s2 ∧ in_lang r1 s1 ∧ in_lang r2 s2.
Proof.
  split; [inversion 1; subst; eauto|].
  intros (s1 & s2 & -> & ? & ?). by constructor.
Qed.

Lemma in_lang_alt r1 r2 s : in_lang (Alt r1 r2) s ↔ in_lang r1 s ∨ in_lang r2 s.
Proof. split; [inversion 1; subst; auto|intros [?|?]; eauto with dc]. Qed.

Lemma in_lang_chr c s : in_lang (Chr c) s ↔ s = String c EmptyString.
Proof.
  unfold Chr. rewrite in_lang_class. split.
  - by intros (d & -> & ->%bool_decide_eq_true).
  - intros ->. exists c. by rewrite bool_decide_eq_true.
Qed.

Lemma nullable_in_lang r : nullable r = true ↔ in_lang r EmptyString.
Proof.
  induction r as [| |p|r1 IH1 r2 IH2|r1 IH1 r2 IH2|r IH]; simpl.
  - split; [done|by intros ?%in_lang_void].
  - split; [constructor|done].
  - split; [done|by intros (c & ? & _)%in_lang_class].
  - rewrite andb_true_iff, IH1, IH2, in_lang_cat. split.
    + intros [??]. by exists EmptyString, EmptyString.
    + by intros (s1 & s2 & [-> ->]%eq_sym%app_eq_nil & ? & ?).
  - by rewrite orb_true_iff, IH1, IH2, in_lang_alt.
  - split; [constructor|done].
Qed.

(** A non-empty string of [r*] starts with a non-empty string of [r]. *)
Lemma in_star_inv r c s :
  in_lang (Star r) (String c s) →
  ∃ s1 s2, s = s1 +:+ s2 ∧ in_lang r (String c s1) ∧ in_lang (Star r) s2.
Proof.
  remember (Star r) as r' eqn:Hr. remember (String c s) as t eqn:Ht.
  induction 1 as [| | | | | |r0 s1 s2 H1 _ H2 IH]; simplify_eq.
  destruct s1 as [|c1 s1]; [by apply IH|].
  rewrite app_cons in Ht. simplify_eq. eauto.
Qed.

(** The derivative of a concatenation, whatever [nullable] says. *)
Lemma in_lang_deriv_cat c r1 r2 s :
  in_lang (deriv c (Cat r1 r2)) s ↔
  in_lang (Cat (deriv c r1) r2) s ∨ (nullable r1 = true ∧ in_lang (deriv c r2) s).
Proof.
  simpl. destruct (nullable r1); [rewrite in_lang_alt|]; naive_solver.
Qed.

Lemma deriv_in_lang c r s : in_lang (deriv c r) s ↔ in_lang r (String c s).
Proof.
  revert s. induction r as [| |p|r1 IH1 r2 IH2|r1 IH1 r2 IH2|r IH]; intros s.
  - simpl. split; by intros ?%in_lang_void.
  - simpl. split; [by intros ?%in_lang_void|by intros ?%in_lang_eps].
  - simpl. rewrite in_lang_class. destruct (p c) eqn:Hp.
    + rewrite in_lang_eps. naive_solver.
    + split; [by intros ?%in_lang_void|]. intros (d & ? & ?). congruence.
  - rewrite in_lang_deriv_cat, nullable_in_lang, !in_lang_cat. split.
    + intros [(s1 & s2 & -> & ?%IH1 & ?)|[? ?%IH2]].
      * by exists (String c s1), s2.
      * by exists EmptyString, (String c s).
    + intros (s1 & s2 & Heq & H1 & H2). destruct s1 as [|c1 s1].
      * rewrite app_nil_l in Heq. subst. right. by rewrite IH2.
      * rewrite app_cons in Heq. simplify_eq. left. exists s1, s2. by rewrite IH1.
  - simpl. by rewrite !in_lang_alt, IH1, IH2.
  - simpl. rewrite in_lang_cat. split.
    + intros (s1 & s2 & -> & ?%IH & ?). rewrite <-app_cons. by constructor.
    + intros (s1 & s2 & -> & ? & ?)%in_star_inv. exists s1, s2. by rewrite IH.
Qed.

(** [matches] decides the language. *)
Theorem matches_in_lang r s : matches r s = true ↔ in_lang r s.
Proof.
  revert r. induction s as [|c s IH]; intros r; simpl.
  - apply nullable_in_lang.
  - by rewrite IH, deriv_in_lang.
Qed.

(** The strings of a repeated class are the strings of its characters. *)
Lemma in_lang_star_class p s :
  in_lang (Star (Class p)) s ↔ string_forall p s = true.
Proof.
  split.
  - remember (Star (Class p)) as r eqn:Hr.
    induction 1 as [| | | | | |r0 s1 s2 H1 _ H2 IH]; simplify_eq; [done|].
    apply in_lang_class in H1 as (c & -> & Hc).
    rewrite app_cons, app_nil_l. simpl. by rewrite Hc, IH.
  - induction s as [|c s IH]; simpl; [eauto with dc|].
    intros [Hc Hs]%andb_prop. apply (in_star_cons _ (String c "")); eauto with dc.
Qed.

Lemma in_lang_plus_class p s :
  in_lang (Plus (Class p)) s ↔ s ≠ EmptyString ∧ string_forall p s = true.
Proof.
  unfold Plus. rewrite in_lang_cat. split.
  - intros (s1 & s2 & -> & (c & -> & Hc)%in_lang_class & Hs%in_lang_star_class).
    split; [done|]. rewrite app_cons, app_nil_l. simpl. by rewrite Hc, Hs.
  - intros [Hne Hs]. destruct s as [|c s]; [done|]. simpl in Hs.
    apply andb_prop in Hs as [Hc Hs]. exists (String c ""), s.
    split_and!; [done|by constructor|by apply in_lang_star_class].
Qed.

Lemma in_lang_cat_plus_class p r s :
  in_lang (Cat (Plus (Class p)) r) s ↔
  ∃ s1 s2, s = s1 +:+ s2 ∧ s1 ≠ "" ∧ string_forall p s1 = true ∧ in_lang r s2.
Proof.
  rewrite in_lang_cat. by setoid_rewrite in_lang_plus_class; naive_solver.
Qed.

Lemma in_lang_cat_chr c r s :
  in_lang (Cat (Chr c) r) s ↔ ∃ s2, s = String c s2 ∧ in_lang r s2.
Proof.
  rewrite in_lang_cat. setoid_rewrite in_lang_chr. split.
  - intros (? & s2 & -> & -> & ?). by exists s2.
  - intros (s2 & -> & ?). by exists (String c ""), s2.
Qed.

(** [re.search] of a class: some character of the string is in it. *)
Lemma string_exists_split p s :
  string_exists p s = true ↔
  ∃ s1 c s2, s = s1 +:+ String c s2 ∧ p c = true.
Proof.
  split.
  - induction s as [|c s IH]; simpl; [done|].
    intros [Hc|Hs]%orb_prop; [by exists EmptyString, c, s|].
    destruct (IH Hs) as (s1 & d & s2 & -> & Hd).
    by exists (String c s1), d, s2.
  - intros (s1 & c & s2 & -> & Hc).
    induction s1 as [|d s1 IH]; [rewrite app_nil_l|rewrite app_cons]; simpl.
    + by rewrite Hc.
    + rewrite IH. apply orb_true_r.
Qed.

End regex.
