(* ===== verification/Value.v ===== *)
(** * Value: the Value Normalizer

    The Python values a DataFrame cell or a report field can hold, the
    missing-value test [pd.isna] and [safe_convert_value]
    (src/server/controllers/csv_controller.py, lines 59-72), which maps a
    numpy/pandas value to a JSON-serializable Python value.

    [py_value] has one constructor per class the [isinstance] chain of
    [safe_convert_value] tells apart, so that every branch of the chain is
    a branch of the model.  An object of any other class is a [PyObject]
    carrying its [str()]. *)

From stdpp Require Import pretty.
From Stdlib Require Import QArith Qcanon.
From S2P Require Import Prelude.

(** ** Values *)

(** The scalars an [ndarray] holds, and that [ndarray.tolist()] returns
    as Python scalars. *)
Inductive atom : Type :=
  | ANaN
  | AInt (z : Z)
  | AFloat (q : Qc)
  | ABool (b : bool)
  | AStr (s : string).

Inductive py_value : Type :=
  | PyNone
  | PyNaN
  | NpInt (z : Z)
  | NpFloat (q : Qc)
  | NpArray (items : list atom)
  | NpBool (b : bool)
  | PyBool (b : bool)
  | PyInt (z : Z)
  | PyStr (s : string)
  | PyObject (repr : string).

(** What [safe_convert_value] returns: [None], [int], [float], [list],
    [bool] or [str]. *)
Inductive json : Type :=
  | JNull
  | JInt (z : Z)
  | JFloat (q : Qc)
  | JList (items : list atom)
  | JBool (b : bool)
  | JStr (s : string).

#[global] Instance atom_eq_dec : EqDecision atom.
Proof. solve_decision. Defined.
#[global] Instance py_value_eq_dec : EqDecision py_value.
Proof. solve_decision. Defined.
#[global] Instance json_eq_dec : EqDecision json.
Proof. solve_decision. Defined.

(** ** [pd.isna] *)

(** [pd.isna] of a scalar is a [bool], of an array the array of the tests
    of its items. *)
Inductive isna_result : Type :=
  | IsnaScalar (b : bool)
  | IsnaArray (bs : list bool).

Definition atom_isna (a : atom) : bool :=
  match a with ANaN => true | _ => false end.

Definition pd_isna (v : py_value) : isna_result :=
  match v with
  | PyNone | PyNaN => IsnaScalar true
  | NpArray items => IsnaArray (atom_isna <$> items)
  | _ => IsnaScalar false
  end.

(** The truth value that [if pd.isna(value):] takes.  An array of one
    item has the truth value of the item; the truth value of any other
    array is a [ValueError] (of the empty array too, since NumPy 2.2). *)
Definition truth (r : isna_result) : result bool :=
  match r with
  | IsnaScalar b => Ok b
  | IsnaArray [b] => Ok b
  | IsnaArray _ =>
      Raise (ValueError "The truth value of an array is ambiguous")
  end.

(** ** [safe_convert_value] *)

Definition safe_convert_value (value : py_value) : result json :=
  na ← truth (pd_isna value);
  if (na : bool) then Ok JNull
  else match value with
       | NpInt z => Ok (JInt z)
       | NpFloat q => Ok (JFloat q)
       | NpArray items => Ok (JList items)
       | NpBool b | PyBool b => Ok (JBool b)
       | PyInt z => Ok (JStr (pretty z))
       | PyStr s => Ok (JStr s)
       | PyObject repr => Ok (JStr repr)
       | PyNone => Ok (JStr "None")
       | PyNaN => Ok (JStr "nan")
       end.

(** The values [safe_convert_value] is meant for: everything but arrays. *)
Definition is_scalar (v : py_value) : bool :=
  match v with NpArray _ => false | _ => true end.

(** A value is missing when [pd.isna] holds of it. *)
Definition is_missing (v : py_value) : bool :=
  match v with PyNone | PyNaN => true | _ => false end.

(** The JSON value of a value that converts. *)
Definition json_of (v : py_value) : json :=
  try (safe_convert_value v) except (λ _, JNull).

(** ** Properties *)

Lemma pd_isna_scalar v :
  is_scalar v = true → pd_isna v = IsnaScalar (is_missing v).
Proof. by destruct v. Qed.

Lemma truth_array_ambiguous bs :
  length bs ≠ 1 → ∃ e, truth (IsnaArray bs) = Raise e.
Proof. destruct bs as [|? [|??]]; naive_solver. Qed.

Lemma safe_convert_value_scalar v :
  is_scalar v = true → safe_convert_value v = Ok (json_of v).
Proof. unfold json_of. by destruct v. Qed.

Lemma json_of_null v :
  is_scalar v = true → json_of v = JNull ↔ is_missing v = true.
Proof. by destruct v. Qed.

(** C33: on every value that is not an array, [safe_convert_value] returns
    and never raises; the result is [None] exactly when the value is
    missing. *)
Theorem safe_convert_value_scalar_total v :
  is_scalar v = true →
  ∃ j, safe_convert_value v = Ok j ∧ (j = JNull ↔ is_missing v = true).
Proof.
  intros Hv. exists (json_of v).
  split; [by apply safe_convert_value_scalar|by apply json_of_null].
Qed.

Lemma safe_convert_value_scalar_total_witness :
  is_scalar (NpInt 7) = true ∧
  ∃ j, safe_convert_value (NpInt 7) = Ok j
       ∧ (j = JNull ↔ is_missing (NpInt 7) = true).
Proof.
  split; [reflexivity|].
  apply (safe_convert_value_scalar_total (NpInt 7)). reflexivity.
Defined.

(** C34: on an array that does not have exactly one item the test
    [if pd.isna(value)] raises, so [safe_convert_value] raises a
    [ValueError] instead of returning the list. *)
Theorem safe_convert_value_array_raises items :
  length items ≠ 1 →
  ∃ msg, safe_convert_value (NpArray items) = Raise (ValueError msg).
Proof.
  intros Hlen. unfold safe_convert_value. simpl.
  destruct items as [|a [|b items]]; simpl in *; [eauto|lia|eauto].
Qed.

Lemma safe_convert_value_array_raises_witness :
  length [AInt 1; AInt 2] ≠ 1 ∧
  ∃ msg, safe_convert_value (NpArray [AInt 1; AInt 2]) = Raise (ValueError msg).
Proof.
  split; [simpl; lia|].
  apply (safe_convert_value_array_raises [AInt 1; AInt 2]). simpl. lia.
Defined.

(** An array of one item is returned as a list, unless the item is
    missing. *)
Lemma safe_convert_value_array_one a :
  safe_convert_value (NpArray [a]) =
  Ok (if atom_isna a then JNull else JList [a]).
Proof. by destruct a. Qed.

(** A string is returned as it is. *)
Lemma safe_convert_value_str s : safe_convert_value (PyStr s) = Ok (JStr s).
Proof. done. Qed.

Lemma safe_convert_value_nan : safe_convert_value PyNaN = Ok JNull.
Proof. done. Qed.

(** A Python [int] is no [np.integer]: it takes the last branch and comes
    back as its decimal string. *)
Lemma safe_convert_value_py_int z :
  safe_convert_value (PyInt z) = Ok (JStr (pretty z)).
Proof. done. Qed.

Lemma safe_convert_value_np_int z :
  safe_convert_value (NpInt z) = Ok (JInt z).
Proof. done. Qed.

(** The conversion keeps apart the strings it is given. *)
Lemma safe_convert_value_str_inj s1 s2 :
  safe_convert_value (PyStr s1) = safe_convert_value (PyStr s2) → s1 = s2.
Proof. rewrite !safe_convert_value_str. congruence. Qed.

#[export] Hint Rewrite safe_convert_value_str safe_convert_value_nan
  safe_convert_value_np_int safe_convert_value_py_int : dc_rw.
