(* ===== verification/Frame.v ===== *)
(** * Frame: the pandas objects the engine works on

    A [frame] is a [DataFrame] (the RowBatch of the specification): the
    list of its column names and its rows, every row a list of cells in
    column order.  A [series] is a column.  The operations are those the
    sources call on them: [len], [df[col]], [isnull], [sum], [dropna],
    [head], and the sum of the values of a dict of counts.  They are
    pandas code, modelled from its documented behaviour. *)

From S2P Require Import Prelude Value.

(** ** Data *)

Abbreviation series := (list py_value).

(** The dtype of a column. *)
Inductive dtype : Type := Int64 | Float64 | Bool | Object.

Record frame : Type := Frame {
  columns : list string;
  dtypes : list dtype;
  rows : list (list py_value);
}.

#[global] Instance dtype_eq_dec : EqDecision dtype.
Proof. solve_decision. Defined.
#[global] Instance frame_eq_dec : EqDecision frame.
Proof. solve_decision. Defined.

(** [str(dtype)] *)
Definition dtype_str (d : dtype) : string :=
  match d with
  | Int64 => "int64"
  | Float64 => "float64"
  | Bool => "bool"
  | Object => "object"
  end.

(** Column names are distinct, every column has a dtype and every row a
    cell per column. *)
Definition frame_wf (df : frame) : Prop :=
  NoDup (columns df) ∧ length (dtypes df) = length (columns df) ∧
  Forall (λ r, length r = length (columns df)) (rows df).

#[global] Instance frame_wf_dec df : Decision (frame_wf df).
Proof. unfold frame_wf. apply _. Defined.

(** ** Operations *)

(** [len(df)] *)
Definition len (df : frame) : nat := length (rows df).

(** The position of a column name. *)
Definition col_index (cols : list string) (col : string) : option nat :=
  fst <$> list_find (λ c, c = col) cols.

(** The cell of a row at a position; a cell a row lacks reads as NaN. *)
Definition cell (i : nat) (row : list py_value) : py_value :=
  default PyNaN (row !! i).

(** The column at a position. *)
Definition column (i : nat) (rs : list (list py_value)) : series :=
  cell i <$> rs.

(** [df[col]]: a [KeyError] when [df] has no such column. *)
Definition getitem (df : frame) (col : string) : result series :=
  match col_index (columns df) col with
  | Some i => Ok (column i (rows df))
  | None => Raise (KeyError col)
  end.

(** [df[col].dtype] *)
Definition getdtype (df : frame) (col : string) : result dtype :=
  match col_index (columns df) col with
  | Some i => Ok (default Object (dtypes df !! i))
  | None => Raise (KeyError col)
  end.

(** [d[key]] on a dict. *)
Definition dict_get {V} (d : gmap string V) (key : string) : result V :=
  match d !! key with
  | Some v => Ok v
  | None => Raise (KeyError key)
  end.

(** [s.isnull()] *)
Definition isnull (s : series) : list bool := is_missing <$> s.

(** [int(s.isnull().sum())] *)
Definition count_missing (s : series) : nat := count_true (isnull s).

(** [s.dropna()] *)
Definition dropna (s : series) : series :=
  filter (λ v, is_missing v = false) s.

(** [s.head(n)] and the slice [s[:n]] *)
Definition head (n : nat) (s : series) : series := take n s.

(** [{key: f(key) for key in keys}] *)
Definition dict_of_keys {V} (f : string → V) (keys : list string)
    : gmap string V :=
  list_to_map ((λ k, (k, f k)) <$> keys).

(** [sum(d.values())] of a dict of counts. *)
Definition dict_sum (d : gmap string nat) : nat :=
  map_fold (λ _ v acc, acc + v) 0 d.

(** The frame with the columns and types of [df] and the rows [rs]. *)
Definition with_rows (df : frame) (rs : list (list py_value)) : frame :=
  {| columns := columns df; dtypes := dtypes df; rows := rs |}.

(** ** Columns *)

Section columns.
Implicit Types (cols : list string) (col : string) (i : nat).
Implicit Types (rs : list (list py_value)) (s : series) (df : frame).

Lemma col_index_Some cols col i :
  col_index cols col = Some i → cols !! i = Some col.
Proof.
  unfold col_index. intros Hf.
  destruct (list_find _ cols) as [[j c]|] eqn:Hfind; simplify_eq /=.
  apply list_find_Some in Hfind. naive_solver.
Qed.

Lemma col_index_None cols col : col_index cols col = None ↔ col ∉ cols.
Proof.
  unfold col_index. rewrite fmap_None, list_find_None, Forall_forall.
  naive_solver.
Qed.

Lemma col_index_lookup cols col i :
  NoDup cols → cols !! i = Some col → col_index cols col = Some i.
Proof.
  intros Hnd Hi. unfold col_index.
  destruct (list_find _ cols) as [[j c]|] eqn:Hfind; simpl.
  - apply list_find_Some in Hfind as (Hj & -> & _).
    f_equal. by eapply NoDup_lookup.
  - apply list_find_None, Forall_forall with (x := col) in Hfind; [done|].
    by eapply list_elem_of_lookup_2.
Qed.

Lemma col_index_lt cols col i : col_index cols col = Some i → i < length cols.
Proof. intros ?%col_index_Some. by eapply lookup_lt_Some. Qed.

Lemma getitem_Ok df col s :
  getitem df col = Ok s ↔
  ∃ i, col_index (columns df) col = Some i ∧ s = column i (rows df).
Proof. unfold getitem. case_match; naive_solver. Qed.

Lemma getitem_Raise df col e :
  getitem df col = Raise e ↔ (col ∉ columns df) ∧ e = KeyError col.
Proof.
  unfold getitem. rewrite <-col_index_None. case_match; naive_solver.
Qed.

Lemma getitem_with_rows df rs col i :
  col_index (columns df) col = Some i →
  getitem (with_rows df rs) col = Ok (column i rs).
Proof. intros Hi. unfold getitem. simpl. by rewrite Hi. Qed.


Lemma with_rows_wf df rs :
  frame_wf df → Forall (λ r, length r = length (columns df)) rs →
  frame_wf (with_rows df rs).
Proof. intros (? & ? & _) ?. by split_and!. Qed.

Lemma column_app i rs1 rs2 : column i (rs1 ++ rs2) = column i rs1 ++ column i rs2.
Proof. apply fmap_app. Qed.

Lemma column_length i rs : length (column i rs) = length rs.
Proof. apply length_fmap. Qed.

Lemma column_take i n rs : column i (take n rs) = take n (column i rs).
Proof. apply fmap_take. Qed.

Lemma column_drop i n rs : column i (drop n rs) = drop n (column i rs).
Proof. apply fmap_drop. Qed.

End columns.

(** ** Missing values *)

Section missing.
Implicit Types (s : series) (rs : list (list py_value)).

Lemma count_true_app bs1 bs2 :
  count_true (bs1 ++ bs2) = count_true bs1 + count_true bs2.
Proof. unfold count_true. by rewrite filter_app, length_app. Qed.

Lemma count_true_le bs : count_true bs ≤ length bs.
Proof. apply length_filter. Qed.

Lemma count_missing_nil : count_missing [] = 0.
Proof. done. Qed.

Lemma count_missing_cons v s :
  count_missing (v :: s) = (if is_missing v then 1 else 0) + count_missing s.
Proof. unfold count_missing, isnull. by rewrite fmap_cons, count_true_cons. Qed.

Lemma count_missing_app s1 s2 :
  count_missing (s1 ++ s2) = count_missing s1 + count_missing s2.
Proof. unfold count_missing, isnull. by rewrite fmap_app, count_true_app. Qed.

Lemma count_missing_le s : count_missing s ≤ length s.
Proof.
  unfold count_missing, isnull. etrans; [apply count_true_le|].
  by rewrite length_fmap.
Qed.

Lemma dropna_app s1 s2 : dropna (s1 ++ s2) = dropna s1 ++ dropna s2.
Proof. apply filter_app. Qed.

Lemma dropna_not_missing s v : v ∈ dropna s → is_missing v = false.
Proof. unfold dropna. by intros [? _]%list_elem_of_filter. Qed.

Lemma dropna_cons v s :
  dropna (v :: s) = if is_missing v then dropna s else v :: dropna s.
Proof. unfold dropna. rewrite filter_cons. destruct (is_missing v); by case_decide. Qed.

Lemma dropna_length s : length (dropna s) + count_missing s = length s.
Proof.
  induction s as [|v s IH]; [done|].
  rewrite count_missing_cons, dropna_cons. destruct (is_missing v); simpl; lia.
Qed.

Lemma dropna_no_missing s : count_missing s = 0 → dropna s = s.
Proof.
  induction s as [|v s IH]; [done|]. rewrite count_missing_cons, dropna_cons.
  destruct (is_missing v); [lia|]. intros. f_equal. by apply IH.
Qed.

Lemma dropna_idemp s : dropna (dropna s) = dropna s.
Proof.
  induction s as [|v s IH]; [done|]. rewrite dropna_cons.
  destruct (is_missing v) eqn:Hv; [done|]. by rewrite dropna_cons, Hv, IH.
Qed.

Lemma sum_list_fmap_add {A} (f g : A → nat) (l : list A) :
  sum_list ((λ x, f x + g x) <$> l) = sum_list (f <$> l) + sum_list (g <$> l).
Proof. induction l as [|x l IH]; csimpl; lia. Qed.

Lemma count_missing_cells r :
  sum_list ((λ i, if is_missing (cell i r) then 1 else 0) <$> seq 0 (length r))
  = count_missing r.
Proof.
  induction r as [|v r IH]; [done|].
  rewrite count_missing_cons, <-IH. simpl. f_equal.
  by rewrite <-fmap_S_seq, <-list_fmap_compose.
Qed.

(** Counting the missing cells of a table by columns or by rows gives the
    same number. *)
Lemma count_missing_columns n rs :
  Forall (λ r, length r = n) rs →
  sum_list ((λ i, count_missing (column i rs)) <$> seq 0 n)
  = sum_list (count_missing <$> rs).
Proof.
  induction 1 as [|r rs Hr _ IH].
  { simpl. by rewrite sum_list_fmap_const, Nat.mul_0_r. }
  rewrite fmap_cons. simpl.
  rewrite <-IH, <-(count_missing_cells r), Hr, <-sum_list_fmap_add.
  f_equal. apply list_fmap_ext. intros _ i _. apply count_missing_cons.
Qed.

End missing.

(** ** Dicts *)

Section dict.
Context {V : Type}.
Implicit Types (d : gmap string V) (f g : string → V).
Implicit Types (keys : list string) (k : string).

Lemma dict_get_Ok d k v : dict_get d k = Ok v ↔ d !! k = Some v.
Proof. unfold dict_get. case_match; naive_solver. Qed.

Lemma lookup_dict_of_keys f keys k :
  dict_of_keys f keys !! k = if decide (k ∈ keys) then Some (f k) else None.
Proof.
  unfold dict_of_keys. induction keys as [|k' keys IH]; csimpl.
  { rewrite lookup_empty. destruct (decide (k ∈ [])); [set_solver|done]. }
  destruct (decide (k' = k)) as [->|Hne].
  - by rewrite lookup_insert_eq, decide_True by set_solver.
  - rewrite lookup_insert_ne, IH by done.
    repeat case_decide; set_solver.
Qed.

Lemma lookup_dict_of_keys_Some f keys k :
  k ∈ keys → dict_of_keys f keys !! k = Some (f k).
Proof. intros. by rewrite lookup_dict_of_keys, decide_True. Qed.

Lemma dict_get_dict_of_keys f keys k :
  k ∈ keys → dict_get (dict_of_keys f keys) k = Ok (f k).
Proof. intros. unfold dict_get. by rewrite lookup_dict_of_keys_Some. Qed.

Lemma dict_of_keys_ext f g keys :
  (∀ k, k ∈ keys → f k = g k) → dict_of_keys f keys = dict_of_keys g keys.
Proof.
  intros Hfg. apply map_eq. intros k. rewrite !lookup_dict_of_keys.
  case_decide; [|done]. f_equal. by apply Hfg.
Qed.

Lemma dict_of_keys_insert f keys k v :
  k ∈ keys →
  <[k := v]> (dict_of_keys f keys) = dict_of_keys (<[k := v]> f) keys.
Proof.
  intros Hk. apply map_eq. intros k'. rewrite lookup_dict_of_keys.
  destruct (decide (k = k')) as [->|Hne].
  - by rewrite lookup_insert_eq, decide_True, fn_lookup_insert.
  - by rewrite lookup_insert_ne, fn_lookup_insert_ne, lookup_dict_of_keys.
Qed.

Lemma dict_of_keys_lookup_inv f keys k v :
  dict_of_keys f keys !! k = Some v → k ∈ keys ∧ v = f k.
Proof. rewrite lookup_dict_of_keys. case_decide; naive_solver. Qed.

End dict.

Lemma fmap_dict_of_keys {V W} (h : V → W) (f : string → V) keys :
  h <$> dict_of_keys f keys = dict_of_keys (h ∘ f) keys.
Proof.
  apply map_eq. intros k. rewrite lookup_fmap, !lookup_dict_of_keys.
  by destruct (decide (k ∈ keys)).
Qed.

Lemma dict_sum_insert (d : gmap string nat) k n :
  d !! k = None → dict_sum (<[k := n]> d) = dict_sum d + n.
Proof.
  intros. unfold dict_sum. rewrite map_fold_insert_L; [done| |done].
  intros. lia.
Qed.

(** The sum of the values of a dict built from distinct keys. *)
Lemma dict_sum_dict_of_keys (f : string → nat) keys :
  NoDup keys → dict_sum (dict_of_keys f keys) = sum_list (f <$> keys).
Proof.
  induction 1 as [|k keys Hk _ IH]; csimpl; [done|].
  unfold dict_of_keys in *. csimpl. rewrite dict_sum_insert, IH; [lia|].
  apply not_elem_of_list_to_map_1. rewrite <-list_fmap_compose. simpl.
  by rewrite list_fmap_id.
Qed.
