(* ===== verification/Reader.v ===== *)
(** * Reader: the Chunked Reader

    [pd.read_csv] as the engine calls it with [dtype=str]: the file is a
    header line and data lines, cells separated by commas; every cell is
    read as text, an NA marker as NaN.  A data line whose number of cells
    differs from the header's is malformed: a strict read raises
    [ParserError] on it, a lenient read ([on_bad_lines="skip"]) leaves it
    out.  [read_csv_chunks] is the iterator [chunksize=] gives: the chunks
    are parsed one by one as they are asked for, so a malformed line
    raises when its chunk is reached.

    [read_csv_typed] is the reader without [dtype=]: the types of the
    columns are inferred, in each chunk on its own.  [to_csv] writes a
    frame.

    This is pandas code: the definitions follow sections 4.1 and 6 of the
    specification.  Quoted fields are not modelled, and a column of truth
    values with NA markers is read as text. *)

From S2P Require Import Prelude Strings Numbers Value Frame.

(** ** Files *)

(** The file system: the text of every file, by path. *)
Abbreviation filesystem := (gmap string string).

(** The lines of a file; blank lines are skipped. *)
Definition lines (text : string) : list string :=
  filter (λ l, l ≠ EmptyString) (split_on NEWLINE text).

(** The texts pandas reads as a missing value. *)
Definition na_values : list string :=
  [""; "#N/A"; "#N/A N/A"; "#NA"; "-1.#IND"; "-1.#QNAN"; "-NaN"; "-nan";
   "1.#IND"; "1.#QNAN"; "<NA>"; "N/A"; "NA"; "NULL"; "NaN"; "None"; "n/a";
   "nan"; "null"].

(** A cell read with [dtype=str]. *)
Definition parse_cell (field : string) : py_value :=
  if decide (field ∈ na_values) then PyNaN else PyStr field.

(** A data line, or [None] when it has not [ncols] cells. *)
Definition parse_row (ncols : nat) (line : string) : option (list py_value) :=
  let fields := split_on COMMA line in
  if decide (length fields = ncols) then Some (parse_cell <$> fields) else None.

(** The header cells and the data lines of the file at [path]. *)
Definition open_csv (fs : filesystem) (path : string)
    : result (list string * list string) :=
  match fs !! path with
  | None => Raise (FileNotFoundError path)
  | Some text =>
      match lines text with
      | [] => Raise (EmptyDataError "No columns to parse from file")
      | header :: data => Ok (split_on COMMA header, data)
      end
  end.

(** The frame of text cells with this header and these rows. *)
Definition str_frame (header : list string) (rs : list (list py_value)) : frame :=
  {| columns := header; dtypes := replicate (length header) Object; rows := rs |}.

Definition parse_rows (lenient : bool) (ncols : nat) (ls : list string)
    : result (list (list py_value)) :=
  if lenient then Ok (omap (parse_row ncols) ls)
  else match mapM (parse_row ncols) ls with
       | Some rs => Ok rs
       | None => Raise (ParserError "Error tokenizing data")
       end.
Arguments parse_rows : simpl never.

(** [pd.read_csv(path, nrows=nrows, dtype=str)], with
    [on_bad_lines="skip"] when [lenient]. *)
Definition read_csv (fs : filesystem) (path : string) (nrows : option nat)
    (lenient : bool) : result frame :=
  '(header, data) ← open_csv fs path;
  let data := match nrows with Some n => take n data | None => data end in
  rs ← parse_rows lenient (length header) data;
  Ok (str_frame header rs).

(** [pd.read_csv(path, chunksize=chunksize, dtype=str)]: opening the file
    may raise; then every chunk is a frame or raises when it is read.  A
    file without data rows yields one empty chunk. *)
Definition read_csv_chunks (fs : filesystem) (path : string) (chunksize : nat)
    : result (list (result frame)) :=
  '(header, data) ← open_csv fs path;
  Ok (match data with
      | [] => [Ok (str_frame header [])]
      | _ => (λ ls, rs ← parse_rows false (length header) ls;
                    Ok (str_frame header rs)) <$> chunks chunksize data
      end).

(** The chunks of a frame that was read whole. *)
Definition frame_chunks (chunksize : nat) (df : frame) : list frame :=
  match rows df with
  | [] => [df]
  | rs => with_rows df <$> chunks chunksize rs
  end.

(** The size of the chunks the engine reads. *)
Definition CHUNK_SIZE : nat := 10000.

(** ** Reading with type inference *)

(** [pd.read_csv] without [dtype=]: the type of a column is inferred from
    its cells, in each chunk on its own.  A column is [int64] when every
    cell is an integer, [float64] when every cell is a number or an NA
    marker, [bool] when every cell is a truth value, and [object]
    otherwise (text and NaN).  A column without cells is [object]. *)

Definition bool_literal (s : string) : option bool :=
  if decide (s ∈ ["True"; "TRUE"; "true"]) then Some true
  else if decide (s ∈ ["False"; "FALSE"; "false"]) then Some false
  else None.

(** A cell of a [float64] column. *)
Definition float_cell (field : string) : option py_value :=
  if decide (field ∈ na_values) then Some PyNaN
  else NpFloat <$> parse_float field.

Definition infer_column (cells : list string) : dtype * list py_value :=
  if decide (cells = []) then (Object, [])
  else if mapM parse_int cells is Some zs then (Int64, NpInt <$> zs)
  else if mapM float_cell cells is Some vs then (Float64, vs)
  else if mapM bool_literal cells is Some bs then (Bool, NpBool <$> bs)
  else (Object, parse_cell <$> cells).

(** The fields of a data line, or [None] when it has not [ncols] fields. *)
Definition split_row (ncols : nat) (line : string) : option (list string) :=
  let fields := split_on COMMA line in
  if decide (length fields = ncols) then Some fields else None.

(** The frame of the lines [data], every column with its inferred type. *)
Definition typed_frame (header : list string) (data : list (list string)) : frame :=
  let cols :=
    (λ j, infer_column ((λ r, default "" (r !! j)) <$> data))
    <$> seq 0 (length header) in
  {| columns := header;
     dtypes := fst <$> cols;
     rows := imap (λ i _, (λ c, default PyNaN (c.2 !! i)) <$> cols) data |}.

Definition typed_rows (header : list string) (ls : list string) : result frame :=
  match mapM (split_row (length header)) ls with
  | Some data => Ok (typed_frame header data)
  | None => Raise (ParserError "Error tokenizing data")
  end.

(** [pd.read_csv(path, nrows=nrows, low_memory=False)] *)
Definition read_csv_typed (fs : filesystem) (path : string) (nrows : option nat)
    : result frame :=
  '(header, data) ← open_csv fs path;
  typed_rows header (match nrows with Some n => take n data | None => data end).

(** [pd.read_csv(path, chunksize=chunksize, low_memory=False)] *)
Definition read_csv_typed_chunks (fs : filesystem) (path : string)
    (chunksize : nat) : result (list (result frame)) :=
  '(header, data) ← open_csv fs path;
  Ok (match data with
      | [] => [typed_rows header []]
      | _ => typed_rows header <$> chunks chunksize data
      end).

(** ** Writing *)

(** The text of a cell in [DataFrame.to_csv]: a missing cell is empty. *)
Definition cell_text (v : py_value) : string :=
  match v with
  | PyNone | PyNaN => ""
  | NpInt z | PyInt z => int_text z
  | NpFloat q => float_text q
  | NpBool b | PyBool b => if b then "True" else "False"
  | PyStr s | PyObject s => s
  | NpArray _ => ""
  end.

Definition csv_line (fields : list string) : string :=
  join_with COMMA fields +:+ String NEWLINE "".

(** The lines of rows of cells. *)
Definition row_lines (rs : list (list py_value)) : string :=
  foldr (λ r text, csv_line (cell_text <$> r) +:+ text) "" rs.

(** The lines of the rows of a frame. *)
Definition rows_text (df : frame) : string := row_lines (rows df).

(** [df.to_csv(path, index=False, mode='w')] *)
Definition to_csv (fs : filesystem) (path : string) (df : frame) : filesystem :=
  <[path := csv_line (columns df) +:+ rows_text df]> fs.

(** [df.to_csv(path, index=False, mode='a', header=False)] *)
Definition to_csv_append (fs : filesystem) (path : string) (df : frame)
    : filesystem :=
  <[path := default "" (fs !! path) +:+ rows_text df]> fs.

(** ** What the typed reader promises *)

(** The text is an NA marker. *)
Definition is_na (field : string) : bool := bool_decide (field ∈ na_values).

(** A row of fields without an NA marker. *)
Definition complete (fields : list string) : bool :=
  forallb (λ f, negb (is_na f)) fields.

(** The type of a column decides how a cell is read, never whether it is
    missing. *)
Definition reads_as (field : string) (v : py_value) : Prop :=
  is_missing v = is_na field.

(** The file at [path] reads whole: it has the header [header] and its
    data lines split into the rows of fields [data]. *)
Definition reads_fields (fs : filesystem) (path : string)
    (header : list string) (data : list (list string)) : Prop :=
  ∃ ls, open_csv fs path = Ok (header, ls) ∧
        mapM (split_row (length header)) ls = Some data.

(** The rows of fields of the chunks; a file without data rows has one
    empty chunk. *)
Definition field_chunks (chunksize : nat) (data : list (list string))
    : list (list (list string)) :=
  match data with [] => [[]] | _ => chunks chunksize data end.

(** The chunks of a file that reads whole. *)
Definition typed_chunks (chunksize : nat) (header : list string)
    (data : list (list string)) : list frame :=
  typed_frame header <$> field_chunks chunksize data.

(** ** Properties of the reader *)

Section reader.
Implicit Types (fs : filesystem) (path : string) (df : frame).
Implicit Types (ls : list string) (rs : list (list py_value)).

Lemma parse_row_length ncols line r :
  parse_row ncols line = Some r → length r = ncols.
Proof.
  unfold parse_row. case_decide; [|done]. intros [= <-].
  by rewrite length_fmap.
Qed.

Lemma parse_cell_text field :
  parse_cell field = PyNaN ∨ parse_cell field = PyStr field.
Proof. unfold parse_cell. case_decide; auto. Qed.

Lemma parse_rows_strict_Ok ncols ls rs :
  parse_rows false ncols ls = Ok rs ↔
  Forall2 (λ l r, parse_row ncols l = Some r) ls rs.
Proof.
  unfold parse_rows. rewrite <-mapM_Some. case_match; naive_solver.
Qed.

Lemma parse_rows_length lenient ncols ls rs :
  parse_rows lenient ncols ls = Ok rs →
  Forall (λ r, length r = ncols) rs.
Proof.
  destruct lenient; unfold parse_rows.
  - intros [= <-]. apply Forall_forall. intros r [l [_ Hr]]%list_elem_of_omap.
    by eapply parse_row_length.
  - fold (parse_rows false ncols ls). intros Hrs%parse_rows_strict_Ok.
    induction Hrs; constructor; eauto using parse_row_length.
Qed.

(** When the strict read succeeds no line is malformed, and the lenient
    read skips nothing. *)
Lemma parse_rows_lenient_strict ncols ls rs :
  parse_rows false ncols ls = Ok rs → parse_rows true ncols ls = Ok rs.
Proof.
  intros Hrs%parse_rows_strict_Ok. unfold parse_rows. f_equal.
  induction Hrs as [|l r ls rs Hl _ IH]; [done|]. csimpl. by rewrite Hl, IH.
Qed.

Lemma parse_rows_strict_take ncols ls rs n :
  parse_rows false ncols ls = Ok rs →
  parse_rows false ncols (take n ls) = Ok (take n rs).
Proof. rewrite !parse_rows_strict_Ok. apply Forall2_take. Qed.

Lemma parse_rows_lenient_le ncols ls :
  ∃ rs, parse_rows true ncols ls = Ok rs ∧ length rs ≤ length ls.
Proof. eexists. split; [done|]. apply length_omap_le. Qed.

Lemma read_csv_Ok fs path nrows lenient df :
  read_csv fs path nrows lenient = Ok df ↔
  ∃ header data rs,
    open_csv fs path = Ok (header, data) ∧
    parse_rows lenient (length header)
      (match nrows with Some n => take n data | None => data end) = Ok rs ∧
    df = str_frame header rs.
Proof.
  unfold read_csv. rewrite bind_Ok. split.
  - intros ([header data] & Hopen & Hrs). apply bind_Ok in Hrs as (rs & ? & ?).
    simplify_eq. eauto 10.
  - intros (header & data & rs & Hopen & Hrs & ->).
    exists (header, data). split; [done|]. apply bind_Ok. eauto.
Qed.

(** A frame that was read has a cell per column in every row. *)
Lemma read_csv_wf fs path nrows lenient df :
  read_csv fs path nrows lenient = Ok df →
  NoDup (columns df) → frame_wf df.
Proof.
  intros (header & data & rs & _ & Hrs & ->)%read_csv_Ok Hnd.
  split_and!; simpl; [done|by rewrite length_replicate|].
  by eapply parse_rows_length.
Qed.

(** A prefix of a file that reads whole reads as the prefix of its rows,
    strictly or leniently. *)
Lemma read_csv_prefix fs path df n lenient :
  read_csv fs path None false = Ok df →
  read_csv fs path (Some n) lenient = Ok (with_rows df (take n (rows df))).
Proof.
  intros (header & data & rs & Hopen & Hrs & ->)%read_csv_Ok.
  apply read_csv_Ok. exists header, data, (take n rs). split_and!; [done| |done].
  apply (parse_rows_strict_take _ _ _ n) in Hrs.
  destruct lenient; [by apply parse_rows_lenient_strict|done].
Qed.

Lemma frame_chunks_rows chunksize df :
  0 < chunksize → mjoin (rows <$> frame_chunks chunksize df) = rows df.
Proof.
  intros. unfold frame_chunks. destruct (rows df) as [|r rs] eqn:Hdf.
  { simpl. by rewrite Hdf. }
  rewrite <-list_fmap_compose.
  rewrite (list_fmap_ext _ id (chunks chunksize (r :: rs))) by done.
  rewrite list_fmap_id. by apply chunks_concat.
Qed.

(** The chunks of a file that reads whole are the chunks of its frame,
    and none raises. *)
Lemma read_csv_chunks_whole fs path chunksize df :
  read_csv fs path None false = Ok df →
  read_csv_chunks fs path chunksize = Ok (Ok <$> frame_chunks chunksize df).
Proof.
  intros (header & data & rs & Hopen & Hrs & ->)%read_csv_Ok.
  unfold read_csv_chunks, frame_chunks, str_frame. rewrite Hopen.
  cbn [rows mbind result_bind res_bind]. f_equal.
  apply parse_rows_strict_Ok in Hrs.
  pose proof (chunks_Forall2 _ chunksize _ _ Hrs) as Hch.
  destruct Hrs as [|l r data rs Hl Hrs]; [done|].
  rewrite <-list_fmap_compose. revert Hch.
  generalize (chunks chunksize (l :: data)) (chunks chunksize (r :: rs)).
  induction 1 as [|ls rs' lss rss Hrs' _ IH]; [done|]. csimpl. f_equal; [|done].
  apply parse_rows_strict_Ok in Hrs'. by rewrite Hrs'.
Qed.

End reader.

(** ** Properties of the typed reader *)

Section typed.
Implicit Types (fs : filesystem) (path : string) (df : frame).
Implicit Types (header cells fields : list string) (data : list (list string)).

Lemma parse_int_not_na field z : parse_int field = Some z → is_na field = false.
Proof.
  intros Hz. apply bool_decide_eq_false. intros Hna.
  assert (Forall (λ s, parse_int s = None) na_values) as Hall
    by (apply (bool_decide_unpack _); vm_compute; reflexivity).
  rewrite Forall_forall in Hall. by rewrite (Hall _ Hna) in Hz.
Qed.

Lemma bool_literal_not_na field b :
  bool_literal field = Some b → is_na field = false.
Proof.
  intros Hb. apply bool_decide_eq_false. intros Hna.
  assert (Forall (λ s, bool_literal s = None) na_values) as Hall
    by (apply (bool_decide_unpack _); vm_compute; reflexivity).
  rewrite Forall_forall in Hall. by rewrite (Hall _ Hna) in Hb.
Qed.

Lemma float_cell_reads field v : float_cell field = Some v → reads_as field v.
Proof.
  unfold float_cell, reads_as, is_na. case_decide as Hna; intros Hv.
  - simplify_eq. by rewrite bool_decide_eq_true_2.
  - destruct (parse_float field); simplify_eq/=. by rewrite bool_decide_eq_false_2.
Qed.

Lemma parse_cell_reads field : reads_as field (parse_cell field).
Proof.
  unfold parse_cell, reads_as, is_na. case_decide.
  - by rewrite bool_decide_eq_true_2.
  - by rewrite bool_decide_eq_false_2.
Qed.

Lemma mapM_reads {A} (f : string → option A) (g : A → py_value) cells xs :
  (∀ c x, f c = Some x → reads_as c (g x)) →
  mapM f cells = Some xs → Forall2 reads_as cells (g <$> xs).
Proof.
  intros Hf Hxs%mapM_Some. rewrite Forall2_fmap_r.
  eapply Forall2_impl; [done|]. apply Hf.
Qed.

Lemma infer_column_reads cells : Forall2 reads_as cells (infer_column cells).2.
Proof.
  unfold infer_column. case_decide as Hnil; [by subst|].
  destruct (mapM parse_int cells) as [zs|] eqn:Hint.
  { eapply mapM_reads; [|done]. intros c z Hz. unfold reads_as.
    by rewrite (parse_int_not_na c z). }
  destruct (mapM float_cell cells) as [vs|] eqn:Hfloat.
  { rewrite <-(list_fmap_id vs). eapply mapM_reads; [|done].
    apply float_cell_reads. }
  destruct (mapM bool_literal cells) as [bs|] eqn:Hbool.
  { eapply mapM_reads; [|done]. intros c b Hb. unfold reads_as.
    by rewrite (bool_literal_not_na c b). }
  simpl. rewrite Forall2_fmap_r. apply Forall_Forall2_diag, Forall_forall.
  intros c _. apply parse_cell_reads.
Qed.

Lemma infer_column_length cells : length (infer_column cells).2 = length cells.
Proof. symmetry. eapply Forall2_length, infer_column_reads. Qed.

End typed.

Section typed_frame.
Implicit Types (header : list string) (data : list (list string)).

Lemma typed_frame_len header data : len (typed_frame header data) = length data.
Proof. unfold len. simpl. apply length_imap. Qed.

Lemma typed_frame_wf header data :
  NoDup header → frame_wf (typed_frame header data).
Proof.
  intros Hnd. split_and!; simpl; [done|by rewrite !length_fmap, length_seq|].
  apply Forall_forall. intros r (i & ? & -> & _)%elem_of_lookup_imap.
  by rewrite !length_fmap, length_seq.
Qed.

(** The cell at row [i] of the column inferred from [cells]. *)
Lemma infer_column_lookup cells i field :
  cells !! i = Some field →
  reads_as field (default PyNaN ((infer_column cells).2 !! i)).
Proof.
  intros Hi. pose proof (infer_column_reads cells) as Hall.
  destruct (Forall2_lookup_l _ _ _ _ _ Hall Hi) as (v & -> & Hv). done.
Qed.

Lemma fmap_lookup_seq {A B} (f : A → B) (d : A) (l : list A) :
  f <$> l = (λ j, f (default d (l !! j))) <$> seq 0 (length l).
Proof.
  apply list_eq. intros j. rewrite !list_lookup_fmap.
  destruct (decide (j < length l)) as [Hj|Hj].
  - rewrite lookup_seq_lt by done.
    destruct (lookup_lt_is_Some_2 l j Hj) as [x Hx]. simpl. by rewrite Hx.
  - by rewrite lookup_seq_ge, lookup_ge_None_2 by lia.
Qed.

(** Which cells of the frame are missing: those read from an NA marker,
    whatever the types inferred for the columns. *)
Lemma typed_frame_isnull header data :
  Forall (λ r, length r = length header) data →
  isnull <$> rows (typed_frame header data) = fmap is_na <$> data.
Proof.
  intros Hdata. apply list_eq. intros i. simpl.
  rewrite !list_lookup_fmap, list_lookup_imap.
  destruct (data !! i) as [r|] eqn:Hi; [simpl|done]. f_equal.
  rewrite (fmap_lookup_seq is_na "" r), (Forall_lookup_1 _ _ _ _ Hdata Hi).
  unfold isnull. rewrite <-!list_fmap_compose. apply list_fmap_ext.
  intros _ j _. simpl. apply infer_column_lookup.
  by rewrite list_lookup_fmap, Hi.
Qed.

Lemma split_row_length ncols line fields :
  split_row ncols line = Some fields → length fields = ncols.
Proof. unfold split_row. case_decide; naive_solver. Qed.

Lemma mapM_split_row_lengths ncols ls data :
  mapM (split_row ncols) ls = Some data → Forall (λ r, length r = ncols) data.
Proof.
  intros Hdata%mapM_Some. induction Hdata; constructor; eauto using split_row_length.
Qed.

End typed_frame.

(** ** A file that splits into rows of fields *)

Section typed_reads.
Implicit Types (fs : filesystem) (path : string).
Implicit Types (header ls : list string) (data : list (list string)).

Lemma typed_rows_Ok header ls data :
  mapM (split_row (length header)) ls = Some data →
  typed_rows header ls = Ok (typed_frame header data).
Proof. unfold typed_rows. by intros ->. Qed.

Lemma read_csv_typed_whole fs path header data :
  reads_fields fs path header data →
  read_csv_typed fs path None = Ok (typed_frame header data).
Proof.
  intros (ls & Hopen & Hdata). unfold read_csv_typed. rewrite Hopen.
  by apply typed_rows_Ok.
Qed.

Lemma read_csv_typed_prefix fs path header data n :
  reads_fields fs path header data →
  read_csv_typed fs path (Some n) = Ok (typed_frame header (take n data)).
Proof.
  intros (ls & Hopen & Hdata). unfold read_csv_typed. rewrite Hopen.
  apply typed_rows_Ok, mapM_Some, Forall2_take. by apply mapM_Some.
Qed.

(** The chunks of a file that reads whole: none raises. *)
Lemma read_csv_typed_chunks_whole fs path chunksize header data :
  reads_fields fs path header data →
  read_csv_typed_chunks fs path chunksize
  = Ok (Ok <$> typed_chunks chunksize header data).
Proof.
  intros (ls & Hopen & Hdata). unfold read_csv_typed_chunks, typed_chunks.
  rewrite Hopen. cbn [mbind result_bind res_bind]. f_equal.
  apply mapM_Some in Hdata.
  pose proof (chunks_Forall2 _ chunksize _ _ Hdata) as Hch.
  destruct Hdata as [|l r ls data Hl Hdata]; [done|].
  unfold field_chunks. rewrite <-!list_fmap_compose. revert Hch.
  generalize (chunks chunksize (l :: ls)) (chunks chunksize (r :: data)).
  induction 1 as [|ls' data' lss datas Hdata' _ IH]; [done|].
  csimpl. f_equal; [|done]. by apply typed_rows_Ok, mapM_Some.
Qed.

(** A file that splits into rows of fields reads whole as text. *)
Lemma reads_fields_read_csv fs path header data :
  reads_fields fs path header data →
  read_csv fs path None false
  = Ok (str_frame header (fmap (M := list) parse_cell <$> data)).
Proof.
  intros (ls & Hopen & Hdata%mapM_Some). unfold read_csv. rewrite Hopen.
  cbn [mbind result_bind res_bind].
  assert (parse_rows false (length header) ls
          = Ok (fmap (M := list) parse_cell <$> data)) as ->; [|done].
  apply parse_rows_strict_Ok, Forall2_fmap_r.
  eapply Forall2_impl; [done|]. intros l r. unfold split_row, parse_row. simpl.
  case_decide; naive_solver.
Qed.

Lemma field_chunks_join chunksize data :
  0 < chunksize → mjoin (field_chunks chunksize data) = data.
Proof.
  intros. unfold field_chunks. destruct data; [done|]. by apply chunks_concat.
Qed.

Lemma reads_fields_lengths fs path header data :
  reads_fields fs path header data →
  Forall (λ r, length r = length header) data.
Proof. intros (ls & _ & Hdata). by eapply mapM_split_row_lengths. Qed.

End typed_reads.

(** ** The cells of a typed frame are scalars *)

Section typed_scalars.
Implicit Types (cells header : list string) (data : list (list string)).

Lemma infer_column_scalars cells :
  Forall (λ v, is_scalar v = true) (infer_column cells).2.
Proof.
  unfold infer_column. case_decide; [by constructor|].
  destruct (mapM parse_int cells) as [zs|]; [by apply Forall_fmap, Forall_true|].
  destruct (mapM float_cell cells) as [vs|] eqn:Hvs.
  { apply mapM_Some in Hvs. simpl. clear -Hvs.
    induction Hvs as [|c v cs vs Hv _ IH]; constructor; [|done].
    unfold float_cell in Hv. case_decide; [by simplify_eq|].
    by destruct (parse_float c); simplify_eq/=. }
  destruct (mapM bool_literal cells) as [bs|]; [by apply Forall_fmap, Forall_true|].
  apply Forall_fmap, Forall_true. intros c. unfold parse_cell. simpl.
  by case_decide.
Qed.

Lemma typed_frame_scalars header data :
  Forall (Forall (λ v, is_scalar v = true)) (rows (typed_frame header data)).
Proof.
  apply Forall_forall. intros r (i & ? & -> & _)%elem_of_lookup_imap.
  apply Forall_fmap, Forall_forall. intros c (j & -> & _)%list_elem_of_fmap. simpl.
  destruct (_ !! i) as [v|] eqn:Hv; [|done]. simpl.
  pose proof (infer_column_scalars ((λ r, default "" (r !! j)) <$> data)) as Hall.
  rewrite Forall_forall in Hall. eapply Hall, list_elem_of_lookup_2, Hv.
Qed.

End typed_scalars.

Lemma CHUNK_SIZE_pos : 0 < CHUNK_SIZE.
Proof. apply Nat.ltb_lt. by vm_compute. Qed.

(** ** A frame that is written reads back *)

(** A cell that [to_csv] writes without quotes: its text holds neither
    comma nor line feed. *)
Definition clean_cell (v : py_value) : Prop :=
  free_of COMMA (cell_text v) ∧ free_of NEWLINE (cell_text v).

(** The cell that [read_csv] with [dtype=str] reads where [v] was
    written. *)
Definition as_text (v : py_value) : py_value := parse_cell (cell_text v).

(** A cell that reads back as it is: NaN, or a text without comma and
    line feed that is no NA marker. *)
Definition text_cell (v : py_value) : Prop :=
  match v with
  | PyNaN => True
  | PyStr s => free_of COMMA s ∧ free_of NEWLINE s ∧ s ∉ na_values
  | _ => False
  end.

(** The line of a row. *)
Definition row_line (r : list py_value) : string :=
  join_with COMMA (cell_text <$> r).

(** The frames that [to_csv] writes as one line per row: the names and
    the cells hold neither comma nor line feed, every row has a cell per
    column, and no line is blank. *)
Record printable (df : frame) : Prop := Printable {
  pr_names : Forall (λ s, free_of COMMA s ∧ free_of NEWLINE s) (columns df);
  pr_header : join_with COMMA (columns df) ≠ "";
  pr_rows : Forall (λ r, length r = length (columns df) ∧ Forall clean_cell r
                         ∧ row_line r ≠ "") (rows df);
}.

(** The frames of text: printable frames of [object] columns whose cells
    read back as they are. *)
Record writable (df : frame) : Prop := Writable {
  wr_names : Forall (λ s, free_of COMMA s ∧ free_of NEWLINE s) (columns df);
  wr_header : join_with COMMA (columns df) ≠ "";
  wr_dtypes : dtypes df = replicate (length (columns df)) Object;
  wr_rows : Forall (λ r, length r = length (columns df) ∧ Forall text_cell r
                         ∧ row_line r ≠ "") (rows df);
}.

#[global] Instance text_cell_dec v : Decision (text_cell v).
Proof. destruct v; apply _. Defined.

#[global] Instance clean_cell_dec v : Decision (clean_cell v).
Proof. unfold clean_cell. apply _. Defined.

#[global] Instance printable_dec df : Decision (printable df).
Proof.
  refine (cast_if (decide (
    Forall (λ s, free_of COMMA s ∧ free_of NEWLINE s) (columns df) ∧
    join_with COMMA (columns df) ≠ "" ∧
    Forall (λ r, length r = length (columns df) ∧ Forall clean_cell r
                 ∧ row_line r ≠ "") (rows df))));
    [by destruct_and?|intros []; naive_solver].
Defined.

#[global] Instance writable_dec df : Decision (writable df).
Proof.
  refine (cast_if (decide (
    Forall (λ s, free_of COMMA s ∧ free_of NEWLINE s) (columns df) ∧
    join_with COMMA (columns df) ≠ "" ∧
    dtypes df = replicate (length (columns df)) Object ∧
    Forall (λ r, length r = length (columns df) ∧ Forall text_cell r
                 ∧ row_line r ≠ "") (rows df))));
    [by destruct_and?|intros []; naive_solver].
Defined.

Section written.
Implicit Types (df : frame) (r : list py_value) (v : py_value).

Lemma csv_line_app fields text :
  csv_line fields +:+ text = join_with COMMA fields +:+ String NEWLINE text.
Proof. unfold csv_line. by rewrite app_assoc. Qed.

(** The text of a file, as its lines. *)
Lemma to_csv_text df :
  csv_line (columns df) +:+ rows_text df
  = foldr (λ w t, w +:+ String NEWLINE t) ""
      (join_with COMMA (columns df) :: (row_line <$> rows df)).
Proof.
  simpl. rewrite csv_line_app. do 2 f_equal. unfold rows_text, row_lines.
  induction (rows df) as [|r rs IH]; [done|]. simpl.
  by rewrite csv_line_app, IH.
Qed.

(** The lines of two lists of rows, one after the other. *)
Lemma row_lines_app (rs1 rs2 : list (list py_value)) :
  row_lines (rs1 ++ rs2) = row_lines rs1 +:+ row_lines rs2.
Proof.
  unfold row_lines. induction rs1 as [|r rs1 IH]; simpl; [by rewrite app_nil_l|].
  by rewrite IH, app_assoc.
Qed.

Lemma text_cell_clean v : text_cell v → clean_cell v.
Proof. destruct v; try done. by intros (? & ? & ?). Qed.

Lemma as_text_text_cell v : text_cell v → as_text v = v.
Proof.
  destruct v; try done; simpl; unfold as_text, parse_cell; simpl.
  intros (_ & _ & Hna). by rewrite decide_False.
Qed.

Lemma row_line_free r : Forall clean_cell r → free_of NEWLINE (row_line r).
Proof.
  intros Hr. apply free_of_join; [done|]. apply Forall_fmap.
  eapply Forall_impl; [done|]. by intros v [_ ?].
Qed.

Lemma parse_row_row_line r :
  Forall clean_cell r → row_line r ≠ "" →
  parse_row (length r) (row_line r) = Some (as_text <$> r).
Proof.
  intros Hr Hne. unfold parse_row, row_line.
  rewrite split_join.
  - rewrite decide_True by by rewrite length_fmap.
    by rewrite <-list_fmap_compose.
  - by intros ->%fmap_nil_inv.
  - apply Forall_fmap. eapply Forall_impl; [done|]. by intros v [? _].
Qed.

End written.

Section read_back.
Implicit Types (fs : filesystem) (path : string) (df : frame).

(** The lines of a written frame: its header and its rows. *)
Lemma lines_to_csv df :
  printable df →
  lines (csv_line (columns df) +:+ rows_text df)
  = join_with COMMA (columns df) :: (row_line <$> rows df).
Proof.
  intros [Hnames Hheader Hrows]. rewrite to_csv_text. unfold lines.
  rewrite split_on_lines.
  - rewrite filter_app, list_filter_True;
      [by rewrite filter_cons, decide_False, List.app_nil_r by naive_solver|].
    constructor; [done|]. apply Forall_fmap. eapply Forall_impl; [done|]. naive_solver.
  - constructor.
    + apply free_of_join; [done|]. eapply Forall_impl; [done|]. naive_solver.
    + apply Forall_fmap. eapply Forall_impl; [done|].
      intros r (_ & Hr & _). by apply row_line_free.
Qed.

Lemma parse_rows_row_lines ncols rs :
  Forall (λ r, length r = ncols ∧ Forall clean_cell r ∧ row_line r ≠ "") rs →
  parse_rows false ncols (row_line <$> rs) = Ok (fmap (M := list) as_text <$> rs).
Proof.
  intros Hrs. apply parse_rows_strict_Ok, Forall2_fmap_l, Forall2_fmap_r,
    Forall_Forall2_diag.
  eapply Forall_impl; [done|]. intros r (<- & Hr & Hne).
  by apply parse_row_row_line.
Qed.

Lemma open_csv_to_csv fs path df :
  printable df →
  open_csv (to_csv fs path df) path = Ok (columns df, row_line <$> rows df).
Proof.
  intros Hdf. unfold open_csv, to_csv. rewrite lookup_insert_eq, lines_to_csv by done.
  destruct Hdf as [Hnames Hheader _]. rewrite split_join; [done| |].
  - by intros Hnil; rewrite Hnil in Hheader.
  - eapply Forall_impl; [done|]. naive_solver.
Qed.

(** A printable frame that [to_csv] writes is read back by [read_csv]
    with [dtype=str] as the frame of the texts of its cells. *)
Lemma to_csv_read_back fs path df :
  printable df →
  read_csv (to_csv fs path df) path None false
  = Ok (str_frame (columns df) (fmap (M := list) as_text <$> rows df)).
Proof.
  intros Hdf. apply read_csv_Ok.
  exists (columns df), (row_line <$> rows df), (fmap (M := list) as_text <$> rows df).
  split_and!; [by apply open_csv_to_csv|by apply parse_rows_row_lines, Hdf|done].
Qed.

Lemma writable_printable df : writable df → printable df.
Proof.
  intros [Hnames Hheader _ Hrows]. split; [done..|].
  eapply Forall_impl; [done|]. intros r (? & Hr & ?). split_and!; [done| |done].
  eapply Forall_impl; [done|]. apply text_cell_clean.
Qed.

Lemma writable_as_text df : writable df → fmap (M := list) as_text <$> rows df = rows df.
Proof.
  intros [_ _ _ Hrows]. rewrite <-(list_fmap_id (rows df)) at 2.
  apply Forall_fmap_ext_1. eapply Forall_impl; [done|]. intros r (_ & Hr & _).
  simpl. rewrite <-(list_fmap_id r) at 2. apply Forall_fmap_ext_1.
  eapply Forall_impl; [done|]. apply as_text_text_cell.
Qed.

End read_back.

(** A frame of text that [to_csv] writes is the frame that
    [read_csv] with [dtype=str] reads from the file: the analyzer sees the
    table that the Transform Engine wrote. *)
Theorem to_csv_read_csv fs path df :
  writable df → read_csv (to_csv fs path df) path None false = Ok df.
Proof.
  intros Hdf. rewrite to_csv_read_back by by apply writable_printable.
  rewrite writable_as_text by done.
  destruct Hdf as [_ _ Hdt _]. destruct df. unfold str_frame. simpl in *. by subst.
Qed.

Definition written_frame : frame :=
  {| columns := ["name"; "city"]; dtypes := [Object; Object];
     rows := [[PyStr "ann"; PyStr "Oslo"]; [PyStr "bob"; PyNaN];
              [PyNaN; PyStr "Rome"]] |}.

Lemma to_csv_read_csv_witness :
  read_csv (to_csv ∅ "out.csv" written_frame) "out.csv" None false
  = Ok written_frame.
Proof.
  apply (to_csv_read_csv ∅ "out.csv" written_frame).
  apply (bool_decide_unpack _). by vm_compute.
Defined.
