(* ===== verification/Analyzer.v ===== *)
(** * Analyzer: the Quality Analyzer

    [analyze_csv_quality_chunked]
    (src/server/controllers/csv_controller.py, lines 74-178), statement by
    statement.  The local variables of the scan ([total_rows] and the
    dicts [missing_counts], [unique_trackers], [sample_values]) are the
    fields of [scan_state]; every [try: ... except: pass] of the code is
    a [try ... except] of the model, and a dict access outside a [try]
    is a [result] that the outer handler of the function turns into
    [Exception("Error analyzing CSV: ...")].

    [CHUNK_SIZE] is a constant of the module; the model takes the chunk
    size as an argument, so that the theorems hold of every chunk size. *)

From S2P Require Import Prelude Value Frame Reader.

(** ** The report *)

(** ['unique_values']: a count, or the sentinel ['1000+']. *)
Inductive unique_count : Type :=
  | Exactly (n : nat)
  | Capped.

(** An entry of ['column_analysis'].  Percentages are in hundredths. *)
Record column_analysis : Type := ColumnAnalysis {
  ca_dtype : string;
  ca_missing_count : nat;
  ca_missing_percentage : Z;
  ca_unique_values : unique_count;
  ca_sample_values : list json;
}.

(** The quality report.  ['missing_percentage'] and ['memory_usage'] are
    in hundredths (of a percent, of a megabyte). *)
Record quality_report : Type := QualityReport {
  qr_total_rows : nat;
  qr_total_columns : nat;
  qr_total_cells : nat;
  qr_missing_cells : nat;
  qr_missing_percentage : Z;
  qr_column_analysis : gmap string column_analysis;
  qr_duplicate_rows : Z;
  qr_memory_usage : Z;
  qr_is_large_file : bool;
}.

#[global] Instance unique_count_eq_dec : EqDecision unique_count.
Proof. solve_decision. Defined.
#[global] Instance column_analysis_eq_dec : EqDecision column_analysis.
Proof. solve_decision. Defined.
#[global] Instance quality_report_eq_dec : EqDecision quality_report.
Proof. solve_decision. Defined.

(** ** The scan *)

(** The variables the scan updates. *)
Record scan_state : Type := ScanState {
  total_rows : nat;
  missing_counts : gmap string nat;
  unique_trackers : gmap string (list json);
  sample_values : gmap string (list json);
}.

(** [round(float(a / b * 100), 2) if b > 0 else 0.0], in hundredths.  The
    quotient is the exact rational, rounded half to even; the rounding of
    binary64 before [round] is not modelled. *)
Definition percentage (a b : nat) : Z :=
  if decide (0 < b) then div_half_even (Z.of_nat a * 10000) (Z.of_nat b)
  else 0%Z.

(** [dtypes]: the dtype of every column of the probe, ['object'] when it
    cannot be read. *)
Definition probe_dtypes (first_chunk : frame) (cols : list string)
    : gmap string string :=
  dict_of_keys
    (λ col, try (d ← getdtype first_chunk col; Ok (dtype_str d))
            except (λ _, "object"))
    cols.

(** The state before the first chunk. *)
Definition init_state (cols : list string) : scan_state :=
  {| total_rows := 0;
     missing_counts := dict_of_keys (λ _, 0) cols;
     unique_trackers := dict_of_keys (λ _, []) cols;
     sample_values := dict_of_keys (λ _, []) cols |}.

(** [missing_counts[col] += int(chunk[col].isnull().sum())], any
    exception passed over. *)
Definition count_missing_step (chunk : frame) (col : string)
    (counts : gmap string nat) : gmap string nat :=
  try (n ← dict_get counts col;
       s ← getitem chunk col;
       Ok (<[col := n + count_missing s]> counts))
  except (λ _, counts).

(** The loop [for val in unique_vals[:100]]: a value that converts is
    appended unless the tracker holds it; a value that does not convert
    ends the loop, and what was appended stays. *)
Fixpoint track_values (tracker : list json) (vals : list py_value) : list json :=
  match vals with
  | [] => tracker
  | val :: vals' =>
      match safe_convert_value val with
      | Ok val_safe => track_values (add_new tracker val_safe) vals'
      | Raise _ => tracker
      end
  end.

(** The distinct values of the column, for the first three chunks and
    while the tracker has fewer than 1000 values. *)
Definition track_unique_step (i : nat) (chunk : frame) (col : string)
    (trackers : gmap string (list json)) : result (gmap string (list json)) :=
  if decide (i < 3) then
    tracker ← dict_get trackers col;
    if decide (length tracker < 1000) then
      Ok (try (s ← getitem chunk col;
               let unique_vals := unique (dropna s) in
               Ok (<[col := track_values tracker (head 100 unique_vals)]> trackers))
          except (λ _, trackers))
    else Ok trackers
  else Ok trackers.

(** The loop [for val in samples]: values are appended while there are
    fewer than three. *)
Fixpoint collect_samples (samples : list json) (vals : list py_value) : list json :=
  match vals with
  | [] => samples
  | val :: vals' =>
      if decide (length samples < 3) then
        match safe_convert_value val with
        | Ok v => collect_samples (samples ++ [v]) vals'
        | Raise _ => samples
        end
      else collect_samples samples vals'
  end.

(** Up to three sample values of the column. *)
Definition sample_step (chunk : frame) (col : string)
    (samples : gmap string (list json)) : result (gmap string (list json)) :=
  have ← dict_get samples col;
  if decide (length have < 3) then
    Ok (try (s ← getitem chunk col;
             Ok (<[col := collect_samples have (head 3 (dropna s))]> samples))
        except (λ _, samples))
  else Ok samples.

(** The body of the loop over the columns. *)
Definition scan_column (i : nat) (chunk : frame) (st : scan_state)
    (col : string) : result scan_state :=
  let counts := count_missing_step chunk col (missing_counts st) in
  trackers ← track_unique_step i chunk col (unique_trackers st);
  samples ← sample_step chunk col (sample_values st);
  Ok {| total_rows := total_rows st; missing_counts := counts;
        unique_trackers := trackers; sample_values := samples |}.

(** The body of the loop over the chunks. *)
Definition scan_chunk (cols : list string) (i : nat) (st : scan_state)
    (chunk : frame) : result scan_state :=
  foldl_res (scan_column i chunk)
    {| total_rows := total_rows st + len chunk;
       missing_counts := missing_counts st;
       unique_trackers := unique_trackers st;
       sample_values := sample_values st |}
    cols.

(** The loop [for i, chunk in enumerate(chunk_iterator)], from chunk
    number [i] on.  A chunk that cannot be read raises. *)
Fixpoint scan_chunks (cols : list string) (i : nat) (st : scan_state)
    (chunk_iterator : list (result frame)) : result scan_state :=
  match chunk_iterator with
  | [] => Ok st
  | next :: rest =>
      chunk ← next;
      st' ← scan_chunk cols i st chunk;
      scan_chunks cols (S i) st' rest
  end.

(** ** The report *)

(** The estimate of the number of duplicate rows, from a sample of at
    most [sample_size] rows read leniently; 0 when the sample cannot be
    read.  The product with the ratio of the sample is the exact rational
    before [int] truncates it; the rounding of binary64 is not modelled. *)
Definition duplicate_estimate (fs : filesystem) (file_path : string)
    (sample_size rows_total : nat) : Z :=
  try (sample_df ← read_csv fs file_path (Some (sample_size `min` rows_total)) true;
       let dups := count_true (duplicated (rows sample_df)) in
       Ok (Z.of_nat dups * Z.of_nat rows_total
           / Z.of_nat (len sample_df `max` 1))%Z)
  except (λ _, 0%Z).

(** [os.path.getsize(file_path)] *)
Definition getsize (fs : filesystem) (file_path : string) : result nat :=
  match fs !! file_path with
  | Some text => Ok (String.length text)
  | None => Raise (FileNotFoundError file_path)
  end.

(** The entry of a column; the entry of the handler when a dict lacks
    the column. *)
Definition column_report (col_dtypes : gmap string string) (st : scan_state)
    (col : string) : column_analysis :=
  try (tracker ← dict_get (unique_trackers st) col;
       let unique_count := length tracker in
       count ← dict_get (missing_counts st) col;
       samples ← dict_get (sample_values st) col;
       Ok {| ca_dtype := default "object" (col_dtypes !! col);
             ca_missing_count := count;
             ca_missing_percentage := percentage count (total_rows st);
             ca_unique_values :=
               if decide (unique_count < 1000) then Exactly unique_count
               else Capped;
             ca_sample_values := take 3 samples |})
  except (λ _, {| ca_dtype := "unknown"; ca_missing_count := 0;
                  ca_missing_percentage := 0; ca_unique_values := Exactly 0;
                  ca_sample_values := [] |}).

(** The report, from the state the scan ends in and the size of the file
    in bytes. *)
Definition make_report (fs : filesystem) (file_path : string)
    (sample_size : nat) (cols : list string)
    (col_dtypes : gmap string string) (st : scan_state) (size : nat)
    : quality_report :=
  let total_columns := length cols in
  let total_cells := total_rows st * total_columns in
  let total_missing := dict_sum (missing_counts st) in
  let estimate := duplicate_estimate fs file_path sample_size (total_rows st) in
  {| qr_total_rows := total_rows st;
     qr_total_columns := total_columns;
     qr_total_cells := total_cells;
     qr_missing_cells := total_missing;
     qr_missing_percentage := percentage total_missing total_cells;
     qr_column_analysis := dict_of_keys (column_report col_dtypes st) cols;
     qr_duplicate_rows := estimate;
     qr_memory_usage := div_half_even (Z.of_nat size * 100) (1024 * 1024);
     qr_is_large_file := bool_decide (50000 < Z.of_nat (total_rows st))%Z |}.

Definition build_report (fs : filesystem) (file_path : string)
    (sample_size : nat) (cols : list string)
    (col_dtypes : gmap string string) (st : scan_state)
    : result quality_report :=
  size ← getsize fs file_path;
  Ok (make_report fs file_path sample_size cols col_dtypes st size).

(** The whole function, for chunks of [chunk_size] rows. *)
Definition analyze_with (chunk_size : nat) (fs : filesystem)
    (file_path : string) (sample_size : nat) : result quality_report :=
  match
    first_chunk ← read_csv fs file_path (Some 1000) false;
    let cols := columns first_chunk in
    let col_dtypes := probe_dtypes first_chunk cols in
    chunk_iterator ← read_csv_chunks fs file_path chunk_size;
    st ← scan_chunks cols 0 (init_state cols) chunk_iterator;
    build_report fs file_path sample_size cols col_dtypes st
  with
  | Ok report => Ok report
  | Raise e => Raise (Exception ("Error analyzing CSV: " +:+ exn_str e))
  end.

Definition analyze_csv_quality_chunked (fs : filesystem) (file_path : string)
    (sample_size : nat) : result quality_report :=
  analyze_with CHUNK_SIZE fs file_path sample_size.

(** ** The two loops over values *)

Section loops.
Implicit Types (tracker samples : list json) (vals : list py_value).

Lemma track_values_scalars tracker vals :
  Forall (λ v, is_scalar v = true) vals →
  track_values tracker vals = extend_unique tracker (json_of <$> vals).
Proof.
  intros Hvals. revert tracker.
  induction Hvals as [|v vals Hv _ IH]; intros tracker; [done|].
  cbn [track_values]. rewrite safe_convert_value_scalar by done. apply IH.
Qed.

Lemma length_track_values tracker vals :
  length tracker ≤ length (track_values tracker vals)
  ≤ length tracker + length vals.
Proof.
  revert tracker. induction vals as [|v vals IH]; intros tracker; simpl; [lia|].
  destruct (safe_convert_value v) as [j|]; [|lia].
  pose proof (IH (add_new tracker j)). pose proof (length_add_new tracker j). lia.
Qed.

Lemma NoDup_track_values tracker vals :
  NoDup tracker → NoDup (track_values tracker vals).
Proof.
  revert tracker. induction vals as [|v vals IH]; intros tracker ?; simpl; [done|].
  destruct (safe_convert_value v); auto with dc.
Qed.

Lemma track_values_prefix tracker vals :
  tracker `prefix_of` track_values tracker vals.
Proof.
  revert tracker. induction vals as [|v vals IH]; intros tracker; simpl; [done|].
  destruct (safe_convert_value v); [|done].
  etrans; [apply add_new_prefix|apply IH].
Qed.

Lemma elem_of_track_values tracker vals j :
  j ∈ track_values tracker vals →
  j ∈ tracker ∨ ∃ v, v ∈ vals ∧ safe_convert_value v = Ok j.
Proof.
  revert tracker. induction vals as [|v vals IH]; intros tracker; simpl; [auto|].
  destruct (safe_convert_value v) as [j'|] eqn:Hv; [|auto].
  intros [[?| ->]%elem_of_add_new|(v' & ? & ?)]%IH; [auto|right..].
  - exists v. split; [left|done].
  - exists v'. split; [by right|done].
Qed.

Lemma collect_samples_full samples vals :
  3 ≤ length samples → collect_samples samples vals = samples.
Proof.
  intros. induction vals as [|v vals IH]; simpl; [done|].
  by rewrite decide_False by lia.
Qed.

Lemma collect_samples_scalars samples vals :
  Forall (λ v, is_scalar v = true) vals →
  collect_samples samples vals
  = samples ++ take (3 - length samples) (json_of <$> vals).
Proof.
  intros Hvals. revert samples.
  induction Hvals as [|v vals Hv _ IH]; intros samples.
  { simpl. by rewrite take_nil, app_nil_r. }
  cbn [collect_samples]. case_decide.
  - rewrite safe_convert_value_scalar, IH, length_app by done. simpl.
    rewrite <-app_assoc. f_equal.
    replace (3 - length samples) with (S (3 - (length samples + 1))) by lia.
    done.
  - rewrite collect_samples_full by lia.
    replace (3 - length samples) with 0 by lia. by rewrite take_0, app_nil_r.
Qed.

Lemma length_collect_samples samples vals :
  length (collect_samples samples vals) ≤ length samples `max` 3.
Proof.
  revert samples. induction vals as [|v vals IH]; intros samples; simpl; [lia|].
  case_decide; [|by rewrite collect_samples_full by lia; lia].
  destruct (safe_convert_value v); [|lia].
  etrans; [apply IH|]. rewrite length_app. simpl. lia.
Qed.

Lemma collect_samples_prefix samples vals :
  samples `prefix_of` collect_samples samples vals.
Proof.
  revert samples. induction vals as [|v vals IH]; intros samples; simpl; [done|].
  case_decide; [|done]. destruct (safe_convert_value v); [|done].
  etrans; [|apply IH]. by apply prefix_app_r.
Qed.

(** Three values are enough for the loop. *)
Lemma collect_samples_head samples vals :
  collect_samples samples (head 3 vals) = collect_samples samples vals.
Proof.
  unfold head. destruct vals as [|v1 [|v2 [|v3 vals]]]; try done.
  simpl. repeat (case_decide; [|by rewrite ?collect_samples_full by lia]).
  destruct (safe_convert_value v1); [|done]. rewrite length_app. simpl.
  case_decide; [|by rewrite ?collect_samples_full by (rewrite ?length_app; simpl; lia)].
  destruct (safe_convert_value v2); [|done]. rewrite !length_app. simpl.
  case_decide; [|by rewrite ?collect_samples_full by (rewrite ?length_app; simpl; lia)].
  destruct (safe_convert_value v3); [|done].
  by rewrite collect_samples_full by (rewrite ?length_app; simpl; lia).
Qed.

End loops.

(** ** The scan, column by column *)

(** What the scan knows of one column. *)
Record col_state : Type := ColState {
  cs_missing : nat;
  cs_tracker : list json;
  cs_samples : list json;
}.

(** The effect of chunk number [i] on a column whose cells in the chunk
    are [s]. *)
Definition col_step (i : nat) (s : series) (x : col_state) : col_state :=
  {| cs_missing := cs_missing x + count_missing s;
     cs_tracker :=
       if decide (i < 3 ∧ length (cs_tracker x) < 1000)
       then track_values (cs_tracker x) (head 100 (unique (dropna s)))
       else cs_tracker x;
     cs_samples := collect_samples (cs_samples x) (dropna s) |}.

(** The effect of the chunks from number [i] on. *)
Fixpoint col_scan (i : nat) (x : col_state) (ss : list series) : col_state :=
  match ss with
  | [] => x
  | s :: ss' => col_scan (S i) (col_step i s x) ss'
  end.

(** The cells of a column in a chunk; none when the chunk lacks it. *)
Definition chunk_col (chunk : frame) (col : string) : series :=
  try (getitem chunk col) except (λ _, []).

(** The state in which every column [c] of [cols] is as [g c] says. *)
Definition state_of (cols : list string) (n : nat) (g : string → col_state)
    : scan_state :=
  {| total_rows := n;
     missing_counts := dict_of_keys (cs_missing ∘ g) cols;
     unique_trackers := dict_of_keys (cs_tracker ∘ g) cols;
     sample_values := dict_of_keys (cs_samples ∘ g) cols |}.

Section scan.
Implicit Types (cols : list string) (col : string) (g : string → col_state).
Implicit Types (chunk : frame) (st : scan_state) (x : col_state).

Lemma init_state_of cols : init_state cols = state_of cols 0 (λ _, ColState 0 [] []).
Proof. done. Qed.

Lemma state_of_ext cols n g g' :
  (∀ c, c ∈ cols → g c = g' c) → state_of cols n g = state_of cols n g'.
Proof.
  intros Hg. unfold state_of.
  f_equal; apply dict_of_keys_ext; intros c Hc; simpl; by rewrite Hg.
Qed.

(** Writing a field of a column into its dict. *)
Lemma dict_of_keys_set {V} (proj : col_state → V) g cols col x :
  col ∈ cols →
  <[col := proj x]> (dict_of_keys (proj ∘ g) cols)
  = dict_of_keys (proj ∘ <[col := x]> g) cols.
Proof.
  intros. rewrite dict_of_keys_insert by done. apply dict_of_keys_ext.
  intros c _. simpl. destruct (decide (col = c)) as [->|].
  - by rewrite !fn_lookup_insert.
  - by rewrite !fn_lookup_insert_ne.
Qed.

(** Leaving a field of a column as it is. *)
Lemma dict_of_keys_keep {V} (proj : col_state → V) g cols col x :
  proj x = proj (g col) →
  dict_of_keys (proj ∘ g) cols = dict_of_keys (proj ∘ <[col := x]> g) cols.
Proof.
  intros Hx. apply dict_of_keys_ext. intros c _. simpl.
  destruct (decide (col = c)) as [->|].
  - by rewrite fn_lookup_insert.
  - by rewrite fn_lookup_insert_ne.
Qed.

Lemma count_missing_step_of cols g chunk col i :
  col ∈ cols →
  count_missing_step chunk col (dict_of_keys (cs_missing ∘ g) cols)
  = dict_of_keys (cs_missing ∘ <[col := col_step i (chunk_col chunk col) (g col)]> g) cols.
Proof.
  intros Hcol. unfold count_missing_step, chunk_col.
  rewrite dict_get_dict_of_keys by done. cbn [mbind result_bind res_bind].
  destruct (getitem chunk col) as [s|e]; cbn [mbind result_bind res_bind try_except].
  - by rewrite <-dict_of_keys_set.
  - apply dict_of_keys_keep. simpl. rewrite count_missing_nil. lia.
Qed.

Lemma track_unique_step_of cols g chunk col i :
  col ∈ cols →
  track_unique_step i chunk col (dict_of_keys (cs_tracker ∘ g) cols)
  = Ok (dict_of_keys (cs_tracker ∘ <[col := col_step i (chunk_col chunk col) (g col)]> g) cols).
Proof.
  intros Hcol. unfold track_unique_step, chunk_col.
  case_decide; [|by erewrite <-dict_of_keys_keep; [|simpl; rewrite decide_False by tauto]].
  rewrite dict_get_dict_of_keys by done. cbn [mbind result_bind res_bind compose].
  case_decide; [|by erewrite <-dict_of_keys_keep; [|simpl; rewrite decide_False by tauto]].
  f_equal.
  destruct (getitem chunk col) as [s|e]; cbn [mbind result_bind res_bind try_except].
  - rewrite <-dict_of_keys_set by done. simpl. by rewrite decide_True.
  - apply dict_of_keys_keep. simpl. by case_decide.
Qed.

Lemma sample_step_of cols g chunk col i :
  col ∈ cols →
  sample_step chunk col (dict_of_keys (cs_samples ∘ g) cols)
  = Ok (dict_of_keys (cs_samples ∘ <[col := col_step i (chunk_col chunk col) (g col)]> g) cols).
Proof.
  intros Hcol. unfold sample_step, chunk_col.
  rewrite dict_get_dict_of_keys by done. cbn [mbind result_bind res_bind compose].
  case_decide.
  2:{ f_equal. apply dict_of_keys_keep. simpl. by rewrite collect_samples_full by lia. }
  f_equal.
  destruct (getitem chunk col) as [s|e]; cbn [mbind result_bind res_bind try_except].
  - rewrite collect_samples_head. by rewrite <-dict_of_keys_set.
  - by apply dict_of_keys_keep.
Qed.

(** One column of one chunk. *)
Lemma scan_column_of cols n g i chunk col :
  col ∈ cols →
  scan_column i chunk (state_of cols n g) col
  = Ok (state_of cols n (<[col := col_step i (chunk_col chunk col) (g col)]> g)).
Proof.
  intros Hcol. unfold scan_column, state_of. cbn [missing_counts unique_trackers sample_values total_rows].
  rewrite (track_unique_step_of _ _ _ _ i), (sample_step_of _ _ _ _ i) by done.
  cbn [mbind result_bind res_bind]. by rewrite (count_missing_step_of _ _ _ _ i).
Qed.

Lemma scan_columns_of cols n g i chunk l :
  NoDup l → l ⊆ cols →
  foldl_res (scan_column i chunk) (state_of cols n g) l
  = Ok (state_of cols n
          (λ c, if decide (c ∈ l) then col_step i (chunk_col chunk c) (g c) else g c)).
Proof.
  intros Hnd. revert g. induction Hnd as [|col l Hcol _ IH]; intros g Hl.
  { reflexivity. }
  rewrite foldl_res_cons, scan_column_of by set_solver.
  cbn [mbind result_bind res_bind]. rewrite IH by set_solver.
  f_equal. apply state_of_ext. intros c _.
  destruct (decide (col = c)) as [->|Hne].
  - by rewrite decide_False, fn_lookup_insert, decide_True by set_solver.
  - rewrite fn_lookup_insert_ne by done. repeat case_decide; set_solver.
Qed.

(** One chunk. *)
Lemma scan_chunk_of cols n g i chunk :
  NoDup cols →
  scan_chunk cols i (state_of cols n g) chunk
  = Ok (state_of cols (n + len chunk)
          (λ c, col_step i (chunk_col chunk c) (g c))).
Proof.
  intros. unfold scan_chunk. change (foldl_res ?f {| total_rows := ?m; missing_counts := _; unique_trackers := _; sample_values := _ |} cols)
    with (foldl_res f (state_of cols m g) cols).
  rewrite scan_columns_of by done. f_equal. apply state_of_ext.
  intros c Hc. by rewrite decide_True.
Qed.

(** All the chunks, when none raises. *)
Lemma scan_chunks_of cols n g i (chunks : list frame) :
  NoDup cols →
  scan_chunks cols i (state_of cols n g) (Ok <$> chunks)
  = Ok (state_of cols (n + sum_list (len <$> chunks))
          (λ c, col_scan i (g c) ((λ chunk, chunk_col chunk c) <$> chunks))).
Proof.
  intros Hnd. revert n g i.
  induction chunks as [|chunk chunks IH]; intros n g i.
  { simpl. by rewrite Nat.add_0_r. }
  cbn [fmap list_fmap scan_chunks mbind result_bind res_bind].
  rewrite scan_chunk_of by done. cbn [mbind result_bind res_bind].
  rewrite IH. f_equal. simpl. by rewrite Nat.add_assoc.
Qed.

End scan.

(** ** What the scan finds of a column *)

Section col_scan.
Implicit Types (x : col_state) (s : series) (ss : list series) (i : nat).

Lemma col_scan_missing i x ss :
  cs_missing (col_scan i x ss) = cs_missing x + count_missing (mjoin ss).
Proof.
  revert i x. induction ss as [|s ss IH]; intros i x; simpl.
  { rewrite count_missing_nil. lia. }
  rewrite IH, count_missing_app. simpl. lia.
Qed.

Lemma collect_samples_app samples vals1 vals2 :
  Forall (λ v, is_scalar v = true) vals1 →
  collect_samples samples (vals1 ++ vals2)
  = collect_samples (collect_samples samples vals1) vals2.
Proof.
  intros Hvals. revert samples.
  induction Hvals as [|v vals Hv _ IH]; intros samples; [done|].
  simpl. rewrite safe_convert_value_scalar by done. by case_decide.
Qed.

Lemma Forall_scalar_dropna s :
  Forall (λ v, is_scalar v = true) s → Forall (λ v, is_scalar v = true) (dropna s).
Proof.
  rewrite !Forall_forall. intros Hs v Hv. apply Hs.
  by apply list_elem_of_filter in Hv as [_ ?].
Qed.

(** The samples are collected as if the column were read in one piece. *)
Lemma col_scan_samples i x ss :
  Forall (Forall (λ v, is_scalar v = true)) ss →
  cs_samples (col_scan i x ss)
  = collect_samples (cs_samples x) (dropna (mjoin ss)).
Proof.
  intros Hss. revert i x.
  induction Hss as [|s ss Hs _ IH]; intros i x; [done|].
  simpl. rewrite IH, dropna_app, collect_samples_app; [done|].
  by apply Forall_scalar_dropna.
Qed.

(** After the third chunk the tracker does not change. *)
Lemma col_scan_tracker_late i x ss :
  3 ≤ i → cs_tracker (col_scan i x ss) = cs_tracker x.
Proof.
  revert i x. induction ss as [|s ss IH]; intros i x Hi; [done|].
  simpl. rewrite IH by lia. simpl. by rewrite decide_False by lia.
Qed.

Lemma col_step_tracker_length i s x :
  length (cs_tracker x) ≤ length (cs_tracker (col_step i s x))
  ≤ length (cs_tracker x) + (if decide (i < 3) then 100 else 0).
Proof.
  cbn [col_step cs_tracker].
  destruct (decide (i < 3 ∧ _)) as [[Hi _]|Hn]; [|case_decide; lia].
  pose proof (length_track_values (cs_tracker x) (head 100 (unique (dropna s)))).
  unfold head in *. rewrite length_take in *.
  rewrite (decide_True (P := i < 3)) by done. lia.
Qed.

(** Every chunk adds at most 100 values, and only the first three do. *)
Lemma col_scan_tracker_length i x ss :
  length (cs_tracker (col_scan i x ss)) ≤ length (cs_tracker x) + 100 * (3 - i).
Proof.
  revert i x. induction ss as [|s ss IH]; intros i x; simpl; [lia|].
  etrans; [apply IH|]. pose proof (col_step_tracker_length i s x).
  case_decide; lia.
Qed.

Lemma col_scan_tracker_NoDup i x ss :
  NoDup (cs_tracker x) → NoDup (cs_tracker (col_scan i x ss)).
Proof.
  revert i x. induction ss as [|s ss IH]; intros i x Hx; [done|].
  simpl. apply IH. simpl. case_decide; [|done]. by apply NoDup_track_values.
Qed.

(** Every tracked value is the conversion of a value of the column that
    is not missing. *)
Lemma col_scan_tracker_sound i x ss j :
  j ∈ cs_tracker (col_scan i x ss) →
  j ∈ cs_tracker x ∨
  ∃ v, v ∈ mjoin ss ∧ is_missing v = false ∧ safe_convert_value v = Ok j.
Proof.
  revert i x. induction ss as [|s ss IH]; intros i x; simpl; [auto|].
  intros [Hj|(v & ? & ? & ?)]%IH.
  2:{ right. exists v. split_and!; [apply elem_of_app; by right|done..]. }
  simpl in Hj. case_decide; [|auto].
  apply elem_of_track_values in Hj as [?|(v & Hv & ?)]; [auto|right].
  apply (subseteq_take 100), elem_of_unique, list_elem_of_filter in Hv as [? ?].
  exists v. split_and!; [apply elem_of_app; by left|done..].
Qed.

End col_scan.

(** ** The scan of a file that reads whole *)

(** The cells of a column in the successive chunks of a frame. *)
Definition col_chunks (chunk_size : nat) (df : frame) (col : string)
    : list series :=
  (λ chunk, chunk_col chunk col) <$> frame_chunks chunk_size df.

(** What the scan finds of a column of a frame. *)
Definition final_col (chunk_size : nat) (df : frame) (col : string) : col_state :=
  col_scan 0 (ColState 0 [] []) (col_chunks chunk_size df col).

(** The state the scan of a frame ends in. *)
Definition final_state (chunk_size : nat) (df : frame) : scan_state :=
  state_of (columns df) (len df) (final_col chunk_size df).

Section whole.
Implicit Types (df : frame) (col : string) (fs : filesystem) (path : string).
Variable chunk_size : nat.
Hypothesis chunk_size_pos : 0 < chunk_size.

Lemma frame_chunks_len df : sum_list (len <$> frame_chunks chunk_size df) = len df.
Proof.
  transitivity (length (mjoin (rows <$> frame_chunks chunk_size df))).
  - by rewrite length_join, <-list_fmap_compose.
  - by rewrite frame_chunks_rows.
Qed.

Lemma chunk_col_eq df col :
  chunk_col df col
  = match col_index (columns df) col with
    | Some j => column j (rows df)
    | None => []
    end.
Proof. unfold chunk_col, getitem. by case_match. Qed.

Lemma chunk_col_with_rows df rs col :
  chunk_col (with_rows df rs) col
  = match col_index (columns df) col with
    | Some j => column j rs
    | None => []
    end.
Proof. exact (chunk_col_eq (with_rows df rs) col). Qed.

(** The chunks of a column, joined, are the column. *)
Lemma col_chunks_join df col :
  mjoin (col_chunks chunk_size df col) = chunk_col df col.
Proof.
  unfold col_chunks, frame_chunks. rewrite (chunk_col_eq df).
  destruct (rows df) as [|r rs] eqn:Hrows.
  { simpl. by rewrite app_nil_r, chunk_col_eq, Hrows. }
  rewrite <-list_fmap_compose.
  erewrite list_fmap_ext; [|intros ???; apply chunk_col_with_rows].
  destruct (col_index (columns df) col) as [j|].
  - rewrite <-(chunks_concat chunk_size (r :: rs)) at 2 by done.
    unfold column. by rewrite fmap_join.
  - induction (chunks chunk_size (r :: rs)); by csimpl.
Qed.

(** The scan of the chunks of a frame. *)
Lemma scan_chunks_whole df :
  NoDup (columns df) →
  scan_chunks (columns df) 0 (init_state (columns df))
    (Ok <$> frame_chunks chunk_size df)
  = Ok (final_state chunk_size df).
Proof.
  intros. rewrite init_state_of, scan_chunks_of by done.
  by rewrite frame_chunks_len.
Qed.

Lemma final_col_missing df col :
  cs_missing (final_col chunk_size df col) = count_missing (chunk_col df col).
Proof. unfold final_col. by rewrite col_scan_missing, col_chunks_join. Qed.

Lemma final_col_tracker_length df col :
  length (cs_tracker (final_col chunk_size df col)) ≤ 300.
Proof.
  unfold final_col. etrans; [apply col_scan_tracker_length|]. simpl. lia.
Qed.

Lemma final_col_tracker_NoDup df col :
  NoDup (cs_tracker (final_col chunk_size df col)).
Proof. apply col_scan_tracker_NoDup, NoDup_nil_2. Qed.

End whole.

(** ** The report of a file that reads whole *)

Section report.
Implicit Types (df : frame) (col : string) (fs : filesystem) (path : string).
Implicit Types (g : string → col_state) (cols : list string).

Lemma getsize_open fs path hd :
  open_csv fs path = Ok hd → ∃ size, getsize fs path = Ok size.
Proof. unfold open_csv, getsize. case_match; [eauto|done]. Qed.

Lemma column_report_of col_dtypes cols n g col :
  col ∈ cols →
  column_report col_dtypes (state_of cols n g) col
  = {| ca_dtype := default "object" (col_dtypes !! col);
       ca_missing_count := cs_missing (g col);
       ca_missing_percentage := percentage (cs_missing (g col)) n;
       ca_unique_values :=
         if decide (length (cs_tracker (g col)) < 1000)
         then Exactly (length (cs_tracker (g col))) else Capped;
       ca_sample_values := take 3 (cs_samples (g col)) |}.
Proof.
  intros. unfold column_report, state_of.
  cbn [unique_trackers missing_counts sample_values total_rows].
  by rewrite !dict_get_dict_of_keys.
Qed.

(** The dtype the probe finds is ['object'] for every column. *)
Lemma probe_dtypes_object header rs col :
  col ∈ header →
  probe_dtypes (str_frame header rs) header !! col = Some "object".
Proof.
  intros Hcol. unfold probe_dtypes. rewrite lookup_dict_of_keys_Some by done.
  unfold getdtype. simpl. destruct (col_index header col) as [j|] eqn:Hj; [|done].
  simpl. apply col_index_lt in Hj.
  by rewrite lookup_replicate_2.
Qed.

(** The sum over the columns of a frame, by position. *)
Lemma sum_columns_by_position df (f : series → nat) :
  NoDup (columns df) →
  sum_list ((λ c, f (chunk_col df c)) <$> columns df)
  = sum_list ((λ j, f (column j (rows df))) <$> seq 0 (length (columns df))).
Proof.
  intros Hnd. f_equal. apply list_eq. intros j.
  rewrite !list_lookup_fmap.
  destruct (columns df !! j) as [c|] eqn:Hc; simpl.
  - rewrite lookup_seq_lt by eauto using lookup_lt_Some. simpl.
    by rewrite chunk_col_eq, (col_index_lookup _ _ j).
  - by rewrite lookup_seq_ge by by apply lookup_ge_None.
Qed.

(** The analysis of a file that reads whole is the report of the state
    its scan ends in. *)
Lemma analyze_with_whole chunk_size fs path sample_size df :
  0 < chunk_size →
  read_csv fs path None false = Ok df →
  NoDup (columns df) →
  ∃ size col_dtypes,
    getsize fs path = Ok size ∧
    (∀ c, c ∈ columns df → col_dtypes !! c = Some "object") ∧
    analyze_with chunk_size fs path sample_size
    = Ok (make_report fs path sample_size (columns df) col_dtypes
            (final_state chunk_size df) size).
Proof.
  intros Hn Hread Hnd.
  pose proof Hread as (header & data & rs & Hopen & _ & ->)%read_csv_Ok.
  destruct (getsize_open _ _ _ Hopen) as [size Hsize].
  exists size, (probe_dtypes (str_frame header (take 1000 rs)) header).
  split_and!; [done|intros; by apply probe_dtypes_object|].
  unfold analyze_with.
  rewrite (read_csv_prefix _ _ _ 1000 false Hread).
  rewrite (read_csv_chunks_whole _ _ chunk_size _ Hread).
  pose proof (scan_chunks_whole chunk_size Hn _ Hnd) as Hscan.
  cbn [mbind result_bind res_bind with_rows columns str_frame] in *.
  rewrite Hscan. cbn [res_bind]. unfold build_report. by rewrite Hsize.
Qed.

End report.

(** ** Fields of the report *)

Section fields.
Implicit Types (df : frame) (col : string) (fs : filesystem) (path : string).
Variables (chunk_size : nat) (fs : filesystem) (path : string).
Variables (sample_size : nat) (df : frame).
Hypothesis chunk_size_pos : 0 < chunk_size.
Hypothesis Hread : read_csv fs path None false = Ok df.
Hypothesis Hnd : NoDup (columns df).

Lemma read_whole_wf : frame_wf df.
Proof. by eapply read_csv_wf. Qed.

(** The missing cells the scan counts are those of the table. *)
Lemma final_state_missing :
  dict_sum (missing_counts (final_state chunk_size df))
  = sum_list (count_missing <$> rows df).
Proof.
  unfold final_state, state_of. cbn [missing_counts].
  rewrite dict_sum_dict_of_keys by done.
  erewrite list_fmap_ext; [|intros ???; apply final_col_missing, chunk_size_pos].
  rewrite (sum_columns_by_position df count_missing) by done.
  apply count_missing_columns, read_whole_wf.
Qed.

End fields.

Lemma sum_count_missing_le n (rs : list (list py_value)) :
  Forall (λ r, length r = n) rs →
  sum_list (count_missing <$> rs) ≤ length rs * n.
Proof.
  induction 1 as [|r rs Hr _ IH]; csimpl; [done|].
  pose proof (count_missing_le r). lia.
Qed.

(** ** Text frames *)

(** A cell read as text: a string or NaN. *)
Definition is_text (v : py_value) : Prop := v = PyNaN ∨ ∃ t, v = PyStr t.

Definition scalars (s : series) : Prop := Forall (λ v, is_scalar v = true) s.

(** A property of the cells of a frame, which NaN has, holds of the cells
    of each of its columns and chunks. *)
Section cells.
Variable P : py_value → Prop.
Hypothesis P_nan : P PyNaN.
Implicit Types (df : frame) (col : string) (rs : list (list py_value)).

Lemma column_Forall j rs : Forall (Forall P) rs → Forall P (column j rs).
Proof.
  intros Hrs. apply Forall_fmap. eapply Forall_impl; [done|].
  intros r Hr. simpl. unfold cell.
  destruct (r !! j) as [v|] eqn:Hv; [|done].
  by apply (Forall_lookup_1 _ _ _ _ Hr Hv).
Qed.

Lemma chunk_col_Forall df col :
  Forall (Forall P) (rows df) → Forall P (chunk_col df col).
Proof.
  intros. rewrite chunk_col_eq. case_match; [by apply column_Forall|constructor].
Qed.

Lemma col_chunks_Forall chunk_size df col :
  0 < chunk_size →
  Forall (Forall P) (rows df) → Forall (Forall P) (col_chunks chunk_size df col).
Proof.
  intros Hn Hdf. unfold col_chunks. apply Forall_fmap, Forall_forall.
  intros chunk Hchunk. apply chunk_col_Forall, Forall_forall. intros r Hr.
  eapply Forall_forall in Hdf; [done|].
  rewrite <-(frame_chunks_rows chunk_size df) by done.
  apply list_elem_of_join. exists (rows chunk). split; [done|].
  by apply list_elem_of_fmap_2.
Qed.

End cells.

Section text.
Implicit Types (df : frame) (col : string) (s : series).

Lemma is_text_scalar v : is_text v → is_scalar v = true.
Proof. by intros [->|[t ->]]. Qed.

Lemma parse_row_text ncols line r :
  parse_row ncols line = Some r → Forall is_text r.
Proof.
  unfold parse_row. case_decide; [|done]. intros [= <-].
  apply Forall_fmap, Forall_forall. intros field _. simpl.
  destruct (parse_cell_text field) as [-> | ->]; [by left|right; eauto].
Qed.

(** Every cell of a frame that [read_csv] returns is text. *)
Lemma read_csv_text fs path nrows lenient df :
  read_csv fs path nrows lenient = Ok df → Forall (Forall is_text) (rows df).
Proof.
  intros (header & data & rs & _ & Hrs & ->)%read_csv_Ok. simpl.
  destruct lenient.
  - unfold parse_rows in Hrs. simplify_eq. apply Forall_forall.
    intros r (line & _ & ?)%list_elem_of_omap. by eapply parse_row_text.
  - apply parse_rows_strict_Ok in Hrs.
    induction Hrs; constructor; eauto using parse_row_text.
Qed.

Lemma text_scalars (rs : list (list py_value)) :
  Forall (Forall is_text) rs → Forall scalars rs.
Proof.
  intros Hrs. eapply Forall_impl; [done|]. intros r Hr.
  eapply Forall_impl; [done|]. apply is_text_scalar.
Qed.

Lemma chunk_col_scalars df col :
  Forall (Forall is_text) (rows df) → scalars (chunk_col df col).
Proof.
  intros Hdf%text_scalars. by apply (chunk_col_Forall (λ v, is_scalar v = true)).
Qed.

Lemma col_chunks_scalars chunk_size df col :
  0 < chunk_size →
  Forall (Forall is_text) (rows df) → Forall scalars (col_chunks chunk_size df col).
Proof.
  intros Hn Hdf%text_scalars. by apply (col_chunks_Forall (λ v, is_scalar v = true)).
Qed.

(** On the values of a text column that are not missing the conversion is
    injective. *)
Lemma json_of_text_inj s v1 v2 :
  Forall is_text s → v1 ∈ dropna s → v2 ∈ dropna s →
  json_of v1 = json_of v2 → v1 = v2.
Proof.
  intros Hs [Hm1 Hv1]%list_elem_of_filter [Hm2 Hv2]%list_elem_of_filter.
  eapply Forall_forall in Hv1, Hv2; [|done..].
  destruct Hv1 as [->|[t1 ->]], Hv2 as [->|[t2 ->]]; try done.
  unfold json_of. simpl. congruence.
Qed.

(** Every value the tracker holds is a value of the column. *)
Lemma final_col_tracker_sound chunk_size df col j :
  0 < chunk_size → Forall (Forall is_text) (rows df) →
  j ∈ cs_tracker (final_col chunk_size df col) →
  j ∈ json_of <$> dropna (chunk_col df col).
Proof.
  intros Hn Hdf [Hj|(v & Hv & Hm & Hj)]%col_scan_tracker_sound.
  { by apply elem_of_nil in Hj. }
  rewrite col_chunks_join in Hv by done.
  assert (is_scalar v = true) as Hs.
  { apply is_text_scalar. eapply Forall_forall; [|done].
    apply chunk_col_Forall; [by left|done]. }
  rewrite safe_convert_value_scalar in Hj by done. simplify_eq.
  apply list_elem_of_fmap_2. by apply list_elem_of_filter.
Qed.

(** A frame of at most [chunk_size] rows is scanned as one chunk. *)
Lemma col_chunks_single chunk_size df col :
  0 < chunk_size → len df ≤ chunk_size →
  col_chunks chunk_size df col = [chunk_col df col].
Proof.
  intros Hn Hlen. unfold col_chunks, frame_chunks, len in *.
  destruct (rows df) as [|r rs] eqn:Hrows; [done|].
  rewrite chunks_small by (simpl in *; lia). simpl.
  by rewrite chunk_col_with_rows, chunk_col_eq, Hrows.
Qed.

(** With one chunk the tracker holds the first hundred distinct values. *)
Lemma final_col_tracker_single chunk_size df col :
  0 < chunk_size → len df ≤ chunk_size → Forall (Forall is_text) (rows df) →
  cs_tracker (final_col chunk_size df col)
  = json_of <$> take 100 (unique (dropna (chunk_col df col))).
Proof.
  intros Hn Hlen Hdf. unfold final_col. rewrite col_chunks_single by done.
  assert (Forall is_text (chunk_col df col)) as Hcol
    by (apply chunk_col_Forall; [by left|done]).
  set (vals := unique (dropna (chunk_col df col))).
  assert (∀ v, v ∈ take 100 vals → v ∈ dropna (chunk_col df col)) as Hvals.
  { intros v Hv. apply (subseteq_take 100) in Hv. by apply elem_of_unique. }
  cbn [col_scan col_step cs_tracker]. rewrite decide_True by (simpl; lia).
  unfold head. fold vals. rewrite track_values_scalars.
  2:{ apply Forall_forall. intros v [_ Hv]%Hvals%list_elem_of_filter.
      apply is_text_scalar. by eapply Forall_forall. }
  fold (unique (json_of <$> take 100 vals)). rewrite unique_fmap_inj.
  2:{ intros v1 v2 ?%Hvals ?%Hvals.
      by apply (json_of_text_inj (chunk_col df col)). }
  f_equal. apply unique_NoDup.
  eapply sublist_NoDup; [apply NoDup_unique|apply sublist_take].
Qed.

End text.

(** ** The duplicate estimate *)

Section estimate.
Implicit Types (fs : filesystem) (path : string) (df : frame).

Lemma count_duplicated_le {A} `{EqDecision A} (l : list A) :
  count_true (duplicated l) ≤ length l.
Proof. pose proof (count_duplicated l). lia. Qed.

(** The extrapolation from a sample of [n] rows with [dups] duplicates. *)
Lemma extrapolation_bounds (dups n total : nat) :
  dups ≤ n →
  (0 ≤ Z.of_nat dups * Z.of_nat total / Z.of_nat (n `max` 1) ≤ Z.of_nat total)%Z.
Proof.
  intros. split; [apply Z.div_pos; lia|].
  apply Z.div_le_upper_bound; [lia|]. nia.
Qed.

Lemma duplicate_estimate_bounded fs path sample_size total :
  (0 ≤ duplicate_estimate fs path sample_size total ≤ Z.of_nat total)%Z.
Proof.
  unfold duplicate_estimate.
  destruct (read_csv _ _ _ _) as [sample_df|]; simpl; [|lia].
  apply extrapolation_bounds, count_duplicated_le.
Qed.

(** When the sample is the whole table the estimate is the number of
    duplicate rows. *)
Lemma duplicate_estimate_whole fs path sample_size df :
  read_csv fs path None false = Ok df →
  len df ≤ sample_size →
  duplicate_estimate fs path sample_size (len df)
  = Z.of_nat (count_true (duplicated (rows df))).
Proof.
  intros Hread Hlen. unfold duplicate_estimate.
  rewrite (read_csv_prefix _ _ _ _ true Hread). simpl.
  rewrite Nat.min_r, take_ge by (unfold len in *; lia). unfold len. simpl.
  destruct (rows df) as [|r rs]; [done|].
  rewrite Nat.max_l by (simpl; lia). apply Z.div_mul. simpl. lia.
Qed.

End estimate.

(** ** Percentages *)

Lemma percentage_bounds a b : a ≤ b → (0 ≤ percentage a b ≤ 10000)%Z.
Proof.
  intros. unfold percentage. case_decide; [|lia]. split.
  - apply div_half_even_nonneg; lia.
  - apply div_half_even_le; lia.
Qed.

Lemma percentage_zero b : percentage 0 b = 0%Z.
Proof.
  unfold percentage. case_decide; [|done].
  replace (Z.of_nat 0 * 10000)%Z with (0 * Z.of_nat b)%Z by lia.
  apply div_half_even_exact. lia.
Qed.

(** ** Files that do not read *)

Section failures.
Implicit Types (fs : filesystem) (path : string) (cols : list string).

(** The scan raises when a chunk raises. *)
Lemma scan_chunks_Raise cols i st it e :
  Raise e ∈ it → ∃ e', scan_chunks cols i st it = Raise e'.
Proof.
  revert i st. induction it as [|next it IH]; intros i st Hin.
  { by apply elem_of_nil in Hin. }
  cbn [scan_chunks]. unfold_bind.
  destruct next as [chunk|e1]; simpl; [|eauto].
  destruct (scan_chunk cols i st chunk) as [st'|e2]; simpl; [|eauto].
  apply IH. by apply elem_of_cons in Hin as [?|?].
Qed.

(** When the lines do not all parse, those of some chunk do not. *)
Lemma parse_rows_chunk_Raise n ncols ls e :
  0 < n → parse_rows false ncols ls = Raise e →
  ∃ chunk, chunk ∈ chunks n ls ∧ parse_rows false ncols chunk = Raise e.
Proof.
  intros Hn. unfold parse_rows.
  destruct (mapM _ ls) eqn:Hls; [done|]. intros [= <-].
  apply mapM_None, Exists_exists in Hls as (l & Hl & Hnone).
  rewrite <-(chunks_concat n ls) in Hl by done.
  apply list_elem_of_join in Hl as (chunk & Hl & Hchunk).
  exists chunk. split; [done|].
  assert (mapM (parse_row ncols) chunk = None) as ->; [|done].
  apply mapM_None, Exists_exists. eauto.
Qed.

Lemma analyze_with_Raise_inv chunk_size fs path sample_size e :
  analyze_with chunk_size fs path sample_size = Raise e →
  ∃ msg, e = Exception msg.
Proof. unfold analyze_with. case_match; naive_solver. Qed.

(** A file that does not read whole has no report. *)
Lemma analyze_with_unreadable chunk_size fs path sample_size e :
  0 < chunk_size →
  read_csv fs path None false = Raise e →
  ∃ msg, analyze_with chunk_size fs path sample_size = Raise (Exception msg).
Proof.
  intros Hn Hread.
  enough (∃ e', analyze_with chunk_size fs path sample_size = Raise e')
    as [e' He'].
  { destruct (analyze_with_Raise_inv _ _ _ _ _ He') as [msg ->]. eauto. }
  unfold analyze_with, read_csv, read_csv_chunks in *. unfold_bind.
  destruct (open_csv fs path) as [[header data]|]; simpl in *; [|eauto].
  destruct (parse_rows false (length header) (take 1000 data)); simpl; [|eauto].
  destruct (parse_rows false (length header) data) eqn:Hdata; [done|].
  destruct (parse_rows_chunk_Raise chunk_size _ _ _ Hn Hdata)
    as (chunk & Hchunk & Hraise).
  destruct data as [|l data]; [done|].
  match goal with
  | |- context [scan_chunks ?c ?i ?st ?it] =>
      destruct (scan_chunks_Raise c i st it e) as [e' ->]; [|simpl; eauto]
  end.
  apply list_elem_of_fmap. exists chunk. by rewrite Hraise.
Qed.

End failures.
