(* ===== verification/AnalyzerSpec.v ===== *)
(** * AnalyzerSpec: what the Quality Analyzer promises

    [Spec] states the contract of section 4.3 of the specification over
    the whole table, with no chunks: the number of rows, the missing
    cells, the samples and the duplicates of a frame.  The theorems show
    that [analyze_with] (the code, chunk by chunk) meets it for every
    chunk size, and where it does not: the count of distinct values
    depends on the chunks and never reaches the cap. *)

From S2P Require Import Prelude Strings Value Frame Reader Analyzer.

(** ** The contract *)

Module Spec.

(** The number of data rows. *)
Definition total_rows (df : frame) : nat := length (rows df).

(** The number of missing cells of the table. *)
Definition missing_cells (df : frame) : nat :=
  sum_list (count_missing <$> rows df).

(** The number of missing cells of a column. *)
Definition missing_count (df : frame) (col : string) : nat :=
  count_missing (chunk_col df col).

(** The first three values of a column that are not missing. *)
Definition samples (df : frame) (col : string) : list json :=
  take 3 (json_of <$> dropna (chunk_col df col)).

(** The distinct values of a column that are not missing. *)
Definition distinct (df : frame) (col : string) : list json :=
  unique (json_of <$> dropna (chunk_col df col)).

(** The rows that repeat an earlier row. *)
Definition duplicates (df : frame) : nat := count_true (duplicated (rows df)).

End Spec.

(** The file at [path] reads whole, as [df], and its columns have
    distinct names. *)
Definition reads_whole (fs : filesystem) (path : string) (df : frame) : Prop :=
  read_csv fs path None false = Ok df ∧ NoDup (columns df).

(** The report without the counts of distinct values. *)
Definition forget_unique (r : quality_report) : quality_report :=
  {| qr_total_rows := qr_total_rows r;
     qr_total_columns := qr_total_columns r;
     qr_total_cells := qr_total_cells r;
     qr_missing_cells := qr_missing_cells r;
     qr_missing_percentage := qr_missing_percentage r;
     qr_column_analysis :=
       (λ ca, {| ca_dtype := ca_dtype ca;
                 ca_missing_count := ca_missing_count ca;
                 ca_missing_percentage := ca_missing_percentage ca;
                 ca_unique_values := Exactly 0;
                 ca_sample_values := ca_sample_values ca |})
       <$> qr_column_analysis r;
     qr_duplicate_rows := qr_duplicate_rows r;
     qr_memory_usage := qr_memory_usage r;
     qr_is_large_file := qr_is_large_file r |}.

(** ** The report of a file that reads whole *)

Section whole_report.
Variables (chunk_size : nat) (fs : filesystem) (path : string).
Variables (sample_size : nat) (df : frame).
Hypothesis chunk_size_pos : 0 < chunk_size.
Hypothesis Hwhole : reads_whole fs path df.

(** The entry of a column, as the contract states it. *)
Definition entry_of (col : string) : column_analysis :=
  let tracker := cs_tracker (final_col chunk_size df col) in
  {| ca_dtype := "object";
     ca_missing_count := Spec.missing_count df col;
     ca_missing_percentage :=
       percentage (Spec.missing_count df col) (Spec.total_rows df);
     ca_unique_values :=
       if decide (length tracker < 1000) then Exactly (length tracker)
       else Capped;
     ca_sample_values := Spec.samples df col |}.

Lemma final_col_samples col :
  take 3 (cs_samples (final_col chunk_size df col)) = Spec.samples df col.
Proof.
  destruct Hwhole as [Hread%read_csv_text _]. unfold final_col, Spec.samples.
  rewrite col_scan_samples by by apply col_chunks_scalars.
  rewrite col_chunks_join by done.
  rewrite collect_samples_scalars by by apply Forall_scalar_dropna, chunk_col_scalars.
  simpl. by rewrite take_take.
Qed.

Lemma column_report_whole col_dtypes col :
  col ∈ columns df →
  col_dtypes !! col = Some "object" →
  column_report col_dtypes (final_state chunk_size df) col = entry_of col.
Proof.
  intros Hcol Hdt. unfold final_state. rewrite column_report_of by done.
  unfold entry_of. rewrite Hdt, final_col_samples.
  by rewrite final_col_missing.
Qed.

(** The report of the analysis, field by field. *)
Lemma analyze_with_report :
  ∃ size,
    getsize fs path = Ok size ∧
    analyze_with chunk_size fs path sample_size
    = Ok {| qr_total_rows := Spec.total_rows df;
            qr_total_columns := length (columns df);
            qr_total_cells := Spec.total_rows df * length (columns df);
            qr_missing_cells := Spec.missing_cells df;
            qr_missing_percentage :=
              percentage (Spec.missing_cells df)
                (Spec.total_rows df * length (columns df));
            qr_column_analysis := dict_of_keys entry_of (columns df);
            qr_duplicate_rows :=
              duplicate_estimate fs path sample_size (Spec.total_rows df);
            qr_memory_usage :=
              div_half_even (Z.of_nat size * 100) (1024 * 1024);
            qr_is_large_file :=
              bool_decide (50000 < Z.of_nat (Spec.total_rows df))%Z |}.
Proof.
  destruct Hwhole as [Hread Hnd].
  destruct (analyze_with_whole chunk_size fs path sample_size df)
    as (size & dt & Hsize & Hdt & ->); [done..|].
  exists size. split; [done|]. f_equal. unfold make_report.
  rewrite (final_state_missing chunk_size fs path df) by done.
  f_equal. apply dict_of_keys_ext. intros col Hcol.
  apply column_report_whole; auto.
Qed.

End whole_report.

(** ** Example: the scenario of the specification *)

(** The file [a,b / 1,2 / 3, / 5,6]: three rows, one missing cell. *)
Definition example_fs : filesystem :=
  {[ "data.csv" := "a,b" +:+ String NEWLINE ("1,2" +:+ String NEWLINE
       ("3," +:+ String NEWLINE "5,6")) ]}.

Definition example_df : frame :=
  str_frame ["a"; "b"]
    [[PyStr "1"; PyStr "2"]; [PyStr "3"; PyNaN]; [PyStr "5"; PyStr "6"]].

Lemma example_reads_whole : reads_whole example_fs "data.csv" example_df.
Proof. split; compute_done. Defined.

(** ** The counts are exact *)

(** C1: for every chunk size, the analysis of a file that reads whole
    returns a report, and the report gives the exact numbers of rows,
    columns and cells of the table. *)
Theorem analyze_total_rows_exact chunk_size fs path sample_size df :
  0 < chunk_size → reads_whole fs path df →
  ∃ r, analyze_with chunk_size fs path sample_size = Ok r ∧
       qr_total_rows r = Spec.total_rows df ∧
       qr_total_columns r = length (columns df) ∧
       qr_total_cells r = Spec.total_rows df * length (columns df) ∧
       qr_is_large_file r = bool_decide (50000 < Z.of_nat (Spec.total_rows df))%Z.
Proof.
  intros Hn Hw.
  destruct (analyze_with_report chunk_size fs path sample_size df Hn Hw)
    as (size & _ & ->).
  eexists. split; [done|]. by split_and!.
Qed.

Lemma analyze_total_rows_exact_witness :
  ∃ r, analyze_with 2 example_fs "data.csv" 10 = Ok r ∧
       qr_total_rows r = 3 ∧ qr_total_columns r = 2 ∧ qr_total_cells r = 6 ∧
       qr_is_large_file r = false.
Proof.
  apply (analyze_total_rows_exact 2 example_fs "data.csv" 10 example_df).
  - lia.
  - split; compute_done.
Defined.

Lemma missing_count_sum df :
  frame_wf df →
  sum_list (Spec.missing_count df <$> columns df) = Spec.missing_cells df.
Proof.
  intros (Hnd & _ & Hrows). unfold Spec.missing_count, Spec.missing_cells.
  rewrite (sum_columns_by_position df count_missing) by done.
  by apply count_missing_columns.
Qed.

(** The missing counts of the columns add up to the missing cells of
    the report. *)
Lemma analyze_missing_cells_sum chunk_size fs path sample_size df r :
  0 < chunk_size → reads_whole fs path df →
  analyze_with chunk_size fs path sample_size = Ok r →
  dict_sum (ca_missing_count <$> qr_column_analysis r) = qr_missing_cells r.
Proof.
  intros Hn Hw.
  destruct (analyze_with_report chunk_size fs path sample_size df Hn Hw)
    as (size & _ & ->).
  intros [= <-]. simpl. destruct Hw as [Hread Hnd].
  rewrite fmap_dict_of_keys, dict_sum_dict_of_keys by done.
  apply missing_count_sum. by eapply read_csv_wf.
Qed.

(** C2: the report gives the exact number of missing cells of the table,
    whatever the chunk size, and the missing counts of the entries of
    its columns add up to this number. *)
Theorem analyze_missing_cells_exact chunk_size fs path sample_size df :
  0 < chunk_size → reads_whole fs path df →
  ∃ r, analyze_with chunk_size fs path sample_size = Ok r ∧
       qr_missing_cells r = Spec.missing_cells df ∧
       dict_sum (ca_missing_count <$> qr_column_analysis r) = qr_missing_cells r.
Proof.
  intros Hn Hw.
  destruct (analyze_with_report chunk_size fs path sample_size df Hn Hw)
    as (size & _ & Hr).
  eexists. split_and!; [exact Hr|done|].
  by apply (analyze_missing_cells_sum chunk_size fs path sample_size df).
Qed.

Lemma analyze_missing_cells_exact_witness :
  ∃ r, analyze_with 2 example_fs "data.csv" 10 = Ok r ∧ qr_missing_cells r = 1 ∧
       dict_sum (ca_missing_count <$> qr_column_analysis r) = qr_missing_cells r.
Proof.
  apply (analyze_missing_cells_exact 2 example_fs "data.csv" 10 example_df).
  - lia.
  - split; compute_done.
Defined.

(** C3: the report does not depend on the chunk size, except for the
    counts of distinct values: two analyses of the same file with different
    chunk sizes agree on every other field. *)
Theorem analyze_chunk_size_independent n1 n2 fs path sample_size df r1 r2 :
  0 < n1 → 0 < n2 → reads_whole fs path df →
  analyze_with n1 fs path sample_size = Ok r1 →
  analyze_with n2 fs path sample_size = Ok r2 →
  forget_unique r1 = forget_unique r2.
Proof.
  intros Hn1 Hn2 Hw.
  destruct (analyze_with_report n1 fs path sample_size df Hn1 Hw)
    as (size1 & Hsize1 & ->).
  destruct (analyze_with_report n2 fs path sample_size df Hn2 Hw)
    as (size2 & Hsize2 & ->).
  assert (size1 = size2) as -> by congruence.
  intros [= <-] [= <-]. unfold forget_unique. simpl. f_equal.
  rewrite !fmap_dict_of_keys. by apply dict_of_keys_ext.
Qed.

Lemma analyze_chunk_size_independent_witness :
  ∃ r1 r2,
    analyze_with 1 example_fs "data.csv" 10 = Ok r1 ∧
    analyze_with 5 example_fs "data.csv" 10 = Ok r2 ∧
    forget_unique r1 = forget_unique r2.
Proof.
  eexists _, _. split_and!; [vm_compute; reflexivity..|].
  apply (analyze_chunk_size_independent 1 5 example_fs "data.csv" 10 example_df).
  - lia.
  - lia.
  - split; compute_done.
  - vm_compute. reflexivity.
  - vm_compute. reflexivity.
Defined.

(** C5: the entry of every column gives its dtype ['object'], the exact
    number of its missing cells, their percentage of the rows, and as
    samples the first three values of the column that are not missing,
    whatever the chunk size. *)
Theorem analyze_column_entry chunk_size fs path sample_size df r col :
  0 < chunk_size → reads_whole fs path df → col ∈ columns df →
  analyze_with chunk_size fs path sample_size = Ok r →
  ∃ ca, qr_column_analysis r !! col = Some ca ∧
        ca_dtype ca = "object" ∧
        ca_missing_count ca = Spec.missing_count df col ∧
        ca_missing_percentage ca
        = percentage (Spec.missing_count df col) (Spec.total_rows df) ∧
        ca_sample_values ca = Spec.samples df col.
Proof.
  intros Hn Hw Hcol.
  destruct (analyze_with_report chunk_size fs path sample_size df Hn Hw)
    as (size & _ & ->).
  intros [= <-]. simpl. rewrite lookup_dict_of_keys_Some by done.
  eexists. split; [done|]. by split_and!.
Qed.

Lemma analyze_column_entry_witness :
  ∃ r, analyze_with 2 example_fs "data.csv" 10 = Ok r ∧
  ∃ ca, qr_column_analysis r !! "b" = Some ca ∧
        ca_dtype ca = "object" ∧
        ca_missing_count ca = 1 ∧
        ca_missing_percentage ca = 3333%Z ∧
        ca_sample_values ca = [JStr "2"; JStr "6"].
Proof.
  eexists. split; [vm_compute; reflexivity|].
  apply (analyze_column_entry 2 example_fs "data.csv" 10 example_df).
  - lia.
  - split; compute_done.
  - compute_done.
  - vm_compute. reflexivity.
Defined.

(** ** The duplicate estimate *)

(** The file [a,b / 1,2 / 1,2 / 3,4 / 1,2]: two rows repeat the first. *)
Definition repeats_fs : filesystem :=
  {[ "data.csv" := "a,b" +:+ String NEWLINE ("1,2" +:+ String NEWLINE
       ("1,2" +:+ String NEWLINE ("3,4" +:+ String NEWLINE "1,2"))) ]}.

Definition repeats_df : frame :=
  str_frame ["a"; "b"]
    [[PyStr "1"; PyStr "2"]; [PyStr "1"; PyStr "2"];
     [PyStr "3"; PyStr "4"]; [PyStr "1"; PyStr "2"]].

(** C7: the estimate of the duplicate rows is never negative and never
    more than the number of rows of the report, whatever the sample; and
    when the sample holds the whole table ([sample_size] is at least the
    number of rows), it is the exact number of rows that repeat an
    earlier row. *)
Theorem analyze_duplicates_exact chunk_size fs path sample_size df :
  0 < chunk_size → reads_whole fs path df →
  ∃ r, analyze_with chunk_size fs path sample_size = Ok r ∧
       (0 ≤ qr_duplicate_rows r ≤ Z.of_nat (qr_total_rows r))%Z ∧
       (len df ≤ sample_size →
        qr_duplicate_rows r = Z.of_nat (Spec.duplicates df)).
Proof.
  intros Hn Hw.
  destruct (analyze_with_report chunk_size fs path sample_size df Hn Hw)
    as (size & _ & ->).
  eexists. split; [done|]. split; [apply duplicate_estimate_bounded|].
  intros Hlen. simpl. destruct Hw as [Hread _].
  by apply duplicate_estimate_whole.
Qed.

Lemma analyze_duplicates_exact_witness :
  ∃ r, analyze_with 3 repeats_fs "data.csv" 10 = Ok r ∧
       (0 ≤ qr_duplicate_rows r ≤ Z.of_nat (qr_total_rows r))%Z ∧
       qr_duplicate_rows r = 2%Z.
Proof.
  destruct (analyze_duplicates_exact 3 repeats_fs "data.csv" 10 repeats_df)
    as (r & Hr & Hbounds & Hexact); [lia|split; compute_done|].
  exists r. split; [done|]. split; [done|]. apply Hexact. compute_done.
Defined.

(** ** Files that do not read *)

(** C8: when the file is missing, empty or has a malformed row, the
    analysis returns no report: it raises the exception of the outer
    handler, [Exception("Error analyzing CSV: ...")]. *)
Theorem analyze_unreadable_raises chunk_size fs path sample_size e :
  0 < chunk_size →
  read_csv fs path None false = Raise e →
  ∃ msg, analyze_with chunk_size fs path sample_size = Raise (Exception msg).
Proof. intros Hn Hread. by eapply analyze_with_unreadable. Qed.

(** The file [a,b / 1,2 / 3]: the second row has one cell. *)
Definition malformed_fs : filesystem :=
  {[ "bad.csv" := "a,b" +:+ String NEWLINE ("1,2" +:+ String NEWLINE "3") ]}.

Lemma analyze_unreadable_raises_witness :
  ∃ msg, analyze_with 1 malformed_fs "bad.csv" 10 = Raise (Exception msg).
Proof.
  apply (analyze_unreadable_raises 1 malformed_fs "bad.csv" 10
           (ParserError "Error tokenizing data")).
  - lia.
  - vm_compute. reflexivity.
Defined.

(** ** The distinct values *)

Section unique_values.
Variables (chunk_size : nat) (fs : filesystem) (path : string).
Variables (sample_size : nat) (df : frame).
Hypothesis chunk_size_pos : 0 < chunk_size.
Hypothesis Hwhole : reads_whole fs path df.

(** The count of distinct values of the report is the length of the
    tracker. *)
Lemma analyze_with_unique r col ca :
  analyze_with chunk_size fs path sample_size = Ok r →
  qr_column_analysis r !! col = Some ca →
  col ∈ columns df ∧
  ca_unique_values ca
  = Exactly (length (cs_tracker (final_col chunk_size df col))).
Proof.
  destruct (analyze_with_report chunk_size fs path sample_size df)
    as (size & _ & ->); [done..|].
  intros [= <-]. simpl. intros [? ->]%dict_of_keys_lookup_inv.
  pose proof (final_col_tracker_length chunk_size chunk_size_pos df col).
  split; [done|]. unfold entry_of. simpl. by rewrite decide_True by lia.
Qed.

Lemma tracker_length_le_distinct col :
  length (cs_tracker (final_col chunk_size df col))
  ≤ length (Spec.distinct df col).
Proof.
  destruct Hwhole as [Hread%read_csv_text _].
  apply length_le_unique; [by apply final_col_tracker_NoDup|].
  intros j. by apply final_col_tracker_sound.
Qed.

Lemma tracker_length_single col :
  len df ≤ chunk_size →
  length (cs_tracker (final_col chunk_size df col))
  = 100 `min` length (Spec.distinct df col).
Proof.
  intros Hlen. destruct Hwhole as [Hread%read_csv_text _].
  rewrite final_col_tracker_single by done. unfold Spec.distinct.
  rewrite unique_fmap_inj.
  2:{ intros ????. apply (json_of_text_inj (chunk_col df col)); [|done..].
      apply chunk_col_Forall; [by left|done]. }
  by rewrite !length_fmap, length_take.
Qed.

End unique_values.

(** C4: the tracker of distinct values of a column never holds more than
    300 values (100 from each of the first three chunks), so the report
    never shows the sentinel ['1000+'], however many distinct values the
    column has; and the count it shows is never more than the number of
    distinct values of the column: the tracker holds values of the
    column, each once. *)
Theorem analyze_unique_below_cap chunk_size fs path sample_size df r col ca :
  0 < chunk_size → reads_whole fs path df →
  analyze_with chunk_size fs path sample_size = Ok r →
  qr_column_analysis r !! col = Some ca →
  ∃ m, ca_unique_values ca = Exactly m ∧ m ≤ 300
       ∧ m ≤ length (Spec.distinct df col).
Proof.
  intros Hn Hw Hr Hca.
  destruct (analyze_with_unique _ _ _ _ _ Hn Hw _ _ _ Hr Hca) as [_ ->].
  eexists. split; [done|]. split.
  - apply (final_col_tracker_length chunk_size Hn df col).
  - by eapply tracker_length_le_distinct.
Qed.

Lemma analyze_unique_below_cap_witness :
  ∃ r ca,
    analyze_with 2 example_fs "data.csv" 10 = Ok r ∧
    qr_column_analysis r !! "b" = Some ca ∧
    ∃ m, ca_unique_values ca = Exactly m ∧ m ≤ 300
         ∧ m ≤ length (Spec.distinct example_df "b").
Proof.
  eexists _, _. split_and!; [vm_compute; reflexivity..|].
  eapply (analyze_unique_below_cap 2 example_fs "data.csv" 10 example_df _ "b").
  - lia.
  - split; compute_done.
  - vm_compute. reflexivity.
  - vm_compute. reflexivity.
Defined.

(** C6: when the file fits in one chunk, the count of distinct values of
    a column is the number of its distinct values if that is at most 100,
    and 100 otherwise: only the first hundred distinct values of a chunk
    are looked at. *)
Theorem analyze_unique_single_chunk chunk_size fs path sample_size df r col ca :
  0 < chunk_size → reads_whole fs path df → len df ≤ chunk_size →
  analyze_with chunk_size fs path sample_size = Ok r →
  qr_column_analysis r !! col = Some ca →
  ca_unique_values ca = Exactly (100 `min` length (Spec.distinct df col)).
Proof.
  intros Hn Hw Hlen Hr Hca.
  destruct (analyze_with_unique _ _ _ _ _ Hn Hw _ _ _ Hr Hca) as [_ ->].
  f_equal. by eapply tracker_length_single.
Qed.

Lemma analyze_unique_single_chunk_witness :
  ∃ r ca,
    analyze_with 5 example_fs "data.csv" 10 = Ok r ∧
    qr_column_analysis r !! "b" = Some ca ∧
    ca_unique_values ca
    = Exactly (100 `min` length (Spec.distinct example_df "b")).
Proof.
  eexists _, _. split_and!; [vm_compute; reflexivity..|].
  eapply (analyze_unique_single_chunk 5 example_fs "data.csv" 10 example_df _ "b").
  - lia.
  - split; compute_done.
  - compute_done.
  - vm_compute. reflexivity.
  - vm_compute. reflexivity.
Defined.

(** The file [a / 1 / 2 / 3 / 4 / 5]: one column of five distinct values. *)
Definition five_fs : filesystem :=
  {[ "five.csv" := "a" +:+ String NEWLINE ("1" +:+ String NEWLINE
       ("2" +:+ String NEWLINE ("3" +:+ String NEWLINE
       ("4" +:+ String NEWLINE "5")))) ]}.

(** The count of distinct values of a column in the report of [r]. *)
Definition unique_of (r : result quality_report) (col : string)
    : option unique_count :=
  match r with
  | Ok r => ca_unique_values <$> qr_column_analysis r !! col
  | Raise _ => None
  end.

(** The count of distinct values depends on the chunk size: only the
    first three chunks are looked at, so the same file of five distinct
    values is reported with three when the chunks have one row and with
    five when one chunk holds it. *)
Theorem analyze_unique_depends_on_chunks :
  unique_of (analyze_with 1 five_fs "five.csv" 10) "a" = Some (Exactly 3) ∧
  unique_of (analyze_with 10 five_fs "five.csv" 10) "a" = Some (Exactly 5).
Proof. split; vm_compute; reflexivity. Qed.

(** ** Percentages and the empty table *)

Section bounds.
Variables (fs : filesystem) (path : string) (df : frame).
Hypothesis Hwhole : reads_whole fs path df.

Lemma missing_cells_le :
  Spec.missing_cells df ≤ Spec.total_rows df * length (columns df).
Proof.
  destruct Hwhole as [Hread Hnd].
  destruct (read_csv_wf _ _ _ _ _ Hread Hnd) as (_ & _ & Hrows).
  by apply sum_count_missing_le.
Qed.

Lemma missing_count_le col : Spec.missing_count df col ≤ Spec.total_rows df.
Proof.
  unfold Spec.missing_count, Spec.total_rows.
  etrans; [apply count_missing_le|]. rewrite chunk_col_eq.
  case_match; [by rewrite column_length|simpl; lia].
Qed.

End bounds.

(** Every percentage of the report, of the table and of each column,
    is between 0 and 100. *)
Theorem analyze_percentages_bounded chunk_size fs path sample_size df r :
  0 < chunk_size → reads_whole fs path df →
  analyze_with chunk_size fs path sample_size = Ok r →
  (0 ≤ qr_missing_percentage r ≤ 10000)%Z ∧
  ∀ col ca, qr_column_analysis r !! col = Some ca →
            (0 ≤ ca_missing_percentage ca ≤ 10000)%Z.
Proof.
  intros Hn Hw.
  destruct (analyze_with_report chunk_size fs path sample_size df Hn Hw)
    as (size & _ & ->).
  intros [= <-]. simpl. split.
  - by eapply percentage_bounds, missing_cells_le.
  - intros col ca [_ ->]%dict_of_keys_lookup_inv. simpl.
    by eapply percentage_bounds, missing_count_le.
Qed.

Lemma analyze_percentages_bounded_witness :
  ∃ r, analyze_with 2 example_fs "data.csv" 10 = Ok r ∧
  (0 ≤ qr_missing_percentage r ≤ 10000)%Z ∧
  ∀ col ca, qr_column_analysis r !! col = Some ca →
            (0 ≤ ca_missing_percentage ca ≤ 10000)%Z.
Proof.
  eexists. split; [vm_compute; reflexivity|].
  apply (analyze_percentages_bounded 2 example_fs "data.csv" 10 example_df).
  - lia.
  - split; compute_done.
  - vm_compute. reflexivity.
Defined.

(** The entry of a column of a table without rows. *)
Definition empty_entry : column_analysis :=
  {| ca_dtype := "object"; ca_missing_count := 0; ca_missing_percentage := 0;
     ca_unique_values := Exactly 0; ca_sample_values := [] |}.

Lemma entry_of_empty chunk_size header col :
  0 < chunk_size → entry_of chunk_size (str_frame header []) col = empty_entry.
Proof.
  intros Hn. unfold entry_of, Spec.missing_count, Spec.samples.
  rewrite (final_col_tracker_single chunk_size);
    [|done|unfold len; simpl; lia|constructor].
  assert (chunk_col (str_frame header []) col = []) as ->.
  { rewrite chunk_col_eq. by case_match. }
  done.
Qed.

(** C32: a file that has a header and no data rows is analysed without an
    error: the report has no rows, no cells, no missing cells and no
    duplicates, and every column has the entry of an empty column. *)
Theorem analyze_header_only chunk_size fs path sample_size header :
  0 < chunk_size → NoDup header → open_csv fs path = Ok (header, []) →
  ∃ r, analyze_with chunk_size fs path sample_size = Ok r ∧
       qr_total_rows r = 0 ∧ qr_total_cells r = 0 ∧ qr_missing_cells r = 0 ∧
       qr_missing_percentage r = 0%Z ∧ qr_duplicate_rows r = 0%Z ∧
       qr_column_analysis r = dict_of_keys (λ _, empty_entry) header.
Proof.
  intros Hn Hnd Hopen.
  assert (reads_whole fs path (str_frame header [])) as Hw.
  { split; [|done]. apply read_csv_Ok. by exists header, [], []. }
  destruct (analyze_with_report chunk_size fs path sample_size _ Hn Hw)
    as (size & _ & ->).
  eexists. split; [done|]. cbn -[duplicate_estimate]. split_and!; try done.
  - pose proof (duplicate_estimate_bounded fs path sample_size 0). lia.
  - apply dict_of_keys_ext. intros col _. by apply entry_of_empty.
Qed.

Lemma analyze_header_only_witness :
  ∃ r, analyze_with 2 {[ "h.csv" := "a,b" ]} "h.csv" 10 = Ok r ∧
       qr_total_rows r = 0 ∧ qr_total_cells r = 0 ∧ qr_missing_cells r = 0 ∧
       qr_missing_percentage r = 0%Z ∧ qr_duplicate_rows r = 0%Z ∧
       qr_column_analysis r = dict_of_keys (λ _, empty_entry) ["a"; "b"].
Proof.
  apply (analyze_header_only 2 {[ "h.csv" := "a,b" ]} "h.csv" 10 ["a"; "b"]).
  - lia.
  - compute_done.
  - vm_compute. reflexivity.
Defined.
