(* ===== verification/AnalyzerRefinement.v ===== *)
(** * AnalyzerRefinement: the scan refines the table

    The contract of the Quality Analyzer speaks of the table; the code
    never holds the table, it holds the counters, trackers and samples
    of [scan_state] and updates them chunk by chunk.  This file relates
    the two.  [Table] is the machine of the specification: its state is
    the rows read so far, and a chunk appends its rows.  [abstracts] is
    the relation between a state of [Table] and a state of the scan, and
    [scan_chunk] simulates [Table.step]: from related states the code
    returns, and the states after the chunk are related.  What the report
    says of a column of related states is what [Spec] says of the
    table. *)

From S2P Require Import Prelude Strings Value Frame Reader Analyzer AnalyzerSpec.

(** ** The machine of the specification *)

Module Table.

(** The rows read so far and the number of chunks they came in. *)
Record state : Type := State {
  seen : list (list py_value);
  chunks_read : nat;
}.

Definition init : state := {| seen := []; chunks_read := 0 |}.

(** A chunk adds its rows. *)
Definition step (a : state) (rs : list (list py_value)) : state :=
  {| seen := seen a ++ rs; chunks_read := S (chunks_read a) |}.

Definition run (a : state) (rss : list (list (list py_value))) : state :=
  foldl step a rss.

(** No cell is an array. *)
Definition wf (a : state) : Prop := Forall scalars (seen a).

End Table.

(** ** The relation *)

(** What the scan knows of a column after [i] chunks, when [s] is the
    cells of the column read so far: the exact number of missing cells,
    the first three values, and some of the distinct values, at most a
    hundred for each of the first three chunks. *)
Record col_abstracts (i : nat) (s : series) (x : col_state) : Prop := ColAbstracts {
  abs_missing : cs_missing x = count_missing s;
  abs_samples : cs_samples x = take 3 (json_of <$> dropna s);
  abs_tracker_NoDup : NoDup (cs_tracker x);
  abs_tracker_sound : cs_tracker x ⊆ json_of <$> dropna s;
  abs_tracker_length : length (cs_tracker x) ≤ 100 * (i `min` 3);
}.

Section relation.
Variable cols : list string.

(** The rows as a frame with the columns of the file. *)
Definition table (rs : list (list py_value)) : frame := str_frame cols rs.

(** The state of the scan holds, for every column, what [col_abstracts]
    says of the column of the rows read so far. *)
Definition abstracts (a : Table.state) (st : scan_state) : Prop :=
  ∃ g, st = state_of cols (length (Table.seen a)) g ∧
       ∀ col, col ∈ cols →
         col_abstracts (Table.chunks_read a)
           (chunk_col (table (Table.seen a)) col) (g col).

End relation.

(** ** One column *)

Section column.
Implicit Types (i : nat) (s : series) (x : col_state).

Lemma col_abstracts_init : col_abstracts 0 [] (ColState 0 [] []).
Proof. split; simpl; [done|done|apply NoDup_nil_2|done|lia]. Qed.

Lemma take_samples_app (l1 l2 : list json) :
  take 3 l1 ++ take (3 - length (take 3 l1)) l2 = take 3 (l1 ++ l2).
Proof.
  rewrite take_app, length_take. f_equal. f_equal. lia.
Qed.

(** A chunk with the cells [s'] of the column. *)
Lemma col_step_abstracts i s s' x :
  scalars s → scalars s' →
  col_abstracts i s x → col_abstracts (S i) (s ++ s') (col_step i s' x).
Proof.
  intros Hs Hs' [Hm Hsam Hnd Hsound Hlen].
  split; cbn [col_step cs_missing cs_samples cs_tracker].
  - rewrite count_missing_app. lia.
  - rewrite collect_samples_scalars by apply Forall_scalar_dropna, Hs'.
    by rewrite Hsam, take_samples_app, dropna_app, fmap_app.
  - case_decide; [by apply NoDup_track_values|done].
  - rewrite dropna_app, fmap_app. case_decide; [|set_solver].
    intros j [?|(v & Hv & Hj)]%elem_of_track_values; [set_solver|].
    apply (subseteq_take 100) in Hv. rewrite elem_of_unique in Hv.
    rewrite safe_convert_value_scalar in Hj.
    + simplify_eq. apply elem_of_app. right. by apply list_elem_of_fmap_2.
    + apply Forall_scalar_dropna in Hs'. by eapply Forall_forall in Hs'.
  - pose proof (col_step_tracker_length i s' x) as Hstep.
    cbn [col_step cs_tracker] in Hstep. repeat case_decide; lia.
Qed.

(** Any number of chunks of the column. *)
Lemma col_scan_abstracts i s x ss :
  scalars s → Forall scalars ss →
  col_abstracts i s x →
  col_abstracts (i + length ss) (s ++ mjoin ss) (col_scan i x ss).
Proof.
  intros Hs Hss. revert i s x Hs.
  induction Hss as [|s' ss Hs' _ IH]; intros i s x Hs Hx.
  { simpl. by rewrite List.app_nil_r, Nat.add_0_r. }
  simpl. rewrite List.app_assoc, <-Nat.add_succ_comm.
  apply IH; [by apply Forall_app|by apply col_step_abstracts].
Qed.

End column.

Lemma table_step_wf (a : Table.state) rs :
  Table.wf a → Forall scalars rs → Table.wf (Table.step a rs).
Proof. intros. by apply Forall_app. Qed.

(** ** The simulation *)

Section simulation.
Variable cols : list string.
Hypothesis cols_NoDup : NoDup cols.
Implicit Types (a : Table.state) (st : scan_state) (rs : list (list py_value)).
Implicit Types (rss : list (list (list py_value))) (col : string).

Lemma chunk_col_table_app rs1 rs2 col :
  chunk_col (table cols (rs1 ++ rs2)) col
  = chunk_col (table cols rs1) col ++ chunk_col (table cols rs2) col.
Proof.
  rewrite !chunk_col_eq. simpl. destruct (col_index cols col); [|done].
  apply column_app.
Qed.

Lemma chunk_col_table_scalars rs col :
  Forall scalars rs → scalars (chunk_col (table cols rs) col).
Proof. exact (chunk_col_Forall (λ v, is_scalar v = true) eq_refl (table cols rs) col). Qed.

(** Before the first chunk. *)
Lemma init_abstracts : abstracts cols Table.init (init_state cols).
Proof.
  exists (λ _, ColState 0 [] []). split; [apply init_state_of|].
  intros col _. simpl. rewrite chunk_col_eq. simpl.
  destruct (col_index cols col); apply col_abstracts_init.
Qed.

(** One chunk: the code returns, and its state abstracts the rows read
    so far with those of the chunk. *)
Lemma scan_chunk_abstracts a st rs :
  Table.wf a → Forall scalars rs → abstracts cols a st →
  ∃ st', scan_chunk cols (Table.chunks_read a) st (table cols rs) = Ok st' ∧
         abstracts cols (Table.step a rs) st'.
Proof.
  intros Ha Hrs (g & -> & Hg). eexists. split; [by apply scan_chunk_of|].
  eexists. split.
  { unfold len. cbn [Table.step Table.seen table str_frame rows].
    by rewrite List.length_app. }
  intros col Hcol. cbn [Table.step Table.seen Table.chunks_read].
  rewrite chunk_col_table_app.
  apply col_step_abstracts; auto using chunk_col_table_scalars.
Qed.

End simulation.

(** C13: the scan of the Quality Analyzer refines the table of the
    specification.  From a state of the scan that abstracts the rows read
    so far (the row count, and for every column the exact number of
    missing cells, the first three values and a duplicate-free part of
    its distinct values, at most a hundred for each of the first three
    chunks), the loop over any number of chunks without arrays returns,
    and the state it returns abstracts the rows read so far with the
    rows of these chunks. *)
Theorem scan_chunks_refines cols a st rss :
  NoDup cols → Table.wf a → Forall (Forall scalars) rss → abstracts cols a st →
  ∃ st', scan_chunks cols (Table.chunks_read a) st (Ok <$> (table cols <$> rss))
         = Ok st' ∧
         abstracts cols (Table.run a rss) st'.
Proof.
  intros Hnd Ha Hrss. revert a st Ha.
  induction Hrss as [|rs rss Hrs _ IH]; intros a st Ha Hst; [by exists st|].
  destruct (scan_chunk_abstracts cols Hnd a st rs) as (st1 & Hst1 & Habs); [done..|].
  destruct (IH (Table.step a rs) st1) as (st' & Hst' & Habs');
    [by apply table_step_wf|done|].
  exists st'. split; [|done].
  cbn [fmap list_fmap scan_chunks mbind result_bind res_bind].
  by rewrite Hst1.
Qed.

(** Two chunks of a table with a missing cell. *)
Definition two_chunks : list (list (list py_value)) :=
  [[[PyStr "1"; PyStr "2"]; [PyStr "3"; PyNaN]]; [[PyStr "5"; PyStr "6"]]].

Lemma scan_chunks_refines_witness :
  ∃ st', scan_chunks ["a"; "b"] 0 (init_state ["a"; "b"])
           (Ok <$> (table ["a"; "b"] <$> two_chunks)) = Ok st' ∧
         abstracts ["a"; "b"] (Table.run Table.init two_chunks) st'.
Proof.
  apply (scan_chunks_refines ["a"; "b"] Table.init (init_state ["a"; "b"])
           two_chunks).
  - apply (bool_decide_unpack _). by vm_compute.
  - constructor.
  - apply (bool_decide_unpack _). by vm_compute.
  - apply init_abstracts.
Defined.


(** ** What the report says of related states *)

Section observation.
Variable cols : list string.
Implicit Types (a : Table.state) (st : scan_state) (col : string).

(** The entry of a column in the report of a state that abstracts the
    table: the missing cells and the samples are those of the table, and
    the count of distinct values is that of some of its distinct
    values. *)
Lemma abstracts_column_report a st col_dtypes col :
  abstracts cols a st → col ∈ cols →
  let df := table cols (Table.seen a) in
  ∃ n, n ≤ length (Spec.distinct df col) ∧ n ≤ 300 ∧
    column_report col_dtypes st col
    = {| ca_dtype := default "object" (col_dtypes !! col);
         ca_missing_count := Spec.missing_count df col;
         ca_missing_percentage :=
           percentage (Spec.missing_count df col) (Spec.total_rows df);
         ca_unique_values := Exactly n;
         ca_sample_values := Spec.samples df col |}.
Proof.
  intros (g & -> & Hg) Hcol df. destruct (Hg col Hcol) as [Hm Hsam Hnd Hsound Hlen].
  exists (length (cs_tracker (g col))). split_and!.
  - by apply length_le_unique.
  - lia.
  - rewrite column_report_of by done. rewrite decide_True by lia.
    unfold Spec.missing_count, Spec.samples, Spec.total_rows. fold df.
    by rewrite Hm, Hsam, take_take.
Qed.

End observation.

(** ** The scan of a file *)

(** The state in which the scan of a file that reads whole ends abstracts
    the table of the file. *)
Lemma final_state_abstracts chunk_size fs path df :
  0 < chunk_size → reads_whole fs path df →
  abstracts (columns df)
    {| Table.seen := rows df;
       Table.chunks_read := length (frame_chunks chunk_size df) |}
    (final_state chunk_size df).
Proof.
  intros Hn [Hread Hnd]. exists (final_col chunk_size df). split; [done|].
  intros col Hcol. cbn [Table.seen Table.chunks_read].
  pose proof (read_csv_text _ _ _ _ _ Hread) as Htext.
  pose proof Hread as (header & data & rs & _ & _ & ->)%read_csv_Ok.
  change (table header rs) with (str_frame header rs).
  rewrite <-(col_chunks_join chunk_size Hn _ col).
  replace (length (frame_chunks chunk_size (str_frame header rs)))
    with (0 + length (col_chunks chunk_size (str_frame header rs) col))
    by (unfold col_chunks; by rewrite length_fmap).
  apply (col_scan_abstracts 0 []);
    [constructor|by apply col_chunks_scalars|apply col_abstracts_init].
Qed.
