(* ===== verification/Transform.v ===== *)
(** * Transform: the Transform Engine

    [apply_preprocessing_options] and [preprocess_csv_task_chunked]
    (src/server/controllers/csv_controller.py, lines 180-291), with the
    operations of pandas they call on the columns of a frame ([mean],
    [median], [mode], [fillna], [astype(str)], [str.strip],
    [pd.to_numeric]) and the progress record in Redis.

    The task is a function from the file system and the Redis store to
    its result and the two stores after it: what was written before an
    exception stays written.  The chunks are read from the file system
    the task starts with; this is what the code does when it writes to a
    file other than its input (see [output_path]).

    The lemmas give the columns of a frame after an assignment
    ([map_column]) and after a loop of assignments ([per_column]), show
    that every option keeps the names and the well-formedness of the
    frame, and that all but [handle_missing = drop] keep its rows. *)

From Stdlib Require Import QArith Qcanon.
From stdpp Require Import sorting.
From S2P Require Import Prelude Strings Numbers Value Frame Reader.

(** ** The options and the result *)

(** The dict [options]; [handle_missing] is [""] when the key is
    absent. *)
Record options : Type := Options {
  handle_missing : string;
  trim_whitespace : bool;
  convert_types : bool;
  standardize_columns : bool;
  remove_duplicates : bool;
}.

(** The dict the task returns. *)
Inductive transform_result : Type :=
  | Success (output_path : string) (rows_processed : nat)
      (rows_removed : option nat) (columns : list string)
  | Error (error : string).

#[global] Instance options_eq_dec : EqDecision options.
Proof. solve_decision. Defined.
#[global] Instance transform_result_eq_dec : EqDecision transform_result.
Proof. solve_decision. Defined.

(** ** The Redis store *)

(** The keys of one family, each with its time to live, in seconds, and
    its value. *)
Abbreviation store V := (gmap string (nat * V)).

(** The progress records [{'rows_processed': n}]. *)
Abbreviation redis := (store nat).

(** [redis_conn.setex(key, ttl, value)] *)
Definition setex {V} (r : store V) (key : string) (ttl : nat) (value : V)
    : store V :=
  <[key := (ttl, value)]> r.

(** The store [seconds] later: the keys whose time is over are gone. *)
Definition elapse {V} (seconds : nat) (r : store V) : store V :=
  (λ e, (e.1 - seconds, e.2)) <$> filter (λ kv, seconds < kv.2.1) r.

(** [redis_conn.get(key)] *)
Definition redis_get {V} (r : store V) (key : string) : option V :=
  snd <$> r !! key.

(** The [rows_processed] that [get_task_status] reports for a job that is
    still running: those of the progress record, and 0 when there is
    none. *)
Definition progress_rows (r : redis) (file_path : string) : nat :=
  default 0 (redis_get r ("progress:" +:+ file_path)).

(** ** Columns *)

(** [df[col] = f(df[col])] for the column at position [j]: the cells of
    the column are replaced by those of the new series, and its type by
    the new type. *)
Definition map_column (j : nat) (f : dtype → series → dtype * series)
    (df : frame) : frame :=
  let new := f (default Object (dtypes df !! j)) (column j (rows df)) in
  {| columns := columns df;
     dtypes := <[j := new.1]> (dtypes df);
     rows := zip_with (λ r v, <[j := v]> r) (rows df) new.2 |}.

(** The loop [for col in cols: df[col] = f(df[col])] over the columns at
    the positions [js]. *)
Definition per_column (F : nat → dtype → series → dtype * series)
    (js : list nat) (df : frame) : frame :=
  foldl (λ df j, map_column j (F j) df) df js.

(** The positions of the columns whose type satisfies [p]. *)
Definition select_dtypes (p : dtype → bool) (df : frame) : list nat :=
  filter (λ j, from_option p false (dtypes df !! j)) (seq 0 (length (columns df))).

Definition is_number (dt : dtype) : bool :=
  match dt with Int64 | Float64 => true | _ => false end.

Definition is_object (dt : dtype) : bool :=
  match dt with Object => true | _ => false end.

(** The number a cell holds. *)
Definition number (v : py_value) : option Qc :=
  match v with
  | NpInt z => Some (Q2Qc (inject_Z z))
  | NpFloat q => Some q
  | _ => None
  end.

Definition sum_Qc (qs : list Qc) : Qc := foldr Qcplus 0%Qc qs.

(** [Series.mean()]: the mean of the cells that are not missing, NaN when
    there is none. *)
Definition mean (s : series) : py_value :=
  match omap number s with
  | [] => PyNaN
  | qs => NpFloat (sum_Qc qs / Q2Qc (inject_Z (Z.of_nat (length qs))))
  end.

(** [Series.median()]: the middle of the sorted cells that are not
    missing, the mean of the two middle ones when their number is even. *)
Definition median (s : series) : py_value :=
  let qs := merge_sort Qcle (omap number s) in
  let n := length qs in
  match qs !! (n / 2), qs !! (n / 2 - 1) with
  | Some hi, Some lo =>
      if Nat.even n then NpFloat ((lo + hi) / Q2Qc (inject_Z 2)) else NpFloat hi
  | _, _ => PyNaN
  end.

(** The order in which [Series.mode()] sorts: numbers by value, text by
    code point. *)
Definition value_le (v w : py_value) : bool :=
  match number v, number w with
  | Some p, Some q => bool_decide (p ≤ q)%Qc
  | _, _ =>
      match v, w with
      | PyStr s, PyStr t => bool_decide (s ≤ t)%string
      | _, _ => true
      end
  end.

Definition count_of (v : py_value) (s : series) : nat :=
  length (filter (λ w, w = v) s).

(** [Series.mode()[0]]: the least of the most frequent values that are
    not missing; [None] when the column has none. *)
Definition mode_first (s : series) : option py_value :=
  let vals := dropna s in
  let top := max_list ((λ v, count_of v vals) <$> vals) in
  let modes := filter (λ v, count_of v vals = top) (unique vals) in
  match modes with
  | [] => None
  | v :: vs => Some (foldl (λ m w, if value_le m w then m else w) v vs)
  end.

(** [Series.fillna(value)] *)
Definition fillna (value : py_value) (s : series) : series :=
  (λ v, if is_missing v then value else v) <$> s.

(** [str(v)] of a cell. *)
Definition str_of (v : py_value) : string :=
  match v with
  | PyNone => "None"
  | PyNaN => "nan"
  | NpInt z | PyInt z => int_text z
  | NpFloat q => float_text q
  | NpBool b | PyBool b => if b then "True" else "False"
  | PyStr s | PyObject s => s
  | NpArray _ => "[]"
  end.

(** [Series.astype(str).str.strip()] *)
Definition astype_str_strip (s : series) : series :=
  (λ v, PyStr (strip (str_of v))) <$> s.

(** The number [pd.to_numeric] reads in a cell of an [object] column:
    [Some None] is NaN, [None] a [ValueError]. *)
Definition numeric_cell (v : py_value) : option (option (Z + Qc)) :=
  match v with
  | PyNaN | PyNone => Some None
  | PyStr s =>
      if decide (s = "" ∨ lower s = "nan") then Some None
      else if parse_int s is Some z then Some (Some (inl z))
      else if parse_float s is Some q then Some (Some (inr q))
      else None
  | _ => None
  end.

(** [pd.to_numeric(series)]: a numeric column is returned as it is; an
    [object] column becomes [int64] when every cell is an integer,
    [float64] when every cell is a number or NaN, and raises
    otherwise. *)
Definition to_numeric (dt : dtype) (s : series) : result (dtype * series) :=
  match dt with
  | Object =>
      match mapM numeric_cell s with
      | None => Raise (ValueError "Unable to parse string")
      | Some [] => Ok (dt, s)
      | Some cells =>
          match mapM (λ c, c ≫= (λ n, match n with inl z => Some z | inr _ => None end))
                  cells with
          | Some zs => Ok (Int64, NpInt <$> zs)
          | None =>
              Ok (Float64,
                  (λ c, match c with
                        | None => PyNaN
                        | Some (inl z) => NpFloat (Q2Qc (inject_Z z))
                        | Some (inr q) => NpFloat q
                        end) <$> cells)
          end
      end
  | _ => Ok (dt, s)
  end.

(** ** [apply_preprocessing_options] *)

(** [df.dropna()]: the rows without a missing cell. *)
Definition dropna_rows (df : frame) : frame :=
  with_rows df (filter (λ r, count_missing r = 0) (rows df)).

(** [df[col] = df[col].fillna(df[col].mean())] for the numeric columns,
    and the same with the median. *)
Definition fill_numeric (stat : series → py_value) (df : frame) : frame :=
  per_column (λ _ dt s, (dt, fillna (stat s) s)) (select_dtypes is_number df) df.

(** The body of the loop of [fill_mode] for the column at position [j]. *)
Definition fill_mode_column (df : frame) (j : nat) : frame :=
  let s := column j (rows df) in
  if decide (0 < count_missing s) then
    match mode_first s with
    | Some value => map_column j (λ dt s, (dt, fillna value s)) df
    | None => df
    end
  else df.

Definition handle_missing_values (how : string) (df : frame) : frame :=
  if decide (how = "drop") then dropna_rows df
  else if decide (how = "fill_mean") then fill_numeric mean df
  else if decide (how = "fill_median") then fill_numeric median df
  else if decide (how = "fill_mode") then
    foldl fill_mode_column df (seq 0 (length (columns df)))
  else df.

(** [df[col] = df[col].astype(str).str.strip()] for the [object]
    columns. *)
Definition trim_columns (df : frame) : frame :=
  per_column (λ _ dt s, (dt, astype_str_strip s)) (select_dtypes is_object df) df.

(** [df[col] = pd.to_numeric(df[col])] for every column, a column that
    does not convert left as it is. *)
Definition convert_columns (df : frame) : frame :=
  per_column (λ _ dt s, try (to_numeric dt s) except (λ _, (dt, s)))
    (seq 0 (length (columns df))) df.

Definition apply_preprocessing_options (df : frame) (opts : options) : frame :=
  let df := handle_missing_values (handle_missing opts) df in
  let df := if trim_whitespace opts then trim_columns df else df in
  let df := if convert_types opts then convert_columns df else df in
  df.

(** ** [preprocess_csv_task_chunked] *)

(** [allowed_file]: the name has a dot, and the text after its last dot
    is [csv] in any case of the letters. *)
Definition ALLOWED_EXTENSIONS : list string := ["csv"].

Definition allowed_file (filename : string) : bool :=
  string_exists (λ c, bool_decide (c = DOT)) filename
  && bool_decide (lower (List.last (split_on DOT filename) "") ∈ ALLOWED_EXTENSIONS).

(** [file_path.replace('.csv', '_processed.csv')] *)
Definition output_path (file_path : string) : string :=
  replace ".csv" "_processed.csv" file_path.

(** [col.strip().lower().replace(' ', '_')] *)
Definition standardize (col : string) : string :=
  replace_char SPACE "_" (lower (strip col)).

(** [chunk.columns = columns]: the number of names must be the number of
    columns. *)
Definition set_columns (chunk : frame) (cols : list string) : result frame :=
  if decide (length cols = length (columns chunk)) then
    Ok {| columns := cols; dtypes := dtypes chunk; rows := rows chunk |}
  else Raise (ValueError "Length mismatch")%string.

(** The variables of the loop over the chunks, with the two stores. *)
Record task_state : Type := TaskState {
  ts_fs : filesystem;
  ts_redis : redis;
  total_rows_processed : nat;
  is_first_chunk : bool;
}.

(** The body of the loop [for chunk_num, chunk in enumerate(...)]. *)
Definition process_chunk (file_path : string) (opts : options)
    (cols : list string) (st : task_state) (chunk : frame) : result task_state :=
  chunk ← (if standardize_columns opts then set_columns chunk cols else Ok chunk);
  let chunk := apply_preprocessing_options chunk opts in
  let fs :=
    if is_first_chunk st then to_csv (ts_fs st) (output_path file_path) chunk
    else to_csv_append (ts_fs st) (output_path file_path) chunk in
  let total := total_rows_processed st + len chunk in
  Ok {| ts_fs := fs;
        ts_redis := setex (ts_redis st) ("progress:" +:+ file_path) 300 total;
        total_rows_processed := total;
        is_first_chunk := false |}.

(** The loop: it stops at the first chunk that raises, and what was
    written stays. *)
Fixpoint process_chunks (file_path : string) (opts : options)
    (cols : list string) (st : task_state) (chunk_iterator : list (result frame))
    : task_state * option exn :=
  match chunk_iterator with
  | [] => (st, None)
  | next :: rest =>
      match chunk ← next; process_chunk file_path opts cols st chunk with
      | Ok st' => process_chunks file_path opts cols st' rest
      | Raise e => (st, Some e)
      end
  end.

(** The branch of [remove_duplicates]: the whole file at once. *)
Definition deduplicate (fs : filesystem) (file_path : string) (opts : options)
    : result (transform_result * filesystem) :=
  df ← read_csv_typed fs file_path None;
  let original_rows := len df in
  let df := with_rows df (drop_duplicates (rows df)) in
  let total := len df in
  let df := apply_preprocessing_options df opts in
  Ok (Success (output_path file_path) total (Some (original_rows - total))
        (columns df),
      to_csv fs (output_path file_path) df).

(** The whole task, for chunks of [chunk_size] rows. *)
Definition preprocess_with (chunk_size : nat) (fs : filesystem) (r : redis)
    (file_path : string) (opts : options)
    : transform_result * filesystem * redis :=
  match read_csv_typed fs file_path (Some 100) with
  | Raise e => (Error (exn_str e), fs, r)
  | Ok first_chunk =>
      let cols := columns first_chunk in
      let cols := if standardize_columns opts then standardize <$> cols else cols in
      if remove_duplicates opts then
        match deduplicate fs file_path opts with
        | Ok (res, fs') => (res, fs', r)
        | Raise e => (Error (exn_str e), fs, r)
        end
      else
        match read_csv_typed_chunks fs file_path chunk_size with
        | Raise e => (Error (exn_str e), fs, r)
        | Ok chunk_iterator =>
            let st := {| ts_fs := fs; ts_redis := r;
                         total_rows_processed := 0; is_first_chunk := true |} in
            match process_chunks file_path opts cols st chunk_iterator with
            | (st, None) =>
                (Success (output_path file_path) (total_rows_processed st)
                   None cols, ts_fs st, ts_redis st)
            | (st, Some e) => (Error (exn_str e), ts_fs st, ts_redis st)
            end
      end
  end.

Definition preprocess_csv_task_chunked (fs : filesystem) (r : redis)
    (file_path : string) (opts : options)
    : transform_result * filesystem * redis :=
  preprocess_with CHUNK_SIZE fs r file_path opts.

(** ** Columns of a frame *)

Section columns.
Implicit Types (df : frame) (j k : nat) (rs : list (list py_value)) (s : series).
Implicit Types (f : dtype → series → dtype * series).

(** Every row has a cell at position [j]. *)
Definition wide (j : nat) (rs : list (list py_value)) : Prop :=
  Forall (λ r, j < length r) rs.

Lemma frame_wf_wide df j :
  frame_wf df → j < length (columns df) → wide j (rows df).
Proof.
  intros (_ & _ & Hrows) Hj. eapply Forall_impl; [done|]. simpl. lia.
Qed.

Lemma cell_insert_ne j k v (r : list py_value) :
  k ≠ j → cell k (<[j := v]> r) = cell k r.
Proof. intros. unfold cell. by rewrite list_lookup_insert_ne. Qed.

Lemma cell_insert j v (r : list py_value) :
  j < length r → cell j (<[j := v]> r) = v.
Proof. intros. unfold cell. by rewrite list_lookup_insert_eq. Qed.

Lemma column_zip_insert_ne j k rs s :
  k ≠ j → length s = length rs →
  column k (zip_with (λ r v, <[j := v]> r) rs s) = column k rs.
Proof.
  intros Hk. revert s. induction rs as [|r rs IH]; intros [|v s] ?;
    simplify_eq/=; [done|]. by rewrite cell_insert_ne, IH.
Qed.

Lemma column_zip_insert j rs s :
  wide j rs → length s = length rs →
  column j (zip_with (λ r v, <[j := v]> r) rs s) = s.
Proof.
  intros Hw. revert s. induction Hw as [|r rs Hr _ IH]; intros [|v s] ?;
    simplify_eq/=; [done|]. by rewrite cell_insert, IH.
Qed.

Lemma zip_insert_lengths j rs s n :
  Forall (λ r, length r = n) rs →
  Forall (λ r, length r = n) (zip_with (λ r v, <[j := v]> r) rs s).
Proof.
  intros Hrs. revert s. induction Hrs as [|r rs Hr _ IH]; intros [|v s];
    simpl; constructor; [by rewrite length_insert|done].
Qed.

(** Two frames with the same names, types and columns are equal. *)
Lemma rows_ext n rs1 rs2 :
  Forall (λ r, length r = n) rs1 → Forall (λ r, length r = n) rs2 →
  length rs1 = length rs2 →
  (∀ k, k < n → column k rs1 = column k rs2) → rs1 = rs2.
Proof.
  intros H1. revert rs2. induction H1 as [|r1 rs1 Hr1 _ IH];
    intros [|r2 rs2] H2 Hlen Hcols; try done.
  apply Forall_cons in H2 as [Hr2 H2]. f_equal.
  - apply list_eq. intros k. destruct (decide (k < n)) as [Hk|Hk].
    + specialize (Hcols k Hk). injection Hcols as Hc _. unfold cell in Hc.
      destruct (lookup_lt_is_Some_2 r1 k) as [v1 Hv1]; [lia|].
      destruct (lookup_lt_is_Some_2 r2 k) as [v2 Hv2]; [lia|].
      rewrite Hv1, Hv2 in *. by simplify_eq/=.
    + by rewrite !lookup_ge_None_2 by lia.
  - apply IH; [done|by injection Hlen|].
    intros k Hk. specialize (Hcols k Hk). by injection Hcols.
Qed.

(** A function on columns that keeps the number of cells. *)
Definition keeps_length f : Prop := ∀ dt s, length (f dt s).2 = length s.

Lemma map_column_len j f df :
  keeps_length f → len (map_column j f df) = len df.
Proof.
  intros Hf. unfold len. simpl.
  rewrite length_zip_with, Hf, column_length. lia.
Qed.

Lemma map_column_wf j f df :
  frame_wf df → frame_wf (map_column j f df).
Proof.
  intros (? & ? & ?). split_and!; simpl; [done|by rewrite length_insert|].
  by apply zip_insert_lengths.
Qed.

Lemma column_map_column_ne j k f df :
  keeps_length f → k ≠ j →
  column k (rows (map_column j f df)) = column k (rows df).
Proof.
  intros Hf Hk. simpl. apply column_zip_insert_ne; [done|].
  by rewrite Hf, column_length.
Qed.

Lemma column_map_column j f df :
  keeps_length f → wide j (rows df) →
  column j (rows (map_column j f df))
  = (f (default Object (dtypes df !! j)) (column j (rows df))).2.
Proof.
  intros Hf Hw. simpl. apply column_zip_insert; [done|].
  by rewrite Hf, column_length.
Qed.

Lemma dtype_map_column_ne j k f df :
  k ≠ j → dtypes (map_column j f df) !! k = dtypes df !! k.
Proof. intros. simpl. by rewrite list_lookup_insert_ne. Qed.

Lemma dtype_map_column j f df :
  j < length (dtypes df) →
  dtypes (map_column j f df) !! j
  = Some (f (default Object (dtypes df !! j)) (column j (rows df))).1.
Proof. intros. simpl. by rewrite list_lookup_insert_eq. Qed.

End columns.

(** The loop over the columns at [js] changes the column at each of these
    positions by [F], from the column as it was before the loop, and no
    other. *)
Section per_column.
Variable F : nat → dtype → series → dtype * series.
Hypothesis F_keeps_length : ∀ j, keeps_length (F j).
Implicit Types (df : frame) (j k : nat) (js : list nat).

Lemma per_column_columns js df : columns (per_column F js df) = columns df.
Proof.
  revert df. induction js as [|j js IH]; intros df; [done|].
  unfold per_column in *. simpl. by rewrite IH.
Qed.

Lemma per_column_len js df : len (per_column F js df) = len df.
Proof.
  revert df. induction js as [|j js IH]; intros df; [done|].
  unfold per_column in *. simpl. by rewrite IH, map_column_len.
Qed.

Lemma per_column_wf js df : frame_wf df → frame_wf (per_column F js df).
Proof.
  revert df. induction js as [|j js IH]; intros df Hwf; [done|].
  unfold per_column in *. simpl. by apply IH, map_column_wf.
Qed.

(** The column and the type at position [k] after the loop. *)
Definition column_after js df k : dtype * series :=
  let dt := default Object (dtypes df !! k) in
  let s := column k (rows df) in
  if decide (k ∈ js) then F k dt s else (dt, s).

Lemma per_column_column js df k :
  frame_wf df → NoDup js → Forall (λ j, j < length (columns df)) js →
  k < length (columns df) →
  column k (rows (per_column F js df)) = (column_after js df k).2 ∧
  default Object (dtypes (per_column F js df) !! k) = (column_after js df k).1.
Proof.
  unfold column_after. revert df.
  induction js as [|j js IH]; intros df Hwf Hnd Hjs Hk.
  { by rewrite decide_False by apply not_elem_of_nil. }
  apply NoDup_cons in Hnd as [Hj Hnd]. apply Forall_cons in Hjs as [Hjlt Hjs].
  unfold per_column in *. simpl.
  destruct (IH (map_column j (F j) df)) as [-> ->];
    [by apply map_column_wf|done..|].
  pose proof Hwf as (_ & Hdt & _).
  destruct (decide (k = j)) as [->|Hkj].
  - rewrite decide_False, decide_True by (done || by left).
    rewrite column_map_column, dtype_map_column by
      (done || lia || by apply frame_wf_wide).
    done.
  - rewrite column_map_column_ne, dtype_map_column_ne by done.
    destruct (decide (k ∈ js)).
    + by rewrite decide_True by by right.
    + by rewrite decide_False by by intros [?|?]%elem_of_cons.
Qed.

End per_column.

(** ** Assignments that change nothing *)

Section identity.
Implicit Types (df : frame) (j : nat) (js : list nat) (s : series).

(** A column without a missing cell stays as it is. *)
Lemma fillna_no_missing value s : count_missing s = 0 → fillna value s = s.
Proof.
  unfold fillna. induction s as [|v s IH]; [done|].
  rewrite count_missing_cons. intros Hs. csimpl.
  destruct (is_missing v); [done|]. by rewrite IH.
Qed.

Lemma count_missing_no_missing s :
  Forall (λ v, is_missing v = false) s → count_missing s = 0.
Proof.
  induction 1 as [|v s Hv _ IH]; [done|]. rewrite count_missing_cons, IH.
  by rewrite Hv.
Qed.

(** The assignment of a column to itself. *)
Lemma map_column_id j f df :
  f (default Object (dtypes df !! j)) (column j (rows df))
  = (default Object (dtypes df !! j), column j (rows df)) →
  map_column j f df = df.
Proof.
  intros Hf. unfold map_column. rewrite Hf. destruct df as [cols dts rs].
  simpl. clear Hf. f_equal.
  - apply list_insert_id'. intros Hj.
    by destruct (lookup_lt_is_Some_2 dts j Hj) as [dt ->].
  - induction rs as [|r rs IH]; [done|]. simpl. f_equal; [|done].
    apply list_insert_id'. intros Hj. unfold cell.
    by destruct (lookup_lt_is_Some_2 r j Hj) as [v ->].
Qed.

(** A loop of such assignments. *)
Lemma per_column_id F js df :
  (∀ j, j ∈ js →
        let dt := default Object (dtypes df !! j) in
        F j dt (column j (rows df)) = (dt, column j (rows df))) →
  per_column F js df = df.
Proof.
  unfold per_column. induction js as [|j js IH]; intros HF; [done|]. simpl.
  rewrite map_column_id by (apply HF; by left). apply IH.
  intros j' Hj'. apply HF. by right.
Qed.

End identity.

(** ** The operations on columns keep the number of cells *)

Section lengths.
Implicit Types (df : frame) (s : series) (dt : dtype).

Lemma length_fillna value s : length (fillna value s) = length s.
Proof. apply length_fmap. Qed.

Lemma length_astype_str_strip s : length (astype_str_strip s) = length s.
Proof. apply length_fmap. Qed.

Lemma to_numeric_length dt s new :
  to_numeric dt s = Ok new → length new.2 = length s.
Proof.
  unfold to_numeric. intros Hnew.
  destruct dt; try by simplify_eq.
  destruct (mapM numeric_cell s) as [cells|] eqn:Hcells; [|done].
  apply length_mapM in Hcells. destruct cells as [|c cells]; [by simplify_eq|].
  destruct (mapM _ (c :: cells)) as [zs|] eqn:Hzs; simplify_eq; simpl.
  - apply length_mapM in Hzs. rewrite length_fmap. simpl in *. lia.
  - rewrite length_fmap. simpl in *. lia.
Qed.

Lemma keeps_length_fill (stat : series → py_value) :
  keeps_length (λ dt s, (dt, fillna (stat s) s)).
Proof. intros dt s. apply length_fillna. Qed.

Lemma keeps_length_trim : keeps_length (λ dt s, (dt, astype_str_strip s)).
Proof. intros dt s. apply length_astype_str_strip. Qed.

Lemma keeps_length_convert :
  keeps_length (λ dt s, try (to_numeric dt s) except (λ _, (dt, s))).
Proof.
  intros dt s. destruct (to_numeric dt s) as [new|e] eqn:Hnew; [|done].
  by eapply to_numeric_length.
Qed.

Lemma fill_mode_column_spec df j :
  fill_mode_column df j = df ∨
  ∃ value, fill_mode_column df j = map_column j (λ dt s, (dt, fillna value s)) df.
Proof.
  unfold fill_mode_column. case_decide; [|by left].
  destruct (mode_first _); eauto.
Qed.

End lengths.

#[export] Hint Resolve keeps_length_fill keeps_length_trim keeps_length_convert : dc.

(** ** [apply_preprocessing_options] keeps the shape of the frame *)

(** The frame has the columns of [df0], and is well formed when [df0]
    is. *)
Definition same_shape (df0 df : frame) : Prop :=
  columns df = columns df0 ∧ (frame_wf df0 → frame_wf df).

(** ... and has as many rows. *)
Definition same_size (df0 df : frame) : Prop :=
  same_shape df0 df ∧ len df = len df0.

Section shape.
Implicit Types (df : frame) (opts : options).

Lemma same_size_refl df : same_size df df.
Proof. unfold same_size, same_shape. naive_solver. Qed.

Lemma same_size_shape df1 df2 : same_size df1 df2 → same_shape df1 df2.
Proof. by intros []. Qed.

Lemma same_size_len df1 df2 : same_size df1 df2 → len df2 = len df1.
Proof. by intros []. Qed.

Lemma same_size_trans df1 df2 df3 :
  same_size df1 df2 → same_size df2 df3 → same_size df1 df3.
Proof. unfold same_size, same_shape. naive_solver congruence. Qed.

Lemma same_shape_size df1 df2 df3 :
  same_shape df1 df2 → same_size df2 df3 → same_shape df1 df3.
Proof. unfold same_size, same_shape. naive_solver congruence. Qed.

Lemma map_column_same_size j f df :
  keeps_length f → same_size df (map_column j f df).
Proof.
  intros Hf. unfold same_size, same_shape.
  split_and!; [done|apply map_column_wf|by apply map_column_len].
Qed.

Lemma per_column_same_size F js df :
  (∀ j, keeps_length (F j)) → same_size df (per_column F js df).
Proof.
  intros HF. unfold same_size, same_shape. split_and!;
    [apply per_column_columns|by apply per_column_wf|by apply per_column_len].
Qed.

Lemma fill_mode_same_size js df : same_size df (foldl fill_mode_column df js).
Proof.
  revert df. induction js as [|j js IH]; intros df; [done|]. simpl.
  eapply same_size_trans; [|apply IH].
  destruct (fill_mode_column_spec df j) as [->|[value ->]]; [done|].
  apply map_column_same_size. intros dt s. apply length_fillna.
Qed.

Lemma dropna_rows_same_shape df : same_shape df (dropna_rows df).
Proof.
  split; [done|]. intros Hwf. apply with_rows_wf; [done|].
  destruct Hwf as (_ & _ & Hrows). by apply Forall_filter.
Qed.

(** The rows that [handle_missing] keeps. *)
Definition kept (how : string) (df : frame) : nat :=
  if decide (how = "drop")
  then length (filter (λ r, count_missing r = 0) (rows df)) else len df.

Lemma handle_missing_values_same_shape how df :
  same_shape df (handle_missing_values how df).
Proof.
  unfold handle_missing_values, fill_numeric.
  repeat case_decide; [apply dropna_rows_same_shape|..]; apply same_size_shape;
    [apply per_column_same_size; auto with dc..
    |apply fill_mode_same_size|apply same_size_refl].
Qed.

Lemma handle_missing_values_len how df :
  len (handle_missing_values how df) = kept how df.
Proof.
  unfold handle_missing_values, fill_numeric, kept.
  repeat case_decide; [done|..|done]; apply same_size_len;
    [apply per_column_same_size; auto with dc..|apply fill_mode_same_size].
Qed.

Lemma apply_preprocessing_options_size df opts :
  same_size (handle_missing_values (handle_missing opts) df)
    (apply_preprocessing_options df opts).
Proof.
  unfold apply_preprocessing_options.
  set (df1 := handle_missing_values _ df).
  apply (same_size_trans _ (if trim_whitespace opts then trim_columns df1 else df1)).
  - destruct (trim_whitespace opts); [|apply same_size_refl].
    apply per_column_same_size. auto with dc.
  - destruct (convert_types opts); [|apply same_size_refl].
    apply per_column_same_size. auto with dc.
Qed.

Lemma apply_preprocessing_options_shape df opts :
  same_shape df (apply_preprocessing_options df opts).
Proof.
  eapply same_shape_size;
    [apply handle_missing_values_same_shape|apply apply_preprocessing_options_size].
Qed.

Lemma apply_preprocessing_options_len df opts :
  len (apply_preprocessing_options df opts) = kept (handle_missing opts) df.
Proof.
  rewrite <-handle_missing_values_len.
  apply same_size_len, apply_preprocessing_options_size.
Qed.

End shape.

(** Two well-formed frames with the same names, types and columns are
    equal. *)
Lemma frame_ext (df1 df2 : frame) :
  frame_wf df1 → frame_wf df2 →
  columns df1 = columns df2 → dtypes df1 = dtypes df2 → len df1 = len df2 →
  (∀ k, k < length (columns df1) →
        column k (rows df1) = column k (rows df2)) →
  df1 = df2.
Proof.
  intros (_ & _ & Hrows1) (_ & _ & Hrows2) Hcols Hdt Hlen Hcolumn.
  destruct df1 as [c1 d1 r1], df2 as [c2 d2 r2]. simpl in *. subst. f_equal.
  by eapply rows_ext.
Qed.

(** ** The Redis store *)

Section redis.
Context {V : Type}.
Implicit Types (r : store V) (key : string) (ttl seconds : nat) (value : V).

Lemma redis_get_setex r key ttl value :
  redis_get (setex r key ttl value) key = Some value.
Proof. unfold redis_get, setex. by rewrite lookup_insert_eq. Qed.

Lemma redis_get_setex_ne r key key' ttl value :
  key ≠ key' → redis_get (setex r key ttl value) key' = redis_get r key'.
Proof. intros. unfold redis_get, setex. by rewrite lookup_insert_ne. Qed.

(** A key lives as long as its time to live, and no longer. *)
Lemma redis_get_alive r key ttl seconds value :
  seconds < ttl → redis_get (elapse seconds (setex r key ttl value)) key = Some value.
Proof.
  intros. unfold redis_get, elapse, setex. rewrite lookup_fmap.
  by rewrite (map_lookup_filter_Some_2 _ _ key (ttl, value))
    by (by rewrite ?lookup_insert_eq).
Qed.

Lemma redis_get_expired r key ttl seconds value :
  ttl ≤ seconds → redis_get (elapse seconds (setex r key ttl value)) key = None.
Proof.
  intros. unfold redis_get, elapse, setex. rewrite lookup_fmap.
  rewrite map_lookup_filter_None_2; [done|]. right. intros e.
  rewrite lookup_insert_eq. intros [= <-]. simpl. lia.
Qed.

End redis.

(** Once the record has expired the status reports no row. *)
Lemma progress_rows_expired (r : redis) file_path ttl seconds value :
  ttl ≤ seconds →
  progress_rows (elapse seconds (setex r ("progress:" +:+ file_path) ttl value))
    file_path = 0.
Proof. intros. unfold progress_rows. by rewrite redis_get_expired. Qed.

(** ** Loops that keep the types of the columns *)

Section keep_type.
Variable g : series → series.
Hypothesis g_length : ∀ s, length (g s) = length s.
Implicit Types (df : frame) (j k : nat) (js : list nat).

(** [df[col] = g(df[col])] *)
Definition on_column : nat → dtype → series → dtype * series :=
  λ _ dt s, (dt, g s).

Lemma on_column_keeps_length j : keeps_length (on_column j).
Proof. intros dt s. apply g_length. Qed.

Lemma map_column_dtypes j df : dtypes (map_column j (on_column j) df) = dtypes df.
Proof.
  simpl. destruct (dtypes df !! j) as [dt|] eqn:Hj.
  - by apply list_insert_id.
  - apply list_insert_ge. by apply lookup_ge_None.
Qed.

Lemma per_column_dtypes js df : dtypes (per_column on_column js df) = dtypes df.
Proof.
  revert df. induction js as [|j js IH]; intros df; [done|].
  unfold per_column in *. simpl foldl. by rewrite IH, map_column_dtypes.
Qed.

(** The column at position [k] after the loop over [js]. *)
Lemma per_column_on_column js df k :
  frame_wf df → NoDup js → Forall (λ j, j < length (columns df)) js →
  k < length (columns df) →
  column k (rows (per_column on_column js df))
  = if decide (k ∈ js) then g (column k (rows df)) else column k (rows df).
Proof.
  intros Hwf Hnd Hjs Hk.
  destruct (per_column_column on_column on_column_keeps_length js df k)
    as [-> _]; [done..|].
  unfold column_after. by case_decide.
Qed.

(** Running the loop of an idempotent [g] twice is running it once. *)
Lemma per_column_idemp js df :
  (∀ s, g (g s) = g s) →
  frame_wf df → NoDup js → Forall (λ j, j < length (columns df)) js →
  per_column on_column js (per_column on_column js df)
  = per_column on_column js df.
Proof.
  intros Hg Hwf Hnd Hjs.
  pose proof (per_column_same_size on_column js df on_column_keeps_length)
    as [[Hcols Hwf1] Hlen].
  set (df1 := per_column on_column js df) in *.
  pose proof (per_column_same_size on_column js df1 on_column_keeps_length)
    as [[Hcols2 Hwf2] Hlen2].
  apply frame_ext; rewrite ?per_column_dtypes; auto.
  intros k Hk. rewrite Hcols2 in Hk.
  rewrite per_column_on_column by (done || by rewrite Hcols || auto).
  unfold df1. rewrite per_column_on_column by (done || congruence).
  case_decide; by rewrite ?Hg.
Qed.

End keep_type.

Section select.
Implicit Types (df : frame) (p : dtype → bool) (k : nat).

Lemma elem_of_select_dtypes p df k :
  k ∈ select_dtypes p df ↔
  k < length (columns df) ∧ from_option p false (dtypes df !! k) = true.
Proof.
  unfold select_dtypes. rewrite list_elem_of_filter, elem_of_seq.
  destruct (from_option p false (dtypes df !! k)); naive_solver lia.
Qed.

Lemma NoDup_select_dtypes p df : NoDup (select_dtypes p df).
Proof. apply NoDup_filter, NoDup_seq. Qed.

Lemma select_dtypes_lt p df :
  Forall (λ j, j < length (columns df)) (select_dtypes p df).
Proof. apply Forall_forall. by intros k [? _]%elem_of_select_dtypes. Qed.

Lemma select_dtypes_ext p df1 df2 :
  columns df1 = columns df2 → dtypes df1 = dtypes df2 →
  select_dtypes p df1 = select_dtypes p df2.
Proof. unfold select_dtypes. by intros -> ->. Qed.

End select.
