(* ===== verification/Typing.v ===== *)
(** * Typing: what the cells of a column are

    A DataFrame gives every column a dtype.  A discipline [D] says which
    cells a column of each dtype may hold; a frame follows it when it is
    well formed and every cell is one its column may hold
    ([well_typed_by]).  The loops over the columns keep a discipline
    when the operation on a column does ([per_column_by]), and the class
    [Discipline] states what [apply_preprocessing_options] needs of [D]:
    that filling with the mean or the median, trimming and
    [pd.to_numeric] keep it.  Filling with the mode and dropping rows
    keep every discipline.

    [has_dtype] is the discipline of the types: integers in [int64],
    floats or NaN in [float64], truth values in [bool], text or NaN in
    [object].  The readers produce frames that follow it
    ([infer_column_sound], [read_csv_typed_well_typed],
    [read_csv_well_typed]), and so does [apply_preprocessing_options] of
    such a frame. *)

From Stdlib Require Import QArith Qcanon.
From S2P Require Import Prelude Strings Numbers Value Frame Reader Transform.

(** ** The mode of a column *)

(** A choice among the elements of a list is one of them. *)
Lemma foldl_choice {A} (pick : A → A → bool) (x : A) (l : list A) :
  foldl (λ m w, if pick m w then m else w) x l ∈ x :: l.
Proof.
  revert x. induction l as [|y l IH]; intros x; simpl; [set_solver|].
  specialize (IH (if pick x y then x else y)). destruct (pick x y); set_solver.
Qed.

(** The mode is a cell of the column, and it is not missing. *)
Lemma mode_first_elem (s : series) (v : py_value) :
  mode_first s = Some v → v ∈ s ∧ is_missing v = false.
Proof.
  unfold mode_first.
  destruct (filter _ (unique (dropna s))) as [|m ms] eqn:Hmodes; [done|].
  intros [= <-]. pose proof (foldl_choice value_le m ms) as Hin.
  rewrite <-Hmodes in Hin.
  revert Hin. generalize (foldl (λ m w, if value_le m w then m else w) m ms).
  intros v [_ Hin]%list_elem_of_filter. rewrite elem_of_unique in Hin.
  split; [|by eapply dropna_not_missing].
  unfold dropna in Hin. apply list_elem_of_filter in Hin. by destruct Hin.
Qed.

(** ** Disciplines *)

Section discipline.
Variable D : py_value → dtype → Prop.
Implicit Types (df : frame) (r : list py_value) (dts : list dtype) (k j : nat).
Implicit Types (s : series) (dt : dtype) (v value : py_value).

(** A series that a column of the type [dt] may hold. *)
Definition series_by (dt : dtype) (s : series) : Prop := Forall (λ v, D v dt) s.

(** Every row has, for each column, a cell the column may hold. *)
Definition typed_by (df : frame) : Prop :=
  Forall (λ r, Forall2 D r (dtypes df)) (rows df).

(** The invariant of a frame. *)
Definition well_typed_by (df : frame) : Prop := frame_wf df ∧ typed_by df.

(** [f] maps a series of the type [dt] to a series of the type it
    returns. *)
Definition keeps_by (dt : dtype) (f : dtype → series → dtype * series) : Prop :=
  ∀ s, series_by dt s → series_by (f dt s).1 (f dt s).2.

Lemma Forall2_cells r dts :
  length r = length dts →
  Forall2 D r dts ↔ ∀ k, k < length dts → D (cell k r) (default Object (dts !! k)).
Proof.
  intros Hlen. rewrite Forall2_lookup. split.
  - intros Hall k Hk. specialize (Hall k). unfold cell.
    destruct (lookup_lt_is_Some_2 dts k Hk) as [dt Hdt].
    destruct (lookup_lt_is_Some_2 r k) as [v Hv]; [lia|].
    rewrite Hv, Hdt in *. by inversion Hall.
  - intros Hall k. destruct (decide (k < length dts)) as [Hk|Hk].
    + specialize (Hall k Hk). unfold cell in Hall.
      destruct (lookup_lt_is_Some_2 dts k Hk) as [dt Hdt].
      destruct (lookup_lt_is_Some_2 r k) as [v Hv]; [lia|].
      rewrite Hv, Hdt in *. by constructor.
    + rewrite !lookup_ge_None_2 by lia. constructor.
Qed.

(** A frame follows the discipline when each of its columns does. *)
Lemma typed_by_columns df :
  frame_wf df →
  typed_by df ↔
  ∀ k, k < length (columns df) →
       series_by (default Object (dtypes df !! k)) (column k (rows df)).
Proof.
  intros (_ & Hdt & Hrows). unfold typed_by, series_by, column.
  setoid_rewrite Forall_fmap. rewrite <-Hdt. split.
  - intros Hall k Hk. rewrite Forall_forall in Hall, Hrows.
    apply Forall_forall. intros r Hr. simpl.
    apply (Forall2_cells r (dtypes df)); [|by apply Hall|done].
    rewrite (Hrows r Hr). lia.
  - intros Hall. apply Forall_forall. intros r Hr.
    rewrite Forall_forall in Hrows.
    apply Forall2_cells; [rewrite (Hrows r Hr); lia|].
    intros k Hk. specialize (Hall k Hk). rewrite Forall_forall in Hall.
    by apply (Hall r).
Qed.

(** The loop over the columns at [js] keeps the invariant when [F] keeps
    the type of each of these columns. *)
Lemma per_column_by F js df :
  (∀ j, keeps_length (F j)) →
  NoDup js → Forall (λ j, j < length (columns df)) js →
  (∀ j, j ∈ js → keeps_by (default Object (dtypes df !! j)) (F j)) →
  well_typed_by df → well_typed_by (per_column F js df).
Proof.
  intros Hlen Hnd Hjs HF [Hwf Hty].
  assert (frame_wf (per_column F js df)) as Hwf' by by apply per_column_wf.
  split; [done|]. apply typed_by_columns; [done|].
  rewrite per_column_columns by done. intros k Hk.
  destruct (per_column_column F Hlen js df k) as [-> ->]; [done..|].
  pose proof (proj1 (typed_by_columns df Hwf) Hty k Hk) as Hcol.
  unfold column_after. case_decide; [by apply HF|done].
Qed.

Lemma map_column_by j f df :
  keeps_length f → j < length (columns df) →
  keeps_by (default Object (dtypes df !! j)) f →
  well_typed_by df → well_typed_by (map_column j f df).
Proof.
  intros Hlen Hj Hf. apply (per_column_by (λ _, f) [j]); [done| | |].
  - apply NoDup_singleton.
  - by constructor.
  - by intros ? ->%list_elem_of_singleton.
Qed.

Lemma fillna_series_by dt value s :
  D value dt → series_by dt s → series_by dt (fillna value s).
Proof.
  intros Hvalue Hs. apply Forall_fmap. eapply Forall_impl; [done|].
  intros v Hv. simpl. by destruct (is_missing v).
Qed.

(** Filling with the mode keeps every discipline: the mode is a cell of
    the column. *)
Lemma fill_mode_column_by df j :
  j < length (columns df) → well_typed_by df →
  well_typed_by (fill_mode_column df j).
Proof.
  intros Hj Hdf. unfold fill_mode_column. case_decide; [|done].
  destruct (mode_first _) as [value|] eqn:Hvalue; [|done].
  apply map_column_by; [intros dt s; apply length_fillna|done| |done].
  intros s Hs. apply fillna_series_by; [|done].
  apply mode_first_elem in Hvalue as [Hin _]. destruct Hdf as [Hwf Hty].
  pose proof (proj1 (typed_by_columns df Hwf) Hty j Hj) as Hcol.
  unfold series_by in Hcol. rewrite Forall_forall in Hcol. by apply Hcol.
Qed.

Lemma fill_mode_by df js :
  Forall (λ j, j < length (columns df)) js →
  well_typed_by df → well_typed_by (foldl fill_mode_column df js).
Proof.
  revert df. induction js as [|j js IH]; intros df Hjs Hdf; [done|].
  apply Forall_cons in Hjs as [Hj Hjs]. simpl. apply IH.
  - pose proof (fill_mode_same_size [j] df) as [[Hcols _] _]. simpl in Hcols.
    by rewrite Hcols.
  - by apply fill_mode_column_by.
Qed.

(** [chunk.columns = cols] keeps every discipline: the cells and the
    types stay. *)
Lemma set_columns_by df cols chunk :
  NoDup cols → set_columns df cols = Ok chunk →
  well_typed_by df → well_typed_by chunk.
Proof.
  unfold set_columns. intros Hnd Hchunk [(_ & Hdt & Hrows) Hty].
  case_decide as Hlen; simplify_eq. rewrite <-Hlen in *. by split.
Qed.

Lemma dropna_rows_by df : well_typed_by df → well_typed_by (dropna_rows df).
Proof.
  intros [Hwf Hty]. split; [by apply dropna_rows_same_shape|].
  by apply Forall_filter.
Qed.

(** The frame of a reader follows the discipline when the columns it
    infers do. *)
Lemma typed_frame_by (header : list string) (data : list (list string)) :
  (∀ j : nat, let cells := (λ l : list string, default "" (l !! j)) <$> data in
              series_by (infer_column cells).1 (infer_column cells).2) →
  typed_by (typed_frame header data).
Proof.
  intros Hcols. apply Forall_forall.
  intros r (i & fields & -> & Hi)%elem_of_lookup_imap.
  simpl. rewrite Forall2_fmap. apply Forall_Forall2_diag, Forall_forall.
  intros c (j & -> & _)%list_elem_of_fmap. simpl.
  specialize (Hcols j). simpl in Hcols.
  destruct (lookup_lt_is_Some_2
              (infer_column ((λ l : list string, default "" (l !! j)) <$> data)).2 i)
    as [v Hv].
  { rewrite infer_column_length, length_fmap. by eapply lookup_lt_Some. }
  rewrite Hv. eapply Forall_lookup_1 in Hcols; done.
Qed.

End discipline.

(** What [apply_preprocessing_options] needs of a discipline. *)
Class Discipline (D : py_value → dtype → Prop) : Prop := {
  discipline_mean dt s :
    is_number dt = true → series_by D dt s → series_by D dt (fillna (mean s) s);
  discipline_median dt s :
    is_number dt = true → series_by D dt s → series_by D dt (fillna (median s) s);
  discipline_trim s :
    series_by D Object s → series_by D Object (astype_str_strip s);
  discipline_convert dt s new :
    to_numeric dt s = Ok new → series_by D dt s → series_by D new.1 new.2;
}.

Section options.
Context `{Discipline D}.
Implicit Types (df : frame) (opts : options).

Lemma fill_numeric_by (stat : series → py_value) df :
  (∀ dt s, is_number dt = true → series_by D dt s →
           series_by D dt (fillna (stat s) s)) →
  well_typed_by D df → well_typed_by D (fill_numeric stat df).
Proof.
  intros Hstat Hdf. apply per_column_by;
    auto using NoDup_select_dtypes, select_dtypes_lt with dc.
  intros j [Hj Hdt]%elem_of_select_dtypes s Hs. apply Hstat; [|done].
  by destruct (dtypes df !! j).
Qed.

Lemma handle_missing_values_by how df :
  well_typed_by D df → well_typed_by D (handle_missing_values how df).
Proof.
  intros Hdf. unfold handle_missing_values. repeat case_decide;
    auto using dropna_rows_by, fill_numeric_by, discipline_mean,
      discipline_median.
  apply fill_mode_by; [|done].
  apply Forall_forall. intros j. rewrite elem_of_seq. lia.
Qed.

Lemma trim_columns_by df : well_typed_by D df → well_typed_by D (trim_columns df).
Proof.
  intros Hdf. apply per_column_by;
    auto using NoDup_select_dtypes, select_dtypes_lt with dc.
  intros j [Hj Hdt]%elem_of_select_dtypes s Hs.
  destruct (dtypes df !! j) as [[]|]; try done. by apply discipline_trim.
Qed.

Lemma convert_columns_by df :
  well_typed_by D df → well_typed_by D (convert_columns df).
Proof.
  intros Hdf. apply per_column_by; auto using NoDup_seq with dc.
  - apply Forall_forall. intros j. rewrite elem_of_seq. lia.
  - intros j _ s Hs. destruct (to_numeric _ s) as [new|e] eqn:Hnew; [|done].
    by eapply discipline_convert.
Qed.

(** [apply_preprocessing_options] keeps every discipline that its
    operations on columns keep. *)
Lemma apply_preprocessing_options_by df opts :
  well_typed_by D df → well_typed_by D (apply_preprocessing_options df opts).
Proof.
  intros Hdf. unfold apply_preprocessing_options.
  pose proof (handle_missing_values_by (handle_missing opts) df Hdf).
  destruct (trim_whitespace opts), (convert_types opts);
    auto using trim_columns_by, convert_columns_by.
Qed.

End options.

(** ** The discipline of the types *)

(** The cells of a column of each dtype: integers, floats or NaN, truth
    values, text or NaN. *)
Inductive has_dtype : py_value → dtype → Prop :=
  | int64_cell z : has_dtype (NpInt z) Int64
  | float64_cell q : has_dtype (NpFloat q) Float64
  | float64_nan : has_dtype PyNaN Float64
  | bool_cell b : has_dtype (NpBool b) Bool
  | object_str s : has_dtype (PyStr s) Object
  | object_nan : has_dtype PyNaN Object.

Notation "v ▹ dt" := (has_dtype v dt) (at level 70).

#[global] Instance has_dtype_dec v dt : Decision (v ▹ dt).
Proof.
  refine (match v, dt with
          | NpInt _, Int64 | NpFloat _, Float64 | PyNaN, Float64
          | NpBool _, Bool | PyStr _, Object | PyNaN, Object => left _
          | _, _ => right _
          end); first [constructor | inversion 1].
Defined.

(** A series of a dtype. *)
Definition series_of : dtype → series → Prop := series_by has_dtype.

(** Every row has a cell of the type of each column. *)
Definition typed : frame → Prop := typed_by has_dtype.

(** The invariant of a frame. *)
Definition well_typed : frame → Prop := well_typed_by has_dtype.

#[global] Instance well_typed_dec df : Decision (well_typed df).
Proof. unfold well_typed, well_typed_by, typed_by. apply _. Defined.

#[export] Hint Constructors has_dtype : dc.

Section readers.
Implicit Types (fs : filesystem) (path : string) (cells header : list string).
Implicit Types (data : list (list string)).

Lemma parse_cell_object field : parse_cell field ▹ Object.
Proof. unfold parse_cell. case_decide; constructor. Qed.

Lemma float_cell_float field v : float_cell field = Some v → v ▹ Float64.
Proof.
  unfold float_cell. case_decide; [intros [= <-]; constructor|].
  destruct (parse_float field); intros [= <-]. constructor.
Qed.

(** The cells of a column are of the type inferred for it. *)
Lemma infer_column_sound cells :
  series_of (infer_column cells).1 (infer_column cells).2.
Proof.
  unfold infer_column, series_of, series_by. case_decide; [by constructor|].
  destruct (mapM parse_int cells) as [zs|];
    [apply Forall_fmap, Forall_true; constructor|].
  destruct (mapM float_cell cells) as [vs|] eqn:Hvs.
  { apply mapM_Some in Hvs. simpl. eapply Forall2_Forall_r; [done|].
    apply Forall_true. eauto using float_cell_float. }
  destruct (mapM bool_literal cells) as [bs|];
    apply Forall_fmap, Forall_true; [constructor|apply parse_cell_object].
Qed.

Lemma typed_frame_well_typed header data :
  NoDup header → well_typed (typed_frame header data).
Proof.
  split; [by apply typed_frame_wf|].
  apply typed_frame_by. intros j. apply infer_column_sound.
Qed.

(** [pd.read_csv(path, low_memory=False)]: a frame it returns is well
    typed. *)
Lemma read_csv_typed_well_typed fs path nrows df :
  read_csv_typed fs path nrows = Ok df → NoDup (columns df) → well_typed df.
Proof.
  unfold read_csv_typed, typed_rows. intros Hdf.
  destruct (open_csv fs path) as [[header ls]|]; [simpl in Hdf|done].
  destruct (mapM _ _) as [data|]; simplify_eq. apply typed_frame_well_typed.
Qed.

Lemma parse_row_objects ncols line r :
  parse_row ncols line = Some r → Forall (λ v, v ▹ Object) r.
Proof.
  unfold parse_row. case_decide; intros [= <-].
  apply Forall_fmap, Forall_true, parse_cell_object.
Qed.

Lemma parse_rows_objects lenient ncols ls rs :
  parse_rows lenient ncols ls = Ok rs → Forall (Forall (λ v, v ▹ Object)) rs.
Proof.
  unfold parse_rows. destruct lenient.
  - intros [= <-]. apply Forall_forall.
    intros r (l & _ & Hr)%list_elem_of_omap. by eapply parse_row_objects.
  - destruct (mapM _ ls) as [rs'|] eqn:Hrs; intros [= <-].
    apply mapM_Some in Hrs. induction Hrs; constructor;
      eauto using parse_row_objects.
Qed.

(** [pd.read_csv(path, dtype=str)]: every column is [object]. *)
Lemma read_csv_well_typed fs path nrows lenient df :
  read_csv fs path nrows lenient = Ok df → NoDup (columns df) → well_typed df.
Proof.
  intros Hdf Hnd. split; [by eapply read_csv_wf|].
  pose proof (read_csv_wf _ _ _ _ _ Hdf Hnd) as (_ & _ & Hlen).
  unfold read_csv in Hdf.
  destruct (open_csv fs path) as [[header ls]|]; [simpl in Hdf|done].
  destruct (parse_rows _ _ _) as [rs|] eqn:Hrs; simplify_eq/=.
  apply parse_rows_objects in Hrs. unfold typed_by. simpl in *.
  rewrite Forall_forall in Hrs, Hlen. apply Forall_forall. intros r Hr.
  apply Forall2_replicate_r; [by apply Hlen|by apply Hrs].
Qed.

End readers.

Section operations.
Implicit Types (df : frame) (s : series) (dt : dtype) (v value : py_value).

Lemma series_of_no_missing dt s :
  dt = Int64 ∨ dt = Bool → series_of dt s → count_missing s = 0.
Proof.
  intros Hdt. induction 1 as [|v s Hv _ IH]; [done|].
  rewrite count_missing_cons, IH. by destruct Hdt as [-> | ->]; inversion Hv.
Qed.


Lemma mean_float s : mean s ▹ Float64.
Proof. unfold mean. destruct (omap number s); constructor. Qed.

Lemma median_float s : median s ▹ Float64.
Proof. unfold median. repeat case_match; constructor. Qed.

(** [fillna] with a statistic of the column keeps the type of a numeric
    column: an [int64] column has no missing cell. *)
Lemma fill_series_of (stat : series → py_value) dt s :
  (∀ s, stat s ▹ Float64) → is_number dt = true →
  series_of dt s → series_of dt (fillna (stat s) s).
Proof.
  intros Hstat Hdt Hs. destruct dt; try done.
  - by rewrite fillna_no_missing by (apply (series_of_no_missing Int64); auto).
  - by apply fillna_series_by.
Qed.

Lemma to_numeric_series_of dt s new :
  to_numeric dt s = Ok new → series_of dt s → series_of new.1 new.2.
Proof.
  unfold to_numeric. intros Hnew Hs. destruct dt; try by simplify_eq.
  destruct (mapM numeric_cell s) as [cells|]; [|done].
  destruct cells as [|c cells]; [by simplify_eq|]. revert Hnew.
  generalize (c :: cells). clear. intros cells Hnew.
  destruct (mapM _ cells) as [zs|]; simplify_eq; cbn [fst snd];
    apply Forall_fmap, Forall_true; [constructor|].
  intros [[z|q]|]; constructor.
Qed.

End operations.

(** The types are a discipline: [fillna] with the mean or the median
    never puts a float in an [int64] column, trimming makes text of
    every cell of an [object] column, and [to_numeric] changes the type
    of the column with its cells. *)
#[global] Instance has_dtype_discipline : Discipline has_dtype.
Proof.
  split.
  - intros dt s. apply (fill_series_of mean), mean_float.
  - intros dt s. apply (fill_series_of median), median_float.
  - intros s _. apply Forall_fmap, Forall_true. constructor.
  - apply to_numeric_series_of.
Qed.

(** ** [apply_preprocessing_options] *)

(** A frame with a column of each numeric type and a column of text. *)
Definition mixed_frame : frame :=
  {| columns := ["id"; "score"; "name"];
     dtypes := [Int64; Float64; Object];
     rows := [[NpInt 1; NpFloat (Q2Qc (1 # 2)); PyStr " a "];
              [NpInt 2; PyNaN; PyNaN];
              [NpInt 2; NpFloat (Q2Qc (3 # 2)); PyStr "7"]] |}.

Definition all_options : options :=
  {| handle_missing := "fill_mean"; trim_whitespace := true;
     convert_types := true; standardize_columns := false;
     remove_duplicates := false |}.

(** C14: [apply_preprocessing_options] keeps the types of the columns: when
    every cell of the frame is a value of the dtype of its column
    (integers in [int64], floats or NaN in [float64], truth values in
    [bool], text or NaN in [object]) and the frame is well formed, so is
    the frame it returns, whatever the options.  [fillna] with the mean or
    the median never puts a float in an [int64] column, the mode is a
    cell of its column, trimming touches the text columns only and
    [to_numeric] changes the type of the column with its cells. *)
Theorem apply_preprocessing_options_well_typed df opts :
  well_typed df → well_typed (apply_preprocessing_options df opts).
Proof. apply apply_preprocessing_options_by. Qed.

Lemma apply_preprocessing_options_well_typed_witness :
  well_typed (apply_preprocessing_options mixed_frame all_options).
Proof.
  apply apply_preprocessing_options_well_typed.
  apply (bool_decide_unpack _). by vm_compute.
Defined.
