(* ===== verification/TransformSpec.v ===== *)
(** * TransformSpec: what the Transform Engine promises

    The task [preprocess_csv_task_chunked] on a file that reads whole: the
    rows it counts, the file it writes and the progress record it leaves,
    for every size of the chunks; the mode of [remove_duplicates]; the
    failures; and the operations on columns ([trim_whitespace],
    [fill_mean]). *)

From Stdlib Require Import QArith Qcanon.
From S2P Require Import Prelude Strings Numbers Value Frame Reader Transform.

(** ** The loop over the chunks *)

Section stream.
Variables (file_path : string) (opts : options) (cols : list string).
Variables (fs : filesystem) (r : redis).
Implicit Types (chunk : frame) (text : string) (n : nat).

(** The chunk as the loop writes it. *)
Definition chunk_out (chunk : frame) : frame :=
  apply_preprocessing_options
    (if standardize_columns opts
     then {| columns := cols; dtypes := dtypes chunk; rows := rows chunk |}
     else chunk) opts.

(** The state of the loop before the first chunk. *)
Definition start : task_state :=
  {| ts_fs := fs; ts_redis := r; total_rows_processed := 0;
     is_first_chunk := true |}.

(** The state of the loop once [text] is written and [n] rows are
    counted. *)
Definition written (text : string) (n : nat) : task_state :=
  {| ts_fs := <[output_path file_path := text]> fs;
     ts_redis := setex r ("progress:" +:+ file_path) 300 n;
     total_rows_processed := n;
     is_first_chunk := false |}.

(** What the chunks add to the output file, and to the count. *)
Definition text_of (chunks : list frame) : string :=
  foldr (λ chunk text, rows_text (chunk_out chunk) +:+ text) "" chunks.

Definition rows_of (chunks : list frame) : nat :=
  sum_list (len ∘ chunk_out <$> chunks).

Definition fits (chunk : frame) : Prop :=
  standardize_columns opts = true → length cols = length (columns chunk).

Lemma process_chunk_start chunk :
  fits chunk →
  process_chunk file_path opts cols start chunk
  = Ok (written (csv_line (columns (chunk_out chunk))
                 +:+ rows_text (chunk_out chunk)) (len (chunk_out chunk))).
Proof.
  unfold process_chunk, chunk_out, set_columns, fits. intros Hfits.
  destruct (standardize_columns opts); [rewrite decide_True by auto|]; done.
Qed.

Lemma process_chunk_written text n chunk :
  fits chunk →
  process_chunk file_path opts cols (written text n) chunk
  = Ok (written (text +:+ rows_text (chunk_out chunk)) (n + len (chunk_out chunk))).
Proof.
  unfold process_chunk, chunk_out, set_columns, fits. intros Hfits.
  destruct (standardize_columns opts); [rewrite decide_True by auto|];
    cbn [mbind result_bind res_bind is_first_chunk written ts_fs ts_redis
         total_rows_processed]; unfold written, to_csv_append, setex;
    by rewrite lookup_insert_eq, !insert_insert_eq.
Qed.

Lemma process_chunks_written text n chunks :
  Forall fits chunks →
  process_chunks file_path opts cols (written text n) (Ok <$> chunks)
  = (written (text +:+ text_of chunks) (n + rows_of chunks), None).
Proof.
  intros Hfits. revert text n.
  induction Hfits as [|chunk chunks Hfit _ IH]; intros text n.
  { unfold text_of, rows_of. simpl. by rewrite app_nil_r, Nat.add_0_r. }
  cbn [fmap list_fmap process_chunks mbind result_bind res_bind].
  rewrite process_chunk_written, IH by done.
  unfold text_of, rows_of. csimpl. by rewrite app_assoc, Nat.add_assoc.
Qed.

Lemma process_chunks_start chunk chunks :
  Forall fits (chunk :: chunks) →
  process_chunks file_path opts cols start (Ok <$> chunk :: chunks)
  = (written (csv_line (columns (chunk_out chunk)) +:+ text_of (chunk :: chunks))
       (rows_of (chunk :: chunks)), None).
Proof.
  intros [Hfit Hfits]%Forall_cons.
  cbn [fmap list_fmap process_chunks mbind result_bind res_bind].
  rewrite process_chunk_start, process_chunks_written by done.
  unfold text_of, rows_of. csimpl. by rewrite app_assoc.
Qed.

End stream.

(** ** The task on a file that reads whole *)

(** The names of the columns of the result. *)
Definition names (opts : options) (header : list string) : list string :=
  if standardize_columns opts then standardize <$> header else header.

(** The rows of fields that [handle_missing] keeps. *)
Definition keeps (how : string) (fields : list string) : bool :=
  if decide (how = "drop") then complete fields else true.

Section whole.
Variables (fs : filesystem) (r : redis) (file_path : string) (opts : options).
Variables (header : list string) (data : list (list string)).
Hypothesis reads : reads_fields fs file_path header data.
Implicit Types (chunk : frame) (chunk_size : nat).

Lemma names_length : length (names opts header) = length header.
Proof. unfold names. destruct (standardize_columns opts); by rewrite ?length_fmap. Qed.

Lemma typed_chunks_fit chunk_size :
  Forall (fits opts (names opts header)) (typed_chunks chunk_size header data).
Proof.
  apply Forall_fmap, Forall_forall. intros c _ _. simpl. apply names_length.
Qed.

Lemma chunk_out_columns chunk :
  columns chunk = header →
  columns (chunk_out opts (names opts header) chunk) = names opts header.
Proof.
  intros Hc. unfold chunk_out.
  destruct (apply_preprocessing_options_shape
    (if standardize_columns opts
     then {| columns := names opts header; dtypes := dtypes chunk;
             rows := rows chunk |} else chunk) opts) as [-> _].
  unfold names. by destruct (standardize_columns opts).
Qed.

(** The task in streaming mode: the result, the output file and the
    progress record. *)
Lemma preprocess_with_stream chunk_size :
  remove_duplicates opts = false →
  let cols := names opts header in
  let frames := typed_chunks chunk_size header data in
  preprocess_with chunk_size fs r file_path opts
  = (Success (output_path file_path) (rows_of opts cols frames) None cols,
     <[output_path file_path := csv_line cols +:+ text_of opts cols frames]> fs,
     setex r ("progress:" +:+ file_path) 300 (rows_of opts cols frames)).
Proof.
  intros Hdup cols frames. unfold preprocess_with.
  rewrite (read_csv_typed_prefix _ _ header data) by done.
  rewrite Hdup, (read_csv_typed_chunks_whole _ _ _ header data) by done.
  fold frames. change (if standardize_columns opts then _ else _) with cols.
  pose proof (typed_chunks_fit chunk_size) as Hfit. fold frames cols in Hfit.
  assert (∃ c cs, frames = c :: cs ∧ columns c = header) as (c & cs & Hcs & Hc).
  { unfold frames, typed_chunks, field_chunks, chunks.
    destruct data; simpl; eauto. }
  rewrite Hcs in *. fold (start fs r). rewrite process_chunks_start by done.
  unfold cols. by rewrite chunk_out_columns.
Qed.

End whole.

(** ** The rows the task counts *)

Section counted.
Variables (opts : options) (cols header : list string).
Implicit Types (fields : list string) (data : list (list string)).

Lemma count_true_is_na fields :
  count_true (is_na <$> fields) = 0 ↔ complete fields = true.
Proof.
  induction fields as [|f fields IH]; [done|].
  rewrite fmap_cons, count_true_cons. simpl. destruct (is_na f); simpl; [|done].
  split; [lia|done].
Qed.

Lemma typed_frame_rows_isnull data :
  Forall (λ r, length r = length header) data →
  Forall2 (λ row fields, isnull row = is_na <$> fields)
    (rows (typed_frame header data)) data.
Proof.
  intros Hdata%typed_frame_isnull. apply Forall2_fmap. by rewrite Hdata.
Qed.

Lemma kept_typed_frame how data :
  Forall (λ r, length r = length header) data →
  kept how (typed_frame header data) = length (filter (keeps how) data).
Proof.
  intros Hdata. unfold kept, keeps. case_decide.
  - apply length_filter_Forall2.
    eapply Forall2_impl; [by apply typed_frame_rows_isnull|].
    intros row fields Hrow. unfold count_missing. rewrite Hrow.
    rewrite count_true_is_na. by destruct (complete fields).
  - rewrite typed_frame_len. symmetry. apply (f_equal length).
    by apply list_filter_True, Forall_true.
Qed.

Lemma len_chunk_out data :
  Forall (λ r, length r = length header) data →
  len (chunk_out opts cols (typed_frame header data))
  = length (filter (keeps (handle_missing opts)) data).
Proof.
  intros Hdata. unfold chunk_out. rewrite apply_preprocessing_options_len.
  rewrite <-kept_typed_frame by done. by destruct (standardize_columns opts).
Qed.

Lemma rows_of_typed (css : list (list (list string))) :
  Forall (λ r, length r = length header) (mjoin css) →
  rows_of opts cols (typed_frame header <$> css)
  = length (filter (keeps (handle_missing opts)) (mjoin css)).
Proof.
  unfold rows_of. induction css as [|cs css IH]; [done|]. csimpl.
  intros [Hcs Hcss]%Forall_app.
  by rewrite filter_app, List.length_app, len_chunk_out, IH.
Qed.

Lemma rows_of_typed_chunks chunk_size data :
  0 < chunk_size → Forall (λ r, length r = length header) data →
  rows_of opts cols (typed_chunks chunk_size header data)
  = length (filter (keeps (handle_missing opts)) data).
Proof.
  intros Hsize Hdata. unfold typed_chunks.
  rewrite rows_of_typed; by rewrite field_chunks_join.
Qed.

End counted.

(** ** Examples *)

Definition nl : string := String NEWLINE "".

(** Five data rows: the first and the fourth are the same, the second and
    the fifth have a missing cell. *)
Definition people_text : string :=
  "First Name,Last Name,n" +:+ nl +:+ " ann , lee,1" +:+ nl +:+ "bob,,2" +:+ nl
  +:+ "cy,dee,3" +:+ nl +:+ " ann , lee,1" +:+ nl +:+ "di,NA,5" +:+ nl.

Definition people_fs : filesystem := {[ "people.csv" := people_text ]}.

Definition people_header : list string := ["First Name"; "Last Name"; "n"].

Definition people_data : list (list string) :=
  [[" ann "; " lee"; "1"]; ["bob"; ""; "2"]; ["cy"; "dee"; "3"];
   [" ann "; " lee"; "1"]; ["di"; "NA"; "5"]].

Definition no_options : options :=
  {| handle_missing := ""; trim_whitespace := false; convert_types := false;
     standardize_columns := false; remove_duplicates := false |}.

Definition drop_options : options :=
  {| handle_missing := "drop"; trim_whitespace := true; convert_types := true;
     standardize_columns := true; remove_duplicates := false |}.

Definition duplicates_options : options :=
  {| handle_missing := ""; trim_whitespace := false; convert_types := false;
     standardize_columns := true; remove_duplicates := true |}.

Lemma people_reads : reads_fields people_fs "people.csv" people_header people_data.
Proof. eexists. split; vm_compute; reflexivity. Qed.

(** ** The task in streaming mode *)

(** C9: in streaming mode the task succeeds on every file that reads
    whole, and [rows_processed] is the number of data rows that
    [handle_missing] keeps (the rows without an NA marker for [drop], all
    rows otherwise), whatever the size of the chunks.  The [columns] of
    the result are the names of the header, standardized when
    [standardize_columns] is set, and the output file begins with the
    line of these names.  The progress record of the file holds
    [rows_processed] with 300 seconds to live and no other key of the
    store has changed; the record is gone 300 seconds later, and the
    status of the job then reports 0 rows.  The names are distinct: the
    code addresses a column by its name. *)
Theorem transform_rows_processed chunk_size fs r file_path opts header data :
  reads_fields fs file_path header data → 0 < chunk_size →
  remove_duplicates opts = false → NoDup (names opts header) →
  let out := preprocess_with chunk_size fs r file_path opts in
  let n := length (filter (keeps (handle_missing opts)) data) in
  out.1.1 = Success (output_path file_path) n None (names opts header) ∧
  (∃ body, out.1.2 !! output_path file_path
           = Some (csv_line (names opts header) +:+ body)) ∧
  out.2 = setex r ("progress:" +:+ file_path) 300 n ∧
  redis_get (elapse 300 out.2) ("progress:" +:+ file_path) = None ∧
  progress_rows (elapse 300 out.2) file_path = 0.
Proof.
  intros Hreads Hsize Hdup _.
  rewrite (preprocess_with_stream _ _ _ _ header data) by done. simpl.
  rewrite rows_of_typed_chunks, lookup_insert_eq
    by eauto using reads_fields_lengths.
  split_and!; [done|by eexists|done|apply redis_get_expired; lia|].
  by apply progress_rows_expired.
Qed.

Lemma transform_rows_processed_witness :
  let out := preprocess_with 2 people_fs ∅ "people.csv" drop_options in
  out.1.1 = Success "people_processed.csv" 3 None ["first_name"; "last_name"; "n"] ∧
  (∃ body, out.1.2 !! "people_processed.csv"
           = Some ("first_name,last_name,n" +:+ nl +:+ body)) ∧
  out.2 = setex ∅ "progress:people.csv" 300 3 ∧
  redis_get (elapse 300 out.2) "progress:people.csv" = None ∧
  progress_rows (elapse 300 out.2) "people.csv" = 0.
Proof.
  apply (transform_rows_processed 2 people_fs ∅ "people.csv" drop_options
           people_header people_data); [apply people_reads|lia|done|].
  apply (bool_decide_unpack _). by vm_compute.
Defined.

(** [standardize_columns] can make two names equal: the names of a
    header are then distinct and those of the output are not. *)
Lemma standardize_collides :
  NoDup ["First Name"; "first name"] ∧
  ¬ NoDup (standardize <$> ["First Name"; "first name"]).
Proof.
  split; [apply (bool_decide_unpack _); by vm_compute|].
  intros Hnd. by apply (bool_decide_pack _) in Hnd.
Qed.

(** Every row is kept when [handle_missing] is not [drop], or when no
    field is an NA marker. *)
Lemma filter_keeps_all how (data : list (list string)) :
  how ≠ "drop" ∨ Forall (λ fields, complete fields = true) data →
  filter (keeps how) data = data.
Proof.
  intros Hall. apply list_filter_True. unfold keeps.
  destruct Hall as [Hhow|Hdata]; [apply Forall_true; intros; by rewrite decide_False|].
  eapply Forall_impl; [done|]. simpl. intros fields ->. by case_decide.
Qed.

(** A file without missing values keeps all its rows under
    [handle_missing = drop]: [rows_processed] is the number of its data
    rows. *)
Theorem transform_drop_keeps_complete_rows chunk_size fs r file_path opts
    header data :
  reads_fields fs file_path header data → 0 < chunk_size →
  remove_duplicates opts = false → handle_missing opts = "drop" →
  Forall (λ fields, complete fields = true) data →
  (preprocess_with chunk_size fs r file_path opts).1.1
  = Success (output_path file_path) (length data) None (names opts header).
Proof.
  intros Hreads Hsize Hdup Hdrop Hdata.
  rewrite (preprocess_with_stream _ _ _ _ header data) by done. simpl.
  rewrite rows_of_typed_chunks by eauto using reads_fields_lengths.
  by rewrite filter_keeps_all by auto.
Qed.

Definition complete_fs : filesystem :=
  {[ "t.csv" := "a,b" +:+ nl +:+ "1,x" +:+ nl +:+ "2,y" +:+ nl +:+ "3,z" +:+ nl ]}.

Lemma complete_reads :
  reads_fields complete_fs "t.csv" ["a"; "b"] [["1"; "x"]; ["2"; "y"]; ["3"; "z"]].
Proof. eexists. split; vm_compute; reflexivity. Qed.

Lemma transform_drop_keeps_complete_rows_witness :
  (preprocess_with 2 complete_fs ∅ "t.csv" drop_options).1.1
  = Success "t_processed.csv" 3 None ["a"; "b"].
Proof.
  apply (transform_drop_keeps_complete_rows 2 complete_fs ∅ "t.csv" drop_options
           ["a"; "b"] [["1"; "x"]; ["2"; "y"]; ["3"; "z"]]);
    [apply complete_reads|lia|done|done|by repeat constructor].
Defined.

(** ** The mode of [remove_duplicates] *)

Section duplicates.
Variables (fs : filesystem) (r : redis) (file_path : string) (opts : options).
Variables (header : list string) (data : list (list string)).
Hypothesis reads : reads_fields fs file_path header data.
Hypothesis whole : remove_duplicates opts = true.

(** The file as a frame, and the frame without its repeated rows. *)
Definition whole_frame : frame := typed_frame header data.

Definition distinct_rows : frame :=
  with_rows whole_frame (unique (rows whole_frame)).

Lemma preprocess_with_duplicates chunk_size :
  preprocess_with chunk_size fs r file_path opts
  = (Success (output_path file_path) (len distinct_rows)
       (Some (count_true (duplicated (rows whole_frame)))) header,
     to_csv fs (output_path file_path)
       (apply_preprocessing_options distinct_rows opts),
     r).
Proof.
  unfold preprocess_with, deduplicate.
  rewrite (read_csv_typed_prefix _ _ header data) by done.
  rewrite whole, (read_csv_typed_whole _ _ header data) by done.
  cbn [mbind result_bind res_bind]. rewrite drop_duplicates_unique.
  fold whole_frame. fold distinct_rows.
  destruct (apply_preprocessing_options_shape distinct_rows opts) as [-> _].
  do 3 f_equal. pose proof (count_duplicated (rows whole_frame)) as Hcount.
  rewrite drop_duplicates_unique in Hcount. unfold len, distinct_rows.
  cbn [rows with_rows]. f_equal. lia.
Qed.

End duplicates.

(** C10: with [remove_duplicates] the task reads the whole file, keeps the
    first of every group of equal rows, and reports the rows it keeps and
    the rows it removes: together they are the rows of the file.  The
    progress record is not written, and the [columns] of the result are
    those of the header, standardized or not.  The names of the header
    are distinct. *)
Theorem transform_duplicates_counts chunk_size fs r file_path opts header data :
  reads_fields fs file_path header data → remove_duplicates opts = true →
  NoDup header →
  ∃ kept removed,
    (preprocess_with chunk_size fs r file_path opts).1.1
    = Success (output_path file_path) kept (Some removed) header ∧
    kept = length (unique (rows (typed_frame header data))) ∧
    kept + removed = length data ∧
    (preprocess_with chunk_size fs r file_path opts).2 = r.
Proof.
  intros Hreads Hdup _.
  rewrite (preprocess_with_duplicates _ _ _ _ header data) by done.
  eexists _, _. split_and!; [done..| |done].
  pose proof (count_duplicated (rows (typed_frame header data))) as Hcount.
  rewrite drop_duplicates_unique in Hcount.
  rewrite <-(typed_frame_len header data). unfold len, distinct_rows, whole_frame.
  cbn [rows with_rows]. lia.
Qed.

Lemma transform_duplicates_counts_witness :
  ∃ kept removed,
    (preprocess_with 2 people_fs ∅ "people.csv" duplicates_options).1.1
    = Success "people_processed.csv" kept (Some removed)
        ["First Name"; "Last Name"; "n"] ∧
    kept = 4 ∧ kept + removed = 5 ∧
    (preprocess_with 2 people_fs ∅ "people.csv" duplicates_options).2 = ∅.
Proof.
  apply (transform_duplicates_counts 2 people_fs ∅ "people.csv"
           duplicates_options people_header people_data);
    [apply people_reads|done|].
  apply (bool_decide_unpack _). by vm_compute.
Defined.

(** ** Failures *)

(** The task never raises: when the file cannot be opened (it is
    missing, or has no line) the result is the error with the text of the
    exception, and nothing is written. *)
Theorem transform_unreadable_error chunk_size fs r file_path opts e :
  open_csv fs file_path = Raise e →
  preprocess_with chunk_size fs r file_path opts = (Error (exn_str e), fs, r).
Proof.
  intros Hopen. unfold preprocess_with, read_csv_typed. by rewrite Hopen.
Qed.

Lemma transform_unreadable_error_witness :
  preprocess_with 2 people_fs ∅ "absent.csv" no_options
  = (Error "[Errno 2] No such file or directory: 'absent.csv'", people_fs, ∅).
Proof.
  apply (transform_unreadable_error 2 people_fs ∅ "absent.csv" no_options
           (FileNotFoundError "absent.csv")).
  vm_compute. reflexivity.
Defined.

(** ** What the task writes *)

(** The stores [fs'] and [r'] differ from [fs] and [r] at most in the
    output file and in the progress record of [file_path]. *)
Definition writes_only (file_path : string) (fs fs' : filesystem)
    (r r' : redis) : Prop :=
  (∀ p, p ≠ output_path file_path → fs' !! p = fs !! p) ∧
  (∀ key, key ≠ "progress:" +:+ file_path → r' !! key = r !! key).

Section writes.
Variables (file_path : string) (opts : options) (cols : list string).
Implicit Types (st : task_state) (chunk : frame).

Lemma writes_only_refl fs r : writes_only file_path fs fs r r.
Proof. by split. Qed.

Lemma writes_only_trans fs1 fs2 fs3 r1 r2 r3 :
  writes_only file_path fs1 fs2 r1 r2 → writes_only file_path fs2 fs3 r2 r3 →
  writes_only file_path fs1 fs3 r1 r3.
Proof.
  intros [Hfs1 Hr1] [Hfs2 Hr2].
  split; intros k Hk; [rewrite Hfs2, Hfs1|rewrite Hr2, Hr1]; done.
Qed.

Lemma writes_only_to_csv fs r df :
  writes_only file_path fs (to_csv fs (output_path file_path) df) r r.
Proof. split; [|done]. intros p Hp. unfold to_csv. by rewrite lookup_insert_ne. Qed.

Lemma process_chunk_writes st chunk st' :
  process_chunk file_path opts cols st chunk = Ok st' →
  writes_only file_path (ts_fs st) (ts_fs st') (ts_redis st) (ts_redis st').
Proof.
  unfold process_chunk. intros (chunk' & _ & Hst)%bind_Ok. simplify_eq.
  split; simpl; intros k Hk; [|unfold setex; by rewrite lookup_insert_ne].
  unfold to_csv, to_csv_append. destruct (is_first_chunk st);
    by rewrite lookup_insert_ne.
Qed.

Lemma process_chunks_writes st chunk_iterator :
  let st' := (process_chunks file_path opts cols st chunk_iterator).1 in
  writes_only file_path (ts_fs st) (ts_fs st') (ts_redis st) (ts_redis st').
Proof.
  revert st. induction chunk_iterator as [|next rest IH]; intros st; simpl.
  { apply writes_only_refl. }
  destruct next as [chunk|e]; simpl; [|apply writes_only_refl].
  destruct (process_chunk _ _ _ st chunk) as [st1|e] eqn:Hst1; simpl;
    [|apply writes_only_refl].
  eapply writes_only_trans; [by eapply process_chunk_writes|apply IH].
Qed.

End writes.

(** C30: whatever the file and the options, and whether the task succeeds
    or not, it changes no file but the output file and no key of the store
    but the progress record of its input. *)
Theorem transform_writes_only_output chunk_size fs r file_path opts :
  let out := preprocess_with chunk_size fs r file_path opts in
  writes_only file_path fs out.1.2 r out.2.
Proof.
  simpl. unfold preprocess_with.
  destruct (read_csv_typed fs file_path (Some 100)) as [first_chunk|e];
    [|apply writes_only_refl].
  destruct (remove_duplicates opts).
  - unfold deduplicate.
    destruct (read_csv_typed fs file_path None) as [df|e]; simpl;
      [apply writes_only_to_csv|apply writes_only_refl].
  - destruct (read_csv_typed_chunks fs file_path chunk_size) as [it|e];
      [|apply writes_only_refl].
    match goal with |- context [process_chunks ?p ?o ?c ?st it] =>
      pose proof (process_chunks_writes p o c st it) as Hw;
      destruct (process_chunks p o c st it) as [st' [e|]] end; apply Hw.
Qed.

(** ** The operations on columns *)

Section operations.
Implicit Types (df : frame) (s : series) (k : nat) (dt : dtype).

Lemma astype_str_strip_idemp s :
  astype_str_strip (astype_str_strip s) = astype_str_strip s.
Proof.
  unfold astype_str_strip. rewrite <-list_fmap_compose.
  apply list_fmap_ext. intros _ v _. simpl. by rewrite strip_idemp.
Qed.

Lemma count_missing_astype_str_strip s : count_missing (astype_str_strip s) = 0.
Proof.
  induction s as [|v s IH]; [done|].
  unfold astype_str_strip in *. rewrite fmap_cons, count_missing_cons. by rewrite IH.
Qed.

Lemma count_missing_fillna value s :
  is_missing value = false → count_missing (fillna value s) = 0.
Proof.
  intros Hv. induction s as [|v s IH]; [done|].
  unfold fillna in *. rewrite fmap_cons, count_missing_cons, IH.
  destruct (is_missing v) eqn:Hm; by rewrite ?Hv, ?Hm.
Qed.

Lemma mean_not_missing s : omap number s ≠ [] → is_missing (mean s) = false.
Proof. unfold mean. by destruct (omap number s). Qed.

Lemma fill_numeric_column stat df k dt :
  frame_wf df → k < length (columns df) → dtypes df !! k = Some dt →
  column k (rows (fill_numeric stat df))
  = if is_number dt then fillna (stat (column k (rows df))) (column k (rows df))
    else column k (rows df).
Proof.
  intros Hwf Hk Hdt. unfold fill_numeric.
  destruct (per_column_column (λ _ dt s, (dt, fillna (stat s) s))
    (λ _, keeps_length_fill stat) (select_dtypes is_number df) df k) as [-> _];
    [done|apply NoDup_select_dtypes|apply select_dtypes_lt|done|].
  unfold column_after. pose proof (elem_of_select_dtypes is_number df k) as Hsel.
  rewrite Hdt in Hsel. simpl in Hsel.
  destruct (is_number dt); case_decide; naive_solver.
Qed.

End operations.

(** [trim_whitespace] is idempotent on frames: trimming the text
    columns of a trimmed frame changes nothing. *)
Lemma trim_columns_idemp df :
  frame_wf df → trim_columns (trim_columns df) = trim_columns df.
Proof.
  intros Hwf. unfold trim_columns at 1.
  rewrite (select_dtypes_ext _ (trim_columns df) df)
    by (apply per_column_columns || apply (per_column_dtypes astype_str_strip)).
  apply (per_column_idemp astype_str_strip);
    auto using length_astype_str_strip, astype_str_strip_idemp,
      NoDup_select_dtypes, select_dtypes_lt.
Qed.

Definition padded_frame : frame :=
  {| columns := ["name"; "n"]; dtypes := [Object; Int64];
     rows := [[PyStr " ann "; NpInt 1]; [PyStr "bob  "; NpInt 2]] |}.

Lemma trim_columns_idemp_witness :
  trim_columns (trim_columns padded_frame) = trim_columns padded_frame.
Proof. apply (trim_columns_idemp padded_frame). split_and!; compute_done. Defined.

(** [handle_missing = fill_mean] replaces the missing cells of a
    numeric column by the mean of its other cells and leaves these as they
    are; when the column has a number, no cell of it is missing
    afterwards. *)
Theorem fill_mean_fills_numeric df k dt :
  frame_wf df → k < length (columns df) →
  dtypes df !! k = Some dt → is_number dt = true →
  let s := column k (rows df) in
  let s' := column k (rows (handle_missing_values "fill_mean" df)) in
  s' = fillna (mean s) s ∧ (omap number s ≠ [] → count_missing s' = 0).
Proof.
  intros Hwf Hk Hdt Hnum. simpl. unfold handle_missing_values.
  rewrite decide_False, decide_True by done.
  rewrite (fill_numeric_column mean df k dt), Hnum by done.
  split; [done|]. intros Hs. by apply count_missing_fillna, mean_not_missing.
Qed.

Definition gaps_frame : frame :=
  {| columns := ["name"; "x"]; dtypes := [Object; Float64];
     rows := [[PyStr "a"; NpFloat (Q2Qc (inject_Z 1))]; [PyNaN; PyNaN];
              [PyStr "c"; NpFloat (Q2Qc (inject_Z 3))]] |}.

Lemma fill_mean_fills_numeric_witness :
  let s := column 1 (rows gaps_frame) in
  let s' := column 1 (rows (handle_missing_values "fill_mean" gaps_frame)) in
  s' = fillna (mean s) s ∧ (omap number s ≠ [] → count_missing s' = 0).
Proof.
  apply (fill_mean_fills_numeric gaps_frame 1 Float64);
    [split_and!; compute_done|simpl; lia|done|done].
Defined.

(** [apply_preprocessing_options] keeps the frame well formed, keeps its
    columns, and adds no row. *)
Lemma apply_preprocessing_options_wf df opts :
  frame_wf df →
  frame_wf (apply_preprocessing_options df opts) ∧
  columns (apply_preprocessing_options df opts) = columns df ∧
  len (apply_preprocessing_options df opts) ≤ len df.
Proof.
  intros Hwf. destruct (apply_preprocessing_options_shape df opts) as [Hcols Hwf'].
  split_and!; [by apply Hwf'|done|]. rewrite apply_preprocessing_options_len.
  unfold kept. case_decide; [apply length_filter|done].
Qed.

(** ** Runs that show the limits of the task *)

Definition trim_options : options :=
  {| handle_missing := ""; trim_whitespace := true; convert_types := false;
     standardize_columns := false; remove_duplicates := false |}.

Definition mean_options : options :=
  {| handle_missing := "fill_mean"; trim_whitespace := false;
     convert_types := false; standardize_columns := false;
     remove_duplicates := false |}.

(** A cell that is an NA marker between spaces. *)
Definition padded_fs : filesystem :=
  {[ "t.csv" := "a,b" +:+ nl +:+ " NA ,x" +:+ nl +:+ "  ann,y " +:+ nl ]}.

(** The task on [t.csv], and then on its own output. *)
Definition first_run : transform_result * filesystem * redis :=
  preprocess_with 2 padded_fs ∅ "t.csv" trim_options.

Definition second_run : transform_result * filesystem * redis :=
  preprocess_with 2 first_run.1.2 first_run.2 "t_processed.csv" trim_options.

(** On files, [trim_whitespace] is not idempotent.  A cell that
    trims to an NA marker is written as the marker; the second run reads
    it as missing, and [astype(str)] writes the text [nan] in its
    place. *)
Lemma trim_rerun_changes_output :
  first_run.1.2 !! "t_processed.csv"
  = Some ("a,b" +:+ nl +:+ "NA,x" +:+ nl +:+ "ann,y" +:+ nl) ∧
  second_run.1.2 !! "t_processed_processed.csv"
  = Some ("a,b" +:+ nl +:+ "nan,x" +:+ nl +:+ "ann,y" +:+ nl).
Proof. split; vm_compute; reflexivity. Qed.

(** C37: [trim_whitespace] is idempotent on frames and not on files.
    Trimming the text columns of a trimmed frame changes nothing; but
    the task run on its own output writes another file: a cell that
    trims to an NA marker is written as the marker, the second run reads
    it as missing, and [astype(str)] writes the text [nan] in its
    place. *)
Theorem trim_whitespace_idempotence :
  (∀ df, frame_wf df → trim_columns (trim_columns df) = trim_columns df)
  ∧ first_run.1.2 !! "t_processed.csv"
    = Some ("a,b" +:+ nl +:+ "NA,x" +:+ nl +:+ "ann,y" +:+ nl)
  ∧ second_run.1.2 !! "t_processed_processed.csv"
    = Some ("a,b" +:+ nl +:+ "nan,x" +:+ nl +:+ "ann,y" +:+ nl).
Proof. split; [apply trim_columns_idemp|apply trim_rerun_changes_output]. Qed.

(** A file whose extension is in capitals, as [allowed_file] accepts
    it. *)
Definition upper_fs : filesystem :=
  {[ "DATA.CSV" := "a,b" +:+ nl +:+ "1,x" +:+ nl +:+ "1,x" +:+ nl ]}.

Definition upper_options : options :=
  {| handle_missing := ""; trim_whitespace := false; convert_types := false;
     standardize_columns := false; remove_duplicates := true |}.

(** [allowed_file] accepts the extension in any case, and
    [output_path] replaces [.csv] in lower case only: for an upload named
    [DATA.CSV] the output path is the input path, and the task writes its
    result over its input. *)
Theorem transform_overwrites_input :
  let out := preprocess_with 2 upper_fs ∅ "DATA.CSV" upper_options in
  allowed_file "DATA.CSV" = true ∧
  out.1.1 = Success "DATA.CSV" 1 (Some 1) ["a"; "b"] ∧
  out.1.2 !! "DATA.CSV" = Some ("a,b" +:+ nl +:+ "1,x" +:+ nl).
Proof. split_and!; vm_compute; reflexivity. Qed.

(** A column with a missing cell in the first chunk of two rows. *)
Definition gaps_fs : filesystem :=
  {[ "v.csv" := "v" +:+ nl +:+ "1" +:+ nl +:+ "NA" +:+ nl +:+ "3" +:+ nl
                +:+ "8" +:+ nl ]}.

(** The mean that [fill_mean] writes is the mean of the chunk: the output
    depends on the size of the chunks, in the value that fills the cell
    and in the type the columns of the other chunks are written with. *)
Lemma fill_mean_depends_on_chunks :
  (preprocess_with 2 gaps_fs ∅ "v.csv" mean_options).1.2 !! "v_processed.csv"
  = Some ("v" +:+ nl +:+ "1.0" +:+ nl +:+ "1.0" +:+ nl +:+ "3" +:+ nl
          +:+ "8" +:+ nl) ∧
  (preprocess_with 4 gaps_fs ∅ "v.csv" mean_options).1.2 !! "v_processed.csv"
  = Some ("v" +:+ nl +:+ "1.0" +:+ nl +:+ "4.0" +:+ nl +:+ "3.0" +:+ nl
          +:+ "8.0" +:+ nl).
Proof. split; vm_compute; reflexivity. Qed.

(** ** A task that succeeds has written its output *)

Section output.
Variables (file_path : string) (opts : options) (cols : list string).
Implicit Types (st : task_state) (chunk : frame).

Lemma process_chunk_output st chunk st' :
  process_chunk file_path opts cols st chunk = Ok st' →
  is_first_chunk st' = false ∧ is_Some (ts_fs st' !! output_path file_path).
Proof.
  unfold process_chunk. intros (chunk' & _ & Hst)%bind_Ok. simplify_eq. simpl.
  split; [done|]. unfold to_csv, to_csv_append.
  destruct (is_first_chunk st); by rewrite lookup_insert_eq.
Qed.

Lemma process_chunks_output st chunk_iterator st' :
  process_chunks file_path opts cols st chunk_iterator = (st', None) →
  chunk_iterator ≠ [] ∨ is_Some (ts_fs st !! output_path file_path) →
  is_Some (ts_fs st' !! output_path file_path).
Proof.
  revert st. induction chunk_iterator as [|next rest IH]; intros st; simpl.
  { intros [= <-] [?|?]; done. }
  destruct next as [chunk|e]; simpl; [|done].
  destruct (process_chunk _ _ _ st chunk) as [st1|e] eqn:Hst1; simpl; [|done].
  intros Hrest _. apply (IH st1 Hrest). right.
  by eapply process_chunk_output.
Qed.

End output.

Lemma read_csv_typed_chunks_nonempty fs file_path chunk_size chunk_iterator :
  read_csv_typed_chunks fs file_path chunk_size = Ok chunk_iterator →
  chunk_iterator ≠ [].
Proof.
  unfold read_csv_typed_chunks. intros ([header data] & _ & Hit)%bind_Ok.
  simplify_eq. unfold chunks. by destruct data.
Qed.

(** A task that returns [success] names its output path, and the file at
    this path exists. *)
Lemma preprocess_with_success chunk_size fs r file_path opts out n removed cols :
  (preprocess_with chunk_size fs r file_path opts).1.1
  = Success out n removed cols →
  out = output_path file_path ∧
  is_Some ((preprocess_with chunk_size fs r file_path opts).1.2
             !! output_path file_path).
Proof.
  unfold preprocess_with.
  destruct (read_csv_typed fs file_path (Some 100)) as [first_chunk|e]; [|done].
  destruct (remove_duplicates opts).
  - unfold deduplicate.
    destruct (read_csv_typed fs file_path None) as [df|e]; simpl; [|done].
    intros [= <- _ _ _]. split; [done|]. unfold to_csv. by rewrite lookup_insert_eq.
  - destruct (read_csv_typed_chunks fs file_path chunk_size) as [it|e] eqn:Hit;
      [|done].
    apply read_csv_typed_chunks_nonempty in Hit.
    match goal with |- context [process_chunks ?p ?o ?c ?st it] =>
      pose proof (process_chunks_output p o c st it) as Hout;
      destruct (process_chunks p o c st it) as [st' [e|]] end; simpl; [done|].
    intros [= <- _ _ _]. split; [done|]. apply (Hout st'); auto.
Qed.
