(* ===== verification/Streaming.v ===== *)
(** * Streaming: the streaming mode against a row-by-row reference

    The task reads its input with type inference, chunk by chunk
    ([pd.read_csv(chunksize=CHUNK_SIZE)] without [dtype=]), so what it
    writes for a field may depend on the fields that share its chunk.
    This file says when it does not.

    The [kind] of a field is the type it gives a column it is alone in.
    A table is [homogeneous] when every column holds fields of one kind;
    its chunks are then read field by field ([typed_frame_homogeneous]).
    The options are [row_local] when no cell is filled with a statistic
    of its column and no column is both trimmed and converted; they then
    work row by row ([apply_options_row_frame]): [handle_missing] keeps
    or drops whole rows, [trim_whitespace] trims the cells of text, and
    [convert_types] finds no column to convert
    ([convert_row_frame]).  Under both conditions the task is the
    function [row_wise] of the rows of the file
    ([transform_chunk_size_independent]): its result, its output file and
    its progress record are the same for every size of the chunks, and
    the mode of [remove_duplicates] writes the same file when no row is
    repeated ([modes_write_same_file]).

    Neither condition can be dropped: [fill_mean] depends on the chunks
    ([fill_mean_depends_on_chunks] in [TransformSpec]), so does
    [convert_types] after [trim_whitespace]
    ([trim_convert_depends_on_chunks]), and a column of mixed kinds is
    rewritten chunk by chunk with no option set
    ([untouched_output_depends_on_chunks]). *)

From Stdlib Require Import QArith Qcanon.
From S2P Require Import Prelude Strings Numbers Value Frame Reader.
From S2P Require Import Transform Typing TransformSpec.

(** ** The kind of a field *)

(** The type a field gives a column it is alone in, and the cell it is
    read as there. *)
Definition kind (c : string) : dtype := (infer_column [c]).1.

Definition typed_cell (c : string) : py_value := cell 0 (infer_column [c]).2.

(** Every row has a field per kind, of this kind. *)
Definition homogeneous (kinds : list dtype) (data : list (list string)) : Prop :=
  Forall (λ fields, Forall2 (λ c k, kind c = k) fields kinds) data.

#[global] Instance homogeneous_dec kinds data : Decision (homogeneous kinds data).
Proof. unfold homogeneous. apply _. Defined.

(** How a field is read, by its kind. *)
Inductive kind_spec (c : string) : dtype → py_value → Prop :=
  | kind_int z : parse_int c = Some z → kind_spec c Int64 (NpInt z)
  | kind_float v :
      parse_int c = None → float_cell c = Some v → kind_spec c Float64 v
  | kind_bool b :
      parse_int c = None → float_cell c = None → bool_literal c = Some b →
      kind_spec c Bool (NpBool b)
  | kind_text :
      parse_int c = None → float_cell c = None → bool_literal c = None →
      kind_spec c Object (PyStr c).

Section kinds.
Implicit Types (c : string) (k : dtype) (cells : list string).

Lemma kind_view c : kind_spec c (kind c) (typed_cell c).
Proof.
  unfold kind, typed_cell, infer_column. rewrite decide_False by done.
  simpl. destruct (parse_int c) eqn:Hint; simpl; [by constructor|].
  destruct (float_cell c) eqn:Hfloat; simpl; [by constructor|].
  destruct (bool_literal c) eqn:Hbool; simpl; [by constructor|].
  unfold parse_cell. case_decide as Hna; [|by constructor].
  unfold float_cell in Hfloat. by rewrite decide_True in Hfloat.
Qed.

Lemma kind_inv c k : kind c = k → kind_spec c k (typed_cell c).
Proof. intros <-. apply kind_view. Qed.

Lemma typed_cell_text c : kind c = Object → typed_cell c = PyStr c.
Proof. intros Hk%kind_inv. by inversion Hk. Qed.

Lemma is_missing_typed_cell c : is_missing (typed_cell c) = is_na c.
Proof.
  pose proof (infer_column_reads [c]) as Hr. unfold typed_cell.
  destruct (infer_column [c]).2 as [|v vs]; inversion Hr; by simplify_eq.
Qed.

End kinds.

(** ** A column of one kind *)

Section uniform.
Implicit Types (c : string) (k : dtype) (cells : list string).

Lemma mapM_typed {A} (f : string → option A) (g : A → py_value) cells :
  Forall (λ c, ∃ x, f c = Some x ∧ g x = typed_cell c) cells →
  ∃ xs, mapM f cells = Some xs ∧ g <$> xs = typed_cell <$> cells.
Proof.
  induction 1 as [|c cells (x & Hx & Hg) _ (xs & Hxs & Hgs)]; [by exists []|].
  exists (x :: xs). split; [|by rewrite !fmap_cons, Hg, Hgs].
  apply mapM_Some. constructor; [done|by apply mapM_Some].
Qed.

Lemma mapM_head_None {A} (f : string → option A) c cells :
  f c = None → mapM f (c :: cells) = None.
Proof. intros Hc. apply mapM_None_2. by left. Qed.

(** In a column of one kind every cell is read as it is read alone. *)
Lemma infer_column_uniform k cells :
  cells ≠ [] → Forall (λ c, kind c = k) cells →
  infer_column cells = (k, typed_cell <$> cells).
Proof.
  intros Hne Hk. unfold infer_column. rewrite decide_False by done.
  assert (Forall (λ c, kind_spec c k (typed_cell c)) cells) as Hv
    by (eapply Forall_impl; [done|]; intros c; apply kind_inv).
  destruct cells as [|c cells]; [done|]. clear Hne Hk.
  pose proof (Forall_inv Hv) as Hc. destruct k.
  - destruct (mapM_typed parse_int NpInt (c :: cells)) as (zs & -> & <-); [|done].
    eapply Forall_impl; [done|]. intros c'. inversion 1. eauto.
  - rewrite mapM_head_None by by inversion Hc.
    destruct (mapM_typed float_cell id (c :: cells)) as (vs & -> & <-);
      [|by rewrite list_fmap_id].
    eapply Forall_impl; [done|]. intros c'. inversion 1. eauto.
  - rewrite !mapM_head_None by by inversion Hc.
    destruct (mapM_typed bool_literal NpBool (c :: cells)) as (bs & -> & <-); [|done].
    eapply Forall_impl; [done|]. intros c'. inversion 1. eauto.
  - rewrite !mapM_head_None by by inversion Hc. f_equal.
    apply list_fmap_ext. intros _ c' Hc'%list_elem_of_lookup_2.
    rewrite Forall_forall in Hv. specialize (Hv c' Hc'). inversion Hv.
    unfold parse_cell. rewrite decide_False; [done|]. intros Hna.
    unfold float_cell in *. by rewrite decide_True in * by done.
Qed.

End uniform.

(** ** The frame of a homogeneous table *)

(** The frame whose rows are the rows of fields, every field read on its
    own. *)
Definition row_frame (cols : list string) (kinds : list dtype)
    (data : list (list string)) : frame :=
  {| columns := cols; dtypes := kinds; rows := fmap (M := list) typed_cell <$> data |}.

Section row_frame.
Variables (cols : list string) (kinds : list dtype).
Hypothesis kinds_length : length kinds = length cols.
Implicit Types (data : list (list string)) (fields : list string).

Lemma homogeneous_lengths data :
  homogeneous kinds data → Forall (λ r, length r = length cols) data.
Proof.
  intros Hdata. eapply Forall_impl; [exact Hdata|]. intros r Hr. simpl.
  by rewrite (Forall2_length _ _ _ Hr).
Qed.

(** The column of the fields at position [j] is of the kind at [j]. *)
Lemma homogeneous_column data j k :
  homogeneous kinds data → kinds !! j = Some k →
  Forall (λ c, kind c = k) ((λ r, default "" (r !! j)) <$> data).
Proof.
  intros Hdata Hj. apply Forall_fmap. eapply Forall_impl; [done|].
  intros r Hr. simpl. by destruct (Forall2_lookup_r _ _ _ _ _ Hr Hj) as (c & -> & ?).
Qed.

(** The reader infers the kinds, and reads every field as it is read
    alone. *)
Lemma typed_frame_homogeneous data :
  data ≠ [] → homogeneous kinds data →
  typed_frame cols data = row_frame cols kinds data.
Proof.
  intros Hne Hdata. unfold typed_frame, row_frame.
  rewrite (list_fmap_ext _
    (λ j, (default Object (kinds !! j),
           typed_cell <$> ((λ r, default "" (r !! j)) <$> data)))
    (seq 0 (length cols))).
  2:{ intros j ? [-> Hj]%lookup_seq. simpl.
      destruct (lookup_lt_is_Some_2 kinds j) as [k Hk]; [lia|]. rewrite Hk.
      apply infer_column_uniform; [by destruct data|by apply homogeneous_column]. }
  f_equal.
  - rewrite <-list_fmap_compose, <-kinds_length.
    etrans; [symmetry; apply (fmap_lookup_seq id Object)|apply list_fmap_id].
  - apply list_eq. intros i. rewrite list_lookup_imap, list_lookup_fmap.
    destruct (data !! i) as [r|] eqn:Hi; [simpl|done]. f_equal.
    rewrite <-list_fmap_compose, (fmap_lookup_seq typed_cell "" r).
    rewrite (Forall_lookup_1 _ _ _ _ (homogeneous_lengths _ Hdata) Hi).
    apply list_fmap_ext. intros _ j _. simpl.
    by rewrite !list_lookup_fmap, Hi.
Qed.

Lemma row_frame_wf data :
  NoDup cols → homogeneous kinds data → frame_wf (row_frame cols kinds data).
Proof.
  intros Hnd Hdata. split_and!; [done..|]. simpl. apply Forall_fmap.
  eapply Forall_impl; [by apply homogeneous_lengths|]. intros r.
  simpl. by rewrite length_fmap.
Qed.

End row_frame.

(** ** The options, row by row *)

(** The cell the task writes for a field: the text of a column of text
    is trimmed. *)
Definition out_cell (opts : options) (c : string) : py_value :=
  if trim_whitespace opts && is_object (kind c) then PyStr (strip c)
  else typed_cell c.

(** The rows the task writes for the rows of fields. *)
Definition out_rows (opts : options) (data : list (list string))
    : list (list py_value) :=
  fmap (M := list) (out_cell opts) <$> filter (keeps (handle_missing opts)) data.

(** A row the options treat on its own: none of its cells is filled
    with a statistic of its column, and none of its texts reads as a
    missing number when the columns are converted. *)
Definition row_ok (opts : options) (fields : list string) : Prop :=
  (handle_missing opts ∈ ["fill_mean"; "fill_median"; "fill_mode"] →
   complete fields = true) ∧
  (convert_types opts = true → Forall (λ c, lower c ≠ "nan") fields).

(** The options work row by row: the columns are not both trimmed and
    converted, and every row is treated on its own. *)
Definition row_local (opts : options) (data : list (list string)) : Prop :=
  (convert_types opts = true → trim_whitespace opts = false) ∧
  Forall (row_ok opts) data.

#[global] Instance row_local_dec opts data : Decision (row_local opts data).
Proof. unfold row_local. apply _. Defined.

Section options.
Variables (cols : list string) (kinds : list dtype).
Hypothesis kinds_length : length kinds = length cols.
Implicit Types (data : list (list string)) (fields : list string).
Implicit Types (opts : options) (how : string).

Lemma row_local_complete opts data :
  row_local opts data →
  handle_missing opts ∈ ["fill_mean"; "fill_median"; "fill_mode"] →
  Forall (λ r, complete r = true) data.
Proof.
  intros [_ Hrows] Hfill. eapply Forall_impl; [done|]. intros r [Hr _]. auto.
Qed.

Lemma row_local_filter (P : list string → Prop) `{∀ r, Decision (P r)} opts data :
  row_local opts data → row_local opts (filter P data).
Proof. intros [? ?]. split; [done|by apply Forall_filter]. Qed.

Lemma count_missing_typed fields :
  count_missing (typed_cell <$> fields) = 0 ↔ complete fields = true.
Proof.
  unfold count_missing, isnull. rewrite <-list_fmap_compose.
  rewrite (list_fmap_ext _ is_na fields); [apply count_true_is_na|].
  intros _ c _. apply is_missing_typed_cell.
Qed.

Lemma dropna_row_frame data :
  dropna_rows (row_frame cols kinds data)
  = row_frame cols kinds (filter (keeps "drop") data).
Proof.
  unfold dropna_rows, row_frame, with_rows. simpl. f_equal.
  rewrite filter_fmap. f_equal. apply list_filter_iff. intros r. simpl.
  rewrite count_missing_typed. unfold keeps. rewrite decide_True by done.
  by destruct (complete r).
Qed.

Lemma complete_fields fields :
  complete fields = true → Forall (λ c, is_na c = false) fields.
Proof.
  induction fields as [|c fields IH]; [done|]. simpl.
  intros [Hc ?]%andb_prop. constructor; [by destruct (is_na c)|auto].
Qed.

(** No cell of a table of complete rows is missing. *)
Lemma complete_column data j :
  homogeneous kinds data → Forall (λ r, complete r = true) data →
  j < length cols →
  Forall (λ v, is_missing v = false) (column j (rows (row_frame cols kinds data))).
Proof.
  intros Hdata Hall Hj.
  pose proof (homogeneous_lengths cols kinds kinds_length data Hdata) as Hlen.
  simpl. unfold column. rewrite <-list_fmap_compose. apply Forall_fmap.
  rewrite Forall_forall in Hlen, Hall. apply Forall_forall. intros r Hr.
  simpl. unfold cell. rewrite list_lookup_fmap.
  destruct (lookup_lt_is_Some_2 r j) as [c Hc]; [rewrite Hlen; done|].
  rewrite Hc. simpl. rewrite is_missing_typed_cell.
  pose proof (complete_fields r (Hall r Hr)) as Hcs.
  by eapply Forall_lookup_1 in Hcs.
Qed.

Lemma fill_numeric_complete stat data :
  homogeneous kinds data → Forall (λ r, complete r = true) data →
  fill_numeric stat (row_frame cols kinds data) = row_frame cols kinds data.
Proof.
  intros Hdata Hall. apply per_column_id.
  intros j [Hj _]%elem_of_select_dtypes. simpl. f_equal.
  apply fillna_no_missing, count_missing_no_missing. by apply complete_column.
Qed.

Lemma fill_mode_complete data js :
  homogeneous kinds data → Forall (λ r, complete r = true) data →
  Forall (λ j, j < length cols) js →
  foldl fill_mode_column (row_frame cols kinds data) js = row_frame cols kinds data.
Proof.
  intros Hdata Hall. induction 1 as [|j js Hj _ IH]; [done|]. simpl.
  unfold fill_mode_column at 2.
  rewrite count_missing_no_missing by by apply complete_column.
  by rewrite decide_False by lia.
Qed.

(** [handle_missing] keeps or drops whole rows. *)
Lemma handle_missing_row_frame opts data :
  homogeneous kinds data → row_local opts data →
  handle_missing_values (handle_missing opts) (row_frame cols kinds data)
  = row_frame cols kinds (filter (keeps (handle_missing opts)) data).
Proof.
  intros Hdata Hlocal. pose proof (row_local_complete _ _ Hlocal) as Hfill.
  unfold handle_missing_values.
  destruct (decide (handle_missing opts = "drop")) as [->|Hdrop];
    [apply dropna_row_frame|].
  rewrite filter_keeps_all by by left.
  repeat case_decide; [..|done].
  - apply fill_numeric_complete; [done|]. apply Hfill. set_solver.
  - apply fill_numeric_complete; [done|]. apply Hfill. set_solver.
  - apply fill_mode_complete; [done| |]; [apply Hfill; set_solver|].
    apply Forall_forall. intros j. rewrite elem_of_seq. simpl. lia.
Qed.

(** The column at [j] holds the fields at [j], each read on its own. *)
Lemma row_frame_column data j :
  homogeneous kinds data → j < length cols →
  column j (rows (row_frame cols kinds data))
  = typed_cell <$> ((λ r, default "" (r !! j)) <$> data).
Proof.
  intros Hdata Hj.
  pose proof (homogeneous_lengths cols kinds kinds_length data Hdata) as Hlen.
  simpl. unfold column. rewrite <-!list_fmap_compose. apply list_fmap_ext.
  intros _ r Hr%list_elem_of_lookup_2. simpl. unfold cell.
  rewrite Forall_forall in Hlen. rewrite list_lookup_fmap.
  destruct (lookup_lt_is_Some_2 r j) as [c Hc]; [rewrite Hlen; done|].
  by rewrite Hc.
Qed.

(** A text that is not a number is no number for [pd.to_numeric]
    either, unless it reads [nan]. *)
Lemma numeric_cell_text c :
  kind c = Object → lower c ≠ "nan" → numeric_cell (typed_cell c) = None.
Proof.
  intros Hk%kind_inv Hnan. inversion Hk as [| | |Hint Hfloat _ Hcell]. simpl.
  unfold float_cell in Hfloat. case_decide as Hna; [done|].
  rewrite decide_False, Hint; [|intros [->|?]; [by destruct Hna; set_solver|done]].
  by destruct (parse_float c).
Qed.

(** [pd.to_numeric] leaves a column of one kind as it is: a column of
    text raises, the others are numeric. *)
Lemma to_numeric_uniform k cells :
  Forall (λ c, kind c = k) cells → Forall (λ c, lower c ≠ "nan") cells →
  (try (to_numeric k (typed_cell <$> cells))
   except (λ _, (k, typed_cell <$> cells))) = (k, typed_cell <$> cells).
Proof.
  intros Hk Hnan. destruct k; try done. unfold to_numeric.
  destruct Hk as [|c cells Hc Hk]; [done|]. rewrite fmap_cons.
  rewrite mapM_None_2; [done|]. left.
  apply numeric_cell_text; [done|by apply Forall_inv in Hnan].
Qed.

(** [convert_types] changes nothing in a homogeneous table. *)
Lemma convert_row_frame data :
  homogeneous kinds data → Forall (Forall (λ c, lower c ≠ "nan")) data →
  convert_columns (row_frame cols kinds data) = row_frame cols kinds data.
Proof.
  intros Hdata Hnan. apply per_column_id. intros j [_ Hj]%elem_of_seq.
  simpl in Hj. cbv zeta. rewrite row_frame_column by done.
  change (dtypes (row_frame cols kinds data)) with kinds.
  destruct (lookup_lt_is_Some_2 kinds j) as [k Hk]; [lia|]. rewrite Hk. simpl.
  apply to_numeric_uniform; [by eapply homogeneous_column|].
  apply Forall_fmap. eapply Forall_impl; [done|]. intros r Hr. simpl.
  destruct (r !! j) as [c|] eqn:Hc; [by eapply Forall_lookup_1 in Hr|done].
Qed.

End options.

Section trim.
Variables (cols : list string) (kinds : list dtype).
Hypothesis cols_NoDup : NoDup cols.
Hypothesis kinds_length : length kinds = length cols.
Implicit Types (data : list (list string)) (fields : list string).
Implicit Types (opts : options).

(** The cell of a trimmed frame. *)
Definition trim_cell (c : string) : py_value :=
  if is_object (kind c) then PyStr (strip c) else typed_cell c.

Definition trimmed (data : list (list string)) : frame :=
  {| columns := cols; dtypes := kinds;
     rows := fmap (M := list) trim_cell <$> data |}.

Lemma cell_fmap {A} (f : A → py_value) (r : list A) k c :
  r !! k = Some c → cell k (f <$> r) = f c.
Proof. intros Hc. unfold cell. by rewrite list_lookup_fmap, Hc. Qed.

Lemma trimmed_wf data : homogeneous kinds data → frame_wf (trimmed data).
Proof.
  intros Hdata. split_and!; [done..|]. simpl. apply Forall_fmap.
  eapply Forall_impl; [by apply (homogeneous_lengths cols kinds)|].
  intros r. simpl. by rewrite length_fmap.
Qed.

(** The column at [k] of the trimmed frame. *)
Lemma trimmed_column data k :
  homogeneous kinds data → k < length cols →
  column k (rows (trimmed data))
  = if decide (k ∈ select_dtypes is_object (row_frame cols kinds data))
    then astype_str_strip (column k (rows (row_frame cols kinds data)))
    else column k (rows (row_frame cols kinds data)).
Proof.
  intros Hdata Hk. unfold column, astype_str_strip. simpl.
  assert (∀ r, r ∈ data → ∃ c, r !! k = Some c ∧ kinds !! k = Some (kind c))
    as Hcell.
  { intros r Hr. unfold homogeneous in Hdata. rewrite Forall_forall in Hdata.
    destruct (lookup_lt_is_Some_2 kinds k) as [kd Hkd]; [lia|].
    destruct (Forall2_lookup_r _ _ _ _ _ (Hdata r Hr) Hkd) as (c & ? & <-).
    eauto. }
  case_decide as Hsel; rewrite <-!list_fmap_compose; apply list_fmap_ext;
    intros _ r Hr%list_elem_of_lookup_2; simpl;
    destruct (Hcell r Hr) as (c & Hc & Hkc);
    rewrite !(cell_fmap _ r k c) by done; unfold trim_cell.
  - apply elem_of_select_dtypes in Hsel as [_ Hobj]. simpl in Hobj.
    rewrite Hkc in Hobj. simpl in Hobj. rewrite Hobj.
    rewrite typed_cell_text; [done|]. by destruct (kind c).
  - destruct (is_object (kind c)) eqn:Hobj; [|done]. destruct Hsel.
    apply elem_of_select_dtypes. simpl. by rewrite Hkc.
Qed.

(** [trim_whitespace] trims the cells of the columns of text. *)
Lemma trim_row_frame data :
  homogeneous kinds data →
  trim_columns (row_frame cols kinds data) = trimmed data.
Proof.
  intros Hdata.
  pose proof (row_frame_wf cols kinds kinds_length data cols_NoDup Hdata) as Hwf.
  unfold trim_columns. fold (on_column astype_str_strip).
  set (js := select_dtypes is_object (row_frame cols kinds data)).
  pose proof (per_column_same_size (on_column astype_str_strip) js
    (row_frame cols kinds data) (on_column_keeps_length _ length_astype_str_strip))
    as [[Hcols Hwf'] Hlen].
  apply frame_ext;
    [auto|by apply trimmed_wf|done|by rewrite per_column_dtypes| |].
  - rewrite Hlen. unfold len. simpl. by rewrite !length_fmap.
  - intros k Hk. rewrite Hcols in Hk.
    rewrite per_column_on_column, trimmed_column;
      auto using length_astype_str_strip;
      [apply NoDup_select_dtypes|apply select_dtypes_lt].
Qed.

(** The frame the options make of a homogeneous table. *)
Lemma apply_options_row_frame opts data :
  homogeneous kinds data → row_local opts data →
  apply_preprocessing_options (row_frame cols kinds data) opts
  = {| columns := cols; dtypes := kinds; rows := out_rows opts data |}.
Proof.
  intros Hdata Hlocal. unfold apply_preprocessing_options.
  rewrite (handle_missing_row_frame cols kinds kinds_length) by done.
  assert (homogeneous kinds (filter (keeps (handle_missing opts)) data)) as Hrs
    by by apply Forall_filter.
  apply (row_local_filter (keeps (handle_missing opts))) in Hlocal.
  unfold out_rows, out_cell. clear Hdata. revert Hrs Hlocal.
  generalize (filter (keeps (handle_missing opts)) data). intros rs Hrs [Htrim Hok].
  destruct (convert_types opts) eqn:Hconv.
  - rewrite Htrim by done. simpl. apply (convert_row_frame cols kinds); [done..|].
    eapply Forall_impl; [done|]. intros r [_ Hr]. auto.
  - destruct (trim_whitespace opts); [|done]. by rewrite trim_row_frame.
Qed.

End trim.

(** ** The chunks of a homogeneous table *)

Lemma out_rows_app opts data1 data2 :
  out_rows opts (data1 ++ data2) = out_rows opts data1 ++ out_rows opts data2.
Proof. unfold out_rows. by rewrite filter_app, fmap_app. Qed.

Section chunks.
Variables (opts : options) (header : list string) (kinds : list dtype).
Hypothesis names_NoDup : NoDup (names opts header).
Implicit Types (cs data : list (list string)) (css : list (list (list string))).

Let cols : list string := names opts header.

(** What a chunk of rows of fields becomes. *)
Definition chunk_ok cs : Prop :=
  Forall (λ r, length r = length header) cs ∧ homogeneous kinds cs
  ∧ row_local opts cs.

Lemma chunk_ok_chunks n data : chunk_ok data → Forall chunk_ok (chunks n data).
Proof.
  intros (Hlen & Hkinds & Hconv & Hrows).
  pose proof (chunks_Forall _ n data Hlen) as H1.
  pose proof (chunks_Forall _ n data Hkinds) as H2.
  pose proof (chunks_Forall _ n data Hrows) as H3.
  revert H1 H2 H3. generalize (chunks n data). intros css.
  rewrite !Forall_forall. unfold chunk_ok, row_local. naive_solver.
Qed.

Lemma chunk_out_rows cs :
  chunk_ok cs → rows (chunk_out opts cols (typed_frame header cs)) = out_rows opts cs.
Proof.
  intros (Hlen & Hkinds & Hlocal). destruct cs as [|r cs].
  { apply nil_length_inv.
    exact (len_chunk_out opts cols header [] (Forall_nil_2 _)). }
  assert (length kinds = length cols) as Hk.
  { unfold cols. rewrite names_length, <-(Forall_inv Hlen).
    symmetry. apply (Forall2_length _ _ _ (Forall_inv Hkinds)). }
  rewrite (typed_frame_homogeneous header kinds) by
    (done || by rewrite Hk; apply names_length).
  unfold chunk_out.
  assert ((if standardize_columns opts
           then {| columns := cols; dtypes := dtypes (row_frame header kinds (r :: cs));
                   rows := rows (row_frame header kinds (r :: cs)) |}
           else row_frame header kinds (r :: cs))
          = row_frame cols kinds (r :: cs)) as ->.
  { unfold cols, names. by destruct (standardize_columns opts). }
  by rewrite (apply_options_row_frame cols kinds).
Qed.

(** The text of the chunks is the text of their rows, joined. *)
Lemma text_of_chunks css :
  Forall chunk_ok css →
  text_of opts cols (typed_frame header <$> css) = row_lines (out_rows opts (mjoin css)).
Proof.
  induction 1 as [|cs css Hcs _ IH]; [done|]. csimpl.
  rewrite out_rows_app, row_lines_app, <-IH, <-chunk_out_rows by done.
  done.
Qed.

End chunks.

(** ** The task, row by row *)

(** The task as a function of the rows of fields: the result, the output
    file and the progress record. *)
Definition row_wise (fs : filesystem) (r : redis) (file_path : string)
    (opts : options) (header : list string) (data : list (list string))
    : transform_result * filesystem * redis :=
  let rs := out_rows opts data in
  (Success (output_path file_path) (length rs) None (names opts header),
   <[output_path file_path := csv_line (names opts header) +:+ row_lines rs]> fs,
   setex r ("progress:" +:+ file_path) 300 (length rs)).

Lemma streaming_row_wise chunk_size fs r file_path opts header kinds data :
  reads_fields fs file_path header data → 0 < chunk_size →
  remove_duplicates opts = false → NoDup (names opts header) →
  homogeneous kinds data → row_local opts data →
  preprocess_with chunk_size fs r file_path opts
  = row_wise fs r file_path opts header data.
Proof.
  intros Hreads Hsize Hdup Hnd Hkinds Hlocal.
  pose proof (reads_fields_lengths _ _ _ _ Hreads) as Hlen.
  rewrite (preprocess_with_stream _ _ _ _ header data) by done. simpl.
  unfold row_wise. rewrite rows_of_typed_chunks by done.
  unfold out_rows at 1 3. rewrite length_fmap. do 3 f_equal.
  assert (Forall (chunk_ok opts header kinds) (field_chunks chunk_size data))
    as Hok by (unfold field_chunks; destruct data;
               [by constructor|by apply chunk_ok_chunks]).
  unfold typed_chunks. rewrite (text_of_chunks opts header kinds) by done.
  by rewrite field_chunks_join.
Qed.

(** ** The two modes *)

(** The options of the same run in the mode of [remove_duplicates]. *)
Definition whole_dataset (opts : options) : options :=
  {| handle_missing := handle_missing opts;
     trim_whitespace := trim_whitespace opts;
     convert_types := convert_types opts;
     standardize_columns := standardize_columns opts;
     remove_duplicates := true |}.

Lemma apply_preprocessing_options_whole df opts :
  apply_preprocessing_options df (whole_dataset opts)
  = apply_preprocessing_options df opts.
Proof. done. Qed.

(** On a table without repeated rows the mode of [remove_duplicates]
    writes the file of the streaming mode, when the names are not
    standardized. *)
Lemma modes_write_same_file chunk_size fs r file_path opts header kinds data :
  reads_fields fs file_path header data → 0 < chunk_size →
  remove_duplicates opts = false → standardize_columns opts = false →
  NoDup header → homogeneous kinds data → row_local opts data →
  NoDup (fmap (M := list) typed_cell <$> data) →
  (preprocess_with chunk_size fs r file_path (whole_dataset opts)).1.2
  = (preprocess_with chunk_size fs r file_path opts).1.2.
Proof.
  intros Hreads Hsize Hdup Hstd Hnd Hkinds Hlocal Hrows.
  assert (names opts header = header) as Hnames by (unfold names; by rewrite Hstd).
  rewrite (streaming_row_wise chunk_size fs r file_path opts header kinds data);
    [|try done..]; [|by rewrite Hnames].
  rewrite (preprocess_with_duplicates _ _ _ _ header data) by done.
  unfold row_wise, to_csv. cbn [fst snd]. rewrite Hnames.
  destruct (apply_preprocessing_options_shape (distinct_rows header data)
              (whole_dataset opts)) as [-> _].
  do 2 f_equal. change (rows_text ?df) with (row_lines (rows df)). f_equal.
  rewrite apply_preprocessing_options_whole. unfold distinct_rows, whole_frame.
  destruct data as [|row data].
  { apply nil_length_inv. change (length (rows ?df)) with (len df).
    rewrite apply_preprocessing_options_len. unfold kept. by case_decide. }
  assert (length kinds = length header) as Hk.
  { pose proof (Forall_inv (reads_fields_lengths _ _ _ _ Hreads)) as <-.
    symmetry. apply (Forall2_length _ _ _ (Forall_inv Hkinds)). }
  rewrite (typed_frame_homogeneous header kinds) by done.
  cbn [rows row_frame]. rewrite unique_NoDup by done.
  change (with_rows _ _) with (row_frame header kinds (row :: data)).
  by rewrite (apply_options_row_frame header kinds).
Qed.

(** ** Examples *)

(** Two columns of text, one of integers and one of floats with a
    missing cell. *)
Definition staff_text : string :=
  "Name,Home Town,Age,Score" +:+ nl +:+ " ann ,Oslo,31,1.5" +:+ nl
  +:+ "bob, Rome ,27," +:+ nl +:+ "cy,Bern,45,2.25" +:+ nl
  +:+ "dee,Oslo,38,0.5" +:+ nl.

Definition staff_fs : filesystem := {[ "staff.csv" := staff_text ]}.

Definition staff_header : list string := ["Name"; "Home Town"; "Age"; "Score"].

Definition staff_data : list (list string) :=
  [[" ann "; "Oslo"; "31"; "1.5"]; ["bob"; " Rome "; "27"; ""];
   ["cy"; "Bern"; "45"; "2.25"]; ["dee"; "Oslo"; "38"; "0.5"]].

Definition staff_kinds : list dtype := [Object; Object; Int64; Float64].

(** The options of a run that drops, trims and renames. *)
Definition staff_options : options :=
  {| handle_missing := "drop"; trim_whitespace := true;
     convert_types := false; standardize_columns := true;
     remove_duplicates := false |}.

Lemma staff_reads : reads_fields staff_fs "staff.csv" staff_header staff_data.
Proof. eexists. split; vm_compute; reflexivity. Qed.

Lemma staff_output :
  row_wise staff_fs ∅ "staff.csv" staff_options staff_header staff_data
  = (Success "staff_processed.csv" 3 None ["name"; "home_town"; "age"; "score"],
     <["staff_processed.csv" :=
         "name,home_town,age,score" +:+ nl +:+ "ann,Oslo,31,1.5" +:+ nl
         +:+ "cy,Bern,45,2.25" +:+ nl +:+ "dee,Oslo,38,0.5" +:+ nl]> staff_fs,
     setex ∅ "progress:staff.csv" 300 3).
Proof. by vm_compute. Qed.

(** C11: on a homogeneous table (every column holds fields of one kind:
    integers, floats and NA markers, truth values, or text) and for
    options that work row by row ([convert_types] not together with
    [trim_whitespace], and with no text that reads [nan]; [fill_mean],
    [fill_median] and [fill_mode] only when no field is an NA marker),
    the streaming task is the function [row_wise] of the rows of the
    file: its result, its output file and its progress record do not
    depend on the size of the chunks. *)
Theorem transform_chunk_size_independent chunk_size chunk_size' fs r file_path
    opts header kinds data :
  reads_fields fs file_path header data → 0 < chunk_size → 0 < chunk_size' →
  remove_duplicates opts = false → NoDup (names opts header) →
  homogeneous kinds data → row_local opts data →
  preprocess_with chunk_size fs r file_path opts
  = row_wise fs r file_path opts header data ∧
  preprocess_with chunk_size' fs r file_path opts
  = preprocess_with chunk_size fs r file_path opts.
Proof.
  intros. by rewrite !(streaming_row_wise _ _ _ _ _ header kinds data).
Qed.

Lemma transform_chunk_size_independent_witness :
  preprocess_with 1 staff_fs ∅ "staff.csv" staff_options
  = row_wise staff_fs ∅ "staff.csv" staff_options staff_header staff_data ∧
  preprocess_with 3 staff_fs ∅ "staff.csv" staff_options
  = preprocess_with 1 staff_fs ∅ "staff.csv" staff_options.
Proof.
  apply (transform_chunk_size_independent 1 3 staff_fs ∅ "staff.csv"
           staff_options staff_header staff_kinds staff_data);
    [apply staff_reads|lia|lia|done|..]; apply (bool_decide_unpack _); by vm_compute.
Defined.

(** The options of a run that fills and converts. *)
Definition convert_options : options :=
  {| handle_missing := "fill_mode"; trim_whitespace := false;
     convert_types := true; standardize_columns := false;
     remove_duplicates := false |}.

(** The rows of the staff that have a score. *)
Definition scored_fs : filesystem :=
  {[ "scored.csv" := "Name,Age,Score" +:+ nl +:+ "ann,31,1.5" +:+ nl
                     +:+ "cy,45,2.25" +:+ nl +:+ "dee,38,0.5" +:+ nl ]}.

Lemma convert_output chunk_size :
  0 < chunk_size →
  (preprocess_with chunk_size scored_fs ∅ "scored.csv" convert_options).1.2
    !! "scored_processed.csv"
  = scored_fs !! "scored.csv".
Proof.
  intros Hsize.
  rewrite (streaming_row_wise _ _ _ _ _ ["Name"; "Age"; "Score"]
             [Object; Int64; Float64]
             [["ann"; "31"; "1.5"]; ["cy"; "45"; "2.25"]; ["dee"; "38"; "0.5"]]);
    [by vm_compute| |done..| | |].
  - eexists. split; vm_compute; reflexivity.
  - apply (bool_decide_unpack _). by vm_compute.
  - apply (bool_decide_unpack _). by vm_compute.
  - apply (bool_decide_unpack _). by vm_compute.
Qed.

(** A column of text that is trimmed and then converted is converted
    chunk by chunk: beside a text the field [ 7.50 ] is trimmed, alone
    in its chunk it becomes the number 7.5. *)
Definition padded_codes_fs : filesystem :=
  {[ "codes.csv" := "code" +:+ nl +:+ " 7.50 " +:+ nl +:+ "x" +:+ nl ]}.

Definition trim_convert_options : options :=
  {| handle_missing := "none"; trim_whitespace := true;
     convert_types := true; standardize_columns := false;
     remove_duplicates := false |}.

Lemma trim_convert_depends_on_chunks :
  (preprocess_with 1 padded_codes_fs ∅ "codes.csv" trim_convert_options).1.2
    !! "codes_processed.csv"
  = Some ("code" +:+ nl +:+ "7.5" +:+ nl +:+ "x" +:+ nl) ∧
  (preprocess_with 2 padded_codes_fs ∅ "codes.csv" trim_convert_options).1.2
    !! "codes_processed.csv"
  = Some ("code" +:+ nl +:+ "7.50" +:+ nl +:+ "x" +:+ nl).
Proof. split; by vm_compute. Qed.

(** A column that is not of one kind is read chunk by chunk: the field
    [01] is the integer 1 in a chunk of its own and a text beside a text.
    With no option set the task rewrites it, or not, with the size of the
    chunks. *)
Definition codes_fs : filesystem :=
  {[ "codes.csv" := "code" +:+ nl +:+ "01" +:+ nl +:+ "x" +:+ nl ]}.

Lemma untouched_output_depends_on_chunks :
  (preprocess_with 1 codes_fs ∅ "codes.csv" no_options).1.2 !! "codes_processed.csv"
  = Some ("code" +:+ nl +:+ "1" +:+ nl +:+ "x" +:+ nl) ∧
  (preprocess_with 2 codes_fs ∅ "codes.csv" no_options).1.2 !! "codes_processed.csv"
  = Some ("code" +:+ nl +:+ "01" +:+ nl +:+ "x" +:+ nl).
Proof. split; by vm_compute. Qed.
