(* ===== verification/Pipeline.v ===== *)
(** * Pipeline: the analyzer reads what the Transform Engine writes

    The Transform Engine writes its output with [DataFrame.to_csv] and
    the Quality Analyzer reads a file with [pd.read_csv(dtype=str)].
    This file composes the two through the reader.

    [clean] is the discipline of the cells that are written without
    quotes: a cell of the type of its column whose text holds neither
    comma nor line feed.  The cells of a file that reads whole are
    clean ([reads_fields_clean], [typed_frame_clean]), and
    [apply_preprocessing_options] keeps the discipline
    ([clean_discipline]), so the output of the streaming mode is a
    [printable] frame ([output_printable]) and reads back as the table
    of the texts of its cells ([output_reads_whole]).  The claim
    [transform_output_analysed] follows: the analysis of the output
    succeeds and counts the rows the task reports. *)

From Stdlib Require Import QArith Qcanon.
From S2P Require Import Prelude Strings Numbers Value Frame Reader.
From S2P Require Import Analyzer AnalyzerSpec Transform Typing TransformSpec.

(** ** Clean cells *)

(** A field of a file: a text without comma and line feed. *)
Definition clean_field (s : string) : Prop := free_of COMMA s ∧ free_of NEWLINE s.

(** A cell of the type of its column that is written without quotes. *)
Definition clean (v : py_value) (dt : dtype) : Prop := v ▹ dt ∧ clean_cell v.

Section clean.
Implicit Types (v : py_value) (dt : dtype) (s : series) (c : string).

Lemma series_by_clean dt s :
  series_by clean dt s ↔ series_of dt s ∧ Forall clean_cell s.
Proof. apply Forall_and. Qed.

(** The cells of a column of numbers or of truth values are clean. *)
Lemma has_dtype_clean v dt : v ▹ dt → dt ≠ Object → clean_cell v.
Proof.
  destruct 1 as [z|q| |[]| |]; intros Hdt; try done;
    split; simpl; auto using int_text_free, float_text_free.
Qed.

Lemma series_of_clean dt s : series_of dt s → dt ≠ Object → series_by clean dt s.
Proof.
  intros Hs Hdt. unfold series_by. eapply Forall_impl; [exact Hs|]. intros v Hv.
  split; [done|by apply (has_dtype_clean v dt)].
Qed.

Lemma clean_cell_parse_cell c : clean_field c → clean_cell (parse_cell c).
Proof. intros Hc. unfold parse_cell. by case_decide. Qed.

Lemma clean_cell_strip v : v ▹ Object → clean_cell v → clean_cell (PyStr (strip (str_of v))).
Proof.
  inversion 1; intros [??]; [|by vm_compute].
  split; by apply free_of_strip.
Qed.

Lemma to_numeric_clean dt s new :
  to_numeric dt s = Ok new → series_by clean dt s → series_by clean new.1 new.2.
Proof.
  intros Hnew Hs. pose proof Hs as [Hty _]%series_by_clean.
  pose proof (to_numeric_series_of _ _ _ Hnew Hty) as Hnum.
  destruct (decide (new.1 = Object)) as [Hobj|]; [|by apply series_of_clean].
  revert Hnew Hobj. unfold to_numeric. destruct dt; try by intros [= <-].
  destruct (mapM numeric_cell s) as [[|c cells]|]; [by intros [= <-]| |done].
  by destruct (mapM _ (c :: cells)); intros [= <-].
Qed.

End clean.

(** The clean cells are a discipline. *)
#[global] Instance clean_discipline : Discipline clean.
Proof.
  split.
  - intros dt s Hdt [Hs _]%series_by_clean.
    apply series_of_clean; [by apply discipline_mean|by destruct dt].
  - intros dt s Hdt [Hs _]%series_by_clean.
    apply series_of_clean; [by apply discipline_median|by destruct dt].
  - intros s Hs. unfold series_by. apply Forall_fmap.
    eapply Forall_impl; [exact Hs|].
    intros v [Hv Hc]. split; [constructor|by apply clean_cell_strip].
  - apply to_numeric_clean.
Qed.

(** ** The cells of a file are clean *)

Section read.
Implicit Types (fs : filesystem) (path : string) (header cells : list string).
Implicit Types (data : list (list string)).

Lemma split_row_clean ncols line fields :
  free_of NEWLINE line → split_row ncols line = Some fields →
  Forall clean_field fields.
Proof.
  unfold split_row. intros Hline. case_decide; intros [= <-].
  apply Forall_and. split; [apply split_on_free_sep|by apply split_on_free].
Qed.

Lemma lines_free text : Forall (free_of NEWLINE) (lines text).
Proof. apply Forall_filter, split_on_free_sep. Qed.

(** The names and the fields of a file that reads whole hold neither
    comma nor line feed. *)
Lemma reads_fields_clean fs path header data :
  reads_fields fs path header data →
  Forall clean_field header ∧ Forall (Forall clean_field) data.
Proof.
  intros (ls & Hopen & Hdata). unfold open_csv in Hopen.
  destruct (fs !! path) as [text|]; [|done].
  pose proof (lines_free text) as Hlines.
  destruct (lines text) as [|hd ls']; simplify_eq.
  apply Forall_cons in Hlines as [Hhd Hls]. split.
  - apply Forall_and. split; [apply split_on_free_sep|by apply split_on_free].
  - apply mapM_Some in Hdata. induction Hdata as [|l fields ls data Hl _ IH];
      [done|]. apply Forall_cons in Hls as [??].
    constructor; eauto using split_row_clean.
Qed.

(** The cells of a column of clean fields are clean. *)
Lemma infer_column_clean cells :
  Forall clean_field cells →
  series_by clean (infer_column cells).1 (infer_column cells).2.
Proof.
  intros Hcells. pose proof (infer_column_sound cells) as Hty.
  destruct (decide ((infer_column cells).1 = Object)) as [Hobj|];
    [|by apply series_of_clean].
  apply series_by_clean. split; [done|]. clear Hty. revert Hobj.
  unfold infer_column. case_decide; [done|].
  destruct (mapM parse_int cells); [done|].
  destruct (mapM float_cell cells); [done|].
  destruct (mapM bool_literal cells); [done|]. intros _.
  apply Forall_fmap. eapply Forall_impl; [done|]. apply clean_cell_parse_cell.
Qed.

Lemma typed_frame_clean header data :
  NoDup header → Forall (Forall clean_field) data →
  well_typed_by clean (typed_frame header data).
Proof.
  intros Hnd Hdata. split; [by apply typed_frame_wf|].
  apply typed_frame_by. intros j. apply infer_column_clean, Forall_fmap.
  eapply Forall_impl; [done|]. intros l Hl. simpl.
  destruct (l !! j) as [c|] eqn:Hc; [|done].
  by eapply Forall_lookup_1 in Hl.
Qed.

End read.

(** ** The output of the streaming mode *)

(** The rows the loop writes for the chunks, and the table they make
    under the names of the result. *)
Definition output_rows (opts : options) (cols : list string)
    (chunks : list frame) : list (list py_value) :=
  mjoin (rows ∘ chunk_out opts cols <$> chunks).

Definition output_frame (opts : options) (cols : list string)
    (chunks : list frame) : frame :=
  str_frame cols (output_rows opts cols chunks).

Section output.
Variables (opts : options) (header : list string).
Hypothesis names_NoDup : NoDup (names opts header).
Hypothesis header_clean : Forall clean_field header.
Hypothesis two_columns : 2 ≤ length header.
Implicit Types (chunks : list frame) (cs : list (list string)).

Let cols : list string := names opts header.

Lemma header_NoDup : NoDup header.
Proof.
  revert names_NoDup. unfold names.
  destruct (standardize_columns opts); [apply NoDup_fmap_1|done].
Qed.

Lemma standardize_clean c : clean_field c → clean_field (standardize c).
Proof.
  intros [??]. split; apply free_of_replace_char, free_of_lower, free_of_strip;
    auto.
Qed.

Lemma names_clean : Forall clean_field cols.
Proof.
  unfold cols, names. destruct (standardize_columns opts); [|done].
  apply Forall_fmap. eapply Forall_impl; [done|]. apply standardize_clean.
Qed.

(** A chunk of clean fields is written as a frame of clean cells under
    the names of the result. *)
Lemma chunk_out_clean cs :
  Forall (Forall clean_field) cs →
  well_typed_by clean (chunk_out opts cols (typed_frame header cs))
  ∧ columns (chunk_out opts cols (typed_frame header cs)) = cols.
Proof.
  intros Hcs. split; [|by apply chunk_out_columns].
  pose proof (typed_frame_clean header cs header_NoDup Hcs) as Hty.
  unfold chunk_out. apply apply_preprocessing_options_by.
  destruct (standardize_columns opts) eqn:Hstd; [|done].
  apply (set_columns_by clean (typed_frame header cs) cols); [done| |done].
  unfold set_columns. rewrite decide_True; [done|]. apply names_length.
Qed.

Lemma text_of_output chunks :
  text_of opts cols chunks = rows_text (output_frame opts cols chunks).
Proof.
  unfold text_of, output_frame, output_rows, rows_text. simpl.
  induction chunks as [|c chunks IH]; [done|]. csimpl.
  by rewrite row_lines_app, <-IH.
Qed.

Lemma clean_row (r : list py_value) (dts : list dtype) :
  Forall2 clean r dts → Forall clean_cell r.
Proof. induction 1 as [|v dt r dts [_ Hv] _ IH]; by constructor. Qed.

(** A row of two cells or more is not written as a blank line. *)
Lemma row_line_nonempty (r : list py_value) : length r = length cols → row_line r ≠ "".
Proof.
  intros Hr. apply join_with_nonempty.
  rewrite length_fmap, Hr. unfold cols. by rewrite names_length.
Qed.

(** The table the loop writes for chunks of clean fields is written one
    line per row. *)
Lemma output_printable (css : list (list (list string))) :
  Forall (Forall (Forall clean_field)) css →
  printable (output_frame opts cols (typed_frame header <$> css)).
Proof.
  intros Hcss. split; simpl.
  - exact names_clean.
  - apply join_with_nonempty. unfold cols. by rewrite names_length.
  - apply Forall_join, Forall_fmap, Forall_fmap. eapply Forall_impl; [done|].
    intros cs Hcs. simpl.
    destruct (chunk_out_clean cs Hcs) as [[(_ & _ & Hrows) Hty] Hcols].
    rewrite Hcols in Hrows. unfold typed_by in Hty.
    rewrite Forall_forall in Hrows, Hty. apply Forall_forall. intros r Hr.
    split_and!; eauto using clean_row, row_line_nonempty.
Qed.

End output.

(** ** The analysis of the output *)

Section pipeline.
Variables (fs : filesystem) (r : redis) (file_path : string) (opts : options).
Variables (header : list string) (data : list (list string)).
Variables (chunk_size : nat).
Hypothesis reads : reads_fields fs file_path header data.
Hypothesis chunk_size_pos : 0 < chunk_size.
Hypothesis streaming : remove_duplicates opts = false.
Hypothesis names_NoDup : NoDup (names opts header).
Hypothesis two_columns : 2 ≤ length header.

(** The table the task writes, as the analyzer reads it. *)
Definition output_table : frame :=
  str_frame (names opts header)
    (fmap (M := list) as_text
       <$> output_rows opts (names opts header)
             (typed_chunks chunk_size header data)).

(** The output file of the task reads whole, as the table of the texts
    of the cells the loop wrote. *)
Lemma output_reads_whole :
  reads_whole (preprocess_with chunk_size fs r file_path opts).1.2
    (output_path file_path) output_table.
Proof.
  rewrite (preprocess_with_stream _ _ _ _ header data) by done. simpl.
  split; [|done]. destruct (reads_fields_clean _ _ _ _ reads) as [Hheader Hdata].
  rewrite text_of_output.
  apply (to_csv_read_back fs (output_path file_path)
           (output_frame opts (names opts header)
              (typed_chunks chunk_size header data))).
  apply output_printable; [done..|].
  unfold field_chunks. destruct data; [by repeat constructor|].
  by apply chunks_Forall.
Qed.

Lemma output_table_rows :
  Spec.total_rows output_table
  = length (filter (keeps (handle_missing opts)) data).
Proof.
  unfold Spec.total_rows, output_table, output_rows. simpl.
  rewrite length_fmap, length_join, <-list_fmap_compose.
  rewrite <-(rows_of_typed_chunks opts (names opts header) header chunk_size)
    by eauto using reads_fields_lengths.
  by unfold rows_of.
Qed.

End pipeline.

(** ** Example *)

(** The options of a run that drops, trims, converts and renames. *)
Definition clean_options : options :=
  {| handle_missing := "drop"; trim_whitespace := true;
     convert_types := true; standardize_columns := true;
     remove_duplicates := false |}.

(** C20: the Quality Analyzer reads what the Transform Engine writes.  For
    a file of two columns or more that reads whole and whose result has
    distinct column names, the streaming task succeeds; its output file
    reads back, with [dtype=str], as the table of the texts of the cells
    the loop wrote under the names of the result; and the analysis of
    the output succeeds for every chunk size, with a report that counts
    the rows the task reports ([rows_processed], the rows
    [handle_missing] keeps) and the columns of the header.  The output
    has as many rows as the input when no field of the file is an NA
    marker, or when [handle_missing] is not [drop]. *)
Theorem transform_output_analysed chunk_size n fs r file_path opts header data
    sample_size :
  reads_fields fs file_path header data → 0 < chunk_size → 0 < n →
  remove_duplicates opts = false → NoDup (names opts header) →
  2 ≤ length header →
  ∃ report,
    read_csv (preprocess_with chunk_size fs r file_path opts).1.2
      (output_path file_path) None false
    = Ok (output_table opts header data chunk_size) ∧
    analyze_with n (preprocess_with chunk_size fs r file_path opts).1.2
      (output_path file_path) sample_size = Ok report ∧
    (preprocess_with chunk_size fs r file_path opts).1.1
    = Success (output_path file_path) (qr_total_rows report) None
        (names opts header) ∧
    qr_total_rows report = length (filter (keeps (handle_missing opts)) data) ∧
    qr_total_columns report = length header ∧
    (handle_missing opts ≠ "drop"
     ∨ Forall (λ fields, complete fields = true) data →
     qr_total_rows report = length data).
Proof.
  intros Hreads Hsize Hn Hdup Hnd Htwo.
  pose proof (output_reads_whole fs r file_path opts header data chunk_size
                Hreads Hdup Hnd Htwo) as Hwhole.
  destruct (analyze_with_report n _ _ sample_size _ Hn Hwhole) as (size & _ & ->).
  eexists. split_and!; [apply Hwhole|done|..]; cbn [qr_total_rows qr_total_columns];
    rewrite ?(output_table_rows fs file_path opts header data chunk_size Hreads Hsize);
    [|done|apply names_length|intros; by rewrite filter_keeps_all].
  rewrite (preprocess_with_stream _ _ _ _ header data) by done. simpl.
  by rewrite rows_of_typed_chunks by eauto using reads_fields_lengths.
Qed.

Lemma transform_output_analysed_witness :
  ∃ report,
    read_csv (preprocess_with 2 people_fs ∅ "people.csv" clean_options).1.2
      (output_path "people.csv") None false
    = Ok (output_table clean_options people_header people_data 2) ∧
    analyze_with 2 (preprocess_with 2 people_fs ∅ "people.csv" clean_options).1.2
      (output_path "people.csv") 10 = Ok report ∧
    (preprocess_with 2 people_fs ∅ "people.csv" clean_options).1.1
    = Success (output_path "people.csv") (qr_total_rows report) None
        (names clean_options people_header) ∧
    qr_total_rows report
    = length (filter (keeps (handle_missing clean_options)) people_data) ∧
    qr_total_columns report = length people_header ∧
    (handle_missing clean_options ≠ "drop"
     ∨ Forall (λ fields, complete fields = true) people_data →
     qr_total_rows report = length people_data).
Proof.
  apply (transform_output_analysed 2 2 people_fs ∅ "people.csv" clean_options
           people_header people_data 10);
    [apply people_reads|lia|lia|done| |simpl; lia].
  apply (bool_decide_unpack _). by vm_compute.
Defined.

(** ** The mode of [remove_duplicates] *)

Definition drop_distinct_options : options :=
  {| handle_missing := "drop"; trim_whitespace := false;
     convert_types := false; standardize_columns := false;
     remove_duplicates := true |}.

(** In the mode of [remove_duplicates] the rows are counted before
    [handle_missing] drops any: the task reports four rows of a file
    whose output the analysis finds to have two. *)
Lemma duplicates_rows_processed_overcounts :
  (preprocess_with 2 people_fs ∅ "people.csv" drop_distinct_options).1.1
  = Success "people_processed.csv" 4 (Some 1) people_header
  ∧ ∃ report,
      analyze_with 2
        (preprocess_with 2 people_fs ∅ "people.csv" drop_distinct_options).1.2
        "people_processed.csv" 10 = Ok report
      ∧ qr_total_rows report = 2.
Proof. split; [by vm_compute|]. eexists. split; [by vm_compute|done]. Qed.
