(* ===== verification/Auth.v ===== *)
(** * Auth: the account handlers

    src/server/controllers/user_controller.py, whole: the validators of
    e-mail addresses and passwords, the decorator [token_required] and
    the handlers [register], [login], [logout], [refresh_token],
    [get_profile], [update_profile] and [change_password]; with them
    [BlacklistedToken.cleanup_expired] (src/server/models/token_model.py)
    and the decorator of the same name of csv_controller.py (module
    [Csv]).

    The database is a record of the two tables; a handler is a function
    from the environment of the request (the clock, the secret, a salt),
    the database and the request to a response and the database after the
    request.  A session that is not committed leaves the database as it
    was.  PyJWT and werkzeug's password hashing are interfaces ([Jwt],
    [PasswordHash]) that state what the handlers rely on; the request body
    is a JSON object of strings, and a timestamp is a number of seconds. *)

From Stdlib Require Import QArith Qcanon.
From stdpp Require Import pretty.
From S2P Require Import Prelude Strings Regex.

(** ** Validators *)

Definition is_alpha (c : ascii) : bool := is_lower c || is_upper c.
Definition is_alnum (c : ascii) : bool := is_alpha c || is_digit c.

Definition one_of (cs : string) (c : ascii) : bool :=
  string_exists (λ x, bool_decide (x = c)) cs.

(** [[a-zA-Z0-9._%+-]] and [[a-zA-Z0-9.-]] *)
Definition local_char (c : ascii) : bool := is_alnum c || one_of "._%+-" c.
Definition domain_char (c : ascii) : bool := is_alnum c || one_of ".-" c.

(** [[a-zA-Z0-9._%+-]+@[a-zA-Z0-9.-]+\.[a-zA-Z]{2,}] *)
Definition email_pattern : regex :=
  Cat (Plus (Class local_char))
    (Cat (Chr "@")
       (Cat (Plus (Class domain_char))
          (Cat (Chr ".") (Cat (Class is_alpha) (Plus (Class is_alpha)))))).

(** [re.match('^...$', email) is not None]: [$] matches at the end of the
    string and before a line feed that ends it. *)
Definition validate_email (email : string) : bool :=
  matches (Cat email_pattern (Opt (Chr NEWLINE))) email.

Definition validate_password (password : string) : bool * string :=
  if decide (String.length password < 8) then
    (false, "Password must be at least 8 characters long")
  else if negb (string_exists is_upper password) then
    (false, "Password must contain at least one uppercase letter")
  else if negb (string_exists is_lower password) then
    (false, "Password must contain at least one lowercase letter")
  else if negb (string_exists is_digit password) then
    (false, "Password must contain at least one digit")
  else (true, "").

(** ** The database *)

Record User : Type := Build_User {
  user_id : nat;
  user_email : string;
  user_username : string;
  user_password : string;
  user_created_at : Z;
  user_last_login : option Z;
}.

Record BlacklistedToken : Type := Build_BlacklistedToken {
  bt_id : nat;
  bt_token : string;
  bt_blacklisted_on : Z;
  bt_expires_at : Z;
}.

Record database : Type := Database {
  users : list User;
  blacklisted_tokens : list BlacklistedToken;
}.

#[global] Instance User_eq_dec : EqDecision User.
Proof. solve_decision. Defined.
#[global] Instance BlacklistedToken_eq_dec : EqDecision BlacklistedToken.
Proof. solve_decision. Defined.
#[global] Instance database_eq_dec : EqDecision database.
Proof. solve_decision. Defined.

(** The assignments to the attributes of a row. *)
Definition set_username (u : User) (username : string) : User :=
  {| user_id := user_id u; user_email := user_email u;
     user_username := username; user_password := user_password u;
     user_created_at := user_created_at u;
     user_last_login := user_last_login u |}.

Definition set_email (u : User) (email : string) : User :=
  {| user_id := user_id u; user_email := email;
     user_username := user_username u; user_password := user_password u;
     user_created_at := user_created_at u;
     user_last_login := user_last_login u |}.

Definition set_password (u : User) (password : string) : User :=
  {| user_id := user_id u; user_email := user_email u;
     user_username := user_username u; user_password := password;
     user_created_at := user_created_at u;
     user_last_login := user_last_login u |}.

Definition set_last_login (u : User) (now : Z) : User :=
  {| user_id := user_id u; user_email := user_email u;
     user_username := user_username u; user_password := user_password u;
     user_created_at := user_created_at u; user_last_login := Some now |}.

(** [query.filter(P).first()] *)
Definition first_by {A} (P : A → Prop) `{∀ x, Decision (P x)} (l : list A)
    : option A :=
  snd <$> list_find P l.

(** [User.query.get(id)] *)
Definition get_user (db : database) (id : nat) : option User :=
  first_by (λ u, user_id u = id) (users db).

(** The key the database gives a new row. *)
Definition next_id (db : database) : nat :=
  S (max_list (user_id <$> users db)).

Definition next_token_id (db : database) : nat :=
  S (max_list (bt_id <$> blacklisted_tokens db)).

(** [db.session.add(new_user); db.session.commit()] *)
Definition add_user (db : database) (u : User) : database :=
  {| users := users db ++ [u]; blacklisted_tokens := blacklisted_tokens db |}.

(** The commit of a change to the row of [u]. *)
Definition update_user (db : database) (u : User) : database :=
  {| users := (λ v, if decide (user_id v = user_id u) then u else v) <$> users db;
     blacklisted_tokens := blacklisted_tokens db |}.

Definition add_blacklisted (db : database) (t : BlacklistedToken) : database :=
  {| users := users db; blacklisted_tokens := blacklisted_tokens db ++ [t] |}.

(** [BlacklistedToken.__repr__] *)
Definition repr (t : BlacklistedToken) : string :=
  "<BlacklistedToken " +:+ pretty (bt_id t) +:+ ">".

(** [BlacklistedToken.cleanup_expired()] at time [now]. *)
Definition cleanup_expired (now : Z) (db : database) : database :=
  {| users := users db;
     blacklisted_tokens :=
       filter (λ t, ¬ (bt_expires_at t < now)%Z) (blacklisted_tokens db) |}.

(** ** Tokens and password hashes *)

(** The claims the handlers put in a token. *)
Record payload : Type := Payload {
  p_user_id : nat;
  p_email : string;
  p_exp : Z;
  p_iat : Z;
}.

#[global] Instance payload_eq_dec : EqDecision payload.
Proof. solve_decision. Defined.

(** What the handlers rely on of HS256 tokens: a token reads back as the
    claims and the key it was signed with, is not empty and has no
    space. *)
Class Jwt : Type := {
  jwt_sign : payload → string → string;
  jwt_read : string → option (payload * string);
  jwt_read_sign p key : jwt_read (jwt_sign p key) = Some (p, key);
  jwt_read_empty : jwt_read "" = None;
  jwt_sign_no_space p key :
    string_exists (λ c, bool_decide (c = SPACE)) (jwt_sign p key) = false;
}.

(** What the handlers rely on of salted password hashes: the hash of a
    password checks against this password and no other. *)
Class PasswordHash : Type := {
  generate_password_hash : string → string → string;
  check_password_hash : string → string → bool;
  check_generate salt pw pw' :
    check_password_hash (generate_password_hash salt pw) pw' = true ↔ pw' = pw;
}.

(** The environment of a request: the clock ([datetime.utcnow()], in
    seconds), the offset of local time from UTC, the variable
    [SECRET_KEY] of the process and the salt of the next hash. *)
Record environment : Type := Environment {
  utcnow : Z;
  utc_offset : Z;
  getenv_SECRET_KEY : option string;
  salt : string;
}.

Definition TOKEN_EXPIRY_HOURS : Z := 24.

(** ** Requests and responses *)

(** A JSON value of a response.  A float is the rational [JReal q], the
    square root [JRoot q] of a rational (a standard deviation) or
    [JNaN]. *)
#[local] Set Warnings "-register-all".
Inductive jsonv : Type :=
  | JNone
  | JNum (z : Z)
  | JString (s : string)
  | JObject (fields : list (string * jsonv))
  | JBoolean (b : bool)
  | JReal (q : Qc)
  | JRoot (q : Qc)
  | JNaN
  | JArray (items : list jsonv).

Record request : Type := Request {
  Authorization : option string;
  get_json : gmap string string;
}.

Record response : Type := Response {
  body : jsonv;
  status : nat;
}.

(** [jsonify({...}), status] *)
Definition jsonify (fields : list (string * jsonv)) (code : nat) : response :=
  {| body := JObject fields; status := code |}.

Definition error (msg : string) (code : nat) : response :=
  jsonify [("error", JString msg)] code.

(** The field [name] of a JSON object. *)
Definition field (name : string) (j : jsonv) : option jsonv :=
  match j with
  | JObject fields => snd <$> first_by (λ kv, kv.1 = name) fields
  | _ => None
  end.

(** [data.get(key, '')] *)
Definition get (data : gmap string string) (key : string) : string :=
  default "" (data !! key).

(** [{'id': user.id, 'email': user.email, 'username': user.username}] *)
Definition user_json (u : User) : jsonv :=
  JObject [("id", JNum (Z.of_nat (user_id u)));
           ("email", JString (user_email u));
           ("username", JString (user_username u))].

Section handlers.
Context `{Jwt, PasswordHash}.
Implicit Types (env : environment) (db : database) (req : request).

(** [jwt.encode(payload, key, algorithm='HS256')]; a key that is [None]
    is a [TypeError]. *)
Definition jwt_encode (p : payload) (key : option string) : result string :=
  match key with
  | None => Raise (TypeError "Expected a string value")
  | Some k => Ok (jwt_sign p k)
  end.

(** [jwt.decode(token, key, algorithms=['HS256'])] at time [now]: the
    signature is verified, then the claims: a token issued after [now]
    is an [ImmatureSignatureError], which is an [InvalidTokenError]
    (PyJWT from 2.6 on; the check never fires while the clock does not
    go back), and a token whose expiry is not after [now] is an
    [ExpiredSignatureError]. *)
Definition jwt_decode (now : Z) (token : string) (key : option string)
    : result payload :=
  match key with
  | None => Raise (TypeError "Expected a string value")
  | Some k =>
      match jwt_read token with
      | None => Raise (InvalidTokenError "Not enough segments")
      | Some (p, k') =>
          if decide (k' = k) then
            if decide (now < p_iat p)%Z
            then Raise (InvalidTokenError "The token is not yet valid (iat)")
            else if decide (p_exp p ≤ now)%Z then Raise ExpiredSignatureError
            else Ok p
          else Raise (InvalidTokenError "Signature verification failed")
      end
  end.

(** [token.split(" ")[1]] *)
Definition bearer (token : string) : result string :=
  match split_on SPACE token !! 1 with
  | Some t => Ok t
  | None => Raise (IndexError "list index out of range")
  end.

(** The token of the header, the prefix ['Bearer '] removed if present. *)
Definition header_token (token : string) : result string :=
  if startswith token "Bearer " then bearer token else Ok token.

(** The [try] block of [token_required]: the user of the request, or the
    response of an early [return]. *)
Definition current_user env db (token : string) : result (response + User) :=
  token ← header_token token;
  let blacklisted := first_by (λ t, bt_token t = token) (blacklisted_tokens db) in
  if blacklisted is Some _ then Ok (inl (error "Token has been revoked" 401))
  else
    data ← jwt_decode (utcnow env) token (getenv_SECRET_KEY env);
    match get_user db (p_user_id data) with
    | None => Ok (inl (error "User not found" 401))
    | Some current_user => Ok (inr current_user)
    end.

(** The decorator: [f] is called with [request.current_user] when the
    request is authenticated. *)
Definition token_required (f : User → response * database) env db req
    : response * database :=
  match Authorization req with
  | None | Some EmptyString => (error "Token is missing" 401, db)
  | Some token =>
      match current_user env db token with
      | Ok (inr current_user) => f current_user
      | Ok (inl resp) => (resp, db)
      | Raise ExpiredSignatureError => (error "Token has expired" 401, db)
      | Raise (InvalidTokenError _) => (error "Invalid token" 401, db)
      | Raise e => (error ("Authentication failed: " +:+ exn_str e) 401, db)
      end
  end.

(** The claims of a token issued at [utcnow]. *)
Definition token_payload env (u : User) : payload :=
  {| p_user_id := user_id u;
     p_email := user_email u;
     p_exp := utcnow env + TOKEN_EXPIRY_HOURS * 3600;
     p_iat := utcnow env |}.

Definition register env db req : response * database :=
  let data := get_json req in
  let email := strip (get data "email") in
  let password := get data "password" in
  let username := strip (get data "username") in
  if decide (email = "" ∨ password = "" ∨ username = "") then
    (error "Email, username, and password are required" 400, db)
  else if negb (validate_email email) then
    (error "Invalid email format" 400, db)
  else
    let '(is_valid, error_msg) := validate_password password in
    if negb is_valid then (error error_msg 400, db)
    else if first_by (λ u, user_email u = email) (users db) is Some _ then
      (error "Email already registered" 409, db)
    else if first_by (λ u, user_username u = username) (users db) is Some _ then
      (error "Username already taken" 409, db)
    else
      let hashed_password := generate_password_hash (salt env) password in
      let new_user :=
        {| user_id := next_id db; user_email := email;
           user_username := username; user_password := hashed_password;
           user_created_at := utcnow env; user_last_login := None |} in
      (jsonify [("message", JString "User registered successfully");
                ("user", user_json new_user)] 201,
       add_user db new_user).

Definition login env db req : response * database :=
  let data := get_json req in
  let email := strip (get data "email") in
  let password := get data "password" in
  if decide (email = "" ∨ password = "") then
    (error "Email and password are required" 400, db)
  else
    match first_by (λ u, user_email u = email) (users db) with
    | None => (error "Invalid email or password" 401, db)
    | Some user =>
        if negb (check_password_hash (user_password user) password) then
          (error "Invalid email or password" 401, db)
        else
          let user := set_last_login user (utcnow env) in
          let db := update_user db user in
          match jwt_encode (token_payload env user) (getenv_SECRET_KEY env) with
          | Ok token =>
              (jsonify [("message", JString "Login successful");
                        ("token", JString token);
                        ("user", user_json user);
                        ("expires_in", JNum (TOKEN_EXPIRY_HOURS * 3600))] 200,
               db)
          | Raise e => (error ("Login failed: " +:+ exn_str e) 500, db)
          end
    end.

(** [db.session.add(blacklisted_token); db.session.commit()]: the column
    [token] is unique, so the commit of a token that is in the table
    raises. *)
Definition commit_blacklisted db (t : BlacklistedToken) : result database :=
  if first_by (λ t', bt_token t' = bt_token t) (blacklisted_tokens db) is Some _
  then Raise (Exception "UNIQUE constraint failed: blacklisted_tokens.token")
  else Ok (add_blacklisted db t).

(** The body of [logout]; the decorator has read the header before. *)
Definition logout_body env db req : response * database :=
  let token := default "" (Authorization req) in
  match (token ← header_token token;
         decoded ← jwt_decode (utcnow env) token (getenv_SECRET_KEY env);
         let exp_timestamp := p_exp decoded in
         commit_blacklisted db
           {| bt_id := next_token_id db; bt_token := token;
              bt_blacklisted_on := utcnow env;
              bt_expires_at := exp_timestamp + utc_offset env |}) with
  | Ok db' => (jsonify [("message", JString "Logout successful")] 200, db')
  | Raise e => (error ("Logout failed: " +:+ exn_str e) 500, db)
  end.

Definition logout env db req : response * database :=
  token_required (λ _, logout_body env db req) env db req.

Definition refresh_token env db req : response * database :=
  token_required (λ user,
    match jwt_encode (token_payload env user) (getenv_SECRET_KEY env) with
    | Ok new_token =>
        (jsonify [("message", JString "Token refreshed successfully");
                  ("token", JString new_token);
                  ("expires_in", JNum (TOKEN_EXPIRY_HOURS * 3600))] 200, db)
    | Raise e => (error ("Token refresh failed: " +:+ exn_str e) 500, db)
    end) env db req.

Definition get_profile env db req : response * database :=
  token_required (λ user,
    (jsonify [("user", JObject
        [("id", JNum (Z.of_nat (user_id user)));
         ("email", JString (user_email user));
         ("username", JString (user_username user));
         ("created_at", JNum (user_created_at user));
         ("last_login", from_option JNum JNone (user_last_login user))])] 200,
     db)) env db req.

(** The two steps of [update_profile]: each returns the changed row or
    the response of an early [return]. *)
Definition update_username db (data : gmap string string) (user : User)
    : response + User :=
  match data !! "username" with
  | None => inr user
  | Some username =>
      let username := strip username in
      if decide (username ≠ user_username user) then
        if first_by (λ u, user_username u = username) (users db) is Some _
        then inl (error "Username already taken" 409)
        else inr (set_username user username)
      else inr user
  end.

Definition update_email db (data : gmap string string) (user : User)
    : response + User :=
  match data !! "email" with
  | None => inr user
  | Some email =>
      let email := strip email in
      if negb (validate_email email) then inl (error "Invalid email format" 400)
      else if decide (email ≠ user_email user) then
        if first_by (λ u, user_email u = email) (users db) is Some _
        then inl (error "Email already registered" 409)
        else inr (set_email user email)
      else inr user
  end.

Definition update_profile env db req : response * database :=
  token_required (λ user,
    let data := get_json req in
    match update_username db data user with
    | inl resp => (resp, db)
    | inr user =>
        match update_email db data user with
        | inl resp => (resp, db)
        | inr user =>
            (jsonify [("message", JString "Profile updated successfully");
                      ("user", user_json user)] 200,
             update_user db user)
        end
    end) env db req.

Definition change_password env db req : response * database :=
  token_required (λ user,
    let data := get_json req in
    let current_password := get data "current_password" in
    let new_password := get data "new_password" in
    if decide (current_password = "" ∨ new_password = "") then
      (error "Current and new password are required" 400, db)
    else if negb (check_password_hash (user_password user) current_password) then
      (error "Current password is incorrect" 401, db)
    else
      let '(is_valid, error_msg) := validate_password new_password in
      if negb is_valid then (error error_msg 400, db)
      else
        let user :=
          set_password user (generate_password_hash (salt env) new_password) in
        (jsonify [("message", JString "Password changed successfully")] 200,
         update_user db user)) env db req.

End handlers.

(** ** Routes *)

(** The view functions of the blueprint [user_bp] and the health check. *)
Inductive endpoint : Type :=
  | register_ep
  | login_ep
  | logout_ep
  | refresh_token_ep
  | get_profile_ep
  | update_profile_ep
  | change_password_ep
  | health_check_ep.

#[global] Instance endpoint_eq_dec : EqDecision endpoint.
Proof. solve_decision. Defined.

(** The rules of the blueprint: method, path under the prefix, view. *)
Definition user_bp : list (string * string * endpoint) :=
  [("POST", "/register", register_ep);
   ("POST", "/login", login_ep);
   ("POST", "/logout", logout_ep);
   ("POST", "/refresh-token", refresh_token_ep);
   ("GET", "/profile", get_profile_ep);
   ("PUT", "/profile", update_profile_ep);
   ("POST", "/change-password", change_password_ep)].

(** [register_routes]: the rules of the application. *)
Definition register_routes : list (string * string * endpoint) :=
  (λ '(method, path, ep), (method, "/api/user" +:+ path, ep)) <$> user_bp
  ++ [("GET", "/api/health", health_check_ep)].

(** [db.create_all()] on a new database: the tables are empty. *)
Definition create_tables : database :=
  {| users := []; blacklisted_tokens := [] |}.

Section routes.
Context `{Jwt, PasswordHash}.

Definition health_check (db : database) : response * database :=
  (jsonify [("status", JString "healthy");
            ("message", JString "API is running")] 200, db).

(** The call of a view function. *)
Definition handle (ep : endpoint) (env : environment) (db : database)
    (req : request) : response * database :=
  match ep with
  | register_ep => register env db req
  | login_ep => login env db req
  | logout_ep => logout env db req
  | refresh_token_ep => refresh_token env db req
  | get_profile_ep => get_profile env db req
  | update_profile_ep => update_profile env db req
  | change_password_ep => change_password env db req
  | health_check_ep => health_check db
  end.

End routes.

(** ** The decorator of csv_controller.py *)

Module Csv.
Section csv.
Context `{Jwt}.

(** [os.getenv('SECRET_KEY', 'dev-secret')] *)
Definition SECRET_KEY (env : environment) : string :=
  default "dev-secret" (getenv_SECRET_KEY env).

(** The decorator of the CSV endpoints: [f] is called with
    [request.user_id].  The blacklist is not consulted, and an exception
    that is no JWT error is not caught: it is the result. *)
Definition token_required {A} (f : nat → result (response * A)) (unchanged : A)
    (env : environment) (req : request) : result (response * A) :=
  match Authorization req with
  | None | Some EmptyString => Ok (error "Token is missing" 401, unchanged)
  | Some token =>
      match (token ← bearer token;
             data ← jwt_decode (utcnow env) token (Some (SECRET_KEY env));
             Ok (p_user_id data)) with
      | Ok user_id => f user_id
      | Raise ExpiredSignatureError => Ok (error "Token has expired" 401, unchanged)
      | Raise (InvalidTokenError _) => Ok (error "Invalid token" 401, unchanged)
      | Raise e => Raise e
      end
  end.

End csv.
End Csv.

(** ** Instances of the interfaces *)

(** A positive number as a string of binary digits, and back. *)
Fixpoint pos_bits (p : positive) : string :=
  match p with
  | xH => EmptyString
  | xO p => String "0" (pos_bits p)
  | xI p => String "1" (pos_bits p)
  end.

Fixpoint bits_pos (s : string) : option positive :=
  match s with
  | EmptyString => Some xH
  | String c s' =>
      if decide (c = "0"%char) then xO <$> bits_pos s'
      else if decide (c = "1"%char) then xI <$> bits_pos s'
      else None
  end.

Lemma bits_pos_bits p : bits_pos (pos_bits p) = Some p.
Proof. induction p as [p IH|p IH|]; simpl; by rewrite ?IH. Qed.

Lemma pos_bits_no_space p :
  string_exists (λ c, bool_decide (c = SPACE)) (pos_bits p) = false.
Proof. induction p; simpl; auto. Qed.

Definition payload_tuple (x : payload * string) : nat * string * Z * Z * string :=
  (p_user_id x.1, p_email x.1, p_exp x.1, p_iat x.1, x.2).

Definition tuple_payload (t : nat * string * Z * Z * string) : payload * string :=
  let '(user_id, email, exp, iat, key) := t in
  ({| p_user_id := user_id; p_email := email; p_exp := exp; p_iat := iat |}, key).

(** Tokens that spell out their claims and their key. *)
Definition plain_sign (p : payload) (key : string) : string :=
  String "1" (pos_bits (encode (payload_tuple (p, key)))).

Definition plain_read (token : string) : option (payload * string) :=
  match token with
  | EmptyString => None
  | String c bits =>
      if decide (c = "1"%char) then p ← bits_pos bits; tuple_payload <$> decode p
      else None
  end.

Lemma plain_read_sign p key : plain_read (plain_sign p key) = Some (p, key).
Proof.
  unfold plain_read, plain_sign. rewrite decide_True, bits_pos_bits by done.
  simpl. rewrite decode_encode. by destruct p.
Qed.

Lemma plain_sign_no_space p key :
  string_exists (λ c, bool_decide (c = SPACE)) (plain_sign p key) = false.
Proof. apply pos_bits_no_space. Qed.

#[export] Instance plain_jwt : Jwt :=
  {| jwt_sign := plain_sign; jwt_read := plain_read;
     jwt_read_sign := plain_read_sign; jwt_read_empty := eq_refl;
     jwt_sign_no_space := plain_sign_no_space |}.

(** Hashes that spell out the password. *)
Lemma plain_check_generate (salt pw pw' : string) :
  bool_decide (pw' = pw) = true ↔ pw' = pw.
Proof. apply bool_decide_eq_true. Qed.

#[export] Instance plain_hash : PasswordHash :=
  {| generate_password_hash _ pw := pw;
     check_password_hash h pw := bool_decide (pw = h);
     check_generate := plain_check_generate |}.

(** ** The validators *)

Section validators.
Implicit Types (s t email password : string) (c : ascii).

(** [[a-zA-Z]{2,}]: two letters or more. *)
Lemma in_lang_letters t :
  in_lang (Cat (Class is_alpha) (Plus (Class is_alpha))) t ↔
  2 ≤ String.length t ∧ string_forall is_alpha t = true.
Proof.
  rewrite in_lang_cat. split.
  - intros (s1 & s2 & -> & (c & -> & Hc)%in_lang_class & [Hne Hs]%in_lang_plus_class).
    rewrite app_cons, app_nil_l. simpl. rewrite Hc, Hs.
    destruct s2; [done|]. simpl. split; [lia|done].
  - intros [Hlen Ht]. destruct t as [|c [|d t]]; simpl in *; [lia..|].
    apply andb_prop in Ht as [Hc Ht]. exists (String c ""), (String d t).
    split_and!; [done|by constructor|by apply in_lang_plus_class].
Qed.

(** The strings [validate_email] accepts. *)
Definition email_shape (email : string) : Prop :=
  ∃ loc dom tld nl,
    email = loc +:+ String "@" (dom +:+ String "." (tld +:+ nl)) ∧
    loc ≠ "" ∧ string_forall local_char loc = true ∧
    dom ≠ "" ∧ string_forall domain_char dom = true ∧
    2 ≤ String.length tld ∧ string_forall is_alpha tld = true ∧
    (nl = "" ∨ nl = String NEWLINE "").

Lemma in_lang_email_pattern s :
  in_lang email_pattern s ↔
  ∃ loc dom tld,
    s = loc +:+ String "@" (dom +:+ String "." tld) ∧
    loc ≠ "" ∧ string_forall local_char loc = true ∧
    dom ≠ "" ∧ string_forall domain_char dom = true ∧
    2 ≤ String.length tld ∧ string_forall is_alpha tld = true.
Proof.
  unfold email_pattern. rewrite in_lang_cat_plus_class.
  setoid_rewrite in_lang_cat_chr. setoid_rewrite in_lang_cat_plus_class.
  setoid_rewrite in_lang_cat_chr. setoid_rewrite in_lang_letters. split.
  - intros (loc & ? & -> & ? & ? & ? & -> & dom & ? & -> & ? & ? & tld & -> & ?).
    exists loc, dom, tld. naive_solver.
  - intros (loc & dom & tld & -> & ? & ? & ? & ? & ? & ?).
    eexists loc, _. split_and!; [done..|].
    eexists. split; [done|]. eexists dom, _. split_and!; [done..|].
    eexists. by split_and!.
Qed.

(** C40: [validate_email] accepts exactly the strings made of a local
    part, an [@], a domain, a dot and two letters or more, each part over
    the characters of the pattern; a line feed may follow. *)
Theorem validate_email_shape email : validate_email email = true ↔ email_shape email.
Proof.
  unfold validate_email, email_shape, Opt.
  rewrite matches_in_lang, in_lang_cat.
  setoid_rewrite in_lang_email_pattern. setoid_rewrite in_lang_alt.
  setoid_rewrite in_lang_eps. setoid_rewrite in_lang_chr. split.
  - intros (s1 & nl & -> & (loc & dom & tld & -> & ?) & Hnl).
    exists loc, dom, tld, nl. rewrite app_assoc, app_cons, app_assoc, app_cons.
    naive_solver.
  - intros (loc & dom & tld & nl & -> & ?).
    exists (loc +:+ String "@" (dom +:+ String "." tld)), nl.
    rewrite app_assoc, app_cons, app_assoc, app_cons. naive_solver.
Qed.

(** The passwords [validate_password] accepts. *)
Definition strong (password : string) : Prop :=
  8 ≤ String.length password ∧
  string_exists is_upper password = true ∧
  string_exists is_lower password = true ∧
  string_exists is_digit password = true.

Lemma validate_password_strong password :
  (validate_password password).1 = true ↔ strong password.
Proof.
  unfold validate_password, strong.
  case_decide; simpl; [split; [done|lia]|].
  destruct (string_exists is_upper password); simpl; [|naive_solver].
  destruct (string_exists is_lower password); simpl; [|naive_solver].
  destruct (string_exists is_digit password); simpl; [|naive_solver].
  split; [intros _; split_and!; [lia|done..]|done].
Qed.

Lemma validate_password_message password :
  (validate_password password).2 = "" ↔ (validate_password password).1 = true.
Proof. unfold validate_password. by repeat (case_decide || case_match). Qed.

End validators.

(** ** Queries and commits *)

Section queries.
Context {A : Type} (P : A → Prop) `{!∀ x, Decision (P x)}.
Implicit Types (l k : list A) (x : A).

Lemma first_by_Some l x : first_by P l = Some x → x ∈ l ∧ P x.
Proof.
  unfold first_by. destruct (list_find P l) as [[i y]|] eqn:Hf; [|done].
  intros [= <-]. apply list_find_Some in Hf as (Hi & ? & _).
  split; [by eapply list_elem_of_lookup_2|done].
Qed.

Lemma first_by_None l : first_by P l = None ↔ Forall (λ x, ¬ P x) l.
Proof. unfold first_by. by rewrite fmap_None, list_find_None. Qed.

Lemma first_by_elem_of l x : x ∈ l → P x → is_Some (first_by P l).
Proof.
  intros Hx HP. unfold first_by. apply fmap_is_Some.
  by eapply list_find_elem_of.
Qed.

Lemma first_by_app_l l k x : first_by P l = Some x → first_by P (l ++ k) = Some x.
Proof.
  unfold first_by. destruct (list_find P l) as [[i y]|] eqn:Hf; [|done].
  intros [= <-]. by rewrite (list_find_app_l _ _ _ _ _ Hf).
Qed.

Lemma first_by_app_r l k : first_by P l = None → first_by P (l ++ k) = first_by P k.
Proof.
  unfold first_by. intros Hl%fmap_None. rewrite list_find_app_r by done.
  by destruct (list_find P k) as [[??]|].
Qed.

(** When one element at most has the property, the query finds it. *)
Lemma first_by_unique {B} (f : A → B) l x :
  NoDup (f <$> l) → x ∈ l → (∀ y, P y ↔ f y = f x) → first_by P l = Some x.
Proof.
  intros Hnd Hx HP.
  destruct (first_by_elem_of l x) as [y Hy]; [done|by apply HP|].
  rewrite Hy. f_equal. apply first_by_Some in Hy as [Hy Hfy%HP].
  by apply (NoDup_fmap_inj f l).
Qed.

End queries.

Section commits.
Implicit Types (db : database) (u v : User) (t : BlacklistedToken).

Lemma get_user_Some db i u : get_user db i = Some u → u ∈ users db ∧ user_id u = i.
Proof. intros Hu. by apply (first_by_Some (λ v, user_id v = i)) in Hu. Qed.

Lemma next_id_fresh db u : u ∈ users db → user_id u < next_id db.
Proof.
  intros Hu. unfold next_id. apply Nat.lt_succ_r, max_list_elem_of_le.
  by apply list_elem_of_fmap_2.
Qed.

Lemma next_token_id_fresh db t :
  t ∈ blacklisted_tokens db → bt_id t < next_token_id db.
Proof.
  intros Ht. unfold next_token_id. apply Nat.lt_succ_r, max_list_elem_of_le.
  by apply list_elem_of_fmap_2.
Qed.

(** The rows of the table after the commit of a change to [u]. *)
Lemma elem_of_update_user db u v :
  v ∈ users (update_user db u) ↔
  (v = u ∧ ∃ w, w ∈ users db ∧ user_id w = user_id u) ∨
  (v ∈ users db ∧ user_id v ≠ user_id u).
Proof.
  simpl. rewrite list_elem_of_fmap. split.
  - intros (w & -> & Hw). case_decide; eauto.
  - intros [[-> (w & Hw & Hid)]|[Hv Hid]].
    + exists w. by rewrite decide_True.
    + exists v. by rewrite decide_False.
Qed.

(** The commit of a change keeps the keys of the rows. *)
Lemma update_user_ids db u :
  user_id <$> users (update_user db u) = user_id <$> users db.
Proof.
  simpl. rewrite <-list_fmap_compose. apply list_fmap_ext.
  intros _ v _. simpl. by case_decide.
Qed.

(** A column stays free of duplicates when the new value of the changed
    row is not the value of another row. *)
Lemma update_user_NoDup {B} (f : User → B) db u :
  NoDup (user_id <$> users db) → NoDup (f <$> users db) →
  (∀ v, v ∈ users db → user_id v ≠ user_id u → f v ≠ f u) →
  NoDup (f <$> users (update_user db u)).
Proof.
  simpl. induction (users db) as [|v l IH]; csimpl; [done|].
  rewrite !NoDup_cons, !list_elem_of_fmap. intros [Hid Hids] [Hf Hfs] Hfresh.
  split; [|apply IH; [done..|intros w ?; apply Hfresh; by right]].
  intros (w & Hvw & (w' & -> & Hw')%list_elem_of_fmap).
  repeat case_decide.
  - apply Hid. exists w'. split; [congruence|done].
  - by apply (Hfresh w'); [right|..].
  - by apply (Hfresh v); [left|..].
  - apply Hf. eauto.
Qed.

Lemma get_user_update db u i :
  NoDup (user_id <$> users db) →
  is_Some (get_user db (user_id u)) →
  get_user (update_user db u) i
  = if decide (i = user_id u) then Some u else get_user db i.
Proof.
  intros Hnd [w [Hw Hwid]%get_user_Some]. unfold get_user.
  case_decide as Hi; [subst i|].
  - apply (first_by_unique _ user_id); [by rewrite update_user_ids| |done].
    apply elem_of_update_user. eauto.
  - simpl. unfold first_by. rewrite list_find_fmap.
    rewrite (list_find_ext _ (λ x, user_id x = i)).
    2:{ intros v. simpl. case_decide; [|done]. split; congruence. }
    destruct (list_find _ (users db)) as [[j v]|] eqn:Hf; [|done]. simpl.
    apply list_find_Some in Hf as (_ & Hv & _). by rewrite decide_False by congruence.
Qed.

Lemma cleanup_expired_subseteq now db :
  blacklisted_tokens (cleanup_expired now db) ⊆ blacklisted_tokens db.
Proof. intros t [_ ?]%list_elem_of_filter. done. Qed.

End commits.

(** ** Authentication *)

(** The database is well formed: the keys of the two tables, the
    addresses, the names and the blacklisted tokens are unique. *)
Record db_wf (db : database) : Prop := DbWf {
  wf_ids : NoDup (user_id <$> users db);
  wf_emails : NoDup (user_email <$> users db);
  wf_usernames : NoDup (user_username <$> users db);
  wf_tokens : NoDup (bt_token <$> blacklisted_tokens db);
  wf_token_ids : NoDup (bt_id <$> blacklisted_tokens db);
}.

(** The token is in the blacklist. *)
Definition revoked (db : database) (token : string) : Prop :=
  token ∈ bt_token <$> blacklisted_tokens db.

Section authentication.
Context `{Jwt, PasswordHash}.
Implicit Types (env : environment) (db : database) (req : request).
Implicit Types (token header key : string) (p : payload) (u : User).

(** The token is accepted for the user [u]: it is not blacklisted, its
    signature and expiry are good and the user of its claims exists. *)
Definition accepts env db token u : Prop :=
  ¬ revoked db token ∧
  ∃ p, jwt_decode (utcnow env) token (getenv_SECRET_KEY env) = Ok p ∧
       get_user db (p_user_id p) = Some u.

Lemma jwt_decode_Ok now token okey p :
  jwt_decode now token okey = Ok p ↔
  ∃ key, okey = Some key ∧ jwt_read token = Some (p, key) ∧
         (p_iat p ≤ now < p_exp p)%Z.
Proof.
  unfold jwt_decode. destruct okey as [key|]; [|naive_solver].
  destruct (jwt_read token) as [[p' key']|]; [|naive_solver].
  case_decide as Hk; [subst key'|naive_solver].
  repeat case_decide; (split; [intros [= ->]|intros (k & [= <-] & [= <-] & ?)]);
    try done; try lia.
  exists key. split_and!; [done..|lia|lia].
Qed.

Lemma jwt_decode_sign now p key :
  (p_iat p ≤ now < p_exp p)%Z → jwt_decode now (jwt_sign p key) (Some key) = Ok p.
Proof. intros. apply jwt_decode_Ok. exists key. by rewrite jwt_read_sign. Qed.

(** A token read before the time of its issue, on a clock that went
    back, is not valid. *)
Lemma jwt_decode_immature now p key :
  (now < p_iat p)%Z →
  jwt_decode now (jwt_sign p key) (Some key)
  = Raise (InvalidTokenError "The token is not yet valid (iat)").
Proof.
  intros. unfold jwt_decode. rewrite jwt_read_sign.
  by rewrite decide_True, decide_True.
Qed.

Lemma jwt_encode_Ok p okey token :
  jwt_encode p okey = Ok token ↔ ∃ key, okey = Some key ∧ token = jwt_sign p key.
Proof. destruct okey; simpl; naive_solver. Qed.

(** The header ['Bearer <token>'] carries the token. *)
Lemma header_token_bearer token :
  string_exists (λ c, bool_decide (c = SPACE)) token = false →
  header_token ("Bearer " +:+ token) = Ok token.
Proof.
  intros Htoken. unfold header_token, bearer.
  change ("Bearer " +:+ token) with ("Bearer" +:+ String SPACE token).
  rewrite split_on_app; [|reflexivity]. rewrite (split_on_none _ token) by done.
  rewrite !app_cons, app_nil_l. unfold startswith. simpl.
  by destruct token.
Qed.

Lemma header_token_sign p key :
  header_token ("Bearer " +:+ jwt_sign p key) = Ok (jwt_sign p key).
Proof. apply header_token_bearer, jwt_sign_no_space. Qed.

Lemma revoked_first_by db token :
  first_by (λ t, bt_token t = token) (blacklisted_tokens db) = None ↔
  ¬ revoked db token.
Proof.
  unfold revoked. rewrite first_by_None, Forall_forall, list_elem_of_fmap.
  naive_solver.
Qed.

Lemma current_user_inr env db header u :
  current_user env db header = Ok (inr u) ↔
  ∃ token, header_token header = Ok token ∧ accepts env db token u.
Proof.
  unfold current_user, accepts. split.
  - destruct (header_token header) as [token|]; simpl; [|done]. intros Hu.
    exists token. split; [done|].
    destruct (first_by _ _) eqn:Hf; [done|]. apply revoked_first_by in Hf.
    split; [done|]. destruct (jwt_decode _ _ _) as [p|]; simpl in Hu; [|done].
    exists p. split; [done|]. destruct (get_user _ _); by simplify_eq.
  - intros (token & -> & Hrev & p & Hp & Hu). simpl.
    apply revoked_first_by in Hrev as ->. rewrite Hp. simpl. by rewrite Hu.
Qed.

(** A token of the blacklist is turned away. *)
Lemma current_user_revoked env db header token :
  header_token header = Ok token → revoked db token →
  current_user env db header = Ok (inl (error "Token has been revoked" 401)).
Proof.
  intros Hh Hrev. unfold current_user. rewrite Hh. simpl.
  destruct (first_by _ _) eqn:Hf; [done|]. by apply revoked_first_by in Hf.
Qed.

Lemma current_user_inl env db header resp :
  current_user env db header = Ok (inl resp) → status resp = 401.
Proof.
  unfold current_user. destruct (header_token header); simpl; [|done].
  destruct (first_by _ _); [by intros [= <-]|].
  destruct (jwt_decode _ _ _) as [p|]; simpl; [|done].
  destruct (get_user _ _); by intros [= <-].
Qed.

(** The outcomes of the decorator: a 401 that leaves the database as it
    is, or the call of the handler with the user of the token. *)
Lemma token_required_inv f env db req resp db' :
  token_required f env db req = (resp, db') →
  (status resp = 401 ∧ db' = db) ∨
  ∃ header u, Authorization req = Some header ∧
              current_user env db header = Ok (inr u) ∧ f u = (resp, db').
Proof.
  unfold token_required. intros Hf.
  destruct (Authorization req) as [[|c header]|]; simplify_eq; [by left| |by left].
  destruct (current_user _ _ _) as [[?|u]|e] eqn:Hu.
  - apply current_user_inl in Hu. simplify_eq. by left.
  - right. eauto.
  - destruct e; simplify_eq; by left.
Qed.

Lemma token_required_accept f env db req header u :
  Authorization req = Some header →
  current_user env db header = Ok (inr u) →
  token_required f env db req = f u.
Proof.
  unfold token_required. intros -> Hu. destruct header as [|c header].
  - apply current_user_inr in Hu as (? & [= <-] & _ & ? & Hp & _).
    apply jwt_decode_Ok in Hp as (? & _ & Hp & _). by rewrite jwt_read_empty in Hp.
  - by rewrite Hu.
Qed.

End authentication.
