(* ===== verification/AuthSpec.v ===== *)
(** * AuthSpec: what the account handlers guarantee

    The outcomes of every handler of [Auth], branch by branch; the
    invariant of the database (keys, addresses, names and blacklisted
    tokens are unique) and its preservation by every request; and the
    life of a token: issued by [login], accepted by [token_required]
    until it expires, turned away after [logout]. *)

From S2P Require Import Prelude Strings Regex Auth.

(** The database after a request, and the steps of the service: a request
    to a view function, or a run of [cleanup_expired]. *)
Inductive step `{Jwt, PasswordHash} : database → database → Prop :=
  | step_handle ep env req db : step db (handle ep env db req).2
  | step_cleanup now db : step db (cleanup_expired now db).

(** A response that turns the request away. *)
Definition rejected (resp : response) : Prop := 400 ≤ status resp < 500.

(** The request is turned away and the database is as it was. *)
Ltac turned_away := intros [= <- <-]; left; by (split; [simpl; lia|]).

(** ** The outcomes of the handlers *)

Section outcomes.
Context `{Jwt, PasswordHash}.
Implicit Types (env : environment) (db : database) (req : request).
Implicit Types (resp : response) (u v : User).

(** [register]: the request is turned away and nothing changes, or a row
    is added for a valid address, a non-empty name and a strong password
    that no row has. *)
Lemma register_inv env db req resp db' :
  register env db req = (resp, db') →
  (rejected resp ∧ db' = db) ∨
  ∃ u, status resp = 201 ∧ db' = add_user db u ∧
       user_id u = next_id db ∧
       user_email u = strip (get (get_json req) "email") ∧
       user_username u = strip (get (get_json req) "username") ∧
       user_password u
       = generate_password_hash (salt env) (get (get_json req) "password") ∧
       validate_email (user_email u) = true ∧
       strong (get (get_json req) "password") ∧
       Forall (λ v, user_email v ≠ user_email u) (users db) ∧
       Forall (λ v, user_username v ≠ user_username u) (users db).
Proof.
  unfold register, rejected.
  case_decide; [turned_away|].
  destruct (validate_email _) eqn:Hemail; simpl; [|turned_away].
  destruct (validate_password _) as [[] msg] eqn:Hpw; simpl; [|turned_away].
  destruct (first_by _ _) eqn:Hfe; [turned_away|].
  destruct (first_by (λ u, user_username u = _) _) eqn:Hfu; [turned_away|].
  intros [= <- <-]. right. eexists. split_and!; try done.
  - apply validate_password_strong. by rewrite Hpw.
  - by apply first_by_None in Hfe.
  - by apply first_by_None in Hfu.
Qed.


(** [login]: the request is turned away and nothing changes, or the
    password checks against the row of the address; then the time of the
    login is committed, and a token is issued unless the secret is not
    set. *)
Lemma login_inv env db req resp db' :
  login env db req = (resp, db') →
  (rejected resp ∧ db' = db) ∨
  ∃ u, let u' := set_last_login u (utcnow env) in
       first_by (λ v, user_email v = strip (get (get_json req) "email"))
         (users db) = Some u ∧
       check_password_hash (user_password u) (get (get_json req) "password")
       = true ∧
       db' = update_user db u' ∧
       match getenv_SECRET_KEY env with
       | Some key =>
           status resp = 200 ∧
           field "token" (body resp)
           = Some (JString (jwt_sign (token_payload env u') key))
       | None => status resp = 500
       end.
Proof.
  unfold login, rejected. case_decide; [turned_away|].
  destruct (first_by _ _) as [u|] eqn:Hu; [|turned_away].
  destruct (check_password_hash _ _) eqn:Hpw; simpl; [|turned_away].
  destruct (getenv_SECRET_KEY env) as [key|] eqn:Hkey; simpl;
    intros [= <- <-]; right; exists u; simpl; by rewrite ?Hkey.
Qed.

(** The body of [logout] for a token that the decorator accepted. *)
Lemma logout_body_accepted env db req header token u :
  Authorization req = Some header → header_token header = Ok token →
  accepts env db token u →
  ∃ p, jwt_decode (utcnow env) token (getenv_SECRET_KEY env) = Ok p ∧
       logout_body env db req
       = (jsonify [("message", JString "Logout successful")] 200,
          add_blacklisted db
            {| bt_id := next_token_id db; bt_token := token;
               bt_blacklisted_on := utcnow env;
               bt_expires_at := p_exp p + utc_offset env |}).
Proof.
  intros Hreq Hh (Hrev%revoked_first_by & p & Hp & _). exists p. split; [done|].
  unfold logout_body, commit_blacklisted. rewrite Hreq. simpl.
  rewrite Hh. simpl. rewrite Hp. simpl. by rewrite Hrev.
Qed.

(** [logout]: a 401 that changes nothing, or the token of the request is
    added to the blacklist with its expiry.  No other answer exists. *)
Lemma logout_inv env db req resp db' :
  logout env db req = (resp, db') →
  (rejected resp ∧ db' = db) ∨
  ∃ header token u p,
    Authorization req = Some header ∧ header_token header = Ok token ∧
    accepts env db token u ∧
    jwt_decode (utcnow env) token (getenv_SECRET_KEY env) = Ok p ∧
    status resp = 200 ∧
    db' = add_blacklisted db
            {| bt_id := next_token_id db; bt_token := token;
               bt_blacklisted_on := utcnow env;
               bt_expires_at := p_exp p + utc_offset env |}.
Proof.
  unfold logout, rejected.
  intros [[-> ->]|(header & u & Hreq & Hu & Hf)]%token_required_inv;
    [left; split; [lia|done]|].
  apply current_user_inr in Hu as (token & Hh & Hacc).
  destruct (logout_body_accepted env db req header token u) as (p & Hp & Hbody);
    [done..|].
  rewrite Hbody in Hf. simplify_eq. right. by exists header, token, u, p.
Qed.


(** [refresh_token] and [get_profile] leave the database as it is. *)
Lemma refresh_token_db env db req : (refresh_token env db req).2 = db.
Proof.
  destruct (refresh_token env db req) as [resp db'] eqn:Hr. simpl.
  apply token_required_inv in Hr as [[_ ->]|(header & u & _ & _ & Hf)]; [done|].
  destruct (jwt_encode _ _); by simplify_eq.
Qed.

Lemma get_profile_db env db req : (get_profile env db req).2 = db.
Proof.
  destruct (get_profile env db req) as [resp db'] eqn:Hr. simpl.
  apply token_required_inv in Hr as [[_ ->]|(header & u & _ & _ & Hf)]; [done|].
  by simplify_eq.
Qed.

(** A change of a row that keeps its key and gives it no name and no
    address of another row. *)
Definition renames (db : database) (u u' : User) : Prop :=
  user_id u' = user_id u ∧
  (user_username u' = user_username u ∨
   Forall (λ v, user_username v ≠ user_username u') (users db)) ∧
  (user_email u' = user_email u ∨
   Forall (λ v, user_email v ≠ user_email u') (users db)).

Lemma update_username_inv db data u :
  match update_username db data u with
  | inl resp => rejected resp
  | inr u' => renames db u u' ∧ user_password u' = user_password u
              ∧ user_email u' = user_email u
  end.
Proof.
  unfold update_username, renames, rejected.
  destruct (data !! "username") as [username|]; [|by auto].
  case_decide; [|by auto].
  destruct (first_by _ _) eqn:Hf; simpl; [lia|].
  apply first_by_None in Hf. by auto.
Qed.

Lemma update_email_inv db data u :
  match update_email db data u with
  | inl resp => rejected resp
  | inr u' => renames db u u' ∧ user_password u' = user_password u
              ∧ user_username u' = user_username u
  end.
Proof.
  unfold update_email, renames, rejected.
  destruct (data !! "email") as [email|]; [|by auto].
  destruct (validate_email _); simpl; [|lia].
  case_decide; [|by auto].
  destruct (first_by _ _) eqn:Hf; simpl; [lia|].
  apply first_by_None in Hf. by auto.
Qed.

Lemma renames_trans db u1 u2 u3 :
  renames db u1 u2 → user_email u2 = user_email u1 →
  renames db u2 u3 → user_username u3 = user_username u2 →
  renames db u1 u3.
Proof.
  unfold renames. intros (Hid1 & Hn1 & _) He (Hid2 & _ & He2) Hn.
  split_and!; [congruence|by rewrite Hn|by rewrite <-He].
Qed.

(** [update_profile]: the request is turned away and nothing changes, or
    the row of the user of the token is renamed. *)
Lemma update_profile_inv env db req resp db' :
  update_profile env db req = (resp, db') →
  (rejected resp ∧ db' = db) ∨
  ∃ header u u',
    Authorization req = Some header ∧
    current_user env db header = Ok (inr u) ∧
    status resp = 200 ∧ db' = update_user db u' ∧
    renames db u u' ∧ user_password u' = user_password u.
Proof.
  unfold update_profile, rejected.
  intros [[-> ->]|(header & u & Hreq & Hu & Hf)]%token_required_inv;
    [left; split; [lia|done]|].
  pose proof (update_username_inv db (get_json req) u) as H1.
  destruct (update_username _ _ _) as [?|u1]; [simplify_eq; by left|].
  pose proof (update_email_inv db (get_json req) u1) as H2.
  destruct (update_email _ _ _) as [?|u2]; [simplify_eq; by left|].
  simplify_eq. right. exists header, u, u2.
  destruct H1 as (? & ? & ?), H2 as (? & ? & ?).
  split_and!; [done..|by eapply renames_trans|congruence].
Qed.

(** [change_password]: the request is turned away and nothing changes,
    or the current password checks, the new one is strong and its hash is
    committed. *)
Lemma change_password_inv env db req resp db' :
  change_password env db req = (resp, db') →
  (rejected resp ∧ db' = db) ∨
  ∃ header u,
    Authorization req = Some header ∧
    current_user env db header = Ok (inr u) ∧
    check_password_hash (user_password u)
      (get (get_json req) "current_password") = true ∧
    strong (get (get_json req) "new_password") ∧
    status resp = 200 ∧
    db' = update_user db
            (set_password u
               (generate_password_hash (salt env)
                  (get (get_json req) "new_password"))).
Proof.
  unfold change_password, rejected.
  intros [[-> ->]|(header & u & Hreq & Hu & Hf)]%token_required_inv;
    [left; split; [lia|done]|].
  revert Hf. case_decide; [turned_away|].
  destruct (check_password_hash _ _) eqn:Hck; simpl; [|turned_away].
  destruct (validate_password _) as [[] msg] eqn:Hpw; simpl; [|turned_away].
  intros [= <- <-]. right. exists header, u. split_and!; try done.
  apply validate_password_strong. by rewrite Hpw.
Qed.

End outcomes.

(** ** The invariant of the database *)

Section invariant.
Context `{Jwt, PasswordHash}.
Implicit Types (env : environment) (db : database) (req : request).
Implicit Types (resp : response) (u v : User).

Lemma NoDup_snoc_fresh {A B} (f : A → B) (l : list A) (x : A) :
  NoDup (f <$> l) → Forall (λ y, f y ≠ f x) l → NoDup (f <$> l ++ [x]).
Proof.
  intros Hl Hx. rewrite fmap_app. apply NoDup_app. split_and!; [done| |].
  - intros b (y & -> & Hy)%list_elem_of_fmap [Heq|[]%elem_of_nil]%elem_of_cons.
    rewrite Forall_forall in Hx. by apply (Hx y).
  - apply NoDup_singleton.
Qed.

Lemma add_user_wf db u :
  db_wf db → user_id u = next_id db →
  Forall (λ v, user_email v ≠ user_email u) (users db) →
  Forall (λ v, user_username v ≠ user_username u) (users db) →
  db_wf (add_user db u).
Proof.
  intros [] Hid ??. split; simpl; [|by apply NoDup_snoc_fresh..|done|done].
  apply NoDup_snoc_fresh; [done|]. apply Forall_forall. intros v Hv%next_id_fresh.
  lia.
Qed.

(** A column stays unique when a row keeps its value or takes a value
    that no row has. *)
Lemma update_column_NoDup {B} (f : User → B) db u u' :
  NoDup (user_id <$> users db) → NoDup (f <$> users db) →
  u ∈ users db → user_id u' = user_id u →
  f u' = f u ∨ Forall (λ v, f v ≠ f u') (users db) →
  NoDup (f <$> users (update_user db u')).
Proof.
  intros Hids Hf Hu Hid Hfresh. apply update_user_NoDup; [done..|].
  intros v Hv Hvid. destruct Hfresh as [->|Hfresh].
  - intros Heq. apply (NoDup_fmap_inj f (users db)) in Heq; [|done..].
    congruence.
  - by eapply Forall_forall in Hfresh.
Qed.

Lemma update_user_wf db u u' :
  db_wf db → u ∈ users db → renames db u u' → db_wf (update_user db u').
Proof.
  intros [] Hu (Hid & Hname & Hemail). split.
  - by rewrite update_user_ids.
  - by apply (update_column_NoDup _ _ u).
  - by apply (update_column_NoDup _ _ u).
  - done.
  - done.
Qed.

Lemma add_blacklisted_wf db t :
  db_wf db → bt_id t = next_token_id db → ¬ revoked db (bt_token t) →
  db_wf (add_blacklisted db t).
Proof.
  intros [] Hid Ht. split; [done..| |]; simpl; (apply NoDup_snoc_fresh; [done|]);
    apply Forall_forall.
  - intros t' Ht' Heq. apply Ht. unfold revoked.
    rewrite <-Heq. by apply list_elem_of_fmap_2.
  - intros t' Ht'%next_token_id_fresh. lia.
Qed.

Lemma cleanup_expired_wf now db : db_wf db → db_wf (cleanup_expired now db).
Proof.
  intros []. split; [done..| |]; simpl;
    (eapply sublist_NoDup; [done|]); apply fmap_sublist, sublist_filter.
Qed.

Lemma renames_keep db u u' :
  user_id u' = user_id u → user_username u' = user_username u →
  user_email u' = user_email u → renames db u u'.
Proof. unfold renames. auto. Qed.

Lemma current_user_elem_of env db header u :
  current_user env db header = Ok (inr u) → u ∈ users db.
Proof.
  intros (token & _ & _ & p & _ & [? _]%get_user_Some)%current_user_inr. done.
Qed.

(** Every view function keeps the database well formed. *)
Lemma handle_wf ep env db req : db_wf db → db_wf (handle ep env db req).2.
Proof.
  intros Hwf. destruct (handle ep env db req) as [resp db'] eqn:Hh.
  destruct ep; simpl in *.
  - apply register_inv in Hh as [[_ ->]|(u & _ & -> & ? & _ & _ & _ & _ & _ & ? & ?)];
      [done|by apply add_user_wf].
  - apply login_inv in Hh as [[_ ->]|(u & [Hu _]%first_by_Some & _ & -> & _)];
      [done|]. by apply (update_user_wf _ u), renames_keep.
  - apply logout_inv in Hh
      as [[_ ->]|(header & token & u & p & _ & _ & [Hrev _] & _ & _ & ->)];
      [done|]. by apply add_blacklisted_wf.
  - pose proof (refresh_token_db env db req) as Hdb. rewrite Hh in Hdb.
    by simplify_eq/=.
  - pose proof (get_profile_db env db req) as Hdb. rewrite Hh in Hdb.
    by simplify_eq/=.
  - apply update_profile_inv in Hh
      as [[_ ->]|(header & u & u' & _ & Hu%current_user_elem_of & _ & -> & ? & _)];
      [done|]. by apply (update_user_wf _ u).
  - apply change_password_inv in Hh
      as [[_ ->]|(header & u & _ & Hu%current_user_elem_of & _ & _ & _ & ->)];
      [done|]. by apply (update_user_wf _ u), renames_keep.
  - unfold health_check in Hh. by simplify_eq.
Qed.

Lemma step_wf db db' : step db db' → db_wf db → db_wf db'.
Proof. destruct 1; [apply handle_wf|apply cleanup_expired_wf]. Qed.

End invariant.

(** ** The life of a token *)

Section tokens.
Context `{Jwt, PasswordHash}.
Implicit Types (env : environment) (db : database) (req : request).
Implicit Types (resp : response) (u v : User) (token header : string).

(** In a well-formed database a row is found by its key. *)
Lemma get_user_elem_of db u :
  db_wf db → u ∈ users db → get_user db (user_id u) = Some u.
Proof.
  intros [] Hu. by apply (first_by_unique _ user_id).
Qed.

(** A token signed for a row of the database is accepted until it
    expires, unless it is blacklisted. *)
Lemma accepts_signed env db u p key :
  db_wf db → u ∈ users db → p_user_id p = user_id u →
  getenv_SECRET_KEY env = Some key → (p_iat p ≤ utcnow env < p_exp p)%Z →
  ¬ revoked db (jwt_sign p key) →
  current_user env db ("Bearer " +:+ jwt_sign p key) = Ok (inr u).
Proof.
  intros Hwf Hu Hid Hkey Hexp Hrev. apply current_user_inr.
  exists (jwt_sign p key). split; [apply header_token_sign|].
  split; [done|]. exists p. rewrite Hkey, Hid.
  split; [by apply jwt_decode_sign|by apply get_user_elem_of].
Qed.

Lemma update_user_elem_of db u u' :
  u ∈ users db → user_id u' = user_id u → u' ∈ users (update_user db u').
Proof. intros. apply elem_of_update_user. left. eauto. Qed.

(** The blacklist after a request: as it was, or with the token of a
    logout and the expiry of its claims. *)
Lemma handle_blacklist_inv ep env db req :
  let db' := (handle ep env db req).2 in
  blacklisted_tokens db' = blacklisted_tokens db ∨
  ∃ token p,
    jwt_decode (utcnow env) token (getenv_SECRET_KEY env) = Ok p ∧
    blacklisted_tokens db'
    = blacklisted_tokens db
      ++ [{| bt_id := next_token_id db; bt_token := token;
               bt_blacklisted_on := utcnow env;
             bt_expires_at := p_exp p + utc_offset env |}].
Proof.
  destruct (handle ep env db req) as [resp db'] eqn:Hh.
  destruct ep; simpl in *.
  - apply register_inv in Hh as [[_ ->]|(u & _ & -> & _)]; by left.
  - apply login_inv in Hh as [[_ ->]|(u & _ & _ & -> & _)]; by left.
  - apply logout_inv in Hh
      as [[_ ->]|(header & token & u & p & _ & _ & _ & ? & _ & ->)]; [by left|].
    right. by exists token, p.
  - pose proof (refresh_token_db env db req) as Hdb. rewrite Hh in Hdb.
    simplify_eq/=. by left.
  - pose proof (get_profile_db env db req) as Hdb. rewrite Hh in Hdb.
    simplify_eq/=. by left.
  - apply update_profile_inv in Hh as [[_ ->]|(? & ? & ? & _ & _ & _ & -> & _)];
      by left.
  - apply change_password_inv in Hh as [[_ ->]|(? & ? & _ & _ & _ & _ & _ & ->)];
      by left.
  - unfold health_check in Hh. simplify_eq. by left.
Qed.

(** No view function removes a token from the blacklist. *)
Lemma handle_blacklist ep env db req :
  blacklisted_tokens db ⊆ blacklisted_tokens (handle ep env db req).2.
Proof.
  destruct (handle_blacklist_inv ep env db req) as [->|(? & ? & _ & ->)];
    set_solver.
Qed.

Lemma revoked_mono db db' token :
  blacklisted_tokens db ⊆ blacklisted_tokens db' →
  revoked db token → revoked db' token.
Proof.
  unfold revoked. intros Hsub (t & -> & Ht)%list_elem_of_fmap.
  apply list_elem_of_fmap_2. by apply Hsub.
Qed.

(** A request with a blacklisted token is answered 401 by every
    decorated view, and changes nothing. *)
Lemma token_required_revoked f env db req header token :
  Authorization req = Some header → header ≠ "" →
  header_token header = Ok token → revoked db token →
  token_required f env db req = (error "Token has been revoked" 401, db).
Proof.
  intros Hreq Hne Hh Hrev. unfold token_required. rewrite Hreq.
  destruct header as [|c header]; [done|].
  by rewrite (current_user_revoked _ _ _ token).
Qed.

(** A header that carries an accepted token is not empty. *)
Lemma accepts_header_nonempty env db header token u :
  header_token header = Ok token → accepts env db token u → header ≠ "".
Proof.
  intros Hh (_ & p & (key & _ & Hp & _)%jwt_decode_Ok & _) ->.
  unfold header_token in Hh. simpl in Hh. simplify_eq.
  by rewrite jwt_read_empty in Hp.
Qed.

End tokens.

(** ** Example: one account *)

Definition example_env : environment :=
  {| utcnow := 1000; utc_offset := 0; getenv_SECRET_KEY := Some "secret";
     salt := "salt" |}.

Definition ann_request : request :=
  {| Authorization := None;
     get_json := {[ "email" := "ann@example.com"; "password" := "Passw0rdX";
                    "username" := "ann" ]} |}.

(** The database after the registration of Ann, and after her login. *)
Definition ann_db : database :=
  (handle register_ep example_env create_tables ann_request).2.
Definition ann_login : response * database :=
  handle login_ep example_env ann_db ann_request.

(** The token of a response. *)
Definition token_of (resp : response) : string :=
  match field "token" (body resp) with Some (JString token) => token | _ => "" end.

(** The request of Ann with the token of her login. *)
Definition ann_bearer : request :=
  {| Authorization := Some ("Bearer " +:+ token_of ann_login.1);
     get_json := ∅ |}.

(** ** The database stays well formed *)

Lemma create_tables_wf : db_wf create_tables.
Proof. split; simpl; apply NoDup_nil_2. Qed.

Lemma ann_db_wf : db_wf ann_db.
Proof. apply handle_wf, create_tables_wf. Qed.

(** C29: in every database that the service reaches from the empty tables,
    by requests to its views and runs of the cleanup, user keys, e-mail
    addresses, user names and blacklisted tokens are unique. *)
Theorem reachable_db_wf `{Jwt, PasswordHash} db :
  rtc step create_tables db → db_wf db.
Proof.
  revert db. apply rtc_ind_r; [apply create_tables_wf|].
  intros db1 db2 _ Hstep Hwf. by apply (step_wf db1).
Qed.

Lemma reachable_db_wf_witness : db_wf ann_db.
Proof.
  apply (reachable_db_wf ann_db).
  apply rtc_once, step_handle.
Defined.

(** A request that a view turns away with a status from 400 to 499
    changes nothing in the database. *)
Theorem rejected_request_unchanged `{Jwt, PasswordHash} ep env db req resp db' :
  handle ep env db req = (resp, db') → rejected resp → db' = db.
Proof.
  unfold rejected. intros Hh Hrej. destruct ep; simpl in Hh.
  - apply register_inv in Hh as [[_ ->]|(u & ? & _)]; [done|lia].
  - apply login_inv in Hh as [[_ ->]|(u & _ & _ & _ & Hst)]; [done|].
    destruct (getenv_SECRET_KEY env); [destruct Hst|]; lia.
  - apply logout_inv in Hh as [[_ ->]|(?&?&?&?&_&_&_&_&?&_)]; [done|lia].
  - pose proof (refresh_token_db env db req) as Hdb. by rewrite Hh in Hdb.
  - pose proof (get_profile_db env db req) as Hdb. by rewrite Hh in Hdb.
  - apply update_profile_inv in Hh as [[_ ->]|(?&?&?&_&_&?&_)]; [done|lia].
  - apply change_password_inv in Hh as [[_ ->]|(?&?&_&_&_&_&?&_)]; [done|lia].
  - unfold health_check in Hh. by simplify_eq.
Qed.

Lemma rejected_request_unchanged_witness :
  (register example_env ann_db ann_request).2 = ann_db.
Proof.
  apply (rejected_request_unchanged register_ep example_env ann_db ann_request
           (register example_env ann_db ann_request).1).
  - vm_compute. reflexivity.
  - unfold rejected. split; compute_done.
Defined.

(** ** Registration, login and logout *)

(** After a registration that is answered 201, a login with the same
    address and password is answered 200, when the secret is set. *)
Theorem register_then_login `{Jwt, PasswordHash} env db req resp db1 env' key :
  register env db req = (resp, db1) → status resp = 201 →
  getenv_SECRET_KEY env' = Some key →
  status (login env' db1 req).1 = 200.
Proof.
  intros [[[??] _]|(u & _ & -> & _ & He & _ & Hp & Hv & Hs & Hfe & _)]%register_inv
    Hst Hkey; [lia|].
  unfold login. rewrite <-He. simpl.
  assert (first_by (λ v, user_email v = user_email u) (users db ++ [u]) = Some u)
    as ->.
  { rewrite first_by_app_r by (by apply first_by_None).
    unfold first_by. simpl. by rewrite decide_True. }
  assert (user_email u ≠ "") by (by intros Hu; rewrite Hu in Hv).
  assert (get (get_json req) "password" ≠ "")
    by (destruct Hs as [Hlen _]; intros Hpw; rewrite Hpw in Hlen; simpl in Hlen; lia).
  rewrite decide_False by (by intros [?|?]).
  rewrite Hp, (proj2 (check_generate _ _ _)) by done.
  simpl. by rewrite Hkey.
Qed.

Lemma register_then_login_witness : status ann_login.1 = 200.
Proof.
  apply (register_then_login example_env create_tables ann_request
           (register example_env create_tables ann_request).1 ann_db
           example_env "secret").
  - vm_compute. reflexivity.
  - vm_compute. reflexivity.
  - reflexivity.
Defined.

(** The databases that requests to the views lead to. *)
Definition served `{Jwt, PasswordHash} : relation database :=
  rtc (λ db db', ∃ ep env req, db' = (handle ep env db req).2).

Lemma served_blacklist `{Jwt, PasswordHash} db db' :
  served db db' → blacklisted_tokens db ⊆ blacklisted_tokens db'.
Proof.
  induction 1 as [|db1 db2 db3 (ep & env & req & ->) _ IH]; [done|].
  etrans; [apply handle_blacklist|done].
Qed.

(** C38: the token of a login that is answered 200 authenticates its user:
    until it expires, while the clock does not go back and the token is
    not blacklisted, the decorator finds the row of the address of the
    login. *)
Theorem login_token_accepted `{Jwt, PasswordHash} env db req resp db' key :
  db_wf db → getenv_SECRET_KEY env = Some key →
  login env db req = (resp, db') → status resp = 200 →
  ∃ u, user_email u = strip (get (get_json req) "email") ∧
       ∀ env', getenv_SECRET_KEY env' = Some key →
               (utcnow env ≤ utcnow env' < utcnow env + 86400)%Z →
               ¬ revoked db' (token_of resp) →
               current_user env' db' ("Bearer " +:+ token_of resp) = Ok (inr u).
Proof.
  intros Hwf Hkey [[[??] _]|(u & [Hu He]%first_by_Some & _ & -> & Hresp)]%login_inv
    Hst; [lia|].
  rewrite Hkey in Hresp. destruct Hresp as [_ Htoken].
  exists (set_last_login u (utcnow env)). split; [done|].
  intros env' Hkey' Hnow Hrev. unfold token_of in *. rewrite Htoken in *.
  apply accepts_signed; try done.
  - by apply (update_user_wf _ u), renames_keep.
  - by apply (update_user_elem_of _ u).
Qed.

Lemma login_token_accepted_witness :
  ∃ u, user_email u = strip (get (get_json ann_request) "email") ∧
       ∀ env', getenv_SECRET_KEY env' = Some "secret" →
               (utcnow example_env ≤ utcnow env' < utcnow example_env + 86400)%Z →
               ¬ revoked ann_login.2 (token_of ann_login.1) →
               current_user env' ann_login.2
                 ("Bearer " +:+ token_of ann_login.1) = Ok (inr u).
Proof.
  apply (login_token_accepted example_env ann_db ann_request).
  - apply ann_db_wf.
  - reflexivity.
  - vm_compute. reflexivity.
  - vm_compute. reflexivity.
Defined.

(** C26: after a logout that is answered 200, every decorated view answers
    a request with the same token 401 and changes nothing, whatever
    requests were served in between and whatever the time. *)
Theorem logout_revokes_token `{Jwt, PasswordHash} env db req resp db1 f env' db2 :
  logout env db req = (resp, db1) → status resp = 200 → served db1 db2 →
  token_required f env' db2 req = (error "Token has been revoked" 401, db2).
Proof.
  intros [[[??] _]|(header & token & u & p & Hreq & Hh & Hacc & _ & _ & ->)]%logout_inv
    Hst Hserved; [lia|].
  apply (token_required_revoked _ _ _ _ header token); [done| |done|].
  - by eapply accepts_header_nonempty.
  - eapply revoked_mono; [by apply served_blacklist|].
    unfold revoked. simpl. rewrite fmap_app. set_solver.
Qed.

(** The database after the logout of Ann. *)
Definition ann_logout : response * database :=
  handle logout_ep example_env ann_login.2 ann_bearer.

Lemma logout_revokes_token_witness :
  token_required (λ _, health_check ann_logout.2) example_env ann_logout.2
    ann_bearer
  = (error "Token has been revoked" 401, ann_logout.2).
Proof.
  apply (logout_revokes_token example_env ann_login.2 ann_bearer ann_logout.1
           ann_logout.2 (λ _, health_check ann_logout.2) example_env
           ann_logout.2).
  - vm_compute. reflexivity.
  - vm_compute. reflexivity.
  - apply rtc_refl.
Defined.

(** ** The blacklist and the cleanup *)

(** Every entry of the blacklist is a token with the expiry of its claims,
    in the local time of a server [tz] seconds ahead of UTC. *)
Definition blacklist_ok `{Jwt} (tz : Z) (db : database) : Prop :=
  Forall (λ t, ∃ p key, jwt_read (bt_token t) = Some (p, key) ∧
                        bt_expires_at t = (p_exp p + tz)%Z)
    (blacklisted_tokens db).

(** The token is of no use at time [now]: it is blacklisted or expired. *)
Definition dead `{Jwt} (now : Z) (db : database) (token : string) : Prop :=
  revoked db token ∨
  ∃ p key, jwt_read token = Some (p, key) ∧ (p_exp p ≤ now)%Z.

(** The steps of the service with its clock, which never goes back: a
    request at the time of its environment, or a run of the cleanup. *)
Inductive tick `{Jwt, PasswordHash} (tz : Z)
    : Z * database → Z * database → Prop :=
  | tick_handle ep env req now db :
      (now ≤ utcnow env)%Z → utc_offset env = tz →
      tick tz (now, db) (utcnow env, (handle ep env db req).2)
  | tick_cleanup now now' db :
      (now ≤ now')%Z → tick tz (now, db) (now', cleanup_expired now' db).

Section cleanup.
Context `{Jwt, PasswordHash}.
Implicit Types (env : environment) (db : database) (req : request).
Implicit Types (token header : string) (tz now : Z).

Lemma dead_not_accepted env db token u :
  dead (utcnow env) db token → ¬ accepts env db token u.
Proof.
  intros [Hrev|(p & key & Hp & Hexp)] (Hnrev & p' & Hdec & _); [done|].
  apply jwt_decode_Ok in Hdec as (key' & _ & Hp' & Hexp').
  rewrite Hp in Hp'. simplify_eq. lia.
Qed.

Lemma dead_mono now now' db db' token :
  (now ≤ now')%Z → blacklisted_tokens db ⊆ blacklisted_tokens db' →
  dead now db token → dead now' db' token.
Proof.
  intros Hnow Hsub [Hrev|(p & key & Hp & Hexp)].
  - left. by eapply revoked_mono.
  - right. exists p, key. split; [done|lia].
Qed.

Lemma dead_later now now' db token :
  (now ≤ now')%Z → dead now db token → dead now' db token.
Proof. intros. by apply (dead_mono now _ db). Qed.

(** When the server is not behind UTC, the cleanup removes only tokens
    that have expired. *)
Lemma cleanup_dead tz now now' db token :
  (0 ≤ tz)%Z → (now ≤ now')%Z → blacklist_ok tz db →
  dead now db token → dead now' (cleanup_expired now' db) token.
Proof.
  intros Htz Hnow Hok [(t & -> & Ht)%list_elem_of_fmap|Hexp].
  - destruct (decide (bt_expires_at t < now')%Z) as [Hlt|Hge].
    + right. eapply Forall_forall in Hok as (p & key & Hp & Hexp); [|done].
      exists p, key. split; [done|lia].
    + left. apply list_elem_of_fmap_2. by apply list_elem_of_filter.
  - destruct Hexp as (p & key & ? & ?). right. exists p, key. split; [done|lia].
Qed.

Lemma handle_blacklist_ok tz ep env db req :
  utc_offset env = tz → blacklist_ok tz db →
  blacklist_ok tz (handle ep env db req).2.
Proof.
  unfold blacklist_ok. intros <- Hok.
  destruct (handle_blacklist_inv ep env db req) as [->|(token & p & Hp & ->)];
    [done|].
  apply Forall_app. split; [done|]. apply Forall_singleton. simpl.
  apply jwt_decode_Ok in Hp as (key & _ & Hp & _). eauto.
Qed.

Lemma cleanup_blacklist_ok tz now db :
  blacklist_ok tz db → blacklist_ok tz (cleanup_expired now db).
Proof. apply Forall_filter. Qed.

(** A dead token stays dead, whatever the service does. *)
Lemma tick_dead tz s s' token :
  (0 ≤ tz)%Z → tick tz s s' →
  blacklist_ok tz s.2 ∧ dead s.1 s.2 token →
  blacklist_ok tz s'.2 ∧ dead s'.1 s'.2 token.
Proof.
  intros Htz [ep env req now db Hnow Henv|now now' db Hnow] [Hok Hdead]; simpl in *.
  - split; [by apply handle_blacklist_ok|].
    by apply (dead_mono now _ db); [|apply handle_blacklist|].
  - split; [by apply cleanup_blacklist_ok|by apply (cleanup_dead tz now)].
Qed.

Lemma run_dead tz s s' token :
  (0 ≤ tz)%Z → rtc (tick tz) s s' →
  blacklist_ok tz s.2 ∧ dead s.1 s.2 token →
  blacklist_ok tz s'.2 ∧ dead s'.1 s'.2 token.
Proof. induction 2; eauto using tick_dead. Qed.

End cleanup.

(** C27: when the server is not behind UTC, a token that was logged out
    stays of no use for ever: whatever requests are served and whenever
    the cleanup runs, every decorated view answers it 401 and changes
    nothing. *)
Theorem revoked_token_stays_dead `{Jwt, PasswordHash}
    tz env db req resp db1 now2 db2 f env' resp' db' :
  (0 ≤ tz)%Z → utc_offset env = tz → blacklist_ok tz db →
  logout env db req = (resp, db1) → status resp = 200 →
  rtc (tick tz) (utcnow env, db1) (now2, db2) → (now2 ≤ utcnow env')%Z →
  token_required f env' db2 req = (resp', db') →
  status resp' = 401 ∧ db' = db2.
Proof.
  intros Htz Henv Hok Hout Hst Hrun Hnow.
  pose proof (handle_blacklist_ok tz logout_ep env db req Henv Hok) as Hok1.
  simpl in Hok1. rewrite Hout in Hok1.
  apply logout_inv in Hout
    as [[[??] _]|(header & token & u & p & Hreq & Hh & _ & _ & _ & ->)]; [lia|].
  destruct (run_dead tz _ _ token Htz Hrun) as [_ Hdead]; simpl in *.
  { split; [done|]. left. unfold revoked. simpl. rewrite fmap_app. set_solver. }
  intros [?|(header' & u' & Hreq' & Hu & _)]%token_required_inv; [done|].
  apply current_user_inr in Hu as (token' & Hh' & Hacc).
  assert (token' = token) as -> by congruence.
  exfalso. eapply dead_not_accepted; [|done].
  by apply (dead_later now2).
Qed.

(** The database a day after the logout of Ann, the cleanup run. *)
Definition later_env : environment :=
  {| utcnow := 90000; utc_offset := 0; getenv_SECRET_KEY := Some "secret";
     salt := "salt" |}.
Definition later_db : database := cleanup_expired 90000 ann_logout.2.

Lemma revoked_token_stays_dead_witness :
  let answer :=
    token_required (λ _, health_check later_db) later_env later_db ann_bearer in
  status answer.1 = 401 ∧ answer.2 = later_db.
Proof.
  apply (revoked_token_stays_dead 0 example_env ann_login.2 ann_bearer
           ann_logout.1 ann_logout.2 90000 later_db
           (λ _, health_check later_db) later_env).
  - lia.
  - reflexivity.
  - vm_compute. constructor.
  - vm_compute. reflexivity.
  - vm_compute. reflexivity.
  - apply rtc_once, tick_cleanup. simpl. lia.
  - simpl. lia.
  - apply surjective_pairing.
Defined.

(** The cleanup forgets a token whose stored expiry is before [now]. *)
Lemma cleanup_not_revoked now db t :
  ¬ revoked db (bt_token t) → (bt_expires_at t < now)%Z →
  ¬ revoked (cleanup_expired now (add_blacklisted db t)) (bt_token t).
Proof.
  intros Hrev Hexp (t' & Heq & [Ht' Hin]%list_elem_of_filter)%list_elem_of_fmap.
  simpl in Hin. apply elem_of_app in Hin as [Hin|Hin%list_elem_of_singleton];
    [|by subst t'].
  apply Hrev. unfold revoked. rewrite Heq. by apply list_elem_of_fmap_2.
Qed.

(** C28: when the server is behind UTC the blacklist forgets tokens too
    early.  [logout] stores the expiry of the token in local time and the
    cleanup compares it with UTC: when the cleanup runs at a time [now]
    after the stored expiry and the token has not expired, the token that
    was logged out (and is answered 401 before the cleanup) is accepted
    again for its user after the cleanup. *)
Theorem cleanup_reopens_revoked_token `{Jwt, PasswordHash}
    env db req header token u p now env' :
  Authorization req = Some header → header_token header = Ok token →
  current_user env db header = Ok (inr u) →
  jwt_decode (utcnow env) token (getenv_SECRET_KEY env) = Ok p →
  getenv_SECRET_KEY env' = getenv_SECRET_KEY env →
  (p_exp p + utc_offset env < now)%Z → (p_iat p ≤ utcnow env' < p_exp p)%Z →
  let out := logout env db req in
  status out.1 = 200 ∧
  current_user env' out.2 header
  = Ok (inl (error "Token has been revoked" 401)) ∧
  current_user env' (cleanup_expired now out.2) header
  = current_user env db header.
Proof.
  intros Hreq Hh Hu Hp Hkey Hexp Hnow out. rewrite Hu.
  assert (out = logout_body env db req) as ->
    by by apply (token_required_accept _ _ _ _ header u).
  apply current_user_inr in Hu as (token' & Hh' & Hacc).
  assert (token' = token) as -> by congruence.
  destruct (logout_body_accepted env db req header token u) as (p' & Hp' & ->);
    [done..|].
  assert (p' = p) as -> by congruence.
  destruct Hacc as (Hrev & p' & Hp'' & Hget). assert (p' = p) as -> by congruence.
  simpl. split_and!; [done| |].
  - apply (current_user_revoked _ _ _ token); [done|].
    unfold revoked. simpl. rewrite fmap_app. set_solver.
  - apply current_user_inr. exists token. split; [done|].
    split; [by apply (cleanup_not_revoked now db (Build_BlacklistedToken _ _ _ _))|].
    exists p. split; [|done]. rewrite Hkey.
    apply jwt_decode_Ok in Hp as (key & ? & ? & ?). apply jwt_decode_Ok. eauto.
Qed.

(** A server five hours behind UTC: Ann logs in and out at time 1000; the
    cleanup runs at time 70000, before her token expires at 87400. *)
Definition west_env (now : Z) : environment :=
  {| utcnow := now; utc_offset := -18000; getenv_SECRET_KEY := Some "secret";
     salt := "salt" |}.
Definition west_logout : response * database :=
  logout (west_env 1000) ann_login.2 ann_bearer.

Lemma cleanup_reopens_revoked_token_witness :
  let header := "Bearer " +:+ token_of ann_login.1 in
  status west_logout.1 = 200 ∧
  current_user (west_env 70000) west_logout.2 header
  = Ok (inl (error "Token has been revoked" 401)) ∧
  current_user (west_env 70000) (cleanup_expired 70000 west_logout.2) header
  = current_user (west_env 1000) ann_login.2 header.
Proof.
  refine (cleanup_reopens_revoked_token (west_env 1000) ann_login.2 ann_bearer
            _ _ _ _ 70000 (west_env 70000) _ _ _ _ _ _ _).
  - reflexivity.
  - vm_compute. reflexivity.
  - vm_compute. reflexivity.
  - vm_compute. reflexivity.
  - reflexivity.
  - vm_compute. reflexivity.
  - split; vm_compute; [discriminate|reflexivity].
Defined.

(** C39: the decorator of the CSV endpoints does not look at the
    blacklist: after a logout that is answered 200, the same request with
    its ['Bearer'] header still reaches every CSV view, as the user of the
    token. *)
Theorem csv_decorator_accepts_revoked `{Jwt, PasswordHash}
    env db req resp db1 header :
  logout env db req = (resp, db1) → status resp = 200 →
  Authorization req = Some header → startswith header "Bearer " = true →
  ∃ user_id, ∀ A (f : nat → result (response * A)) (unchanged : A),
    Csv.token_required f unchanged env req = f user_id.
Proof.
  intros [[[??] _]|(header' & token & u & p & Hreq & Hh & Hacc & Hp & _)]%logout_inv
    Hst Hreq' Hpre; [lia|].
  assert (header' = header) as -> by congruence.
  pose proof (accepts_header_nonempty _ _ _ _ _ Hh Hacc) as Hne.
  unfold header_token in Hh. rewrite Hpre in Hh.
  exists (p_user_id p). intros A f unchanged. unfold Csv.token_required.
  rewrite Hreq. destruct header as [|c header]; [done|]. rewrite Hh.
  pose proof Hp as (key & Hkey & _)%jwt_decode_Ok.
  unfold Csv.SECRET_KEY. rewrite Hkey in *.
  change (default "dev-secret" (Some key)) with key.
  unfold_bind. cbn [res_bind]. by rewrite Hp.
Qed.

Lemma csv_decorator_accepts_revoked_witness :
  ∃ user_id, ∀ A (f : nat → result (response * A)) (unchanged : A),
    Csv.token_required f unchanged example_env ann_bearer = f user_id.
Proof.
  apply (csv_decorator_accepts_revoked example_env ann_login.2 ann_bearer
           ann_logout.1 ann_logout.2 ("Bearer " +:+ token_of ann_login.1)).
  - vm_compute. reflexivity.
  - vm_compute. reflexivity.
  - reflexivity.
  - vm_compute. reflexivity.
Defined.

(** The decorator of the CSV endpoints splits the header at its first
    space without a test: a header without a space, which the decorator of
    the account endpoints reads as a bare token, raises an [IndexError]
    that nothing catches. *)
Theorem csv_decorator_index_error `{Jwt} {A} f (unchanged : A) env req header :
  Authorization req = Some header → header ≠ "" →
  string_exists (λ c, bool_decide (c = SPACE)) header = false →
  Csv.token_required f unchanged env req
  = Raise (IndexError "list index out of range").
Proof.
  intros Hreq Hne Hsp. unfold Csv.token_required, bearer. rewrite Hreq.
  destruct header as [|c header]; [done|]. by rewrite split_on_none.
Qed.

Lemma csv_decorator_index_error_witness :
  Csv.token_required (λ _, Ok (error "unreachable" 500, ())) () example_env
    {| Authorization := Some "token"; get_json := ∅ |}
  = Raise (IndexError "list index out of range").
Proof.
  apply (csv_decorator_index_error _ () example_env _ "token").
  - reflexivity.
  - discriminate.
  - reflexivity.
Defined.

(** ** Passwords *)

(** [validate_password] accepts exactly the passwords of eight
    characters or more with an uppercase letter, a lowercase letter and a
    digit; every other password is refused with a message. *)
Theorem validate_password_outcome password :
  (strong password → validate_password password = (true, "")) ∧
  (¬ strong password →
   ∃ msg, msg ≠ "" ∧ validate_password password = (false, msg)).
Proof.
  pose proof (validate_password_strong password) as Hs.
  pose proof (validate_password_message password) as Hm.
  destruct (validate_password password) as [[] msg]; simpl in *.
  - split; [intros _; f_equal; by apply Hm|]. intros []. by apply Hs.
  - split; [by intros ?%Hs|]. intros _. exists msg. split; [|done].
    by intros ?%Hm.
Qed.

Lemma validate_password_outcome_witness :
  validate_password "Passw0rdX" = (true, "") ∧
  ∃ msg, msg ≠ "" ∧ validate_password "password" = (false, msg).
Proof.
  split.
  - apply (validate_password_outcome "Passw0rdX"). split_and!; compute_done.
  - apply (validate_password_outcome "password").
    intros (_ & Hup & _). vm_compute in Hup. discriminate.
Defined.

(** After a change of password that is answered 200, a login to the
    account is answered 401 exactly when its password is not the new
    one. *)
Theorem change_password_replaces `{Jwt, PasswordHash} env db req resp db1 :
  db_wf db → change_password env db req = (resp, db1) → status resp = 200 →
  ∃ u, u ∈ users db ∧
    ∀ env' req',
      strip (get (get_json req') "email") = user_email u →
      user_email u ≠ "" → get (get_json req') "password" ≠ "" →
      (status (login env' db1 req').1 = 401 ↔
       get (get_json req') "password" ≠ get (get_json req) "new_password").
Proof.
  intros Hwf [[[??] _]|(header & u & _ & Hu%current_user_elem_of & _ & _ & _ & ->)]
    %change_password_inv Hst; [lia|].
  exists u. split; [done|]. intros env' req' He Hne Hpw.
  set (u' := set_password u _).
  assert (db_wf (update_user db u')) as [] by by apply (update_user_wf _ u), renames_keep.
  unfold login. rewrite He, decide_False by (by intros [?|?]).
  rewrite (first_by_unique _ user_email _ u'); [|done| |done].
  2:{ by apply (update_user_elem_of _ u). }
  simpl. destruct (check_password_hash _ _) eqn:Hck; simpl.
  - apply check_generate in Hck. split; [|done].
    destruct (jwt_encode _ _); simpl; lia.
  - split; [|done]. intros _ Heq. rewrite Heq in Hck.
    by rewrite (proj2 (check_generate _ _ _)) in Hck.
Qed.

(** The request of Ann for a new password, and a login with the old one. *)
Definition ann_change : request :=
  {| Authorization := Authorization ann_bearer;
     get_json := {[ "current_password" := "Passw0rdX";
                    "new_password" := "N3wPassword" ]} |}.

Lemma ann_login_wf : db_wf ann_login.2.
Proof. apply handle_wf, ann_db_wf. Qed.

Lemma change_password_replaces_witness :
  ∃ u, u ∈ users ann_login.2 ∧
    ∀ env' req',
      strip (get (get_json req') "email") = user_email u →
      user_email u ≠ "" → get (get_json req') "password" ≠ "" →
      (status (login env'
                 (change_password example_env ann_login.2 ann_change).2 req').1
       = 401 ↔
       get (get_json req') "password" ≠ get (get_json ann_change) "new_password").
Proof.
  apply (change_password_replaces example_env ann_login.2 ann_change
           (change_password example_env ann_login.2 ann_change).1).
  - apply ann_login_wf.
  - vm_compute. reflexivity.
  - vm_compute. reflexivity.
Defined.

(** ** Logins that go wrong *)

(** When the secret of the process is not set, a login with the right
    password is answered 500, and yet the time of the login is committed
    to the row of the user. *)
Theorem login_without_secret_commits `{Jwt, PasswordHash} env db req u :
  getenv_SECRET_KEY env = None →
  first_by (λ v, user_email v = strip (get (get_json req) "email")) (users db)
  = Some u →
  user_email u ≠ "" → get (get_json req) "password" ≠ "" →
  check_password_hash (user_password u) (get (get_json req) "password") = true →
  status (login env db req).1 = 500 ∧
  (login env db req).2 = update_user db (set_last_login u (utcnow env)).
Proof.
  intros Hkey Hu Hne Hpw Hck. unfold login.
  pose proof Hu as [_ He]%first_by_Some.
  assert (strip (get (get_json req) "email") ≠ "") by congruence.
  rewrite decide_False by (by intros [?|?]). by rewrite Hu, Hck, Hkey.
Qed.

Definition no_secret_env : environment :=
  {| utcnow := 2000; utc_offset := 0; getenv_SECRET_KEY := None;
     salt := "salt" |}.

Lemma login_without_secret_commits_witness :
  status (login no_secret_env ann_db ann_request).1 = 500 ∧
  (login no_secret_env ann_db ann_request).2 ≠ ann_db.
Proof.
  destruct (login_without_secret_commits no_secret_env ann_db ann_request
              (Build_User 1 "ann@example.com" "ann" "Passw0rdX" 1000 None))
    as [Hst Hdb].
  - reflexivity.
  - vm_compute. reflexivity.
  - discriminate.
  - vm_compute. discriminate.
  - vm_compute. reflexivity.
  - split; [done|]. rewrite Hdb. vm_compute. discriminate.
Defined.

(** A login can issue a token that is blacklisted already: the token
    is a function of the user and the second of the login, so a login, a
    logout and a second login within one second give the token of the
    first login, which every decorated view turns away. *)
Theorem login_can_issue_revoked_token :
  let again := login example_env ann_logout.2 ann_request in
  status ann_logout.1 = 200 ∧ status again.1 = 200 ∧
  token_of again.1 = token_of ann_login.1 ∧
  get_profile example_env again.2 ann_bearer
  = (error "Token has been revoked" 401, again.2).
Proof. split_and!; vm_compute; reflexivity. Qed.
