(* ===== verification/AuthEquiv.v ===== *)
(** * AuthEquiv: the order of the rows does not matter

    A table of the database is a list of rows in the model and a set of
    rows in SQL: a query without [ORDER BY] may meet the rows in any
    order.  Two databases are equivalent ([≡]) when their tables hold
    the same rows, in any order.  The operations on the tables respect
    the equivalence ([Proper] instances), and on a well-formed database
    every query of the views is a query by a unique column, so its
    answer does not depend on the order ([first_by_Permutation]).

    Hence equivalent databases are bisimilar: every view gives the same
    response on both and leaves them equivalent ([handle_equiv]), and
    the responses to any sequence of requests and clean-ups are the same
    ([answers_order_independent]). *)

From S2P Require Import Prelude Strings Regex Auth AuthSpec.

(** ** Equivalent databases *)

#[global] Instance database_equiv : Equiv database := λ db1 db2,
  users db1 ≡ₚ users db2 ∧ blacklisted_tokens db1 ≡ₚ blacklisted_tokens db2.

#[global] Instance database_equivalence : Equivalence (≡@{database}).
Proof.
  split.
  - by split.
  - by intros ?? [].
  - intros ??? [] []. split; by etrans.
Qed.

(** A response with the database after it, up to the order of the
    rows. *)
Definition same_answer : relation (response * database) :=
  prod_relation (=) (≡).

#[global] Instance same_answer_equivalence : Equivalence same_answer.
Proof. apply prod_relation_equiv; apply _. Qed.

#[global] Instance max_list_Permutation : Proper ((≡ₚ) ==> (=)) max_list.
Proof. induction 1; simpl; lia. Qed.

Section operations.
Implicit Types (db : database) (u : User) (t : BlacklistedToken).

#[global] Instance users_proper : Proper ((≡) ==> (≡ₚ)) users.
Proof. by intros ?? []. Qed.

#[global] Instance blacklisted_tokens_proper :
  Proper ((≡) ==> (≡ₚ)) blacklisted_tokens.
Proof. by intros ?? []. Qed.

#[global] Instance db_wf_proper : Proper ((≡) ==> iff) db_wf.
Proof.
  assert (∀ db1 db2, db1 ≡ db2 → db_wf db1 → db_wf db2) as Himpl.
  { intros db1 db2 [Hu Ht] []. split; by rewrite <-?Hu, <-?Ht. }
  intros db1 db2 Heq. split; apply Himpl; done.
Qed.

#[global] Instance next_id_proper : Proper ((≡) ==> (=)) next_id.
Proof. intros db1 db2 [Hu _]. unfold next_id. by rewrite Hu. Qed.

#[global] Instance next_token_id_proper : Proper ((≡) ==> (=)) next_token_id.
Proof. intros db1 db2 [_ Ht]. unfold next_token_id. by rewrite Ht. Qed.

#[global] Instance add_user_proper : Proper ((≡) ==> (=) ==> (≡)) add_user.
Proof. intros db1 db2 [Hu Ht] u ? <-. split; simpl; by rewrite ?Hu. Qed.

#[global] Instance update_user_proper : Proper ((≡) ==> (=) ==> (≡)) update_user.
Proof. intros db1 db2 [Hu Ht] u ? <-. split; simpl; by rewrite ?Hu. Qed.

#[global] Instance add_blacklisted_proper :
  Proper ((≡) ==> (=) ==> (≡)) add_blacklisted.
Proof. intros db1 db2 [Hu Ht] t ? <-. split; simpl; by rewrite ?Ht. Qed.

#[global] Instance cleanup_expired_proper now :
  Proper ((≡) ==> (≡)) (cleanup_expired now).
Proof. intros db1 db2 [Hu Ht]. split; simpl; by rewrite ?Ht. Qed.

#[global] Instance revoked_proper : Proper ((≡) ==> (=) ==> iff) revoked.
Proof. intros db1 db2 [_ Ht] token ? <-. unfold revoked. by rewrite Ht. Qed.

End operations.

(** ** Queries by a unique column *)

(** The first row with the value [k] in a column without duplicates is
    the same in whatever order the rows are met. *)
Lemma first_by_Permutation {A B} `{EqDecision B} (f : A → B) (k : B)
    (l l' : list A) :
  NoDup (f <$> l) → l ≡ₚ l' →
  first_by (λ x, f x = k) l = first_by (λ x, f x = k) l'.
Proof.
  intros Hnd Hl. destruct (first_by _ l) as [x|] eqn:Hx; symmetry.
  - apply first_by_Some in Hx as [Hx Hk].
    apply (first_by_unique _ f); [by rewrite <-Hl..|].
    intros y. by rewrite Hk.
  - rewrite first_by_None in *. by rewrite <-Hl.
Qed.

(** ** The views on equivalent databases *)

Section views.
Context `{Jwt, PasswordHash}.
Variables (db1 db2 : database).
Hypothesis db1_wf : db_wf db1.
Hypothesis db1_db2 : db1 ≡ db2.
Implicit Types (env : environment) (req : request) (u : User).

(** The same response, and equivalent databases. *)
Local Ltac same := split; simpl; [done|first [done|by f_equiv]].

Lemma get_user_equiv i : get_user db1 i = get_user db2 i.
Proof.
  apply (first_by_Permutation user_id); [apply db1_wf|by rewrite db1_db2].
Qed.

Lemma by_email_equiv email :
  first_by (λ u, user_email u = email) (users db1)
  = first_by (λ u, user_email u = email) (users db2).
Proof.
  apply (first_by_Permutation user_email); [apply db1_wf|by rewrite db1_db2].
Qed.

Lemma by_username_equiv username :
  first_by (λ u, user_username u = username) (users db1)
  = first_by (λ u, user_username u = username) (users db2).
Proof.
  apply (first_by_Permutation user_username); [apply db1_wf|by rewrite db1_db2].
Qed.

Lemma by_token_equiv token :
  first_by (λ t, bt_token t = token) (blacklisted_tokens db1)
  = first_by (λ t, bt_token t = token) (blacklisted_tokens db2).
Proof.
  apply (first_by_Permutation bt_token); [apply db1_wf|by rewrite db1_db2].
Qed.

Lemma current_user_equiv env token :
  current_user env db1 token = current_user env db2 token.
Proof.
  unfold current_user. destruct (header_token token) as [t|]; [simpl|done].
  rewrite by_token_equiv. destruct (first_by _ _); [done|].
  destruct (jwt_decode _ _ _); [simpl|done]. by rewrite get_user_equiv.
Qed.

(** The decorator: the same user is found, or the same response is
    given. *)
Lemma token_required_equiv f1 f2 env req :
  (∀ u, same_answer (f1 u) (f2 u)) →
  same_answer (token_required f1 env db1 req) (token_required f2 env db2 req).
Proof.
  intros Hf. unfold token_required.
  destruct (Authorization req) as [[|c token]|]; [same| |same].
  rewrite current_user_equiv. repeat case_match; first [apply Hf|same].
Qed.

Lemma register_equiv env req :
  same_answer (register env db1 req) (register env db2 req).
Proof.
  unfold register. rewrite by_email_equiv, by_username_equiv.
  rewrite (next_id_proper _ _ db1_db2). repeat case_match; same.
Qed.

Lemma login_equiv env req :
  same_answer (login env db1 req) (login env db2 req).
Proof. unfold login. rewrite by_email_equiv. repeat case_match; same. Qed.

Lemma logout_body_equiv env req :
  same_answer (logout_body env db1 req) (logout_body env db2 req).
Proof.
  unfold logout_body, commit_blacklisted.
  destruct (header_token _) as [t|]; [simpl|same].
  destruct (jwt_decode _ _ _); simpl; [|same].
  rewrite by_token_equiv, (next_token_id_proper _ _ db1_db2).
  destruct (first_by _ _); same.
Qed.

Lemma update_username_equiv data u :
  update_username db1 data u = update_username db2 data u.
Proof.
  unfold update_username. destruct (data !! "username"); [cbv zeta|done].
  by rewrite by_username_equiv.
Qed.

Lemma update_email_equiv data u :
  update_email db1 data u = update_email db2 data u.
Proof.
  unfold update_email. destruct (data !! "email"); [cbv zeta|done].
  by rewrite by_email_equiv.
Qed.

Lemma logout_equiv env req :
  same_answer (logout env db1 req) (logout env db2 req).
Proof. apply token_required_equiv. intros _. apply logout_body_equiv. Qed.

Lemma refresh_token_equiv env req :
  same_answer (refresh_token env db1 req) (refresh_token env db2 req).
Proof.
  apply token_required_equiv. intros u. destruct (jwt_encode _ _); same.
Qed.

Lemma get_profile_equiv env req :
  same_answer (get_profile env db1 req) (get_profile env db2 req).
Proof. apply token_required_equiv. intros u. same. Qed.

Lemma update_profile_equiv env req :
  same_answer (update_profile env db1 req) (update_profile env db2 req).
Proof.
  apply token_required_equiv. intros u. cbv zeta.
  rewrite update_username_equiv. destruct (update_username _ _ _); [same|].
  rewrite update_email_equiv. destruct (update_email _ _ _); same.
Qed.

Lemma change_password_equiv env req :
  same_answer (change_password env db1 req) (change_password env db2 req).
Proof.
  apply token_required_equiv. intros u. cbv zeta. repeat case_match; same.
Qed.

(** Every view gives the same response on equivalent databases, and
    leaves them equivalent. *)
Lemma handle_equiv ep env req :
  same_answer (handle ep env db1 req) (handle ep env db2 req).
Proof.
  destruct ep; cbv [handle];
    auto using register_equiv, login_equiv, logout_equiv, refresh_token_equiv,
      get_profile_equiv, update_profile_equiv, change_password_equiv.
  same.
Qed.

End views.

(** ** Bisimilar databases *)

(** What happens to the database: a request to a view, or a run of
    [cleanup_expired]. *)
Inductive action : Type :=
  | Call (ep : endpoint) (env : environment) (req : request)
  | Clean (now : Z).

Section answers.
Context `{Jwt, PasswordHash}.

(** The responses of the service to the requests of [acts], from the
    database [db]. *)
Fixpoint answers (db : database) (acts : list action) : list response :=
  match acts with
  | [] => []
  | Call ep env req :: acts =>
      (handle ep env db req).1 :: answers (handle ep env db req).2 acts
  | Clean now :: acts => answers (cleanup_expired now db) acts
  end.

End answers.

Definition ann : User :=
  {| user_id := 1; user_email := "ann@example.com"; user_username := "ann";
     user_password := generate_password_hash "s" "Passw0rdX";
     user_created_at := 0; user_last_login := None |}.

Definition bob : User :=
  {| user_id := 2; user_email := "bob@example.org"; user_username := "bob";
     user_password := generate_password_hash "s" "Hidden456";
     user_created_at := 5; user_last_login := None |}.

Definition ann_first : database := {| users := [ann; bob]; blacklisted_tokens := [] |}.
Definition bob_first : database := {| users := [bob; ann]; blacklisted_tokens := [] |}.

(** A login of each user, a registration under a name that is taken, a
    clean-up and a second login. *)
Definition session : list action :=
  [Call login_ep example_env
     {| Authorization := None;
        get_json := {[ "email" := "bob@example.org"; "password" := "Hidden456" ]} |};
   Call register_ep example_env
     {| Authorization := None;
        get_json := {[ "email" := "cy@example.org"; "username" := "ann";
                       "password" := "Longer789" ]} |};
   Clean 100;
   Call login_ep example_env ann_request].

Lemma ann_first_bob_first : db_wf ann_first ∧ ann_first ≡ bob_first.
Proof.
  split; [split; simpl; apply (bool_decide_unpack _); by vm_compute|].
  split; simpl; [apply Permutation_swap|done].
Qed.

(** C24: the answers of the account endpoints do not depend on the order
    in which the tables hold their rows.  From two well-formed databases
    with the same rows, every sequence of requests and clean-ups is
    answered with the same responses: on a well-formed database every
    query of the views is by a unique column, and every write keeps the
    tables equivalent. *)
Theorem answers_order_independent `{Jwt, PasswordHash} db1 db2 acts :
  db_wf db1 → db1 ≡ db2 → answers db1 acts = answers db2 acts.
Proof.
  revert db1 db2. induction acts as [|[ep env req|now] acts IH];
    intros db1 db2 Hwf Heq; [done|..]; simpl.
  - destruct (handle_equiv db1 db2 Hwf Heq ep env req) as [Hresp Hdb].
    f_equal; [done|]. apply IH; [by apply handle_wf|done].
  - apply IH; [by apply cleanup_expired_wf|by f_equiv].
Qed.

Lemma answers_order_independent_witness :
  answers ann_first session = answers bob_first session.
Proof.
  apply answers_order_independent; apply ann_first_bob_first.
Defined.

(** The invariant is needed: when two rows share an address, the row
    that [first()] finds, and with it the answer of [login], depends on
    the order of the table. *)
Definition twin : User :=
  {| user_id := 2; user_email := "ann@example.com"; user_username := "twin";
     user_password := generate_password_hash "s" "Hidden456";
     user_created_at := 5; user_last_login := None |}.

Lemma answers_depend_on_order_without_wf :
  let db1 := {| users := [ann; twin]; blacklisted_tokens := [] |} in
  let db2 := {| users := [twin; ann]; blacklisted_tokens := [] |} in
  db1 ≡ db2
  ∧ status <$> answers db1 [Call login_ep example_env ann_request] = [200]
  ∧ status <$> answers db2 [Call login_ep example_env ann_request] = [401].
Proof.
  split_and!; [|by vm_compute..]. split; simpl; [apply Permutation_swap|done].
Qed.
