(* ===== verification/Views.v ===== *)
(** * Views: the CSV endpoints

    The views of src/server/controllers/csv_controller.py (lines 293-509):
    [upload_csv], [preprocess_csv], [get_task_status],
    [download_processed_csv] and [analyze_csv], behind the decorator
    [Csv.token_required] of [Auth].

    The state of the service is the record [server]: the files of the
    upload folder, the two families of keys of the Redis store (the file
    records [csv_file:...], which live 7200 seconds, and the progress
    records [progress:...]) and the jobs of the queue.  A view is a
    function from the site (the folder of the server and the clock), the
    state and the data of the request to the response and the state after
    it.  The worker of the queue is the step [work], which runs
    [preprocess_csv_task_chunked] on the arguments of a queued job.

    Library code is modelled from its documentation: werkzeug's
    [secure_filename], the rows [DataFrame.iterrows] yields (a row has the
    common type of the columns, so the cells of a frame with columns of
    several types are Python objects), the statistics of a column, and the
    identifiers of the jobs, which are the numbers of the jobs in the
    order they are enqueued instead of random UUIDs, and the time the key
    of a job lives.  A response that
    sends a file is the record of its fields. *)

From Stdlib Require Import QArith Qcanon.
From stdpp Require Import pretty sorting.
From S2P Require Import Prelude Strings Numbers Value Frame Reader.
From S2P Require Import Analyzer Transform Auth.

(** ** Configuration *)

(** The folder of the server and the clock of the request:
    [datetime.now()] in the two formats the view writes. *)
Record site : Type := Site {
  BASE_DIR : string;
  now_strftime : string;
  now_isoformat : string;
}.

Definition UPLOAD_FOLDER (st : site) : string := BASE_DIR st +:+ "/uploads".

Definition MAX_FILE_SIZE : Z := 100 * 1024 * 1024.

(** ** [secure_filename] *)

Fixpoint string_filter (p : ascii → bool) (s : string) : string :=
  match s with
  | EmptyString => EmptyString
  | String c s' => if p c then String c (string_filter p s') else string_filter p s'
  end.

(** [s.lstrip(chars)] and [s.rstrip(chars)], for the characters that
    satisfy [p]. *)
Fixpoint lstrip_of (p : ascii → bool) (s : string) : string :=
  match s with
  | EmptyString => EmptyString
  | String c s' => if p c then lstrip_of p s' else s
  end.

Fixpoint rstrip_of (p : ascii → bool) (s : string) : string :=
  match s with
  | EmptyString => EmptyString
  | String c s' =>
      match rstrip_of p s' with
      | EmptyString => if p c then EmptyString else String c EmptyString
      | t => String c t
      end
  end.

(** [s.split()]: the words between runs of white space. *)
Definition words (s : string) : list string :=
  filter (λ w, w ≠ EmptyString)
    (split_on SPACE (string_map (λ c, if is_space c then SPACE else c) s)).

(** The characters [secure_filename] keeps: [A-Za-z0-9_.-]. *)
Definition filename_char (c : ascii) : bool :=
  is_upper c || is_lower c || is_digit c
  || bool_decide (c = "_"%char) || bool_decide (c = DOT) || bool_decide (c = "-"%char).

Definition dot_or_underscore (c : ascii) : bool :=
  bool_decide (c = DOT) || bool_decide (c = "_"%char).

Definition secure_filename (filename : string) : string :=
  let filename := replace_char "/" SPACE filename in
  let filename := string_filter filename_char (join_with "_" (words filename)) in
  lstrip_of dot_or_underscore (rstrip_of dot_or_underscore filename).

(** ** The state of the service *)

(** The file of a multipart request. *)
Record upload : Type := Upload {
  up_filename : string;
  up_content : string;
}.

(** [file_metadata], the value of a key [csv_file:...]. *)
Record file_metadata : Type := FileMetadata {
  fm_original_filename : string;
  fm_file_path : string;
  fm_uploaded_at : string;
  fm_user_id : nat;
  fm_file_size : nat;
}.

(** A job of the queue: its arguments, where it stands, and the seconds
    its key has to live; the key of a queued job does not expire. *)
Inductive job_status : Type :=
  | Queued
  | Finished (result : transform_result)
  | Failed (exc_info : string).

Record job : Type := Job {
  job_args : string * options;
  job_status_of : job_status;
  job_ttl : option nat;
}.

(** [sv_enqueued] is the number of jobs enqueued so far, and the
    identifier of the next one. *)
Record server : Type := Server {
  sv_fs : filesystem;
  sv_files : store file_metadata;
  sv_progress : redis;
  sv_jobs : gmap string job;
  sv_enqueued : nat;
}.

#[global] Instance file_metadata_eq_dec : EqDecision file_metadata.
Proof. solve_decision. Defined.
#[global] Instance job_status_eq_dec : EqDecision job_status.
Proof. solve_decision. Defined.
#[global] Instance job_eq_dec : EqDecision job.
Proof. solve_decision. Defined.

Definition set_fs (sv : server) (fs : filesystem) : server :=
  {| sv_fs := fs; sv_files := sv_files sv; sv_progress := sv_progress sv;
     sv_jobs := sv_jobs sv; sv_enqueued := sv_enqueued sv |}.

(** [os.remove(file_path)] *)
Definition remove (sv : server) (file_path : string) : server :=
  set_fs sv (delete file_path (sv_fs sv)).

(** ** JSON of the values the views return *)

Definition atom_json (a : atom) : jsonv :=
  match a with
  | ANaN => JNaN
  | AInt z => JNum z
  | AFloat q => JReal q
  | ABool b => JBoolean b
  | AStr s => JString s
  end.

Definition value_json (j : json) : jsonv :=
  match j with
  | JNull => JNone
  | JInt z => JNum z
  | JFloat q => JReal q
  | JList items => JArray (atom_json <$> items)
  | JBool b => JBoolean b
  | JStr s => JString s
  end.

(** A float given in hundredths. *)
Definition hundredths (z : Z) : jsonv := JReal (Q2Qc (z # 100)).

Definition column_analysis_json (ca : column_analysis) : jsonv :=
  JObject [("dtype", JString (ca_dtype ca));
           ("missing_count", JNum (Z.of_nat (ca_missing_count ca)));
           ("missing_percentage", hundredths (ca_missing_percentage ca));
           ("unique_values",
            match ca_unique_values ca with
            | Exactly n => JNum (Z.of_nat n)
            | Capped => JString "1000+"
            end);
           ("sample_values", JArray (value_json <$> ca_sample_values ca))].

(** The fields of the quality report. *)
Definition quality_report_fields (qr : quality_report) : list (string * jsonv) :=
  [("total_rows", JNum (Z.of_nat (qr_total_rows qr)));
   ("total_columns", JNum (Z.of_nat (qr_total_columns qr)));
   ("total_cells", JNum (Z.of_nat (qr_total_cells qr)));
   ("missing_cells", JNum (Z.of_nat (qr_missing_cells qr)));
   ("missing_percentage", hundredths (qr_missing_percentage qr));
   ("column_analysis",
    JObject (prod_map id column_analysis_json
             <$> map_to_list (qr_column_analysis qr)));
   ("duplicate_rows", JNum (qr_duplicate_rows qr));
   ("memory_usage", hundredths (qr_memory_usage qr));
   ("is_large_file", JBoolean (qr_is_large_file qr))].

(** The dict the task returns. *)
Definition transform_result_json (res : transform_result) : jsonv :=
  match res with
  | Success output_path rows_processed rows_removed columns =>
      JObject ([("status", JString "success");
                ("output_path", JString output_path);
                ("rows_processed", JNum (Z.of_nat rows_processed))]
               ++ from_option (λ n, [("rows_removed", JNum (Z.of_nat n))]) []
                    rows_removed
               ++ [("columns", JArray (JString <$> columns))])
  | Error msg => JObject [("status", JString "error"); ("error", JString msg)]
  end.

(** ** [upload_csv] *)

(** [pd.read_csv(file_path, nrows=10, engine="python",
    on_bad_lines="skip")] *)
Definition read_csv_preview (fs : filesystem) (file_path : string)
    : result frame :=
  '(header, data) ← open_csv fs file_path;
  Ok (typed_frame header (omap (split_row (length header)) (take 10 data))).

(** [pd.DataFrame()] *)
Definition empty_frame : frame := {| columns := []; dtypes := []; rows := [] |}.

(** A cell of an array of Python objects: a numpy scalar becomes the
    Python scalar.  Of a Python float only [str()] is used. *)
Definition boxed (v : py_value) : py_value :=
  match v with
  | NpInt z => PyInt z
  | NpFloat q => PyObject (float_text q)
  | NpBool b => PyBool b
  | _ => v
  end.

(** The cell of an array of floats. *)
Definition as_float (v : py_value) : py_value :=
  match v with NpInt z => NpFloat (Q2Qc (inject_Z z)) | _ => v end.

(** The rows [DataFrame.iterrows] yields: a row is a Series of the common
    type of the columns. *)
Definition iterrows (df : frame) : list (list py_value) :=
  match dtypes df with
  | [] => rows df
  | dt :: dts =>
      if forallb (λ d, bool_decide (d = dt)) dts then
        if bool_decide (dt = Object) then (λ row : list py_value, boxed <$> row) <$> rows df else rows df
      else if forallb is_number (dt :: dts) then (λ row : list py_value, as_float <$> row) <$> rows df
      else (λ row : list py_value, boxed <$> row) <$> rows df
  end.

(** A record of the preview: [record[col] = safe_convert_value(row[col])]
    for every column. *)
Definition preview_record (cols : list string) (row : list py_value)
    : result (list (string * json)) :=
  foldl_res (λ record j,
               value ← safe_convert_value (cell j row);
               Ok (record ++ [(default "" (cols !! j), value)]))
    [] (seq 0 (length cols)).

Definition preview_records (preview_df : frame)
    : result (list (list (string * json))) :=
  foldl_res (λ records row,
               record ← preview_record (columns preview_df) row;
               Ok (records ++ [record]))
    [] (iterrows preview_df).

(** The body of the [try] block of [upload_csv], after the file is saved
    and its size is checked. *)
Definition upload_body (st : site) (sv : server) (filename unique_filename
    file_path : string) (file_size user_id : nat) : result (response * server) :=
  let preview_df :=
    try (read_csv_preview (sv_fs sv) file_path) except (λ _, empty_frame) in
  records ← preview_records preview_df;
  quality_report ← analyze_csv_quality_chunked (sv_fs sv) file_path 10000;
  let file_metadata :=
    {| fm_original_filename := filename; fm_file_path := file_path;
       fm_uploaded_at := now_isoformat st; fm_user_id := user_id;
       fm_file_size := file_size |} in
  Ok (jsonify [("message", JString "File uploaded successfully");
               ("file_id", JString unique_filename);
               ("file_size_mb",
                hundredths (div_half_even (Z.of_nat file_size * 100) (1024 * 1024)));
               ("preview",
                JArray ((λ record, JObject (prod_map id value_json <$> record))
                        <$> records));
               ("quality_report", JObject (quality_report_fields quality_report));
               ("is_large_file", JBoolean (qr_is_large_file quality_report))] 200,
      {| sv_fs := sv_fs sv;
         sv_files := setex (sv_files sv) ("csv_file:" +:+ unique_filename) 7200
                       file_metadata;
         sv_progress := sv_progress sv; sv_jobs := sv_jobs sv;
         sv_enqueued := sv_enqueued sv |}).

Definition upload_csv (st : site) (sv : server) (file : option upload)
    (user_id : nat) : response * server :=
  match file with
  | None => (error "No file provided" 400, sv)
  | Some file =>
      if decide (up_filename file = "") then (error "No file selected" 400, sv)
      else if negb (allowed_file (up_filename file)) then
        (error "Invalid file type. Only CSV files are allowed" 400, sv)
      else
        let filename := secure_filename (up_filename file) in
        let timestamp := now_strftime st in
        let unique_filename :=
          pretty user_id +:+ "_" +:+ timestamp +:+ "_" +:+ filename in
        let file_path := UPLOAD_FOLDER st +:+ "/" +:+ unique_filename in
        let sv := set_fs sv (<[file_path := up_content file]> (sv_fs sv)) in
        let file_size := String.length (up_content file) in
        if decide (MAX_FILE_SIZE < Z.of_nat file_size)%Z then
          (error "File size exceeds 100.0MB limit" 400, remove sv file_path)
        else
          match upload_body st sv filename unique_filename file_path file_size
                  user_id with
          | Ok answer => answer
          | Raise (EmptyDataError _) =>
              (error "CSV file is empty" 400, remove sv file_path)
          | Raise (ParserError msg) =>
              (error ("Invalid CSV format: " +:+ msg) 400, remove sv file_path)
          | Raise e =>
              (error ("Upload failed: " +:+ exn_str e) 500, remove sv file_path)
          end
  end.

(** ** [preprocess_csv] *)

(** The identifier of the next job. *)
Definition next_job_id (sv : server) : string := pretty (sv_enqueued sv).

(** The seconds a job may run, and the seconds its result is kept. *)
Definition JOB_TIMEOUT : nat := 30 * 60.
Definition RESULT_TTL : nat := 3600.

(** [task_queue.enqueue(preprocess_csv_task_chunked, file_path, options,
    job_timeout='30m', result_ttl=3600)] *)
Definition enqueue (sv : server) (file_path : string) (opts : options)
    : string * server :=
  let task_id := next_job_id sv in
  (task_id,
   {| sv_fs := sv_fs sv; sv_files := sv_files sv; sv_progress := sv_progress sv;
      sv_jobs := <[task_id := {| job_args := (file_path, opts);
                                 job_status_of := Queued;
                                 job_ttl := None |}]> (sv_jobs sv);
      sv_enqueued := S (sv_enqueued sv) |}).

(** The options of a request without the key ['options']. *)
Definition default_options : options :=
  {| handle_missing := ""; trim_whitespace := false; convert_types := false;
     standardize_columns := false; remove_duplicates := false |}.

Definition preprocess_csv (sv : server) (file_id : option string)
    (opts : option options) (user_id : nat) : response * server :=
  let opts := default default_options opts in
  match file_id with
  | None | Some EmptyString => (error "File ID is required" 400, sv)
  | Some file_id =>
      match redis_get (sv_files sv) ("csv_file:" +:+ file_id) with
      | None => (error "File not found or expired" 404, sv)
      | Some file_metadata =>
          let file_path := fm_file_path file_metadata in
          let '(task_id, sv) := enqueue sv file_path opts in
          (jsonify [("message", JString "Preprocessing started");
                    ("task_id", JString task_id);
                    ("status", JString "queued");
                    ("estimated_time",
                     JString "This may take several minutes for large files")]
             202, sv)
      end
  end.

(** ** The worker *)

(** The worker takes the job [task_id] when it is queued and runs the
    task; the result of the task is the result of the job, which is kept
    for [RESULT_TTL] seconds. *)
Definition work (sv : server) (task_id : string) : server :=
  match sv_jobs sv !! task_id with
  | Some {| job_args := (file_path, opts); job_status_of := Queued |} =>
      let '(res, fs, r) :=
        preprocess_csv_task_chunked (sv_fs sv) (sv_progress sv) file_path opts in
      {| sv_fs := fs; sv_files := sv_files sv; sv_progress := r;
         sv_jobs := <[task_id := {| job_args := (file_path, opts);
                                    job_status_of := Finished res;
                                    job_ttl := Some RESULT_TTL |}]>
                      (sv_jobs sv);
         sv_enqueued := sv_enqueued sv |}
  | _ => sv
  end.

(** ** [get_task_status] *)

(** [Job.fetch] raises [NoSuchJobError] for an identifier without a job,
    and the view answers 404 with its text.  The [progress] of the meta
    data of a job is never set: it is 0. *)

Definition get_task_status (sv : server) (task_id : string) (user_id : nat)
    : response * server :=
  match sv_jobs sv !! task_id with
  | None => (error ("Task not found: No such job: rq:job:" +:+ task_id) 404, sv)
  | Some job =>
      match job_status_of job with
      | Finished result =>
          (jsonify [("status", JString "completed");
                    ("result", transform_result_json result)] 200, sv)
      | Failed exc_info =>
          (jsonify [("status", JString "failed");
                    ("error", JString exc_info)] 200, sv)
      | Queued =>
          (jsonify [("status", JString "processing");
                    ("progress", JNum 0);
                    ("rows_processed",
                     JNum (Z.of_nat (progress_rows (sv_progress sv)
                                       (job_args job).1)))] 200, sv)
      end
  end.

(** ** [download_processed_csv] *)

(** [send_file(path, mimetype=..., as_attachment=True,
    download_name=...)]: the response, as the record of its fields and of
    the text it sends. *)
Definition send_file (fs : filesystem) (path mimetype download_name : string)
    : response :=
  jsonify [("file", JString (default "" (fs !! path)));
           ("mimetype", JString mimetype);
           ("download_name", JString download_name)] 200.

Definition download_processed_csv (sv : server) (file_id : string)
    (user_id : nat) : response * server :=
  match redis_get (sv_files sv) ("csv_file:" +:+ file_id) with
  | None => (error "File not found or expired" 404, sv)
  | Some file_metadata =>
      let file_path :=
        replace ".csv" "_processed.csv" (fm_file_path file_metadata) in
      if decide (is_Some (sv_fs sv !! file_path)) then
        (send_file (sv_fs sv) file_path "text/csv"
           ("processed_" +:+ fm_original_filename file_metadata), sv)
      else (error "Processed file not found" 404, sv)
  end.

(** ** [analyze_csv] *)

Definition float_json (v : py_value) : jsonv :=
  match number v with Some q => JReal q | None => JNaN end.

(** [Series.min()] and [Series.max()] *)
Definition series_min (s : series) : py_value :=
  match merge_sort Qcle (omap number s) with
  | [] => PyNaN
  | q :: _ => NpFloat q
  end.

Definition series_max (s : series) : py_value :=
  match reverse (merge_sort Qcle (omap number s)) with
  | [] => PyNaN
  | q :: _ => NpFloat q
  end.

(** The square of [Series.std()]: the variance of the sample, with [n - 1]
    in the denominator; none for fewer than two numbers. *)
Definition variance (s : series) : option Qc :=
  let qs := omap number s in
  let n := length qs in
  if decide (n < 2) then None
  else
    let m := (sum_Qc qs / Q2Qc (inject_Z (Z.of_nat n)))%Qc in
    Some (sum_Qc ((λ q, (q - m) * (q - m))%Qc <$> qs)
          / Q2Qc (inject_Z (Z.of_nat (n - 1))))%Qc.

(** [stats[col]] *)
Definition column_statistics (s : series) : jsonv :=
  JObject [("mean", float_json (mean s));
           ("median", float_json (median s));
           ("std", from_option JRoot JNaN (variance s));
           ("min", float_json (series_min s));
           ("max", float_json (series_max s))].

(** [quality_report['statistics']] *)
Definition statistics (fs : filesystem) (file_path : string) : jsonv :=
  try (sample_df ← read_csv_typed fs file_path (Some 10000);
       let numeric_cols := select_dtypes is_number sample_df in
       Ok (JObject ((λ j, (default "" (columns sample_df !! j),
                           column_statistics (column j (rows sample_df))))
                    <$> numeric_cols)))
  except (λ _, JObject []).

Definition analyze_csv (sv : server) (file_id : string) (user_id : nat)
    : response * server :=
  match redis_get (sv_files sv) ("csv_file:" +:+ file_id) with
  | None => (error "File not found or expired" 404, sv)
  | Some file_metadata =>
      let file_path := fm_file_path file_metadata in
      match analyze_csv_quality_chunked (sv_fs sv) file_path 10000 with
      | Ok quality_report =>
          (jsonify (quality_report_fields quality_report
                    ++ [("statistics", statistics (sv_fs sv) file_path)]) 200, sv)
      | Raise e => (error ("Analysis failed: " +:+ exn_str e) 500, sv)
      end
  end.

(** ** The routes *)

(** The data of a request to a CSV endpoint, beside its headers. *)
Inductive csv_call : Type :=
  | UploadCsv (file : option upload)
  | PreprocessCsv (file_id : option string) (opts : option options)
  | GetTaskStatus (task_id : string)
  | DownloadProcessedCsv (file_id : string)
  | AnalyzeCsv (file_id : string).

Definition csv_view (st : site) (sv : server) (call : csv_call) (user_id : nat)
    : response * server :=
  match call with
  | UploadCsv file => upload_csv st sv file user_id
  | PreprocessCsv file_id opts => preprocess_csv sv file_id opts user_id
  | GetTaskStatus task_id => get_task_status sv task_id user_id
  | DownloadProcessedCsv file_id => download_processed_csv sv file_id user_id
  | AnalyzeCsv file_id => analyze_csv sv file_id user_id
  end.

Section routes.
Context `{Jwt}.

(** A view behind [@token_required]. *)
Definition csv_bp (st : site) (env : environment) (sv : server)
    (req : request) (call : csv_call) : result (response * server) :=
  Csv.token_required (λ user_id, Ok (csv_view st sv call user_id)) sv env req.

End routes.
