(* ===== verification/ViewsSpec.v ===== *)
(** * ViewsSpec: what the CSV endpoints promise

    The answers of [upload_csv], branch by branch ([upload_outcome]): an
    upload that reads whole is accepted with the exact report, an upload
    that is turned away leaves the service as it was, and the handlers of
    [EmptyDataError] and [ParserError] are never reached.  The way from a
    request to preprocess a file, through the worker, to the status of the
    job and the download of the processed file.  And that no view but the
    upload looks at the user of the token. *)

From Stdlib Require Import QArith Qcanon.
From stdpp Require Import pretty.
From S2P Require Import Prelude Strings Numbers Value Frame Reader.
From S2P Require Import Analyzer AnalyzerSpec Transform TransformSpec Auth Views.

(** ** The exceptions of [upload_csv] *)

Section upload.
Implicit Types (st : site) (sv : server) (file : option upload).

Lemma safe_convert_value_Raise v e :
  safe_convert_value v = Raise e → ∃ msg, e = ValueError msg.
Proof.
  unfold safe_convert_value. destruct v as [| | | |[|a [|b items]]| | | | |];
    try done; simpl; try (destruct a; done); intros [= <-]; eauto.
Qed.

Lemma preview_record_Raise cols row e :
  preview_record cols row = Raise e → ∃ msg, e = ValueError msg.
Proof.
  apply (foldl_res_Raise _ (λ e, ∃ msg, e = ValueError msg)). intros record j e'.
  destruct (safe_convert_value (cell j row)) as [value|e''] eqn:Hv; [done|].
  intros [= <-]. by eapply safe_convert_value_Raise.
Qed.

Lemma preview_records_Raise preview_df e :
  preview_records preview_df = Raise e → ∃ msg, e = ValueError msg.
Proof.
  apply (foldl_res_Raise _ (λ e, ∃ msg, e = ValueError msg)). intros records row e'.
  destruct (preview_record (columns preview_df) row) as [record|e''] eqn:Hr;
    [done|].
  intros [= <-]. by eapply preview_record_Raise.
Qed.

(** The exceptions the [try] block of [upload_csv] raises: those of
    [safe_convert_value] and the one of the analysis. *)
Lemma upload_body_Raise st sv filename unique_filename file_path file_size
    user_id e :
  upload_body st sv filename unique_filename file_path file_size user_id
  = Raise e →
  ∃ msg, e = ValueError msg ∨ e = Exception msg.
Proof.
  unfold upload_body.
  destruct (preview_records _) as [records|e'] eqn:Hrecords; simpl.
  - destruct (analyze_csv_quality_chunked _ _ _) as [qr|e'] eqn:Hqr; simpl;
      [done|].
    intros [= <-]. destruct (analyze_with_Raise_inv _ _ _ _ _ Hqr); eauto.
  - intros [= <-]. destruct (preview_records_Raise _ _ Hrecords); eauto.
Qed.

Lemma upload_body_Ok st sv filename unique_filename file_path file_size
    user_id answer :
  upload_body st sv filename unique_filename file_path file_size user_id
  = Ok answer →
  status answer.1 = 200 ∧ sv_fs answer.2 = sv_fs sv ∧
  sv_progress answer.2 = sv_progress sv ∧ sv_jobs answer.2 = sv_jobs sv ∧
  sv_enqueued answer.2 = sv_enqueued sv.
Proof.
  unfold upload_body. intros (records & _ & (qr & _ & ?)%bind_Ok)%bind_Ok.
  by simplify_eq.
Qed.

End upload.

(** The answers of [upload_csv], branch by branch, from the state [sv]. *)
Inductive upload_outcome (sv : server) : response * server → Prop :=
  | upload_refused msg :
      msg ∈ ["No file provided"; "No file selected";
             "Invalid file type. Only CSV files are allowed"] →
      upload_outcome sv (error msg 400, sv)
  | upload_too_large fs :
      fs ⊆ sv_fs sv →
      upload_outcome sv
        (error "File size exceeds 100.0MB limit" 400, set_fs sv fs)
  | upload_failed msg fs :
      fs ⊆ sv_fs sv →
      upload_outcome sv (error ("Upload failed: " +:+ msg) 500, set_fs sv fs)
  | upload_accepted resp sv' :
      status resp = 200 →
      sv_progress sv' = sv_progress sv → sv_jobs sv' = sv_jobs sv →
      sv_enqueued sv' = sv_enqueued sv →
      upload_outcome sv (resp, sv').

Lemma remove_set_fs sv fs path text :
  remove (set_fs sv (<[path := text]> fs)) path = set_fs sv (delete path fs).
Proof. unfold remove, set_fs. simpl. by rewrite delete_insert_eq. Qed.

Lemma upload_csv_outcome st sv file user_id :
  upload_outcome sv (upload_csv st sv file user_id).
Proof.
  unfold upload_csv. destruct file as [file|]; [|constructor; set_solver].
  case_decide; [constructor; set_solver|].
  destruct (allowed_file _); simpl; [|constructor; set_solver].
  rewrite !remove_set_fs.
  case_decide; [apply upload_too_large, delete_subseteq|].
  destruct (upload_body _ _ _ _ _ _ _) as [[resp sv']|e] eqn:Hbody.
  - apply upload_body_Ok in Hbody as (? & ? & ? & ? & ?).
    by apply upload_accepted.
  - destruct (upload_body_Raise _ _ _ _ _ _ _ _ Hbody) as [msg [->| ->]];
      apply upload_failed, delete_subseteq.
Qed.

(** ** The preview never raises *)

Section preview.
Implicit Types (df : frame) (row : list py_value).

Abbreviation scalar := (λ v : py_value, is_scalar v = true).

Lemma iterrows_scalars df :
  Forall (Forall scalar) (rows df) → Forall (Forall scalar) (iterrows df).
Proof.
  intros Hrows. unfold iterrows.
  assert (∀ f : py_value → py_value, (∀ v, is_scalar v = true → is_scalar (f v) = true) →
          Forall (Forall scalar) ((λ row : list py_value, f <$> row) <$> rows df))
    as Hmap.
  { intros f Hf. apply Forall_fmap. eapply Forall_impl; [done|].
    intros row Hrow. apply Forall_fmap. eapply Forall_impl; [done|]. apply Hf. }
  destruct (dtypes df) as [|dt dts]; [done|].
  repeat case_match; try done; apply Hmap; by intros [].
Qed.

Lemma preview_record_Ok cols row :
  Forall scalar row → ∃ record, preview_record cols row = Ok record.
Proof.
  intros Hrow.
  destruct (foldl_res_invariant
    (λ (record : list (string * json)) j,
       value ← safe_convert_value (cell j row);
       Ok (record ++ [(default "" (cols !! j), value)]))
    (λ _, True) [] (seq 0 (length cols))) as (record & Hrec & _); [done| |by eauto].
  intros record j _ _. rewrite safe_convert_value_scalar; [by eauto|].
  unfold cell. destruct (row !! j) as [v|] eqn:Hv; [|done].
  rewrite Forall_forall in Hrow. eapply Hrow, list_elem_of_lookup_2, Hv.
Qed.

Lemma preview_records_Ok df :
  Forall (Forall scalar) (rows df) → ∃ records, preview_records df = Ok records.
Proof.
  intros Hrows%iterrows_scalars.
  destruct (foldl_res_invariant
    (λ (records : list (list (string * json))) row,
       record ← preview_record (columns df) row; Ok (records ++ [record]))
    (λ _, True) [] (iterrows df)) as (records & Hrec & _); [done| |by eauto].
  intros records row _ Hrow. rewrite Forall_forall in Hrows.
  destruct (preview_record_Ok (columns df) row) as [record ->]; by eauto.
Qed.

Lemma preview_Ok (fs : filesystem) file_path :
  ∃ records,
    preview_records (try (read_csv_preview fs file_path) except (λ _, empty_frame))
    = Ok records.
Proof.
  apply preview_records_Ok. unfold read_csv_preview.
  destruct (open_csv fs file_path) as [[header data]|e]; simpl; [|constructor].
  apply typed_frame_scalars.
Qed.

End preview.

(** ** Examples *)

Definition nl : string := String NEWLINE "".

Definition example_site : site :=
  {| BASE_DIR := "/srv/server"; now_strftime := "20250101_120000";
     now_isoformat := "2025-01-01T12:00:00" |}.

Definition empty_server : server :=
  {| sv_fs := ∅; sv_files := ∅; sv_progress := ∅; sv_jobs := ∅;
     sv_enqueued := 0 |}.

(** Three rows, the first and the last the same. *)
Definition example_upload : upload :=
  {| up_filename := "my data.csv";
     up_content := "a,b" +:+ nl +:+ "1,x" +:+ nl +:+ "2, y " +:+ nl
                   +:+ "1,x" +:+ nl |}.

Definition example_path : string :=
  "/srv/server/uploads/7_20250101_120000_my_data.csv".

Definition example_frame : frame :=
  {| columns := ["a"; "b"]; dtypes := [Object; Object];
     rows := [[PyStr "1"; PyStr "x"]; [PyStr "2"; PyStr " y "];
              [PyStr "1"; PyStr "x"]] |}.

Definition example_options : options :=
  {| handle_missing := ""; trim_whitespace := true; convert_types := false;
     standardize_columns := false; remove_duplicates := true |}.

(** The service after the upload of user 7. *)
Definition uploaded : server :=
  (upload_csv example_site empty_server (Some example_upload) 7).2.

Definition example_metadata : file_metadata :=
  {| fm_original_filename := "my_data.csv"; fm_file_path := example_path;
     fm_uploaded_at := "2025-01-01T12:00:00"; fm_user_id := 7;
     fm_file_size := 18 |}.

(** ** Uploads *)

Lemma allowed_file_nonempty filename : allowed_file filename = true → filename ≠ "".
Proof. by intros Hf ->. Qed.

(** The body of [upload_csv] on a file that reads whole: the answer, and
    the record it stores. *)
Lemma upload_body_reads st sv filename unique_filename file_path file_size
    user_id df :
  reads_whole (sv_fs sv) file_path df →
  ∃ resp qr,
    upload_body st sv filename unique_filename file_path file_size user_id
    = Ok (resp,
          {| sv_fs := sv_fs sv;
             sv_files :=
               setex (sv_files sv) ("csv_file:" +:+ unique_filename) 7200
                 {| fm_original_filename := filename; fm_file_path := file_path;
                    fm_uploaded_at := now_isoformat st; fm_user_id := user_id;
                    fm_file_size := file_size |};
             sv_progress := sv_progress sv; sv_jobs := sv_jobs sv;
             sv_enqueued := sv_enqueued sv |}) ∧
    status resp = 200 ∧
    field "file_id" (body resp) = Some (JString unique_filename) ∧
    field "quality_report" (body resp)
    = Some (JObject (quality_report_fields qr)) ∧
    qr_total_rows qr = len df ∧ qr_missing_cells qr = Spec.missing_cells df.
Proof.
  intros Hreads. unfold upload_body.
  destruct (preview_Ok (sv_fs sv) file_path) as [records ->].
  destruct (analyze_with_report CHUNK_SIZE (sv_fs sv) file_path 10000 df)
    as (size & _ & Hqr); [apply CHUNK_SIZE_pos|done|].
  unfold analyze_csv_quality_chunked. rewrite Hqr. cbn [mbind result_bind res_bind].
  by eexists _, _.
Qed.

(** [upload_csv] on a file with an allowed name and of an allowed size:
    the file is saved and the body runs. *)
Lemma upload_csv_checked st sv file user_id :
  let filename := secure_filename (up_filename file) in
  let unique_filename :=
    pretty user_id +:+ "_" +:+ now_strftime st +:+ "_" +:+ filename in
  let file_path := UPLOAD_FOLDER st +:+ "/" +:+ unique_filename in
  let sv' := set_fs sv (<[file_path := up_content file]> (sv_fs sv)) in
  allowed_file (up_filename file) = true →
  (Z.of_nat (String.length (up_content file)) ≤ MAX_FILE_SIZE)%Z →
  ∀ answer,
    upload_body st sv' filename unique_filename file_path
      (String.length (up_content file)) user_id = Ok answer →
    upload_csv st sv (Some file) user_id = answer.
Proof.
  intros filename unique_filename file_path sv' Hname Hsize answer Hbody.
  unfold upload_csv.
  rewrite decide_False, Hname by by apply allowed_file_nonempty. simpl negb. cbv iota.
  rewrite decide_False by lia. fold filename. fold unique_filename.
  fold file_path. fold sv'. by rewrite Hbody.
Qed.

(** C31: the upload of a file with an allowed name, of at most 100 MB, that
    reads whole is answered 200 with the name of the file record; the
    report of the answer has the exact numbers of rows and of missing
    cells; the file is saved in the upload folder and its record is
    stored for 7200 seconds. *)
Theorem upload_csv_accepts st sv file user_id df :
  let filename := secure_filename (up_filename file) in
  let unique_filename :=
    pretty user_id +:+ "_" +:+ now_strftime st +:+ "_" +:+ filename in
  let file_path := UPLOAD_FOLDER st +:+ "/" +:+ unique_filename in
  let fs := <[file_path := up_content file]> (sv_fs sv) in
  let answer := upload_csv st sv (Some file) user_id in
  allowed_file (up_filename file) = true →
  (Z.of_nat (String.length (up_content file)) ≤ MAX_FILE_SIZE)%Z →
  reads_whole fs file_path df →
  status answer.1 = 200 ∧
  field "file_id" (body answer.1) = Some (JString unique_filename) ∧
  (∃ qr, field "quality_report" (body answer.1)
         = Some (JObject (quality_report_fields qr)) ∧
         qr_total_rows qr = len df ∧
         qr_missing_cells qr = Spec.missing_cells df) ∧
  sv_fs answer.2 = fs ∧
  sv_files answer.2
  = setex (sv_files sv) ("csv_file:" +:+ unique_filename) 7200
      {| fm_original_filename := filename; fm_file_path := file_path;
         fm_uploaded_at := now_isoformat st; fm_user_id := user_id;
         fm_file_size := String.length (up_content file) |}.
Proof.
  intros filename unique_filename file_path fs answer Hname Hsize Hreads.
  destruct (upload_body_reads st (set_fs sv fs) filename unique_filename
              file_path (String.length (up_content file)) user_id df Hreads)
    as (resp & qr & Hbody & ? & ? & ? & ? & ?).
  unfold answer. rewrite (upload_csv_checked _ _ _ _ Hname Hsize _ Hbody).
  split_and!; [done..| |done|done]. by exists qr.
Qed.

Lemma example_reads :
  reads_whole (<[example_path := up_content example_upload]> ∅) example_path
    example_frame.
Proof. split; vm_compute; [reflexivity|]. apply (bool_decide_unpack _). by vm_compute. Qed.

Lemma upload_csv_accepts_witness :
  let answer := upload_csv example_site empty_server (Some example_upload) 7 in
  status answer.1 = 200 ∧
  field "file_id" (body answer.1) = Some (JString "7_20250101_120000_my_data.csv") ∧
  (∃ qr, field "quality_report" (body answer.1)
         = Some (JObject (quality_report_fields qr)) ∧
         qr_total_rows qr = 3 ∧ qr_missing_cells qr = 0) ∧
  sv_fs answer.2 = <[example_path := up_content example_upload]> ∅ ∧
  sv_files answer.2
  = setex ∅ "csv_file:7_20250101_120000_my_data.csv" 7200 example_metadata.
Proof.
  apply (upload_csv_accepts example_site empty_server example_upload 7
           example_frame); [reflexivity|by vm_compute|apply example_reads].
Defined.

(** An upload that is not answered 200 leaves the records, the
    progress and the jobs as they were, and no new file in the upload
    folder. *)
Theorem upload_rejected_unchanged st sv file user_id :
  let answer := upload_csv st sv file user_id in
  status answer.1 ≠ 200 →
  sv_fs answer.2 ⊆ sv_fs sv ∧ sv_files answer.2 = sv_files sv ∧
  sv_progress answer.2 = sv_progress sv ∧ sv_jobs answer.2 = sv_jobs sv.
Proof.
  simpl. destruct (upload_csv_outcome st sv file user_id); simpl; done.
Qed.

Lemma upload_rejected_unchanged_witness :
  let answer :=
    upload_csv example_site uploaded
      (Some {| up_filename := "notes.txt"; up_content := "a,b" |}) 7 in
  sv_fs answer.2 ⊆ sv_fs uploaded ∧ sv_files answer.2 = sv_files uploaded ∧
  sv_progress answer.2 = sv_progress uploaded ∧ sv_jobs answer.2 = sv_jobs uploaded.
Proof.
  apply (upload_rejected_unchanged example_site uploaded
           (Some {| up_filename := "notes.txt"; up_content := "a,b" |}) 7).
  vm_compute. discriminate.
Defined.

(** The handlers of [EmptyDataError] and [ParserError] of [upload_csv]
    are dead: the preview swallows every exception and the analysis wraps
    every exception in an [Exception], so that no upload is answered
    [CSV file is empty] or [Invalid CSV format]; an empty file is
    answered 500. *)
Lemma upload_csv_handlers_dead st sv file user_id :
  let resp := (upload_csv st sv file user_id).1 in
  resp ≠ error "CSV file is empty" 400 ∧
  ∀ msg, resp ≠ error ("Invalid CSV format: " +:+ msg) 400.
Proof.
  simpl. destruct (upload_csv_outcome st sv file user_id) as
    [msg Hmsg|fs _|msg fs _|resp sv' Hresp _ _]; simpl.
  - repeat (apply elem_of_cons in Hmsg as [->|Hmsg]); [..|by apply elem_of_nil in Hmsg];
      (split; [|intros msg]; intros [=]).
  - split; [|intros msg]; intros [=].
  - split; [|intros msg']; intros [=].
  - split; [|intros msg]; intros ->; done.
Qed.

(** ** From the request to the download *)

Section pipeline.
Variables (sv : server) (file_id : string) (file_metadata : file_metadata).
Variable opts : options.
Hypothesis file_id_given : file_id ≠ "".
Hypothesis recorded :
  redis_get (sv_files sv) ("csv_file:" +:+ file_id) = Some file_metadata.

(** The job that [preprocess_csv] enqueues, and the service after it. *)
Definition queued_job : job :=
  {| job_args := (fm_file_path file_metadata, opts); job_status_of := Queued;
     job_ttl := None |}.

Definition started : server :=
  {| sv_fs := sv_fs sv; sv_files := sv_files sv; sv_progress := sv_progress sv;
     sv_jobs := <[next_job_id sv := queued_job]> (sv_jobs sv);
     sv_enqueued := S (sv_enqueued sv) |}.

Lemma preprocess_csv_started user_id :
  preprocess_csv sv (Some file_id) (Some opts) user_id
  = (jsonify [("message", JString "Preprocessing started");
              ("task_id", JString (next_job_id sv));
              ("status", JString "queued");
              ("estimated_time",
               JString "This may take several minutes for large files")] 202,
     started).
Proof.
  unfold preprocess_csv. destruct file_id; [done|]. by rewrite recorded.
Qed.

(** The run of the task on the file of the record. *)
Definition run : transform_result * filesystem * redis :=
  preprocess_csv_task_chunked (sv_fs sv) (sv_progress sv)
    (fm_file_path file_metadata) opts.

Definition finished : server :=
  {| sv_fs := run.1.2; sv_files := sv_files sv; sv_progress := run.2;
     sv_jobs := <[next_job_id sv := {| job_args := job_args queued_job;
                                       job_status_of := Finished run.1.1;
                                       job_ttl := Some RESULT_TTL |}]>
                  (<[next_job_id sv := queued_job]> (sv_jobs sv));
     sv_enqueued := S (sv_enqueued sv) |}.

Lemma work_started : work started (next_job_id sv) = finished.
Proof.
  unfold work, started, finished, run. cbn [sv_jobs sv_fs sv_progress sv_files].
  rewrite lookup_insert_eq. cbn [queued_job job_args].
  by destruct (preprocess_csv_task_chunked _ _ _ _) as [[res fs] r].
Qed.

Lemma get_task_status_finished user_id :
  (get_task_status finished (next_job_id sv) user_id).1
  = jsonify [("status", JString "completed");
             ("result", transform_result_json run.1.1)] 200.
Proof. unfold get_task_status, finished. simpl. by rewrite lookup_insert_eq. Qed.

Lemma download_finished user_id out n removed cols :
  run.1.1 = Success out n removed cols →
  (download_processed_csv finished file_id user_id).1
  = send_file run.1.2 out "text/csv"
      ("processed_" +:+ fm_original_filename file_metadata).
Proof.
  intros Hrun. apply preprocess_with_success in Hrun as [-> Hout].
  unfold download_processed_csv, finished. cbn [sv_files sv_fs]. rewrite recorded.
  fold (output_path (fm_file_path file_metadata)). by rewrite decide_True.
Qed.

End pipeline.

(** When a file record exists, a request to preprocess it is answered
    202 with the identifier of a job; once the worker has run the job and
    the task has returned [success], the status of the job is [completed]
    with the result of the task, and the download of the file sends the
    file that the task wrote, to any user with a token. *)
Theorem processed_file_is_served sv file_id file_metadata opts u1 u2 u3
    out n removed cols :
  file_id ≠ "" →
  redis_get (sv_files sv) ("csv_file:" +:+ file_id) = Some file_metadata →
  let task := run sv file_metadata opts in
  task.1.1 = Success out n removed cols →
  let request := preprocess_csv sv (Some file_id) (Some opts) u1 in
  let task_id := next_job_id sv in
  let sv' := work request.2 task_id in
  status request.1 = 202 ∧
  field "task_id" (body request.1) = Some (JString task_id) ∧
  (get_task_status sv' task_id u2).1
  = jsonify [("status", JString "completed");
             ("result", transform_result_json task.1.1)] 200 ∧
  (download_processed_csv sv' file_id u3).1
  = send_file task.1.2 (output_path (fm_file_path file_metadata)) "text/csv"
      ("processed_" +:+ fm_original_filename file_metadata).
Proof.
  intros Hid Hrec task Hrun request task_id sv'. unfold sv', request, task_id.
  rewrite (preprocess_csv_started sv file_id file_metadata opts) by done.
  cbn [fst snd]. rewrite work_started. split_and!; [done..| |].
  - apply get_task_status_finished.
  - destruct (preprocess_with_success _ _ _ _ _ _ _ _ _ Hrun) as [<- _].
    by eapply download_finished.
Qed.

Lemma processed_file_is_served_witness :
  let request :=
    preprocess_csv uploaded (Some "7_20250101_120000_my_data.csv")
      (Some example_options) 7 in
  let sv' := work request.2 "0" in
  status request.1 = 202 ∧
  field "task_id" (body request.1) = Some (JString "0") ∧
  (get_task_status sv' "0" 8).1
  = jsonify [("status", JString "completed");
             ("result",
              transform_result_json
                (Success "/srv/server/uploads/7_20250101_120000_my_data_processed.csv"
                   2 (Some 1) ["a"; "b"]))] 200 ∧
  (download_processed_csv sv' "7_20250101_120000_my_data.csv" 9).1
  = send_file {[ "/srv/server/uploads/7_20250101_120000_my_data_processed.csv"
                 := "a,b" +:+ nl +:+ "1,x" +:+ nl +:+ "2,y" +:+ nl ]}
      "/srv/server/uploads/7_20250101_120000_my_data_processed.csv" "text/csv"
      "processed_my_data.csv".
Proof.
  apply (processed_file_is_served uploaded "7_20250101_120000_my_data.csv"
           example_metadata example_options 7 8 9
           "/srv/server/uploads/7_20250101_120000_my_data_processed.csv"
           2 (Some 1) ["a"; "b"]); [done|by vm_compute|by vm_compute].
Defined.

(** ** The views on a file record *)

Section record.
Variables (sv : server) (file_id : string).
Implicit Types (user_id : nat) (file_metadata : file_metadata).

(** The download looks at the folder, not at the job: when the processed
    file of a record exists it is sent. *)
Lemma download_found file_metadata text user_id :
  redis_get (sv_files sv) ("csv_file:" +:+ file_id) = Some file_metadata →
  sv_fs sv !! output_path (fm_file_path file_metadata) = Some text →
  download_processed_csv sv file_id user_id
  = (send_file (sv_fs sv) (output_path (fm_file_path file_metadata)) "text/csv"
       ("processed_" +:+ fm_original_filename file_metadata), sv).
Proof.
  intros Hrec Hfile. unfold download_processed_csv. rewrite Hrec.
  fold (output_path (fm_file_path file_metadata)). by rewrite decide_True.
Qed.

(** Without its record a file is out of reach: every view that takes a
    file identifier answers 404 and changes nothing. *)
Lemma views_without_record st call user_id :
  redis_get (sv_files sv) ("csv_file:" +:+ file_id) = None → file_id ≠ "" →
  (∃ opts, call = PreprocessCsv (Some file_id) opts)
  ∨ call = DownloadProcessedCsv file_id ∨ call = AnalyzeCsv file_id →
  csv_view st sv call user_id = (error "File not found or expired" 404, sv).
Proof.
  intros Hrec Hid [[opts ->]|[->| ->]]; cbn;
    unfold preprocess_csv, download_processed_csv, analyze_csv; rewrite Hrec;
    [by destruct file_id|done..].
Qed.

End record.

(** ** Whose file it is *)

(** No view but [upload_csv] looks at the user of the token: every user
    with a token starts jobs on, analyses and downloads the files of every
    other user. *)
Lemma views_ignore_user st sv call u1 u2 :
  (∀ file, call ≠ UploadCsv file) →
  csv_view st sv call u1 = csv_view st sv call u2.
Proof. intros Hcall. destruct call; [by destruct (Hcall file)|done..]. Qed.

(** ** Two uploads in one second *)

(** A file with a row that has a cell too few, under the name of
    [example_upload]. *)
Definition malformed_upload : upload :=
  {| up_filename := "my data.csv"; up_content := "a,b" +:+ nl +:+ "1" +:+ nl |}.

(** The name of the saved file holds the user, the time to the second
    and the name of the upload.  Two uploads of one user under one name
    within one second share the path: when the second fails, its handler
    removes the file, and the record of the first upload points at a
    file that is gone. *)
Lemma failed_upload_removes_earlier_file :
  let first := upload_csv example_site empty_server (Some example_upload) 7 in
  let second := upload_csv example_site first.2 (Some malformed_upload) 7 in
  status first.1 = 200 ∧ status second.1 = 500
  ∧ sv_fs second.2 !! example_path = None
  ∧ is_Some (redis_get (sv_files second.2)
               "csv_file:7_20250101_120000_my_data.csv")
  ∧ status (analyze_csv second.2 "7_20250101_120000_my_data.csv" 7).1 = 500.
Proof. split_and!; try by vm_compute. vm_compute. by eexists. Qed.
