(* ===== verification/Journey.v ===== *)
(** * Journey: a file from the upload to the download

    The composition of the views, the worker and the Transform Engine
    on one file.  A user uploads a file that reads whole; any user asks
    for it to be preprocessed; the worker runs the job; any user asks
    for the status of the job and downloads the result.  When the table
    is [homogeneous] and the options are [row_local] (see [Streaming]),
    what is downloaded is the file of the row-by-row reference:
    the header of the names and one line for every row that
    [handle_missing] keeps ([upload_to_download]). *)

From stdpp Require Import pretty.
From S2P Require Import Prelude Strings Numbers Value Frame Reader.
From S2P Require Import Analyzer AnalyzerSpec Transform Typing TransformSpec.
From S2P Require Import Streaming Auth Views ViewsSpec.

Section journey.
Variables (st : site) (sv : server) (file : upload) (user_id : nat).
Variables (opts : options) (header : list string) (kinds : list dtype).
Variable data : list (list string).

Let filename : string := secure_filename (up_filename file).
Let file_id : string :=
  pretty user_id +:+ "_" +:+ now_strftime st +:+ "_" +:+ filename.
Let file_path : string := UPLOAD_FOLDER st +:+ "/" +:+ file_id.
Let fs : filesystem := <[file_path := up_content file]> (sv_fs sv).

(** The record of the upload, and the service after it. *)
Definition stored_metadata : file_metadata :=
  {| fm_original_filename := filename; fm_file_path := file_path;
     fm_uploaded_at := now_isoformat st; fm_user_id := user_id;
     fm_file_size := String.length (up_content file) |}.

Definition after_upload : server :=
  (upload_csv st sv (Some file) user_id).2.

Hypothesis allowed : allowed_file (up_filename file) = true.
Hypothesis small :
  (Z.of_nat (String.length (up_content file)) ≤ MAX_FILE_SIZE)%Z.
Hypothesis reads : reads_fields fs file_path header data.
Hypothesis header_NoDup : NoDup header.

Lemma uploaded_reads_whole :
  reads_whole fs file_path
    (str_frame header (fmap (M := list) parse_cell <$> data)).
Proof. split; [by apply reads_fields_read_csv|done]. Qed.

(** The upload saves the file and stores its record; the queue and the
    progress records stay as they were. *)
Lemma after_upload_eq :
  after_upload
  = {| sv_fs := fs;
       sv_files := setex (sv_files sv) ("csv_file:" +:+ file_id) 7200
                     stored_metadata;
       sv_progress := sv_progress sv; sv_jobs := sv_jobs sv;
       sv_enqueued := sv_enqueued sv |}.
Proof.
  destruct (upload_body_reads st (set_fs sv fs) filename file_id file_path
              (String.length (up_content file)) user_id _ uploaded_reads_whole)
    as (resp & qr & Hbody & _).
  unfold after_upload. by rewrite (upload_csv_checked _ _ _ _ allowed small _ Hbody).
Qed.

Lemma file_id_nonempty : file_id ≠ "".
Proof. unfold file_id. by destruct (pretty user_id). Qed.

Lemma after_upload_recorded :
  redis_get (sv_files after_upload) ("csv_file:" +:+ file_id)
  = Some stored_metadata.
Proof. rewrite after_upload_eq. apply redis_get_setex. Qed.

Hypothesis streaming : remove_duplicates opts = false.
Hypothesis names_NoDup : NoDup (names opts header).
Hypothesis one_kind : homogeneous kinds data.
Hypothesis local : row_local opts data.

(** The task the worker runs on the file of the upload. *)
Lemma run_after_upload :
  run after_upload stored_metadata opts
  = row_wise fs (sv_progress sv) file_path opts header data.
Proof.
  unfold run. rewrite after_upload_eq. cbn [sv_fs sv_progress fm_file_path stored_metadata].
  unfold preprocess_csv_task_chunked.
  by apply (streaming_row_wise _ _ _ _ _ header kinds data);
    [|apply CHUNK_SIZE_pos|..].
Qed.

(** C12: from the upload to the download.  After the upload of a file
    with an allowed name and size that reads whole, whose table is
    homogeneous, a request to preprocess it with options that work row
    by row is accepted; once the worker has run the job, the status of
    the job is [completed] with the count of the rows that
    [handle_missing] keeps, and the download sends the header of the
    names and the lines of these rows, to any users with a token. *)
Theorem upload_to_download u2 u3 u4 :
  let request := preprocess_csv after_upload (Some file_id) (Some opts) u2 in
  let task_id := next_job_id sv in
  let served := work request.2 task_id in
  let kept := out_rows opts data in
  status request.1 = 202 ∧
  (get_task_status served task_id u3).1
  = jsonify [("status", JString "completed");
             ("result",
              transform_result_json
                (Success (output_path file_path) (length kept) None
                   (names opts header)))] 200 ∧
  (download_processed_csv served file_id u4).1
  = send_file
      (<[output_path file_path := csv_line (names opts header) +:+ row_lines kept]> fs)
      (output_path file_path) "text/csv" ("processed_" +:+ filename).
Proof.
  intros request task_id served kept. unfold served, request.
  rewrite (preprocess_csv_started after_upload file_id stored_metadata opts
             file_id_nonempty after_upload_recorded).
  assert (task_id = next_job_id after_upload) as ->
    by by rewrite after_upload_eq.
  cbn [fst snd]. rewrite work_started. split_and!; [done| |].
  - rewrite get_task_status_finished. by rewrite run_after_upload.
  - rewrite (download_finished after_upload file_id stored_metadata opts
               after_upload_recorded u4 (output_path file_path) (length kept)
               None (names opts header)); by rewrite run_after_upload.
Qed.

End journey.

(** ** Example *)

(** User 7 uploads the staff of [Streaming]; user 8 has it preprocessed
    and user 9 downloads the result. *)
Definition staff_upload : upload :=
  {| up_filename := "staff.csv"; up_content := staff_text |}.

Lemma upload_to_download_witness :
  let id := "7_20250101_120000_staff.csv" in
  let uploaded := after_upload example_site empty_server staff_upload 7 in
  let served :=
    work (preprocess_csv uploaded (Some id) (Some staff_options) 8).2 "0" in
  (download_processed_csv served id 9).1
  = send_file
      {[ "/srv/server/uploads/7_20250101_120000_staff.csv" := staff_text;
         "/srv/server/uploads/7_20250101_120000_staff_processed.csv" :=
           "name,home_town,age,score" +:+ nl +:+ "ann,Oslo,31,1.5" +:+ nl
           +:+ "cy,Bern,45,2.25" +:+ nl +:+ "dee,Oslo,38,0.5" +:+ nl ]}
      "/srv/server/uploads/7_20250101_120000_staff_processed.csv" "text/csv"
      "processed_staff.csv".
Proof.
  refine (eq_trans (proj2 (proj2 (upload_to_download example_site empty_server
    staff_upload 7 staff_options staff_header staff_kinds staff_data
    _ _ _ _ _ _ _ _ 8 0 9))) _).
  - by vm_compute.
  - by vm_compute.
  - eexists. split; vm_compute; reflexivity.
  - apply (bool_decide_unpack _). by vm_compute.
  - done.
  - apply (bool_decide_unpack _). by vm_compute.
  - apply (bool_decide_unpack _). by vm_compute.
  - apply (bool_decide_unpack _). by vm_compute.
  - by vm_compute.
Defined.
