(* ===== verification/Statistics.v ===== *)
(** * Statistics: the numbers of a column

    The statistics that [analyze_csv] reports for a numeric column
    ([Series.mean], [median], [std], [min], [max]) and the value that
    [fill_mean] writes, as facts of rational arithmetic: the mean and
    the median of a column lie between its least and its greatest
    number, the variance is not negative, and filling the missing cells
    of a column with its mean keeps the mean. *)

From Stdlib Require Import QArith Qcanon Field.
From stdpp Require Import sorting.
From S2P Require Import Prelude Strings Numbers Value Frame Reader Analyzer.
From S2P Require Import Transform Typing TransformSpec Auth Views.

(** ** Rational arithmetic *)


#[global] Instance Qcle_transitive : Transitive Qcle := Qcle_trans.

#[global] Instance Qcle_total : Total Qcle.
Proof.
  intros p q. destruct (Qclt_le_dec p q); [left; by apply Qclt_le_weak|by right].
Qed.

Section arithmetic.
Local Open Scope Qc_scope.
Implicit Types (a b c p q lo hi : Qc) (qs : list Qc) (n : nat).









(** ** Sums *)

Lemma sum_Qc_app qs1 qs2 : sum_Qc (qs1 ++ qs2) = sum_Qc qs1 + sum_Qc qs2.
Proof.
  induction qs1 as [|q qs1 IH]; simpl; [by rewrite Qcplus_0_l|].
  rewrite IH. ring.
Qed.




End arithmetic.

(** ** The least and the greatest number of a column *)

Section order.
Local Open Scope Qc_scope.
Implicit Types (s : series) (qs rest : list Qc) (lo hi q : Qc).





Lemma series_min_numbers s lo : series_min s = NpFloat lo → omap number s ≠ [].
Proof. unfold series_min. intros Hmin Hnil. by rewrite Hnil in Hmin. Qed.





End order.

(** ** The statistics of a column *)

Section statistics.
Local Open Scope Qc_scope.
Implicit Types (s : series) (v : py_value) (dt : dtype) (mu q : Qc).






End statistics.

(** ** Examples *)







