(* ===== verification/Service.v ===== *)
(** * Service: the queue, the worker and the clock

    The CSV service as a transition system.  An [event] is a request that
    has passed the decorator, a step of the worker of the queue (it runs
    a queued job to its end, or the job is stopped after some writes of
    the task: by its timeout or because the process of the worker is
    killed), or the passing of time, which removes the keys of the Redis
    store whose time is over: file records, progress records and the
    jobs that are finished or failed.

    The timeout of a job is the exception [JobTimeoutException] raised
    inside the task.  It is an [Exception], so the handler of
    [preprocess_csv_task_chunked] catches it: the task returns an error
    and the job is finished ([time_out]).  A job is failed only when the
    process of the worker dies ([kill]).  The task is stopped between
    two turns of its loop: [writes] is the number of chunks it has
    written and recorded.  A job that runs is seen between two turns
    of the loop of its task too ([advance]): the requests that come
    then find the output and the progress record of the chunks
    written, and a job that is still [processing].

    The worker and the time a key lives are the behaviour of RQ and
    Redis, modelled from their documentation: jobs are taken oldest
    first, a queued job does not expire, the result of a finished job
    lives [RESULT_TTL] seconds and a failed job [FAILURE_TTL] seconds.
    [drain] is the loop of the worker (in burst mode): it runs queued
    jobs until none is left.  Its fuel bounds the number of jobs it
    runs; [pending], the number of queued jobs, is enough. *)

From stdpp Require Import pretty.
From S2P Require Import Prelude Strings Numbers Value Frame Reader.
From S2P Require Import Analyzer Transform Auth Views ViewsSpec.

(** ** The worker stopped *)

(** The seconds a failed job is kept. *)
Definition FAILURE_TTL : nat := 365 * 24 * 3600.

(** The files and the progress records when the task is stopped after
    [writes] writes to the output file: in streaming mode it has
    processed that many chunks. *)
Definition interrupted_with (chunk_size writes : nat) (fs : filesystem)
    (r : redis) (file_path : string) (opts : options) : filesystem * redis :=
  match read_csv_typed fs file_path (Some 100) with
  | Raise _ => (fs, r)
  | Ok first_chunk =>
      let cols := columns first_chunk in
      let cols := if standardize_columns opts then standardize <$> cols else cols in
      if remove_duplicates opts then
        match writes, deduplicate fs file_path opts with
        | S _, Ok (_, fs') => (fs', r)
        | _, _ => (fs, r)
        end
      else
        match read_csv_typed_chunks fs file_path chunk_size with
        | Raise _ => (fs, r)
        | Ok chunk_iterator =>
            let st := {| ts_fs := fs; ts_redis := r;
                         total_rows_processed := 0; is_first_chunk := true |} in
            let st := (process_chunks file_path opts cols st
                         (take writes chunk_iterator)).1 in
            (ts_fs st, ts_redis st)
        end
  end.

Definition interrupted (writes : nat) (fs : filesystem) (r : redis)
    (file_path : string) (opts : options) : filesystem * redis :=
  interrupted_with CHUNK_SIZE writes fs r file_path opts.

(** The job [task_id] ends after [writes] writes of its task, with the
    status [outcome]; its key lives [ttl] seconds. *)
Definition stop (sv : server) (task_id : string) (writes : nat)
    (outcome : job_status) (ttl : nat) : server :=
  match sv_jobs sv !! task_id with
  | Some {| job_args := (file_path, opts); job_status_of := Queued |} =>
      let '(fs, r) :=
        interrupted writes (sv_fs sv) (sv_progress sv) file_path opts in
      {| sv_fs := fs; sv_files := sv_files sv; sv_progress := r;
         sv_jobs := <[task_id := {| job_args := (file_path, opts);
                                    job_status_of := outcome;
                                    job_ttl := Some ttl |}]>
                      (sv_jobs sv);
         sv_enqueued := sv_enqueued sv |}
  | _ => sv
  end.

(** The worker in the middle of the job [task_id]: the task has made
    [writes] turns of its loop.  The job is not settled; for the views
    it is [processing], as a job that waits.  The worker goes on from
    the first chunk in the model ([work]): it writes the same file. *)
Definition advance (sv : server) (task_id : string) (writes : nat) : server :=
  match sv_jobs sv !! task_id with
  | Some {| job_args := (file_path, opts); job_status_of := Queued |} =>
      let '(fs, r) :=
        interrupted writes (sv_fs sv) (sv_progress sv) file_path opts in
      {| sv_fs := fs; sv_files := sv_files sv; sv_progress := r;
         sv_jobs := sv_jobs sv; sv_enqueued := sv_enqueued sv |}
  | _ => sv
  end.

(** The process of the worker is killed while it runs the job: the job
    is failed, with the report of the queue. *)
Definition kill (sv : server) (task_id : string) (writes : nat)
    (exc_info : string) : server :=
  stop sv task_id writes (Failed exc_info) FAILURE_TTL.

(** [str(e)] for the [JobTimeoutException] of a job enqueued with
    [job_timeout='30m']. *)
Definition TIMEOUT_MESSAGE : string :=
  "Task exceeded maximum timeout value (" +:+ pretty JOB_TIMEOUT +:+ " seconds)".

(** The timeout of the job strikes after [writes] writes: the handler
    [except Exception] of the task catches the exception and returns
    the error, and the job is finished with this result. *)
Definition time_out (sv : server) (task_id : string) (writes : nat) : server :=
  stop sv task_id writes (Finished (Error TIMEOUT_MESSAGE)) RESULT_TTL.

(** ** The clock *)

(** The job [seconds] later: [None] when its time is over. *)
Definition age_job (seconds : nat) (j : job) : option job :=
  match job_ttl j with
  | None => Some j
  | Some ttl =>
      if decide (seconds < ttl) then
        Some {| job_args := job_args j; job_status_of := job_status_of j;
                job_ttl := Some (ttl - seconds) |}
      else None
  end.

(** The service [seconds] later. *)
Definition tick (seconds : nat) (sv : server) : server :=
  {| sv_fs := sv_fs sv;
     sv_files := elapse seconds (sv_files sv);
     sv_progress := elapse seconds (sv_progress sv);
     sv_jobs := omap (age_job seconds) (sv_jobs sv);
     sv_enqueued := sv_enqueued sv |}.

(** ** Events *)

Inductive event : Type :=
  | Request (st : site) (call : csv_call) (user_id : nat)
  | Work (task_id : string)
  | Advance (task_id : string) (writes : nat)
  | Kill (task_id : string) (writes : nat) (exc_info : string)
  | Timeout (task_id : string) (writes : nat)
  | Elapse (seconds : nat).

Definition step (sv : server) (ev : event) : server :=
  match ev with
  | Request st call user_id => (csv_view st sv call user_id).2
  | Work task_id => work sv task_id
  | Advance task_id writes => advance sv task_id writes
  | Kill task_id writes exc_info => kill sv task_id writes exc_info
  | Timeout task_id writes => time_out sv task_id writes
  | Elapse seconds => tick seconds sv
  end.

Definition run (sv : server) (evs : list event) : server := foldl step sv evs.

(** The event is a step of the worker on the job [task_id]. *)
Definition works_on (task_id : string) (ev : event) : Prop :=
  match ev with
  | Work id | Kill id _ _ | Timeout id _ => id = task_id
  | _ => False
  end.

#[global] Instance works_on_dec task_id ev : Decision (works_on task_id ev).
Proof. destruct ev; simpl; apply _. Defined.

(** ** The loop of the worker *)

Definition job_queued (j : job) : bool :=
  match job_status_of j with Queued => true | _ => false end.

(** The job number [n] is queued. *)
Definition is_queued (sv : server) (n : nat) : bool :=
  from_option job_queued false (sv_jobs sv !! pretty n).

(** The numbers of the queued jobs, oldest first. *)
Definition queued (sv : server) : list nat :=
  filter (λ n, is_queued sv n = true) (seq 0 (sv_enqueued sv)).

Definition pending (sv : server) : nat := length (queued sv).

(** The worker runs the oldest queued job, then the next, until no job is
    queued. *)
Fixpoint drain (fuel : nat) (sv : server) : server :=
  match fuel, queued sv with
  | S fuel', n :: _ => drain fuel' (work sv (pretty n))
  | _, _ => sv
  end.

(** ** The jobs of a service *)

(** Every job has the number of a job enqueued before, and a queued job
    does not expire. *)
Record jobs_wf (sv : server) : Prop := JobsWf {
  jobs_enqueued : ∀ id j, sv_jobs sv !! id = Some j →
                    ∃ n, n < sv_enqueued sv ∧ id = pretty n;
  jobs_queued_live : ∀ id j, sv_jobs sv !! id = Some j →
                       job_queued j = true → job_ttl j = None;
}.

(** ** A step of the worker *)

(** The worker has settled the job [id]: the job was queued, and it is
    finished or failed, with a time to live.  The file records and the
    other jobs are as before. *)
Definition settles (sv : server) (id : string) (sv' : server) : Prop :=
  sv_enqueued sv' = sv_enqueued sv ∧ sv_files sv' = sv_files sv ∧
  ∃ j j', sv_jobs sv !! id = Some j ∧ job_queued j = true ∧
          job_queued j' = false ∧ job_args j' = job_args j ∧
          is_Some (job_ttl j') ∧ sv_jobs sv' = <[id := j']> (sv_jobs sv).

Section worker.
Implicit Types (sv : server) (id : string) (n m : nat) (j : job).

Lemma work_idle sv id :
  from_option job_queued false (sv_jobs sv !! id) = false → work sv id = sv.
Proof.
  unfold work. destruct (sv_jobs sv !! id) as [[[file_path opts] [] ttl]|]; done.
Qed.

Lemma stop_idle sv id writes outcome ttl :
  from_option job_queued false (sv_jobs sv !! id) = false →
  stop sv id writes outcome ttl = sv.
Proof.
  unfold stop. destruct (sv_jobs sv !! id) as [[[file_path opts] [] ?]|]; done.
Qed.

Lemma work_settles sv id :
  from_option job_queued false (sv_jobs sv !! id) = true →
  settles sv id (work sv id).
Proof.
  unfold work, settles.
  destruct (sv_jobs sv !! id) as [[[file_path opts] [] ttl]|]; try done.
  intros _. destruct (preprocess_csv_task_chunked _ _ _ _) as [[res fs] r].
  split_and!; [done..|]. eexists _, _. split_and!; last reflexivity; done || by eexists.
Qed.

Lemma stop_settles sv id writes outcome ttl :
  outcome ≠ Queued →
  from_option job_queued false (sv_jobs sv !! id) = true →
  settles sv id (stop sv id writes outcome ttl).
Proof.
  unfold stop, settles. intros Hout.
  destruct (sv_jobs sv !! id) as [[[file_path opts] [] ?]|]; try done.
  intros _. destruct (interrupted _ _ _ _ _) as [fs r].
  split_and!; [done..|]. eexists _, _.
  split_and!; last reflexivity; try (done || by eexists).
  by destruct outcome.
Qed.

(** The result of the job that [work] has run. *)
Lemma work_finished sv id j :
  sv_jobs sv !! id = Some j → job_queued j = true →
  ∃ res, sv_jobs (work sv id) !! id
         = Some {| job_args := job_args j; job_status_of := Finished res;
                   job_ttl := Some RESULT_TTL |}.
Proof.
  unfold work. intros -> Hq. destruct j as [[file_path opts] [] ttl]; try done.
  destruct (preprocess_csv_task_chunked _ _ _ _) as [[res fs] r].
  exists res. simpl. by rewrite lookup_insert_eq.
Qed.

Lemma settles_lookup_ne sv id sv' id' :
  settles sv id sv' → id' ≠ id → sv_jobs sv' !! id' = sv_jobs sv !! id'.
Proof.
  intros (_ & _ & j & j' & _ & _ & _ & _ & _ & ->) ?.
  by rewrite lookup_insert_ne.
Qed.

Lemma settles_is_queued sv n sv' m :
  settles sv (pretty n) sv' →
  is_queued sv' m = is_queued sv m && bool_decide (m ≠ n).
Proof.
  intros Hs. unfold is_queued. destruct (decide (m = n)) as [->|Hne].
  - destruct Hs as (_ & _ & j & j' & _ & _ & Hj' & _ & _ & ->).
    rewrite lookup_insert_eq, bool_decide_false by naive_solver. simpl.
    by rewrite Hj', andb_false_r.
  - rewrite (settles_lookup_ne _ _ _ _ Hs), bool_decide_true by naive_solver.
    by rewrite andb_true_r.
Qed.

(** The queue after the worker has settled its oldest job. *)
Lemma settles_queued sv n ns sv' :
  queued sv = n :: ns → settles sv (pretty n) sv' → queued sv' = ns.
Proof.
  intros Hq Hs. unfold queued in *. rewrite (proj1 Hs).
  assert (NoDup (n :: ns)) as [Hn _]%NoDup_cons
    by (rewrite <-Hq; apply NoDup_filter, NoDup_seq).
  transitivity (filter (λ m, m ≠ n) (n :: ns)).
  - rewrite <-Hq, list_filter_filter. apply list_filter_iff. intros m.
    rewrite (settles_is_queued _ _ _ _ Hs), andb_true_iff, bool_decide_eq_true.
    tauto.
  - rewrite filter_cons_False by naive_solver.
    apply list_filter_True, Forall_forall. by intros m ? ->.
Qed.

Lemma queued_is_queued sv n : n ∈ queued sv → is_queued sv n = true.
Proof. by intros [? _]%list_elem_of_filter. Qed.

Lemma queued_head sv n ns :
  queued sv = n :: ns →
  from_option job_queued false (sv_jobs sv !! pretty n) = true.
Proof. intros Hq. apply (queued_is_queued sv n). rewrite Hq. by left. Qed.

End worker.

(** ** The loop of the worker stops *)

Section drain.
Implicit Types (sv : server) (id : string) (n m fuel : nat) (j : job).

Lemma drain_cons fuel sv n ns :
  queued sv = n :: ns → drain (S fuel) sv = drain fuel (work sv (pretty n)).
Proof. simpl. by intros ->. Qed.

Lemma drain_nil fuel sv : queued sv = [] → drain fuel sv = sv.
Proof. destruct fuel; simpl; [done|]. by intros ->. Qed.

Lemma work_queued sv n ns :
  queued sv = n :: ns → queued (work sv (pretty n)) = ns.
Proof.
  intros Hq. eapply settles_queued; [done|].
  by eapply work_settles, queued_head.
Qed.

(** Every job the worker runs leaves one job less in the queue. *)
Lemma drain_queued fuel sv : queued (drain fuel sv) = drop fuel (queued sv).
Proof.
  revert sv. induction fuel as [|fuel IH]; intros sv; [done|].
  destruct (queued sv) as [|n ns] eqn:Hq.
  - by rewrite drain_nil, Hq.
  - by rewrite (drain_cons _ _ n ns), IH, (work_queued _ n ns).
Qed.

(** More fuel than queued jobs changes nothing. *)
Lemma drain_enough fuel sv :
  pending sv ≤ fuel → drain fuel sv = drain (pending sv) sv.
Proof.
  unfold pending. revert sv. induction fuel as [|fuel IH]; intros sv Hfuel.
  { by replace (length (queued sv)) with 0 by lia. }
  destruct (queued sv) as [|n ns] eqn:Hq; [by rewrite !drain_nil|].
  rewrite (drain_cons _ _ n ns) by done. simpl in *.
  rewrite Hq, IH; by rewrite (work_queued _ n ns) by done; try lia.
Qed.

(** A job that is not queued is left as it is. *)
Lemma drain_keeps fuel sv id j :
  sv_jobs sv !! id = Some j → job_queued j = false →
  sv_jobs (drain fuel sv) !! id = Some j.
Proof.
  revert sv. induction fuel as [|fuel IH]; intros sv Hj Hq; [done|].
  destruct (queued sv) as [|n ns] eqn:Hns; [by rewrite drain_nil|].
  rewrite (drain_cons _ _ n ns) by done. apply IH; [|done].
  pose proof (queued_head _ _ _ Hns) as Hn.
  rewrite (settles_lookup_ne sv (pretty n)); [done|by apply work_settles|].
  intros ->. rewrite Hj in Hn. simpl in Hn. congruence.
Qed.

End drain.

(** ** The invariant of the jobs *)

Section invariant.
Implicit Types (sv : server) (id : string) (n m : nat) (j : job) (ev : event).

(** What a view does to the jobs: nothing, or it enqueues one. *)
Lemma csv_view_jobs st sv call user_id :
  let sv' := (csv_view st sv call user_id).2 in
  sv_jobs sv' = sv_jobs sv ∧ sv_enqueued sv' = sv_enqueued sv ∨
  ∃ file_path opts, sv' = (enqueue sv file_path opts).2.
Proof.
  destruct call as [file|file_id opts|task_id|file_id|file_id]; cbn.
  - left. destruct (upload_csv_outcome st sv file user_id); by simpl.
  - unfold preprocess_csv. destruct file_id as [[|c file_id]|]; [by left| |by left].
    destruct (redis_get _ _); simpl; eauto.
  - left. unfold get_task_status. by repeat case_match.
  - left. unfold download_processed_csv. by repeat case_match.
  - left. unfold analyze_csv. by repeat case_match.
Qed.

Lemma enqueue_wf sv file_path opts :
  jobs_wf sv → jobs_wf (enqueue sv file_path opts).2.
Proof.
  intros [Hkeys Hlive]. split; simpl; intros id j.
  - intros [[<- _]|[_ Hj]]%lookup_insert_Some.
    + exists (sv_enqueued sv). split; [lia|done].
    + destruct (Hkeys _ _ Hj) as (n & ? & ->). exists n. split; [lia|done].
  - intros [[_ <-]|[_ Hj]]%lookup_insert_Some; [done|by eapply Hlive].
Qed.

Lemma settles_wf sv id sv' : jobs_wf sv → settles sv id sv' → jobs_wf sv'.
Proof.
  intros [Hkeys Hlive] (Hn & _ & j & j' & Hj & _ & Hq & _ & _ & Hjobs).
  split; rewrite Hjobs, ?Hn; intros id' j1.
  - intros [[<- _]|[_ ?]]%lookup_insert_Some; eauto.
  - intros [[_ <-]|[_ ?]]%lookup_insert_Some; [congruence|eauto].
Qed.

Lemma age_job_queued seconds j j' :
  age_job seconds j = Some j' → job_queued j' = job_queued j.
Proof.
  unfold age_job. destruct (job_ttl j); [|congruence].
  case_decide; [|done]. by intros [= <-].
Qed.

Lemma age_job_live seconds j : job_ttl j = None → age_job seconds j = Some j.
Proof. unfold age_job. by intros ->. Qed.

Lemma tick_wf seconds sv : jobs_wf sv → jobs_wf (tick seconds sv).
Proof.
  intros [Hkeys Hlive].
  split; simpl; intros id j' (j & Hage & Hj)%lookup_omap_Some; [eauto|].
  intros Hq. erewrite age_job_queued in Hq by done.
  rewrite age_job_live in Hage by eauto. simplify_eq. eauto.
Qed.

(** A step of the worker on a job: nothing when the job is not queued. *)
Lemma worker_step sv ev id :
  works_on id ev → step sv ev = sv ∨ settles sv id (step sv ev).
Proof.
  destruct ev as [| id' | | id' writes exc_info | id' writes |]; simpl; try done;
    intros ->;
    destruct (from_option job_queued false (sv_jobs sv !! id)) eqn:Hq;
    unfold kill, time_out; auto using work_idle, stop_idle, work_settles, stop_settles.
Qed.

(** The worker in the middle of a job leaves the queue and the records
    of the files as they are. *)
Lemma advance_jobs sv id writes :
  sv_jobs (advance sv id writes) = sv_jobs sv ∧
  sv_enqueued (advance sv id writes) = sv_enqueued sv ∧
  sv_files (advance sv id writes) = sv_files sv.
Proof.
  unfold advance. destruct (sv_jobs sv !! id) as [[[file_path opts] [] ?]|]; try done.
  by destruct (interrupted _ _ _ _ _).
Qed.

Lemma works_on_some ev :
  (∃ id, works_on id ev) ∨ (∀ id, ¬ works_on id ev).
Proof. destruct ev; simpl; eauto. Qed.

(** Every event keeps the invariant. *)
Lemma step_jobs_wf sv ev : jobs_wf sv → jobs_wf (step sv ev).
Proof.
  intros Hwf. destruct (works_on_some ev) as [[id Hid]|Hno].
  { destruct (worker_step sv ev id Hid) as [->|?]; eauto using settles_wf. }
  assert (∀ sv', sv_jobs sv' = sv_jobs sv → sv_enqueued sv' = sv_enqueued sv →
               jobs_wf sv') as Hsame.
  { intros sv' Hj Hn. destruct Hwf as [Hkeys Hlive]. split; rewrite Hj, ?Hn; eauto. }
  destruct ev as [st call user_id| id | id writes | id writes exc_info | id writes
                 |seconds]; simpl; try by destruct (Hno id).
  - destruct (csv_view_jobs st sv call user_id) as [[Hj Hn]|(? & ? & ->)];
      [by apply Hsame|by apply enqueue_wf].
  - apply Hsame; apply advance_jobs.
  - by apply tick_wf.
Qed.

Lemma run_jobs_wf sv evs : jobs_wf sv → jobs_wf (run sv evs).
Proof.
  revert sv. induction evs as [|ev evs IH]; intros sv Hwf; [done|].
  simpl. by apply IH, step_jobs_wf.
Qed.

(** A queued job waits: it stays queued until the worker takes it,
    whatever else happens. *)
Lemma step_waits sv ev id j :
  jobs_wf sv → sv_jobs sv !! id = Some j → job_queued j = true →
  ¬ works_on id ev → sv_jobs (step sv ev) !! id = Some j.
Proof.
  intros Hwf Hj Hq Hev. destruct (works_on_some ev) as [[id' Hid']|Hno].
  { destruct (worker_step sv ev id' Hid') as [->|Hs]; [done|].
    rewrite (settles_lookup_ne _ _ _ _ Hs); [done|]. by intros ->. }
  destruct ev as [st call user_id| id' | id' writes | id' writes exc_info
                 | id' writes |seconds]; simpl; try by destruct (Hno id').
  - destruct (csv_view_jobs st sv call user_id) as [[-> _]|(? & ? & ->)];
      [done|]. simpl. rewrite lookup_insert_ne; [done|].
    destruct (jobs_enqueued _ Hwf _ _ Hj) as (n & ? & ->).
    unfold next_job_id. intros ?%(inj pretty). lia.
  - by rewrite (proj1 (advance_jobs sv id' writes)).
  - rewrite lookup_omap, Hj. simpl. apply age_job_live.
    by eapply jobs_queued_live.
Qed.

Lemma run_waits sv evs id j :
  jobs_wf sv → sv_jobs sv !! id = Some j → job_queued j = true →
  Forall (λ ev, ¬ works_on id ev) evs → sv_jobs (run sv evs) !! id = Some j.
Proof.
  intros Hwf Hj Hq Hevs. revert sv Hwf Hj.
  induction Hevs as [|ev evs Hev _ IH]; intros sv Hwf Hj; [done|].
  simpl. apply IH; [by apply step_jobs_wf|by apply step_waits].
Qed.

End invariant.

(** ** The worker finishes every queued job *)

Section finishes.
Implicit Types (sv : server) (id : string) (n m fuel : nat) (j : job).

Lemma waiting_queued sv id j :
  jobs_wf sv → sv_jobs sv !! id = Some j → job_queued j = true →
  ∃ n, id = pretty n ∧ n ∈ queued sv.
Proof.
  intros Hwf Hj Hq. destruct (jobs_enqueued _ Hwf _ _ Hj) as (n & Hn & ->).
  exists n. split; [done|]. apply list_elem_of_filter. split.
  - unfold is_queued. by rewrite Hj.
  - apply elem_of_seq. lia.
Qed.

Lemma work_jobs_wf sv id : jobs_wf sv → jobs_wf (work sv id).
Proof. apply (step_jobs_wf sv (Work id)). Qed.

(** With fuel for every queued job, the worker leaves each of them
    finished, with the result of its task. *)
Lemma drain_finishes fuel sv id j :
  jobs_wf sv → sv_jobs sv !! id = Some j → job_queued j = true →
  pending sv ≤ fuel →
  ∃ res, sv_jobs (drain fuel sv) !! id
         = Some {| job_args := job_args j; job_status_of := Finished res;
                   job_ttl := Some RESULT_TTL |}.
Proof.
  unfold pending. revert sv. induction fuel as [|fuel IH]; intros sv Hwf Hj Hq Hfuel;
    destruct (waiting_queued sv id j) as (m & -> & Hm); try done;
    destruct (queued sv) as [|n ns] eqn:Hns; try by apply elem_of_nil in Hm.
  { simpl in Hfuel. lia. }
  rewrite (drain_cons _ _ n ns) by done. destruct (decide (m = n)) as [->|Hne].
  - destruct (work_finished sv (pretty n) j) as [res Hres]; [done..|].
    exists res. by apply drain_keeps.
  - apply IH; [by apply work_jobs_wf| |done|].
    + rewrite (settles_lookup_ne sv (pretty n)); [done| |by intros ?%(inj pretty)].
      by eapply work_settles, queued_head.
    + rewrite (work_queued _ n ns) by done. simpl in Hfuel. lia.
Qed.

End finishes.

Lemma jobs_wf_empty (sv : server) : sv_jobs sv = ∅ → jobs_wf sv.
Proof. intros Hj. split; intros id j; by rewrite Hj, lookup_empty. Qed.
