(* ===== verification/ServiceSpec.v ===== *)
(** * ServiceSpec: what the queue promises

    The loop of the worker stops, and when it stops no job is queued; a
    job that a request has enqueued is completed once the worker has
    emptied the queue, whatever requests, other jobs and time come in
    between; a job that is stopped leaves a prefix of the output of
    the task and the progress record of the rows it wrote, and when its
    timeout stopped it the views report it as completed and serve the
    prefix; a job that is polled while it runs reports the rows written
    so far; the files of an upload outlive its record. *)

From stdpp Require Import pretty.
From S2P Require Import Prelude Strings Numbers Value Frame Reader.
From S2P Require Import Analyzer AnalyzerSpec Transform TransformSpec Auth Views.
From S2P Require Import ViewsSpec Service.

(** ** A job that a request has enqueued *)

Section enqueued.
Variables (sv : server) (file_id : option string) (opts : option options).
Variable user_id : nat.

(** A request answered 202 has enqueued a job with the next
    identifier. *)
Lemma preprocess_csv_accepted :
  status (preprocess_csv sv file_id opts user_id).1 = 202 →
  ∃ file_path opts',
    (preprocess_csv sv file_id opts user_id).2 = (enqueue sv file_path opts').2 ∧
    field "task_id" (body (preprocess_csv sv file_id opts user_id).1)
    = Some (JString (next_job_id sv)).
Proof.
  unfold preprocess_csv. destruct file_id as [[|c id]|]; [done| |done].
  destruct (redis_get _ _); [|done]. simpl. eauto.
Qed.

End enqueued.

(** The answer of [get_task_status] for a finished job. *)
Lemma get_task_status_completed sv task_id user_id args res ttl :
  sv_jobs sv !! task_id
  = Some {| job_args := args; job_status_of := Finished res; job_ttl := ttl |} →
  (get_task_status sv task_id user_id).1
  = jsonify [("status", JString "completed");
             ("result", transform_result_json res)] 200.
Proof. unfold get_task_status. by intros ->. Qed.

(** ** Examples *)

(** Two requests to preprocess the uploaded file: two queued jobs. *)
Definition preprocess_request (user_id : nat) : event :=
  Request example_site
    (PreprocessCsv (Some "7_20250101_120000_my_data.csv") (Some example_options))
    user_id.


(** What happens while the job "0" waits: the status is asked, a minute
    passes, a second job is enqueued and the worker is stopped on it. *)
Definition meanwhile : list event :=
  [Request example_site (GetTaskStatus "0") 8; Elapse 60; preprocess_request 8;
   Elapse 60; Kill "1" 1 "Work-horse terminated unexpectedly"].

(** ** The loop of the worker *)



(** C15: a job that a request has enqueued is completed.  When the request
    to preprocess a file is answered 202, then whatever happens next
    (requests, jobs that are enqueued, run or stopped, time that passes)
    short of a step of the worker on this job, once the worker has
    emptied the queue the status of the job is [completed], with the
    result of the task. *)
Theorem enqueued_job_completes sv file_id opts u1 u2 evs fuel :
  jobs_wf sv →
  status (preprocess_csv sv file_id opts u1).1 = 202 →
  Forall (λ ev, ¬ works_on (next_job_id sv) ev) evs →
  pending (run (preprocess_csv sv file_id opts u1).2 evs) ≤ fuel →
  ∃ result,
    (get_task_status
       (drain fuel (run (preprocess_csv sv file_id opts u1).2 evs))
       (next_job_id sv) u2).1
    = jsonify [("status", JString "completed");
               ("result", transform_result_json result)] 200.
Proof.
  intros Hwf (file_path & opts' & -> & _)%preprocess_csv_accepted Hevs Hfuel.
  set (j := {| job_args := (file_path, opts'); job_status_of := Queued;
               job_ttl := None |}).
  set (sv1 := (enqueue sv file_path opts').2) in *.
  assert (sv_jobs (run sv1 evs) !! next_job_id sv = Some j) as Hj.
  { apply run_waits; [by apply enqueue_wf| |done..].
    unfold sv1. simpl. by rewrite lookup_insert_eq. }
  destruct (drain_finishes fuel (run sv1 evs) (next_job_id sv) j) as [res Hres];
    [by apply run_jobs_wf, enqueue_wf|done..|].
  exists res. by eapply get_task_status_completed.
Qed.

Lemma enqueued_job_completes_witness :
  ∃ result,
    (get_task_status
       (drain 3 (run (preprocess_csv uploaded
                        (Some "7_20250101_120000_my_data.csv")
                        (Some example_options) 7).2 meanwhile))
       (next_job_id uploaded) 9).1
    = jsonify [("status", JString "completed");
               ("result", transform_result_json result)] 200.
Proof.
  apply (enqueued_job_completes uploaded (Some "7_20250101_120000_my_data.csv")
           (Some example_options) 7 9 meanwhile 3).
  - apply jobs_wf_empty. by vm_compute.
  - by vm_compute.
  - apply (bool_decide_unpack _). by vm_compute.
  - apply (bool_decide_unpack _). by vm_compute.
Defined.

(** ** A job that is stopped *)

Section killed.
Variables (fs : filesystem) (r : redis) (file_path : string) (opts : options).
Variables (header : list string) (data : list (list string)).
Hypothesis reads : reads_fields fs file_path header data.
Hypothesis streaming : remove_duplicates opts = false.
Implicit Types (chunk_size writes : nat).

(** The task stopped after [writes] chunks, in streaming mode. *)
Lemma interrupted_with_stream chunk_size writes :
  let cols := names opts header in
  let frames := take writes (typed_chunks chunk_size header data) in
  interrupted_with chunk_size writes fs r file_path opts
  = match frames with
    | [] => (fs, r)
    | _ => (<[output_path file_path := csv_line cols +:+ text_of opts cols frames]> fs,
            setex r ("progress:" +:+ file_path) 300 (rows_of opts cols frames))
    end.
Proof.
  intros cols frames. unfold interrupted_with.
  rewrite (read_csv_typed_prefix _ _ header data) by done.
  rewrite streaming, (read_csv_typed_chunks_whole _ _ _ header data) by done.
  rewrite <-fmap_take. fold frames.
  change (if standardize_columns opts then _ else _) with cols.
  assert (Forall (λ c, fits opts cols c ∧ columns c = header) frames) as Hfit.
  { apply Forall_take, Forall_fmap, Forall_forall. intros c _. split; [|done].
    intros _. apply names_length. }
  destruct frames as [|c cs]; [done|]. fold (start fs r).
  rewrite process_chunks_start by (eapply Forall_impl; [done|]; by intros ? []).
  apply Forall_cons in Hfit as [[_ Hc] _]. simpl.
  unfold cols. by rewrite chunk_out_columns.
Qed.

Lemma text_of_app (cols : list string) (frames1 frames2 : list frame) :
  text_of opts cols (frames1 ++ frames2)
  = text_of opts cols frames1 +:+ text_of opts cols frames2.
Proof.
  unfold text_of. induction frames1 as [|c cs IH]; [done|].
  simpl. by rewrite IH, app_assoc.
Qed.

Lemma field_chunks_take chunk_size writes :
  0 < chunk_size →
  mjoin (take writes (field_chunks chunk_size data))
  = take (writes * chunk_size) data.
Proof.
  intros Hn. unfold field_chunks. destruct data as [|row rows].
  - rewrite take_nil. by destruct writes as [|[|?]].
  - by apply chunks_take.
Qed.

(** The rows the stopped task has counted. *)
Lemma rows_of_take chunk_size writes :
  0 < chunk_size →
  rows_of opts (names opts header)
    (take writes (typed_chunks chunk_size header data))
  = length (filter (keeps (handle_missing opts))
              (take (writes * chunk_size) data)).
Proof.
  intros Hn. unfold typed_chunks. rewrite <-fmap_take, rows_of_typed.
  - by rewrite field_chunks_take.
  - rewrite field_chunks_take by done.
    eapply Forall_take, reads_fields_lengths, reads.
Qed.

End killed.

(** C17: a job that is stopped leaves a prefix of the output.  In streaming mode, when the task is stopped after it has
    written one chunk or more of a file that reads whole, the output file
    holds the beginning of what the complete run writes, and the progress
    record holds the number of rows that [handle_missing] keeps among
    the rows of the chunks written: the record never runs ahead of the
    file.  The names of the columns are distinct. *)
Theorem killed_job_leaves_prefix chunk_size writes fs r file_path opts
    header data :
  reads_fields fs file_path header data → remove_duplicates opts = false →
  NoDup (names opts header) → 0 < chunk_size → 0 < writes →
  ∃ partial rest,
    (interrupted_with chunk_size writes fs r file_path opts).1
      !! output_path file_path = Some partial ∧
    (preprocess_with chunk_size fs r file_path opts).1.2
      !! output_path file_path = Some (partial +:+ rest) ∧
    redis_get (interrupted_with chunk_size writes fs r file_path opts).2
      ("progress:" +:+ file_path)
    = Some (length (filter (keeps (handle_missing opts))
                      (take (writes * chunk_size) data))).
Proof.
  intros Hreads Hdup _ Hn Hw. set (cols := names opts header).
  set (frames := typed_chunks chunk_size header data).
  rewrite (interrupted_with_stream _ _ _ _ header data) by done.
  rewrite (preprocess_with_stream _ _ _ _ header data) by done.
  fold cols frames.
  replace (text_of opts cols frames)
    with (text_of opts cols (take writes frames)
          +:+ text_of opts cols (drop writes frames))
    by (by rewrite <-text_of_app, take_drop).
  rewrite <-(rows_of_take fs file_path opts header data Hreads) by done.
  fold cols frames.
  assert (take writes frames ≠ []) as Hne.
  { unfold frames, typed_chunks, field_chunks, chunks.
    destruct data, writes; simpl; done || lia. }
  destruct (take writes frames) as [|c cs] eqn:Hk; [done|].
  exists (csv_line cols +:+ text_of opts cols (c :: cs)),
    (text_of opts cols (drop writes frames)).
  cbn [fst snd]. by rewrite !lookup_insert_eq, redis_get_setex, app_assoc.
Qed.

Lemma killed_job_leaves_prefix_witness :
  ∃ partial rest,
    (interrupted_with 2 1 people_fs ∅ "people.csv" drop_options).1
      !! output_path "people.csv" = Some partial ∧
    (preprocess_with 2 people_fs ∅ "people.csv" drop_options).1.2
      !! output_path "people.csv" = Some (partial +:+ rest) ∧
    redis_get (interrupted_with 2 1 people_fs ∅ "people.csv" drop_options).2
      ("progress:" +:+ "people.csv")
    = Some (length (filter (keeps (handle_missing drop_options))
                      (take (1 * 2) people_data))).
Proof.
  apply (killed_job_leaves_prefix 2 1 people_fs ∅ "people.csv" drop_options
           people_header people_data); [apply people_reads|done| |lia|lia].
  apply (bool_decide_unpack _). by vm_compute.
Defined.

(** ** A job in the middle of its task, and the views *)

(** The rows a filter keeps among the first rows of a list grow with the
    number of rows taken. *)
Lemma filter_take_mono {A} (P : A → Prop) `{!∀ x, Decision (P x)}
    (l : list A) (n m : nat) :
  n ≤ m → length (filter P (take n l)) ≤ length (filter P (take m l)).
Proof.
  intros Hnm. rewrite <-(take_drop n (take m l)), take_take, filter_app, List.length_app.
  replace (n `min` m) with n by lia. lia.
Qed.

Section stopped.
Variables (sv : server) (file_id : string) (file_metadata : file_metadata).
Variables (opts : options) (header : list string) (data : list (list string)).
Hypothesis file_id_given : file_id ≠ "".
Hypothesis recorded :
  redis_get (sv_files sv) ("csv_file:" +:+ file_id) = Some file_metadata.
Hypothesis reads :
  reads_fields (sv_fs sv) (fm_file_path file_metadata) header data.
Hypothesis streaming : remove_duplicates opts = false.
Implicit Types (writes ttl : nat) (outcome : job_status).

(** The text of the output file after [writes] chunks, and the rows
    counted then. *)
Definition written_after (writes : nat) : string :=
  csv_line (names opts header)
  +:+ text_of opts (names opts header)
        (take writes (typed_chunks CHUNK_SIZE header data)).

Definition kept_after (writes : nat) : nat :=
  length (filter (keeps (handle_missing opts)) (take (writes * CHUNK_SIZE) data)).

(** The files and the records after [writes] turns of the loop. *)
Lemma interrupted_reads writes :
  0 < writes →
  interrupted writes (sv_fs sv) (sv_progress sv) (fm_file_path file_metadata) opts
  = (<[output_path (fm_file_path file_metadata) := written_after writes]> (sv_fs sv),
     setex (sv_progress sv) ("progress:" +:+ fm_file_path file_metadata) 300
       (kept_after writes)).
Proof.
  intros Hw. unfold interrupted.
  rewrite (interrupted_with_stream _ _ _ _ header data reads streaming).
  rewrite (rows_of_take _ _ _ header data reads) by apply CHUNK_SIZE_pos.
  assert (take writes (typed_chunks CHUNK_SIZE header data) ≠ []) as Hne.
  { unfold typed_chunks, field_chunks, chunks.
    destruct data, writes; simpl; done || lia. }
  unfold written_after.
  by destruct (take writes (typed_chunks CHUNK_SIZE header data)).
Qed.

(** The service after the job of the request was stopped. *)
Lemma stop_started writes outcome ttl :
  0 < writes →
  let sv' := stop (started sv file_metadata opts) (next_job_id sv) writes outcome ttl in
  sv_fs sv'
  = <[output_path (fm_file_path file_metadata) := written_after writes]> (sv_fs sv) ∧
  sv_files sv' = sv_files sv ∧
  sv_jobs sv' !! next_job_id sv
  = Some {| job_args := (fm_file_path file_metadata, opts);
            job_status_of := outcome; job_ttl := Some ttl |}.
Proof.
  intros Hw. unfold stop, started. cbn [sv_jobs sv_fs sv_progress sv_files].
  rewrite lookup_insert_eq. cbn [queued_job job_args job_status_of].
  rewrite interrupted_reads by done.
  cbn [sv_fs sv_files sv_jobs]. by rewrite lookup_insert_eq.
Qed.

(** The service while the job of the request runs. *)
Lemma advance_started writes :
  0 < writes →
  advance (started sv file_metadata opts) (next_job_id sv) writes
  = {| sv_fs := <[output_path (fm_file_path file_metadata) := written_after writes]>
                  (sv_fs sv);
       sv_files := sv_files sv;
       sv_progress :=
         setex (sv_progress sv) ("progress:" +:+ fm_file_path file_metadata) 300
           (kept_after writes);
       sv_jobs := sv_jobs (started sv file_metadata opts);
       sv_enqueued := S (sv_enqueued sv) |}.
Proof.
  intros Hw. unfold advance, started. cbn [sv_jobs sv_fs sv_progress sv_files].
  rewrite lookup_insert_eq. cbn [queued_job job_args job_status_of].
  by rewrite interrupted_reads.
Qed.

(** The file a stopped job leaves begins the file of the complete
    run. *)
Lemma written_after_prefix writes :
  ∃ rest,
    sv_fs (work (started sv file_metadata opts) (next_job_id sv))
      !! output_path (fm_file_path file_metadata)
    = Some (written_after writes +:+ rest).
Proof.
  rewrite work_started. unfold finished, ViewsSpec.run. cbn [sv_fs].
  unfold preprocess_csv_task_chunked.
  rewrite (preprocess_with_stream _ _ _ _ header data) by
    (done || apply CHUNK_SIZE_pos).
  cbn [fst snd]. rewrite lookup_insert_eq. unfold written_after.
  exists (text_of opts (names opts header)
            (drop writes (typed_chunks CHUNK_SIZE header data))).
  by rewrite app_assoc, <-text_of_app, take_drop.
Qed.

(** The count of the rows grows with the chunks, up to the count of the
    complete run. *)
Lemma kept_after_mono writes later :
  writes ≤ later →
  kept_after writes ≤ kept_after later
  ≤ length (filter (keeps (handle_missing opts)) data).
Proof.
  intros Hle. unfold kept_after. split.
  - apply filter_take_mono. nia.
  - rewrite <-(firstn_all data) at 2.
    destruct (decide (later * CHUNK_SIZE ≤ length data));
      [by apply filter_take_mono|].
    rewrite (take_ge data (later * _)) by lia. by rewrite firstn_all.
Qed.

(** The task that goes on overwrites what it has written: the end of
    the job is the end of a job that was not seen in between. *)
Lemma work_advance writes :
  output_path (fm_file_path file_metadata) ≠ fm_file_path file_metadata →
  0 < writes →
  work (advance (started sv file_metadata opts) (next_job_id sv) writes)
    (next_job_id sv)
  = work (started sv file_metadata opts) (next_job_id sv).
Proof.
  intros Hout Hw. rewrite advance_started by done. unfold work, started.
  cbn [sv_jobs sv_fs sv_progress sv_files sv_enqueued].
  rewrite lookup_insert_eq. cbn [queued_job job_args job_status_of].
  unfold preprocess_csv_task_chunked.
  assert (reads_fields
            (<[output_path (fm_file_path file_metadata) := written_after writes]>
               (sv_fs sv)) (fm_file_path file_metadata) header data) as Hreads'.
  { destruct reads as (ls & Hopen & Hls). exists ls. split; [|done].
    unfold open_csv in *. by rewrite lookup_insert_ne. }
  rewrite !(preprocess_with_stream _ _ _ _ header data) by
    (done || apply CHUNK_SIZE_pos).
  unfold setex. by rewrite !insert_insert_eq.
Qed.

End stopped.

(** C18: a job that its timeout stops is reported as completed, and what
    it has written is served.  The exception of the timeout is caught by
    the handler of the task, so the job is finished with an error
    result: the status of the job is [completed].  The download does not
    look at the job: it sends the file the task has left, which is only
    the beginning of the file of the complete run. *)
Theorem timed_out_job_is_served sv file_id file_metadata opts header data
    writes u1 u2 u3 :
  file_id ≠ "" →
  redis_get (sv_files sv) ("csv_file:" +:+ file_id) = Some file_metadata →
  reads_fields (sv_fs sv) (fm_file_path file_metadata) header data →
  remove_duplicates opts = false → NoDup (names opts header) → 0 < writes →
  let request := preprocess_csv sv (Some file_id) (Some opts) u1 in
  let task_id := next_job_id sv in
  let sv' := time_out request.2 task_id writes in
  let out := output_path (fm_file_path file_metadata) in
  status request.1 = 202 ∧
  (get_task_status sv' task_id u2).1
  = jsonify [("status", JString "completed");
             ("result", transform_result_json (Error TIMEOUT_MESSAGE))] 200 ∧
  ∃ partial rest,
    (download_processed_csv sv' file_id u3).1
    = send_file (<[out := partial]> (sv_fs sv)) out "text/csv"
        ("processed_" +:+ fm_original_filename file_metadata) ∧
    sv_fs (work request.2 task_id) !! out = Some (partial +:+ rest).
Proof.
  intros Hid Hrec Hreads Hstream _ Hw request task_id sv' out.
  unfold sv', request, task_id, time_out.
  rewrite (preprocess_csv_started sv file_id file_metadata opts) by done.
  cbn [fst snd].
  destruct (stop_started sv file_metadata opts header data Hreads Hstream writes
              (Finished (Error TIMEOUT_MESSAGE)) RESULT_TTL Hw)
    as (Hfs & Hfiles & Hjob).
  split_and!; [done|by erewrite get_task_status_completed|].
  destruct (written_after_prefix sv file_metadata opts header data Hreads
              Hstream writes) as [rest Hrest].
  exists (written_after opts header data writes), rest. split; [|done].
  erewrite download_found; [by rewrite Hfs|by rewrite Hfiles|].
  rewrite Hfs. apply lookup_insert_eq.
Qed.

Lemma timed_out_job_is_served_witness :
  let id := "7_20250101_120000_my_data.csv" in
  let request := preprocess_csv uploaded (Some id) (Some drop_options) 7 in
  let sv' := time_out request.2 (next_job_id uploaded) 1 in
  let out := output_path (fm_file_path example_metadata) in
  status request.1 = 202 ∧
  (get_task_status sv' (next_job_id uploaded) 8).1
  = jsonify [("status", JString "completed");
             ("result", transform_result_json (Error TIMEOUT_MESSAGE))] 200 ∧
  ∃ partial rest,
    (download_processed_csv sv' id 9).1
    = send_file (<[out := partial]> (sv_fs uploaded)) out "text/csv"
        ("processed_" +:+ fm_original_filename example_metadata) ∧
    sv_fs (work request.2 (next_job_id uploaded)) !! out = Some (partial +:+ rest).
Proof.
  apply (timed_out_job_is_served uploaded "7_20250101_120000_my_data.csv"
           example_metadata drop_options ["a"; "b"]
           [["1"; "x"]; ["2"; " y "]; ["1"; "x"]] 1 7 8 9).
  - done.
  - by vm_compute.
  - eexists. split; vm_compute; reflexivity.
  - done.
  - apply (bool_decide_unpack _). by vm_compute.
  - lia.
Defined.

(** ** A job that is polled *)

(** C19: a job that runs is reported as it goes.  While the task of the
    job is between two turns of its loop, [get_task_status] answers
    [processing] with the rows kept among the chunks written so far; the
    count grows from one poll to a later one and never passes the count
    of the complete run.  The polls change nothing for the job: when the
    task has returned, the job is [completed] with the result of a run
    that nobody watched. *)
Theorem running_job_reports_progress sv file_id file_metadata opts header data
    writes later u1 u2 :
  file_id ≠ "" →
  redis_get (sv_files sv) ("csv_file:" +:+ file_id) = Some file_metadata →
  reads_fields (sv_fs sv) (fm_file_path file_metadata) header data →
  remove_duplicates opts = false → NoDup (names opts header) →
  output_path (fm_file_path file_metadata) ≠ fm_file_path file_metadata →
  0 < writes ≤ later →
  let request := preprocess_csv sv (Some file_id) (Some opts) u1 in
  let task_id := next_job_id sv in
  let rows n :=
    length (filter (keeps (handle_missing opts)) (take (n * CHUNK_SIZE) data)) in
  let total := length (filter (keeps (handle_missing opts)) data) in
  let polled := advance request.2 task_id writes in
  (get_task_status polled task_id u2).1
  = jsonify [("status", JString "processing"); ("progress", JNum 0);
             ("rows_processed", JNum (Z.of_nat (rows writes)))] 200 ∧
  rows writes ≤ rows later ≤ total ∧
  work polled task_id = work request.2 task_id ∧
  (get_task_status (work polled task_id) task_id u2).1
  = jsonify [("status", JString "completed");
             ("result",
              transform_result_json
                (Success (output_path (fm_file_path file_metadata)) total None
                   (names opts header)))] 200.
Proof.
  intros Hid Hrec Hreads Hstream _ Hout [Hw Hle] request task_id rows total polled.
  unfold polled, request, task_id.
  rewrite (preprocess_csv_started sv file_id file_metadata opts) by done.
  cbn [fst snd].
  rewrite (work_advance sv file_metadata opts header data Hreads Hstream) by done.
  split; [|split; [by apply kept_after_mono|split; [done|]]].
  - rewrite (advance_started sv file_metadata opts header data Hreads Hstream)
      by done.
    unfold get_task_status, started, progress_rows. cbn [sv_jobs sv_progress].
    rewrite lookup_insert_eq. cbn [queued_job job_status_of job_args fst].
    by rewrite redis_get_setex.
  - rewrite work_started, get_task_status_finished.
    unfold ViewsSpec.run, preprocess_csv_task_chunked.
    rewrite (preprocess_with_stream _ _ _ _ header data) by
      (done || apply CHUNK_SIZE_pos).
    cbn [fst snd]. rewrite rows_of_typed_chunks; [done|apply CHUNK_SIZE_pos|].
    by eapply reads_fields_lengths.
Qed.

Lemma running_job_reports_progress_witness :
  let id := "7_20250101_120000_my_data.csv" in
  let request := preprocess_csv uploaded (Some id) (Some drop_options) 7 in
  let task_id := next_job_id uploaded in
  let data := [["1"; "x"]; ["2"; " y "]; ["1"; "x"]] in
  let rows n := length (filter (keeps "drop") (take (n * CHUNK_SIZE) data)) in
  let polled := advance request.2 task_id 1 in
  (get_task_status polled task_id 8).1
  = jsonify [("status", JString "processing"); ("progress", JNum 0);
             ("rows_processed", JNum (Z.of_nat (rows 1)))] 200 ∧
  rows 1 ≤ rows 2 ≤ length (filter (keeps "drop") data) ∧
  work polled task_id = work request.2 task_id ∧
  (get_task_status (work polled task_id) task_id 8).1
  = jsonify [("status", JString "completed");
             ("result",
              transform_result_json
                (Success (output_path (fm_file_path example_metadata))
                   (length (filter (keeps "drop") data)) None
                   (names drop_options ["a"; "b"])))] 200.
Proof.
  apply (running_job_reports_progress uploaded "7_20250101_120000_my_data.csv"
           example_metadata drop_options ["a"; "b"]
           [["1"; "x"]; ["2"; " y "]; ["1"; "x"]] 1 2 7 8).
  - done.
  - by vm_compute.
  - eexists. split; vm_compute; reflexivity.
  - done.
  - apply (bool_decide_unpack _). by vm_compute.
  - apply (bool_decide_unpack _). by vm_compute.
  - lia.
Defined.

(** The progress record is kept under the path of the file, not under
    the job: a second job on a file reports, before it has started, the
    rows of the job that ran before it. *)
Lemma queued_job_reports_earlier_run sv file_id file_metadata opts opts' header
    data u1 u2 :
  file_id ≠ "" →
  redis_get (sv_files sv) ("csv_file:" +:+ file_id) = Some file_metadata →
  reads_fields (sv_fs sv) (fm_file_path file_metadata) header data →
  remove_duplicates opts = false →
  let sv1 := work (started sv file_metadata opts) (next_job_id sv) in
  let request := preprocess_csv sv1 (Some file_id) (Some opts') u1 in
  (get_task_status request.2 (next_job_id sv1) u2).1
  = jsonify [("status", JString "processing"); ("progress", JNum 0);
             ("rows_processed",
              JNum (Z.of_nat (length (filter (keeps (handle_missing opts)) data))))]
      200.
Proof.
  intros Hid Hrec Hreads Hstream sv1 request. unfold request, sv1.
  rewrite work_started.
  rewrite (preprocess_csv_started _ file_id file_metadata opts') by done.
  unfold get_task_status, started, progress_rows. cbn [snd sv_jobs sv_progress].
  rewrite lookup_insert_eq. cbn [queued_job job_status_of job_args fst].
  unfold finished, ViewsSpec.run, preprocess_csv_task_chunked. cbn [sv_progress].
  rewrite (preprocess_with_stream _ _ _ _ header data) by
    (done || apply CHUNK_SIZE_pos).
  cbn [snd]. rewrite redis_get_setex.
  rewrite rows_of_typed_chunks; [done|apply CHUNK_SIZE_pos|].
  by eapply reads_fields_lengths.
Qed.

(** ** Files outlive their records *)

(** The record of an upload lives 7200 seconds; nothing removes the
    file.  Two hours after an upload that was accepted the file is still
    in the upload folder, and no view finds it: a request to preprocess,
    download or analyse it is answered 404. *)
Lemma expired_record_leaves_file st sv file user_id df seconds st' call u :
  let filename := secure_filename (up_filename file) in
  let file_id :=
    pretty user_id +:+ "_" +:+ now_strftime st +:+ "_" +:+ filename in
  let file_path := UPLOAD_FOLDER st +:+ "/" +:+ file_id in
  let fs := <[file_path := up_content file]> (sv_fs sv) in
  let later := tick seconds (upload_csv st sv (Some file) user_id).2 in
  allowed_file (up_filename file) = true →
  (Z.of_nat (String.length (up_content file)) ≤ MAX_FILE_SIZE)%Z →
  reads_whole fs file_path df → 7200 ≤ seconds →
  (∃ opts, call = PreprocessCsv (Some file_id) opts)
  ∨ call = DownloadProcessedCsv file_id ∨ call = AnalyzeCsv file_id →
  sv_fs later !! file_path = Some (up_content file) ∧
  csv_view st' later call u = (error "File not found or expired" 404, later).
Proof.
  intros filename file_id file_path fs later Hname Hsize Hreads Hsec Hcall.
  destruct (upload_body_reads st (set_fs sv fs) filename file_id file_path
              (String.length (up_content file)) user_id df Hreads)
    as (resp & qr & Hbody & _).
  unfold later. rewrite (upload_csv_checked _ _ _ _ Hname Hsize _ Hbody).
  split; [apply lookup_insert_eq|].
  apply (views_without_record _ file_id); [|by destruct (pretty user_id)|done].
  by apply redis_get_expired.
Qed.
