(* ===== verification/App.v ===== *)
(** * App: the application

    src/server/app.py and src/server/routes.py: the configuration of the
    Flask application, the rules of its two blueprints and of the health
    check, the handlers of the errors 413 and 504, and the start of the
    server.

    [serve] is the answer of the application to an HTTP request: the
    rule that matches the method and the path is looked up, the view is
    called on the part of the state it owns (the database for the
    account endpoints, the service for the CSV endpoints), and an
    exception that leaves a view is answered 500.  A request whose body
    is larger than [MAX_CONTENT_LENGTH] is answered by the handler of
    413 when the view reads the body: for the views behind a decorator,
    after the decorator has run.

    Flask and flask-cors are library code, modelled from their
    documentation: exact matching of the paths, the converter of
    [<task_id>] and [<file_id>] (a segment that is not empty and has no
    slash), the answers 404 and 405, and the headers of CORS for a
    request that names its origin.  The pages of the errors 404, 405
    and 500 are given by their titles. *)

From Stdlib Require Import QArith Qcanon.
From S2P Require Import Prelude Strings Numbers Value Frame Reader.
From S2P Require Import Analyzer Transform Auth Views Service.

(** ** Configuration *)

(** [app.config], from the variables of the process. *)
Record config : Type := Config {
  cfg_SECRET_KEY : option string;
  cfg_SQLALCHEMY_DATABASE_URI : string;
  cfg_SQLALCHEMY_TRACK_MODIFICATIONS : bool;
  cfg_MAX_CONTENT_LENGTH : Z;
  cfg_SEND_FILE_MAX_AGE_DEFAULT : Z;
}.

Definition MAX_CONTENT_LENGTH : Z := 100 * 1024 * 1024.

Definition app_config (getenv : string → option string) : config :=
  {| cfg_SECRET_KEY := getenv "SECRET_KEY";
     cfg_SQLALCHEMY_DATABASE_URI :=
       default "sqlite:///data_cleanser.db" (getenv "DATABASE_URL");
     cfg_SQLALCHEMY_TRACK_MODIFICATIONS := false;
     cfg_MAX_CONTENT_LENGTH := MAX_CONTENT_LENGTH;
     cfg_SEND_FILE_MAX_AGE_DEFAULT := 0 |}.

(** The options of [CORS(app, ...)]: the paths it covers (the regular
    expression [/api/*] matches, in any case of the letters, the paths
    that begin with [/api]), the origin it allows, and whether
    credentials are allowed. *)
Record cors_options : Type := CorsOptions {
  cors_resources : string;
  cors_origins : string;
  cors_supports_credentials : bool;
}.

Definition cors : cors_options :=
  {| cors_resources := "/api";
     cors_origins := "http://localhost:3000";
     cors_supports_credentials := true |}.

(** The headers flask-cors adds to the response to a request to [path]
    that comes from [origin]. *)
Definition cors_headers (path origin : string) : list (string * string) :=
  if startswith (lower path) (cors_resources cors)
     && bool_decide (lower origin = lower (cors_origins cors)) then
    ("Access-Control-Allow-Origin", origin)
    :: (if cors_supports_credentials cors
        then [("Access-Control-Allow-Credentials", "true")] else [])
  else [].

(** ** Requests *)

(** An HTTP request: the method and the path, the size of the body, the
    header and the JSON object the account endpoints read, and what the
    CSV endpoints read of the body: the file of a form, and the fields
    [file_id] and [options] of a JSON object. *)
Record http_request : Type := HttpRequest {
  method : string;
  path : string;
  content_length : Z;
  hr_request : request;
  hr_file : option upload;
  hr_file_id : option string;
  hr_options : option options;
}.

(** The clocks and the variables of the process when a request is
    served. *)
Record moment : Type := Moment {
  mo_env : environment;
  mo_site : site;
}.

(** The state of the application: the database and the service. *)
Record app_state : Type := AppState {
  app_db : database;
  app_sv : server;
}.

(** ** The rules *)

(** [s] without the prefix [pre]; [None] when it does not begin with
    it. *)
Fixpoint removeprefix (pre s : string) : option string :=
  match pre, s with
  | EmptyString, _ => Some s
  | String c pre', String d s' =>
      if decide (c = d) then removeprefix pre' s' else None
  | String _ _, EmptyString => None
  end.

(** The value of the variable of a rule [pre<variable>]: a segment that
    is not empty and has no slash. *)
Definition path_variable (pre path : string) : option string :=
  value ← removeprefix pre path;
  if decide (value ≠ "" ∧ free_of "/" value) then Some value else None.

(** The views of [csv_bp], each with the variable of its rule. *)
Inductive csv_endpoint : Type :=
  | upload_csv_ep
  | preprocess_csv_ep
  | get_task_status_ep (task_id : string)
  | download_processed_csv_ep (file_id : string)
  | analyze_csv_ep (file_id : string).

(** The rule of [csv_bp] that matches a path under the prefix of the
    blueprint, with the methods of the rule. *)
Definition csv_rule (path : string) : option (string * csv_endpoint) :=
  if decide (path = "/upload") then Some ("POST", upload_csv_ep)
  else if decide (path = "/preprocess") then Some ("POST", preprocess_csv_ep)
  else if path_variable "/task-status/" path is Some task_id
    then Some ("GET", get_task_status_ep task_id)
  else if path_variable "/download/" path is Some file_id
    then Some ("GET", download_processed_csv_ep file_id)
  else if path_variable "/analyze/" path is Some file_id
    then Some ("GET", analyze_csv_ep file_id)
  else None.

Inductive view : Type :=
  | UserView (ep : endpoint)
  | CsvView (ep : csv_endpoint).

Inductive routed : Type :=
  | Found (v : view)
  | Options
  | MethodNotAllowed
  | NotFound.

(** [register_routes(app)]: the rules that match a path, each with its
    method: those of [user_bp] under [/api/user] and the health check,
    and those of [csv_bp] under [/api/csv]. *)
Definition rules_of (path : string) : list (string * view) :=
  ((λ r, (r.1.1, UserView r.2)) <$> filter (λ r, r.1.2 = path) register_routes)
  ++ match removeprefix "/api/csv" path ≫= csv_rule with
     | Some (m, ep) => [(m, CsvView ep)]
     | None => []
     end.

(** The view of a request.  Flask answers [OPTIONS] itself for every
    path that has a rule, and calls the view of [GET] for [HEAD]; a path
    without a rule is answered 404, and a path with rules for other
    methods 405. *)
Definition route (method path : string) : routed :=
  match rules_of path with
  | [] => NotFound
  | rules =>
      if decide (method = "OPTIONS") then Options
      else
        let m := if decide (method = "HEAD") then "GET" else method in
        match first_by (λ r, r.1 = m) rules with
        | Some (_, v) => Found v
        | None => MethodNotAllowed
        end
  end.

(** ** Error handlers *)

(** [@app.errorhandler(413)] and [@app.errorhandler(504)] *)
Definition request_entity_too_large : response :=
  error "File too large. Maximum size is 100MB" 413.

Definition gateway_timeout : response :=
  error "Request timeout. File processing is taking longer than expected." 504.

(** The answer of Flask to an exception that leaves a view. *)
Definition internal_server_error : response :=
  {| body := JString "Internal Server Error"; status := 500 |}.

(** The body of the request is larger than the application allows:
    reading it raises [RequestEntityTooLarge]. *)
Definition too_large (hr : http_request) : bool :=
  bool_decide (MAX_CONTENT_LENGTH < content_length hr)%Z.

(** ** Serving a request *)

Section serve.
Context `{Jwt, PasswordHash}.

(** The views that read the body of the request do so before anything
    else: [request.get_json()] or [request.files]. *)
Definition user_view (ep : endpoint) (env : environment) (db : database)
    (hr : http_request) : response * database :=
  let req := hr_request hr in
  if too_large hr then
    match ep with
    | register_ep | login_ep => (request_entity_too_large, db)
    | update_profile_ep | change_password_ep =>
        token_required (λ _, (request_entity_too_large, db)) env db req
    | _ => handle ep env db req
    end
  else handle ep env db req.

Definition csv_call_of (ep : csv_endpoint) (hr : http_request) : csv_call :=
  match ep with
  | upload_csv_ep => UploadCsv (hr_file hr)
  | preprocess_csv_ep => PreprocessCsv (hr_file_id hr) (hr_options hr)
  | get_task_status_ep task_id => GetTaskStatus task_id
  | download_processed_csv_ep file_id => DownloadProcessedCsv file_id
  | analyze_csv_ep file_id => AnalyzeCsv file_id
  end.

(** The view reads the body of the request. *)
Definition reads_body (ep : csv_endpoint) : bool :=
  match ep with upload_csv_ep | preprocess_csv_ep => true | _ => false end.

Definition csv_endpoint_view (ep : csv_endpoint) (mo : moment) (sv : server)
    (hr : http_request) : result (response * server) :=
  Csv.token_required
    (λ user_id,
       if reads_body ep && too_large hr then Ok (request_entity_too_large, sv)
       else Ok (csv_view (mo_site mo) sv (csv_call_of ep hr) user_id))
    sv (mo_env mo) (hr_request hr).

(** The answer of a view, and the state of the application after it. *)
Definition call (v : view) (mo : moment) (s : app_state) (hr : http_request)
    : response * app_state :=
  match v with
  | UserView ep =>
      let '(resp, db) := user_view ep (mo_env mo) (app_db s) hr in
      (resp, {| app_db := db; app_sv := app_sv s |})
  | CsvView ep =>
      match csv_endpoint_view ep mo (app_sv s) hr with
      | Ok (resp, sv) => (resp, {| app_db := app_db s; app_sv := sv |})
      | Raise _ => (internal_server_error, s)
      end
  end.

(** The answer of the application, and its state after the request.  The
    answer to [HEAD] has no body. *)
Definition serve (mo : moment) (s : app_state) (hr : http_request)
    : response * app_state :=
  match route (method hr) (path hr) with
  | Found v =>
      let '(resp, s') := call v mo s hr in
      (if decide (method hr = "HEAD")
       then {| body := JNone; status := status resp |} else resp, s')
  | Options => ({| body := JNone; status := 200 |}, s)
  | MethodNotAllowed => (error "Method Not Allowed" 405, s)
  | NotFound => (error "Not Found" 404, s)
  end.

(** ** The system *)

(** What happens to the application: a request, an event of the queue
    or of the clock of the store, or the clean-up of the blacklist (a
    maintenance call: no view makes it). *)
Inductive sys_event : Type :=
  | Http (mo : moment) (hr : http_request)
  | Background (ev : event)
  | Cleanup (now : Z).

Definition sys_step (s : app_state) (e : sys_event) : app_state :=
  match e with
  | Http mo hr => (serve mo s hr).2
  | Background ev => {| app_db := app_db s; app_sv := step (app_sv s) ev |}
  | Cleanup now => {| app_db := cleanup_expired now (app_db s); app_sv := app_sv s |}
  end.

Definition sys_run (s : app_state) (es : list sys_event) : app_state :=
  foldl sys_step s es.

End serve.

(** ** The start of the server *)

(** [db.create_all()] and [app.run(...)]: the tables are empty, and so
    are the upload folder, the store and the queue. *)
Definition app_start : app_state :=
  {| app_db := create_tables;
     app_sv := {| sv_fs := ∅; sv_files := ∅; sv_progress := ∅; sv_jobs := ∅;
                  sv_enqueued := 0 |} |}.

(** The arguments of [app.run(...)]: the debugger is on unless the
    variable [FLASK_DEBUG] is set to another text than ['True'], and the
    server listens on every interface. *)
Record run_options : Type := RunOptions {
  run_debug : bool;
  run_host : string;
  run_port : Z;
}.

Definition app_run (getenv : string → option string) : run_options :=
  {| run_debug := bool_decide (default "True" (getenv "FLASK_DEBUG") = "True");
     run_host := "0.0.0.0";
     run_port := 5000 |}.

(** ** The script that creates the tables *)

(** [print(line)] on the standard output [out]. *)
Definition print_line (out line : string) : string :=
  out +:+ line +:+ String NEWLINE "".

(** src/server/utils/create_tables.py run as a script, for the names
    [tables] of [db.metadata.tables]: the database it creates and the
    text it prints. *)
Definition create_tables_script (tables : list string) : database * string :=
  let out := print_line "" "Creating database tables..." in
  let db := create_tables in
  let out := print_line out "✓ Database tables created successfully!" in
  let out := print_line out (String NEWLINE "Tables created:") in
  (db, foldl (λ out table, print_line out ("  - " +:+ table)) out tables).
