(* ===== verification/AppSpec.v ===== *)
(** * AppSpec: what the application promises

    The two blueprints behind one dispatcher: every request, every step
    of the worker and every second that passes keep the database and the
    queue well formed; a body larger than the application allows is
    answered 413 by the views that read it, after the decorator, and
    changes nothing, so that the size check of [upload_csv] is never
    reached; and with the variable [SECRET_KEY] unset the CSV endpoints
    accept tokens signed with the default secret of
    csv_controller.py. *)

From Stdlib Require Import QArith Qcanon.
From S2P Require Import Prelude Strings Numbers Value Frame Reader.
From S2P Require Import Analyzer Transform Auth AuthSpec Views ViewsSpec Service App.

(** ** The rules *)

Section routes.
Implicit Types (pre s value : string).

Lemma removeprefix_app pre s : removeprefix pre (pre +:+ s) = Some s.
Proof.
  induction pre as [|c pre IH]; [by destruct s|].
  rewrite app_cons. simpl. by rewrite decide_True.
Qed.

Lemma path_variable_app pre value :
  value ≠ "" → free_of "/" value → path_variable pre (pre +:+ value) = Some value.
Proof.
  intros. unfold path_variable. rewrite removeprefix_app. simpl.
  by rewrite decide_True.
Qed.

(** No rule of the account endpoints is under the prefix of [csv_bp]. *)
Lemma user_rules_apart s :
  filter (λ r : string * string * endpoint, r.1.2 = "/api/csv" +:+ s)
    register_routes = [].
Proof.
  apply list_filter_False.
  assert (Forall (λ r : string * string * endpoint,
            removeprefix "/api/csv" r.1.2 = None) register_routes) as Hall
    by (apply (bool_decide_unpack _); by vm_compute).
  eapply Forall_impl; [done|]. intros r Hr Heq. cbv beta in *.
  by rewrite Heq, removeprefix_app in Hr.
Qed.

(** The rule of a path with a variable. *)
Lemma rules_of_csv s :
  rules_of ("/api/csv" +:+ s)
  = match csv_rule s with Some (m, ep) => [(m, CsvView ep)] | None => [] end.
Proof. unfold rules_of. by rewrite user_rules_apart, removeprefix_app. Qed.

Lemma csv_rule_task_status task_id :
  task_id ≠ "" → free_of "/" task_id →
  csv_rule ("/task-status/" +:+ task_id) = Some ("GET", get_task_status_ep task_id).
Proof.
  intros. unfold csv_rule. rewrite path_variable_app by done.
  rewrite !decide_False; [done|rewrite !app_cons; discriminate..].
Qed.

(** The status of the job [task_id] is asked with [GET] or [HEAD] at its
    path, whatever the identifier, if it is a segment of a path. *)
Lemma route_task_status task_id :
  task_id ≠ "" → free_of "/" task_id →
  route "GET" ("/api/csv/task-status/" +:+ task_id)
  = Found (CsvView (get_task_status_ep task_id)).
Proof.
  intros. unfold route.
  change ("/api/csv/task-status/" +:+ task_id)
    with ("/api/csv" +:+ ("/task-status/" +:+ task_id)).
  by rewrite rules_of_csv, csv_rule_task_status.
Qed.

End routes.

(** ** The decorator of the CSV endpoints *)

Section decorator.
Context `{Jwt}.

(** The answers of the decorator: 401, an exception, or the view. *)
Lemma csv_token_required_inv {A} (f : nat → result (response * A))
    (unchanged : A) env req resp a :
  Csv.token_required f unchanged env req = Ok (resp, a) →
  status resp = 401 ∧ a = unchanged ∨ ∃ user_id, f user_id = Ok (resp, a).
Proof.
  unfold Csv.token_required.
  destruct (Authorization req) as [[|c header]|]; [by intros [= <- <-]; left|
    |by intros [= <- <-]; left].
  destruct (_ ≫= _) as [user_id|e]; [eauto|].
  destruct e; try done; by intros [= <- <-]; left.
Qed.

Lemma bearer_sign p key :
  bearer ("Bearer " +:+ jwt_sign p key) = Ok (jwt_sign p key).
Proof.
  pose proof (header_token_sign p key) as Hh. unfold header_token in Hh.
  replace (startswith _ _) with true in Hh; [done|].
  unfold startswith. rewrite !app_cons, app_nil_l. simpl.
  by destruct (jwt_sign p key).
Qed.

(** A token signed with the key of the CSV endpoints is accepted until
    it expires. *)
Lemma csv_token_required_sign {A} (f : nat → result (response * A))
    (unchanged : A) env req p :
  Authorization req = Some ("Bearer " +:+ jwt_sign p (Csv.SECRET_KEY env)) →
  (p_iat p ≤ utcnow env < p_exp p)%Z →
  Csv.token_required f unchanged env req = f (p_user_id p).
Proof.
  intros Hreq Hexp. unfold Csv.token_required. rewrite Hreq.
  pose proof (bearer_sign p (Csv.SECRET_KEY env)) as Hb. revert Hb.
  generalize ("Bearer " +:+ jwt_sign p (Csv.SECRET_KEY env)).
  intros [|c header] Hb; [done|]. rewrite Hb.
  unfold_bind. cbn [res_bind]. by rewrite jwt_decode_sign.
Qed.

End decorator.

(** ** The invariant of the application *)

(** The database and the queue are well formed. *)
Record app_wf (s : app_state) : Prop := AppWf {
  app_db_wf : db_wf (app_db s);
  app_jobs_wf : jobs_wf (app_sv s);
}.

Section invariant.
Context `{Jwt, PasswordHash}.
Implicit Types (s : app_state) (mo : moment) (hr : http_request).

(** A decorated view that answers without a change changes nothing. *)
Lemma token_required_const resp env db req :
  (token_required (λ _, (resp, db)) env db req).2 = db.
Proof.
  destruct (token_required _ env db req) as [resp' db'] eqn:Hreq.
  by apply token_required_inv in Hreq as [[_ ->]|(_ & _ & _ & _ & [= _ <-])].
Qed.

Lemma user_view_wf ep env db hr :
  db_wf db → db_wf (user_view ep env db hr).2.
Proof.
  intros Hwf. unfold user_view.
  destruct (too_large hr), ep; rewrite ?token_required_const;
    done || by apply handle_wf.
Qed.

Lemma csv_endpoint_view_wf ep mo sv hr resp sv' :
  csv_endpoint_view ep mo sv hr = Ok (resp, sv') → jobs_wf sv → jobs_wf sv'.
Proof.
  intros [[_ ->]|[user_id Hview]]%csv_token_required_inv Hwf; [done|].
  destruct (reads_body ep && too_large hr); simplify_eq; [done|].
  pose proof (step_jobs_wf sv (Request (mo_site mo) (csv_call_of ep hr) user_id)
                Hwf) as Hstep.
  simpl in Hstep. by rewrite Hview in Hstep.
Qed.

Lemma call_wf v mo s hr : app_wf s → app_wf (call v mo s hr).2.
Proof.
  intros [Hdb Hjobs]. destruct v as [ep|ep]; simpl.
  - pose proof (user_view_wf ep (mo_env mo) (app_db s) hr Hdb).
    by destruct (user_view _ _ _ _).
  - destruct (csv_endpoint_view _ _ _ _) as [[resp sv]|e] eqn:Hview; [|done].
    split; [done|]. by eapply csv_endpoint_view_wf.
Qed.

Lemma serve_wf mo s hr : app_wf s → app_wf (serve mo s hr).2.
Proof.
  intros Hwf. unfold serve. destruct (route _ _) as [v| | |]; try done.
  pose proof (call_wf v mo s hr Hwf). by destruct (call v mo s hr).
Qed.

Lemma sys_step_wf s e : app_wf s → app_wf (sys_step s e).
Proof.
  intros Hwf. destruct e as [mo hr|ev|now]; simpl; [by apply serve_wf|..];
    destruct Hwf; split; simpl; auto using step_jobs_wf, cleanup_expired_wf.
Qed.

Lemma app_start_wf : app_wf app_start.
Proof. split; [apply create_tables_wf|by apply jobs_wf_empty]. Qed.

(** The server runs with the debugger, on every interface, unless
    [FLASK_DEBUG] says otherwise. *)
Lemma app_run_debug getenv :
  run_debug (app_run getenv) = true
  ↔ getenv "FLASK_DEBUG" = None ∨ getenv "FLASK_DEBUG" = Some "True".
Proof.
  unfold app_run. simpl. rewrite bool_decide_eq_true.
  destruct (getenv "FLASK_DEBUG"); naive_solver.
Qed.

(** The script creates the tables the server starts with, and prints one
    line for every table after its four lines of report. *)
Lemma create_tables_script_prints tables :
  create_tables_script tables
  = (app_db app_start,
     (create_tables_script []).2
     +:+ foldr (λ table text, "  - " +:+ table +:+ String NEWLINE text) ""
           tables).
Proof.
  unfold create_tables_script. f_equal. simpl. generalize (print_line
    (print_line (print_line "" "Creating database tables...")
       "✓ Database tables created successfully!")
    (String NEWLINE "Tables created:")).
  induction tables as [|table tables IH]; intros out; simpl.
  - by rewrite app_nil_r.
  - rewrite IH. unfold print_line. by rewrite !app_assoc.
Qed.

End invariant.

(** C21: the application stays well formed.  Whatever requests are
    served, whatever the worker does and however much time passes, from
    the start of the server on, the keys, addresses and names of the
    users and the blacklisted tokens are unique, every job has the
    number of a job that was enqueued, and no queued job expires. *)
Theorem reachable_app_wf `{Jwt, PasswordHash} (es : list sys_event) :
  app_wf (sys_run app_start es).
Proof.
  unfold sys_run. generalize app_start_wf. generalize app_start.
  induction es as [|e es IH]; intros s Hwf; [done|].
  simpl. by apply IH, sys_step_wf.
Qed.

(** ** Bodies that are too large *)

(** The body of the request holds the file of its form: it is larger
    than the file. *)
Definition holds_file (hr : http_request) : Prop :=
  ∀ file, hr_file hr = Some file →
    (Z.of_nat (String.length (up_content file)) < content_length hr)%Z.

Section upload.
Implicit Types (st : site) (sv : server) (file : option upload).

(** The size check of [upload_csv] passes for a file of at most
    [MAX_FILE_SIZE] bytes. *)
Lemma upload_csv_size_passes st sv file user_id :
  (∀ f, file = Some f → (Z.of_nat (String.length (up_content f)) ≤ MAX_FILE_SIZE)%Z) →
  (upload_csv st sv file user_id).1 ≠ error "File size exceeds 100.0MB limit" 400.
Proof.
  intros Hsize. unfold upload_csv. destruct file as [f|]; [|done].
  specialize (Hsize f eq_refl). case_decide; [done|].
  destruct (allowed_file _); simpl; [|done]. rewrite decide_False by lia.
  destruct (upload_body _ _ _ _ _ _ _) as [[resp sv']|e] eqn:Hbody.
  - apply upload_body_Ok in Hbody as (Hst & _). simpl in *. by intros ->.
  - by destruct (upload_body_Raise _ _ _ _ _ _ _ _ Hbody) as [msg [->| ->]].
Qed.

End upload.

Lemma route_upload : route "POST" "/api/csv/upload" = Found (CsvView upload_csv_ep).
Proof. reflexivity. Qed.

(** An upload whose body is as large as the application allows, from
    0 to 2 bytes of data. *)
Definition large_upload : http_request :=
  {| method := "POST"; path := "/api/csv/upload";
     content_length := MAX_CONTENT_LENGTH + 1;
     hr_request := ann_bearer;
     hr_file := Some {| up_filename := "data.csv"; up_content := "a" |};
     hr_file_id := None; hr_options := None |}.

Definition example_moment : moment :=
  {| mo_env := example_env; mo_site := example_site |}.

(** C23: three branches of [upload_csv] are never reached.  No request
    to upload is answered ['CSV file is empty'] or ['Invalid CSV format:
    ...']: the preview swallows every exception and the analysis wraps
    every exception in an [Exception], so an empty file is answered 500.
    A request whose body holds the file is never answered ['File size
    exceeds 100.0MB limit']: when the body is larger than
    [MAX_CONTENT_LENGTH], which is [MAX_FILE_SIZE], the view raises 413
    as it reads the form, after the decorator has run; the request is
    answered 401, 413 or 500 and changes nothing. *)
Theorem upload_csv_dead_branches `{Jwt, PasswordHash} mo s hr :
  method hr = "POST" → path hr = "/api/csv/upload" →
  let resp := (serve mo s hr).1 in
  resp ≠ error "CSV file is empty" 400 ∧
  (∀ msg, resp ≠ error ("Invalid CSV format: " +:+ msg) 400) ∧
  (holds_file hr →
   resp ≠ error "File size exceeds 100.0MB limit" 400 ∧
   (too_large hr = true → (serve mo s hr).2 = s ∧ status resp ∈ [401; 413; 500])).
Proof.
  intros Hm Hp. unfold serve, call. rewrite Hp, Hm, route_upload.
  destruct (csv_endpoint_view _ _ _ _) as [[resp sv]|e] eqn:Hview;
    rewrite (decide_False (P := "POST" = "HEAD")) by done; cbn [fst snd];
    [|split_and!; [done|done|intros _; split; [done|intros _; split; [done|set_solver]]]].
  apply csv_token_required_inv in Hview as [[Hst ->]|[user_id Hview]].
  { destruct s. split_and!; [by intros ->|by intros msg ->|intros _].
    split; [by intros ->|]. rewrite Hst. set_solver. }
  unfold too_large in *. simpl in Hview. case_bool_decide as Hlarge; simplify_eq.
  { destruct s. split_and!; [done|done|intros _]. split; [done|].
    intros _. split; [done|set_solver]. }
  pose proof (upload_csv_handlers_dead (mo_site mo) (app_sv s) (hr_file hr) user_id)
    as [Hempty Hformat]. rewrite Hview in Hempty, Hformat.
  split_and!; [done|done|intros Hfile]. split; [|done].
  pose proof (upload_csv_size_passes (mo_site mo) (app_sv s)
    (hr_file hr) user_id) as Hpass. rewrite Hview in Hpass. apply Hpass.
  intros f Hf. specialize (Hfile f Hf). unfold MAX_FILE_SIZE, MAX_CONTENT_LENGTH in *.
  lia.
Qed.

Lemma upload_csv_dead_branches_witness :
  let resp := (serve example_moment app_start large_upload).1 in
  resp ≠ error "CSV file is empty" 400 ∧
  (∀ msg, resp ≠ error ("Invalid CSV format: " +:+ msg) 400) ∧
  (holds_file large_upload →
   resp ≠ error "File size exceeds 100.0MB limit" 400 ∧
   (too_large large_upload = true →
    (serve example_moment app_start large_upload).2 = app_start ∧
    status resp ∈ [401; 413; 500])).
Proof.
  apply (upload_csv_dead_branches example_moment app_start large_upload); done.
Defined.

(** ** Requests that are turned away *)

Section rejected.
Context `{Jwt, PasswordHash}.
Implicit Types (st : site) (sv : server) (mo : moment) (hr : http_request).

Lemma upload_csv_rejected st sv file user_id :
  (∀ f, file = Some f → (Z.of_nat (String.length (up_content f)) ≤ MAX_FILE_SIZE)%Z) →
  rejected (upload_csv st sv file user_id).1 →
  (upload_csv st sv file user_id).2 = sv.
Proof.
  intros Hsize%(upload_csv_size_passes st sv file user_id). unfold rejected.
  destruct (upload_csv_outcome st sv file user_id) as [| | |resp sv' Hst];
    simpl in *; [done|done|lia|lia].
Qed.

(** A CSV view that turns the request away leaves the service as it
    was. *)
Lemma csv_view_rejected st sv call user_id :
  (∀ f, call = UploadCsv (Some f) →
        (Z.of_nat (String.length (up_content f)) ≤ MAX_FILE_SIZE)%Z) →
  rejected (csv_view st sv call user_id).1 →
  (csv_view st sv call user_id).2 = sv.
Proof.
  intros Hsize. unfold rejected. destruct call as [file|file_id opts|?|?|?]; simpl.
  - apply upload_csv_rejected. intros f ->. by apply Hsize.
  - unfold preprocess_csv. destruct file_id as [[|??]|]; [done| |done].
    destruct (redis_get _ _); simpl; [lia|done].
  - unfold get_task_status. by repeat case_match.
  - unfold download_processed_csv. by repeat case_match.
  - unfold analyze_csv. by repeat case_match.
Qed.

Lemma user_view_rejected ep env db hr :
  rejected (user_view ep env db hr).1 → (user_view ep env db hr).2 = db.
Proof.
  unfold user_view. intros Hrej.
  destruct (too_large hr), ep; rewrite ?token_required_const; try done;
    by eapply rejected_request_unchanged; [apply surjective_pairing|].
Qed.

Lemma csv_endpoint_view_rejected ep mo sv hr resp sv' :
  holds_file hr → csv_endpoint_view ep mo sv hr = Ok (resp, sv') →
  rejected resp → sv' = sv.
Proof.
  intros Hfile [[_ ->]|[user_id Hview]]%csv_token_required_inv Hrej; [done|].
  simpl in Hview. unfold too_large in Hview.
  case_bool_decide as Hlarge; [destruct (reads_body ep) eqn:Hreads|];
    simpl in Hview;
    [by simplify_eq| |rewrite andb_false_r in Hview; simpl in Hview];
    pose proof (csv_view_rejected (mo_site mo) sv (csv_call_of ep hr) user_id) as Hsame;
    injection Hview as Hview; rewrite Hview in Hsame; apply Hsame; try done.
  - by destruct ep.
  - intros f Hf. destruct ep; try done. simpl in Hf. injection Hf as Hf.
    specialize (Hfile f Hf). unfold MAX_FILE_SIZE, MAX_CONTENT_LENGTH in *. lia.
Qed.

End rejected.

(** A registration with a password that is too short. *)
Definition weak_registration : http_request :=
  {| method := "POST"; path := "/api/user/register"; content_length := 64;
     hr_request :=
       {| Authorization := None;
          get_json := {[ "email" := "cy@example.com"; "username" := "cy";
                         "password" := "short" ]} |};
     hr_file := None; hr_file_id := None; hr_options := None |}.

(** C25: a request that the application turns away, with a status from
    400 to 499, changes nothing: not the database, not the upload
    folder, not the records and not the queue.  This holds for the
    answers of the application itself (404, 405, 413), of the two
    decorators (401) and of every view, when the body of the request
    holds the file it uploads. *)
Theorem rejected_request_changes_nothing `{Jwt, PasswordHash} mo s hr :
  holds_file hr → rejected (serve mo s hr).1 → (serve mo s hr).2 = s.
Proof.
  intros Hfile. unfold serve. destruct (route _ _) as [[ep|ep]| | |]; try done.
  - unfold call. pose proof (user_view_rejected ep (mo_env mo) (app_db s) hr) as Hsame.
    destruct (user_view _ _ _ _) as [resp db]. simpl in *.
    intros Hrej. destruct s. rewrite Hsame; [done|]. by case_decide.
  - unfold call.
    pose proof (csv_endpoint_view_rejected ep mo (app_sv s) hr) as Hsame.
    destruct (csv_endpoint_view _ _ _ _) as [[resp sv]|e]; [|done]. simpl.
    intros Hrej. destruct s. rewrite (Hsame resp sv); [done..|]. by case_decide.
Qed.

Lemma rejected_request_changes_nothing_witness :
  rejected (serve example_moment app_start weak_registration).1
  ∧ (serve example_moment app_start weak_registration).2 = app_start.
Proof.
  assert (rejected (serve example_moment app_start weak_registration).1) as Hrej
    by (vm_compute; lia).
  split; [done|].
  by apply (rejected_request_changes_nothing example_moment app_start
              weak_registration).
Defined.

(** ** The default secret *)

(** The claims of a token for the user [user_id], good for an hour. *)
Definition forged_payload (env : environment) (user_id : nat) : payload :=
  {| p_user_id := user_id; p_email := ""; p_exp := utcnow env + 3600;
     p_iat := utcnow env |}.

Definition forged_request `{Jwt} (env : environment) (user_id : nat) : request :=
  {| Authorization :=
       Some ("Bearer " +:+ jwt_sign (forged_payload env user_id) "dev-secret");
     get_json := ∅ |}.

(** C22: with the variable [SECRET_KEY] unset, the account endpoints issue
    no token (no login is answered 200), and the CSV endpoints accept
    tokens signed with the default secret ['dev-secret'] of
    csv_controller.py: whoever reads the source reaches every CSV view
    as any user. *)
Theorem default_secret_opens_csv `{Jwt, PasswordHash} st env sv call user_id :
  getenv_SECRET_KEY env = None →
  (∀ db req, status (login env db req).1 ≠ 200) ∧
  csv_bp st env sv (forged_request env user_id) call
  = Ok (csv_view st sv call user_id).
Proof.
  intros Hkey. split.
  - intros db req. destruct (login env db req) as [resp db'] eqn:Hlogin.
    apply login_inv in Hlogin as [[Hrej _]|(u & _ & _ & _ & Hst)]; simpl.
    + unfold rejected in Hrej. lia.
    + rewrite Hkey in Hst. lia.
  - unfold csv_bp.
    rewrite (csv_token_required_sign _ _ _ _ (forged_payload env user_id));
      [done| |simpl; lia].
    unfold Csv.SECRET_KEY. by rewrite Hkey.
Qed.

Lemma default_secret_opens_csv_witness :
  (∀ db req, status (login no_secret_env db req).1 ≠ 200) ∧
  csv_bp example_site no_secret_env uploaded (forged_request no_secret_env 7)
    (AnalyzeCsv "7_20250101_120000_my_data.csv")
  = Ok (csv_view example_site uploaded
          (AnalyzeCsv "7_20250101_120000_my_data.csv") 7).
Proof.
  apply (default_secret_opens_csv example_site no_secret_env uploaded
           (AnalyzeCsv "7_20250101_120000_my_data.csv") 7).
  reflexivity.
Defined.
